(** * OpenEye lifecycle analysis: a shallow embedding of the analyzers

    The repository holds four analyzers written against the ArkAnalyzer
    program model:

    - [Project]  : [OpenEyeAnalyzer]                  (analyzeOpenEyeProject.ts)
    - [V1]       : [OpenEyeLifecycleAnalyzer]         (analyzeOpenEyeLifecycle.ts)
    - [V2]       : [EnhancedOpenEyeLifecycleAnalyzer] (version2.0)
    - [V3]       : [OpenEyeLifecycleAnalyzerV3]       (version 3.0)

    The program model (files, classes, methods, control-flow graphs,
    statements) comes from ArkAnalyzer and is read-only for the analyzers; it
    is embedded as plain records.  Class objects refer to their superclass
    object by reference, so the scene carries a table of class objects and a
    class holds an optional reference into it.  Analyzer fields become a
    state record that every method threads explicitly.  The external solver
    and call-graph builder are oracles. *)

From Stdlib Require Import ZArith Lia Ascii Sorted.
From stdpp Require Import base option list gmap strings.

Local Open Scope Z_scope.
Local Open Scope nat_scope.

(** ** Text primitives

    A JavaScript string is a sequence of UTF-16 code units.  It is embedded
    as the string of the bytes of its UTF-8 encoding, which is how the
    literals of this development are read; a surrogate without its partner
    is encoded in three bytes, like the other code points below U+10000.
    The first byte of an encoding stands for the code units of the code
    point: one unit, or the two units of a surrogate pair when the encoding
    has four bytes.  The bytes [10xxxxxx] that continue an encoding stand
    for no unit.  A literal occurs in a text at the same places whether the
    text is read as bytes or as code units.  Only the string methods the
    analyzers call are embedded. *)
Module Text.

(** The number of code units that the byte [c] stands for. *)
Definition units (c : ascii) : nat :=
  let n := Ascii.nat_of_ascii c in
  if (128 <=? n) && (n <=? 191) then 0
  else if 240 <=? n then 2
  else 1.

(** [s.length] *)
Fixpoint length (s : string) : nat :=
  match s with
  | EmptyString => 0
  | String c s' => units c + length s'
  end.

(** The byte at index [i], or 0 past the end. *)
Definition byteAt (i : nat) (s : string) : nat :=
  match String.get i s with
  | Some c => Ascii.nat_of_ascii c
  | None => 0
  end.

(** The first unit of the surrogate pair of the code point [cp] whose
    encoding is [c0] followed by [rest], in the three bytes of its own
    encoding.  The unit is [0xD800 + ((cp - 0x10000) >> 10)], and
    [cp >> 10] is read off the first three bytes of the encoding of [cp];
    the encoding of the unit is [0xED], [0xA0 + (x >> 6)], [0x80 + (x & 63)]
    for [x = (cp - 0x10000) >> 10]. *)
Definition highSurrogate (c0 : ascii) (rest : string) : string :=
  let x := (Ascii.nat_of_ascii c0 mod 8) * 256 + (byteAt 0 rest mod 64) * 4
           + (byteAt 1 rest mod 64) / 16 - 64 in
  String (Ascii.ascii_of_nat 237)
    (String (Ascii.ascii_of_nat (160 + (x / 64) mod 16))
       (String (Ascii.ascii_of_nat (128 + x mod 64)) EmptyString)).

(** [s.includes(needle)] *)
Fixpoint includes (s needle : string) : bool :=
  String.prefix needle s ||
  match s with
  | EmptyString => false
  | String _ s' => includes s' needle
  end.

(** [s.startsWith(p)] *)
Definition startsWith (s p : string) : bool := String.prefix p s.

(** [s.substring(0, n)]: the first [n] code units of [s], or all of [s]
    when it has fewer.  A cut between the two units of a surrogate pair
    keeps the first unit alone. *)
Fixpoint substring0 (n : nat) (s : string) : string :=
  match s with
  | EmptyString => EmptyString
  | String c s' =>
      match units c with
      | 0 => String c (substring0 n s')
      | 1 =>
          match n with
          | 0 => EmptyString
          | S n' => String c (substring0 n' s')
          end
      | _ =>
          match n with
          | 0 => EmptyString
          | 1 => highSurrogate c s'
          | S (S n') => String c (substring0 n' s')
          end
      end
  end.

(** [arr.includes(x)] on an array of strings *)
Definition arrayIncludes (arr : list string) (x : string) : bool :=
  existsb (String.eqb x) arr.

(** The character class [\w] of the regular expressions. *)
Definition isWordChar (c : ascii) : bool :=
  let n := Ascii.nat_of_ascii c in
  ((48 <=? n) && (n <=? 57)) || ((65 <=? n) && (n <=? 90)) ||
  ((97 <=? n) && (n <=? 122)) || (n =? 95).

(** The character class [\s]: the white space and the line terminators of
    JavaScript, by the length of their encoding.
    One byte: U+0009 to U+000D and U+0020.
    Two bytes: U+00A0 ([C2 A0]).
    Three bytes: U+1680 ([E1 9A 80]), U+2000 to U+200A ([E2 80 80] to
    [E2 80 8A]), U+2028 and U+2029 ([E2 80 A8], [E2 80 A9]), U+202F
    ([E2 80 AF]), U+205F ([E2 81 9F]), U+3000 ([E3 80 80]) and U+FEFF
    ([EF BB BF]). *)
Definition isSpace1 (c0 : ascii) : bool :=
  let n := Ascii.nat_of_ascii c0 in
  ((9 <=? n) && (n <=? 13)) || (n =? 32).

Definition isSpace2 (c0 c1 : ascii) : bool :=
  (Ascii.nat_of_ascii c0 =? 194) && (Ascii.nat_of_ascii c1 =? 160).

Definition isSpace3 (c0 c1 c2 : ascii) : bool :=
  let n0 := Ascii.nat_of_ascii c0 in
  let n1 := Ascii.nat_of_ascii c1 in
  let n2 := Ascii.nat_of_ascii c2 in
  ((n0 =? 225) && (n1 =? 154) && (n2 =? 128)) ||
  ((n0 =? 226) && (n1 =? 128) &&
   (((128 <=? n2) && (n2 <=? 138)) || (n2 =? 168) || (n2 =? 169) || (n2 =? 175))) ||
  ((n0 =? 226) && (n1 =? 129) && (n2 =? 159)) ||
  ((n0 =? 227) && (n1 =? 128) && (n2 =? 128)) ||
  ((n0 =? 239) && (n1 =? 187) && (n2 =? 191)).

(** [\s*], greedy: the longest run of white space at the head of [s], and
    the rest. *)
Fixpoint spanSpace (s : string) : string * string :=
  match s with
  | EmptyString => (EmptyString, EmptyString)
  | String c0 s0 =>
      if isSpace1 c0 then let '(a, b) := spanSpace s0 in (String c0 a, b)
      else
        match s0 with
        | EmptyString => (EmptyString, s)
        | String c1 s1 =>
            if isSpace2 c0 c1
            then let '(a, b) := spanSpace s1 in (String c0 (String c1 a), b)
            else
              match s1 with
              | EmptyString => (EmptyString, s)
              | String c2 s2 =>
                  if isSpace3 c0 c1 c2
                  then let '(a, b) := spanSpace s2 in
                       (String c0 (String c1 (String c2 a)), b)
                  else (EmptyString, s)
              end
        end
  end.

(** Longest prefix of [s] whose characters satisfy [p], and the rest. *)
Fixpoint span (p : ascii -> bool) (s : string) : string * string :=
  match s with
  | EmptyString => (EmptyString, EmptyString)
  | String c s' =>
      if p c then let '(a, b) := span p s' in (String c a, b)
      else (EmptyString, s)
  end.

(** [stripPrefix p s] is the rest of [s] after the literal [p]. *)
Fixpoint stripPrefix (p s : string) : option string :=
  match p, s with
  | EmptyString, _ => Some s
  | String a p', String b s' => if Ascii.eqb a b then stripPrefix p' s' else None
  | String _ _, EmptyString => None
  end.

(** [\w+] followed by a character that is not a word character: the greedy
    run is the only candidate, a shorter one is followed by a word
    character. *)
Definition wordRun (s : string) : option (string * string) :=
  match span isWordChar s with
  | (EmptyString, _) => None
  | (w, rest) => Some (w, rest)
  end.

(** The tail [:\s*\.(\w+)\(\)>] of the strict pattern, anchored at the head
    of [s]. *)
Definition strictTail (s : string) : option string :=
  s1 ← stripPrefix ":" s;
  s2 ← stripPrefix "." (snd (spanSpace s1));
  '(w, s3) ← wordRun s2;
  _ ← stripPrefix "()>" s3;
  Some w.

(** [[^>]+] followed by the tail; the first character of the class has been
    consumed already.  Greedy: a longer run is tried before the tail is
    tried here. *)
Fixpoint strictBody (s : string) : option string :=
  match s with
  | EmptyString => strictTail s
  | String c s' =>
      if Ascii.eqb c ">"%char then strictTail s
      else match strictBody s' with
           | Some w => Some w
           | None => strictTail s
           end
  end.

(** [/invoke\s+(\w+)\.<[^>]+:\s*\.(\w+)\(\)>/] anchored at the head of [s]:
    the two captured groups. *)
Definition strictAt (s : string) : option (string * string) :=
  s1 ← stripPrefix "invoke" s;
  match spanSpace s1 with
  | (EmptyString, _) => None
  | (_, s2) =>
      '(recv, s3) ← wordRun s2;
      s4 ← stripPrefix ".<" s3;
      match s4 with
      | EmptyString => None
      | String c s5 =>
          if Ascii.eqb c ">"%char then None
          else name ← strictBody s5; Some (recv, name)
      end
  end.

(** [/\.(\w+)\(\)/] anchored at the head of [s]. *)
Definition simpleAt (s : string) : option string :=
  s1 ← stripPrefix "." s;
  '(w, s2) ← wordRun s1;
  _ ← stripPrefix "()" s2;
  Some w.

(** [s.match(re)] without the global flag: the match at the leftmost
    position where the anchored pattern succeeds. *)
Fixpoint firstMatch {A} (anchored : string -> option A) (s : string) : option A :=
  match anchored s with
  | Some r => Some r
  | None =>
      match s with
      | EmptyString => None
      | String _ s' => firstMatch anchored s'
      end
  end.

(** [a || b] on a [string | null] left operand: [null] and the empty string
    are falsy. *)
Definition orElse (a : option string) (b : string) : string :=
  match a with
  | Some (String c s) => String c s
  | _ => b
  end.

End Text.

(** ** The program model (ArkAnalyzer objects, read-only) *)

Module Stmt.
Record t := mk {
  toString : string;            (* stmt.toString() *)
  getLineNo : Z;                (* stmt.getOriginPositionInfo().getLineNo() *)
  getExprs : list string        (* stmt.getExprs(), each rendered by toString() *)
}.
End Stmt.

Module BasicBlock.
Record t := mk { getStmts : list Stmt.t }.
End BasicBlock.

Module Cfg.
Record t := mk { getBlocks : list BasicBlock.t }.
(** [cfg.getStmts()]: the statements of every block, in block order. *)
Definition getStmts (cfg : t) : list Stmt.t :=
  flat_map BasicBlock.getStmts (getBlocks cfg).
End Cfg.

Module ArkMethod.
Record t := mk {
  getName : string;
  getSignature : string;
  getCfg : option Cfg.t;        (* null or undefined when there is no body *)
  getLineCol : option Z         (* null when unknown *)
}.
End ArkMethod.

(** A reference to a class object of the scene. *)
Definition ClassRef := nat.

Module ArkClass.
Record t := mk {
  getName : string;
  getSuperClassName : string;
  superClassRef : option ClassRef;   (* the object [getSuperClass()] returns, or null *)
  getDecorators : list string;
  getMethods : list ArkMethod.t
}.
Definition hasDecorator (cls : t) (kind : string) : bool :=
  Text.arrayIncludes (getDecorators cls) kind.
End ArkClass.

Module ArkFile.
Record t := mk {
  getName : string;
  getClasses : list ArkClass.t
}.
End ArkFile.

Module Scene.
Record t := mk {
  getFiles : list ArkFile.t;
  classObjects : gmap ClassRef ArkClass.t
}.
(** [cls.getSuperClass()]: the referenced class object; [None] is null (no
    superclass, or a superclass that was not resolved). *)
Definition getSuperClass (scene : t) (cls : ArkClass.t) : option ArkClass.t :=
  ref ← ArkClass.superClassRef cls; classObjects scene !! ref.
End Scene.

(** ** How a call completes

    [Normal a]: the call returns [a].  [Throw]: a JavaScript exception
    leaves the call.  [OutOfFuel]: the loop bound given to the embedding was
    used up before the loop ended; a call that is [OutOfFuel] for every
    bound does not terminate. *)
Inductive Completion (A : Type) : Type :=
| Normal (a : A)
| Throw
| OutOfFuel.
Arguments Normal {A} a.
Arguments Throw {A}.
Arguments OutOfFuel {A}.

Global Instance Completion_ret : MRet Completion := @Normal.
Global Instance Completion_bind : MBind Completion := fun A B k m =>
  match m with
  | Normal a => k a
  | Throw => Throw
  | OutOfFuel => OutOfFuel
  end.

(** [for (const x of xs) body] where the body may throw or diverge. *)
Fixpoint forEach {S A} (body : S -> A -> Completion S) (s : S) (xs : list A)
  : Completion S :=
  match xs with
  | [] => Normal s
  | x :: xs' => s' ← body s x; forEach body s' xs'
  end.

(** ** External collaborators *)

Module CallGraph.
Record t := mk { getNodeNum : nat; getEdgeNum : nat }.
End CallGraph.

(** What a call into ArkAnalyzer does: it returns a value or it throws. *)
Inductive ExternalResult (A : Type) : Type :=
| Returns (a : A)
| Raises.
Arguments Returns {A} a.
Arguments Raises {A}.

Module External.
Record t := mk {
  (* new DummyMainCreater(scene).createDummyMain() throws? *)
  createDummyMain : ExternalResult unit;
  (* signatures of scene.getMethods().filter(m => m.getName() === '@dummyMain') *)
  dummyMainSignatures : list string;
  (* scene.makeCallGraphCHA(entryPoints) *)
  makeCallGraphCHA : list string -> ExternalResult CallGraph.t;
  (* new UndefinedVariableChecker(firstStmt, method);
     new UndefinedVariableSolver(problem, scene).solve() *)
  solve : Stmt.t -> ArkMethod.t -> ExternalResult unit;
  (* new UndefinedVariableSolver(cfg).solve() *)
  solveCfg : Cfg.t -> ExternalResult unit
}.
End External.

Inductive Severity := high | medium | low.

(** ** Version 1: [OpenEyeLifecycleAnalyzer] (analyzeOpenEyeLifecycle.ts) *)
Module V1.

Inductive LifecycleType := ABILITY | COMPONENT | PAGE.

(** The string value of an enum member. *)
Definition LifecycleType_value (t : LifecycleType) : string :=
  match t with
  | ABILITY => "Ability"
  | COMPONENT => "Component"
  | PAGE => "Page"
  end.

Record LifecycleMethod := mkLifecycleMethod {
  method : ArkMethod.t;
  type : LifecycleType;
  phase : string;
  className : string;
  filePath : string
}.

Record DataFlowInfo := mkDataFlowInfo {
  from : string;
  to : string;
  variable : string;
  line : Z;
  callChain : list string
}.

Record UndefinedIssue := mkUndefinedIssue {
  issueMethod : string;
  issueLine : Z;
  description : string;
  severity : Severity
}.

Record AnalysisStats := mkAnalysisStats {
  totalFiles : nat;
  totalMethods : nat;
  statLifecycleMethods : nat;
  callGraphNodes : nat;
  callGraphEdges : nat;
  dataFlowPaths : nat;
  statUndefinedIssues : nat
}.

(** The fields of the analyzer object. *)
Record State := mkState {
  lifecycleMethods : list LifecycleMethod;
  callGraph : option CallGraph.t;
  dataFlows : list DataFlowInfo;
  undefinedIssues : list UndefinedIssue;
  stats : AnalysisStats
}.

Definition ABILITY_LIFECYCLE : list string :=
  [ "onCreate"; "onDestroy";
    "onWindowStageCreate"; "onWindowStageDestroy";
    "onForeground"; "onBackground";
    "onNewWant";
    "onConfigurationUpdate";
    "onBackPressed";
    "onWindowStageWillDestroy";
    "onContinue";
    "onSaveState" ].

Definition COMPONENT_LIFECYCLE : list string :=
  [ "aboutToAppear"; "aboutToDisappear";
    "onPageShow"; "onPageHide";
    "onBackPress";
    "onDidBuild";
    "aboutToReuse";
    "aboutToRecycle";
    "onWillApplyTheme";
    "onLayout";
    "onMeasure";
    "onMeasureSize";
    "onFormRecycle";
    "onFormRecover" ].

(** The constructor. *)
Definition init : State :=
  {| lifecycleMethods := []; callGraph := None; dataFlows := [];
     undefinedIssues := [];
     stats := {| totalFiles := 0; totalMethods := 0; statLifecycleMethods := 0;
                 callGraphNodes := 0; callGraphEdges := 0; dataFlowPaths := 0;
                 statUndefinedIssues := 0 |} |}.

Definition COMPONENT_BASE : list string := ["CustomComponent"; "ViewPU"].

Definition isComponentClass (cls : ArkClass.t) : bool :=
  if Text.arrayIncludes COMPONENT_BASE (ArkClass.getSuperClassName cls) then true
  else if ArkClass.hasDecorator cls "Component" then true
  else false.

Definition ABILITY_BASE : list string := ["UIAbility"; "Ability"; "UIExtensionAbility"].

(** The [while (superClass)] loop of [isAbilityClass]; [fuel] bounds the
    number of times the loop condition is evaluated. *)
Fixpoint ancestorLoop (scene : Scene.t) (fuel : nat) (superClass : option ArkClass.t)
  : Completion bool :=
  match fuel with
  | 0 => OutOfFuel
  | S fuel' =>
      match superClass with
      | None => Normal false
      | Some sc =>
          if Text.arrayIncludes ABILITY_BASE (ArkClass.getSuperClassName sc)
          then Normal true
          else ancestorLoop scene fuel' (Scene.getSuperClass scene sc)
      end
  end.

Definition isAbilityClass (scene : Scene.t) (fuel : nat) (cls : ArkClass.t)
  : Completion bool :=
  if Text.arrayIncludes ABILITY_BASE (ArkClass.getSuperClassName cls) then Normal true
  else ancestorLoop scene fuel (Scene.getSuperClass scene cls).

Definition setTotalFiles (n : nat) (st : State) : State :=
  let s := stats st in
  {| lifecycleMethods := lifecycleMethods st; callGraph := callGraph st;
     dataFlows := dataFlows st; undefinedIssues := undefinedIssues st;
     stats := {| totalFiles := n; totalMethods := totalMethods s;
                 statLifecycleMethods := statLifecycleMethods s;
                 callGraphNodes := callGraphNodes s; callGraphEdges := callGraphEdges s;
                 dataFlowPaths := dataFlowPaths s;
                 statUndefinedIssues := statUndefinedIssues s |} |}.

Definition incrTotalMethods (st : State) : State :=
  let s := stats st in
  {| lifecycleMethods := lifecycleMethods st; callGraph := callGraph st;
     dataFlows := dataFlows st; undefinedIssues := undefinedIssues st;
     stats := {| totalFiles := totalFiles s; totalMethods := S (totalMethods s);
                 statLifecycleMethods := statLifecycleMethods s;
                 callGraphNodes := callGraphNodes s; callGraphEdges := callGraphEdges s;
                 dataFlowPaths := dataFlowPaths s;
                 statUndefinedIssues := statUndefinedIssues s |} |}.

Definition setStatLifecycleMethods (n : nat) (st : State) : State :=
  let s := stats st in
  {| lifecycleMethods := lifecycleMethods st; callGraph := callGraph st;
     dataFlows := dataFlows st; undefinedIssues := undefinedIssues st;
     stats := {| totalFiles := totalFiles s; totalMethods := totalMethods s;
                 statLifecycleMethods := n;
                 callGraphNodes := callGraphNodes s; callGraphEdges := callGraphEdges s;
                 dataFlowPaths := dataFlowPaths s;
                 statUndefinedIssues := statUndefinedIssues s |} |}.

(** [this.lifecycleMethods.push(lm)] *)
Definition pushLifecycleMethod (lm : LifecycleMethod) (st : State) : State :=
  {| lifecycleMethods := lifecycleMethods st ++ [lm]; callGraph := callGraph st;
     dataFlows := dataFlows st; undefinedIssues := undefinedIssues st;
     stats := stats st |}.

(** The body of [for (const method of cls.getMethods())]. *)
Definition identifyMethod (fileName className : string) (isAbility isComponent : bool)
    (st : State) (m : ArkMethod.t) : State :=
  let methodName := ArkMethod.getName m in
  let st := incrTotalMethods st in
  let st :=
    if isAbility && Text.arrayIncludes ABILITY_LIFECYCLE methodName
    then pushLifecycleMethod
           {| method := m; type := ABILITY; phase := methodName;
              className := className; filePath := fileName |} st
    else st in
  if isComponent && Text.arrayIncludes COMPONENT_LIFECYCLE methodName
  then pushLifecycleMethod
         {| method := m; type := COMPONENT; phase := methodName;
            className := className; filePath := fileName |} st
  else st.

(** The body of [for (const cls of file.getClasses())]. *)
Definition identifyClass (scene : Scene.t) (fuel : nat) (fileName : string)
    (st : State) (cls : ArkClass.t) : Completion State :=
  let className := ArkClass.getName cls in
  if Text.includes className "_DEFAULT_" then Normal st
  else
    isAbility ← isAbilityClass scene fuel cls;
    let isComponent := isComponentClass cls in
    Normal (fold_left (identifyMethod fileName className isAbility isComponent)
                      (ArkClass.getMethods cls) st).

(** The body of [for (const file of files)]. *)
Definition identifyFile (scene : Scene.t) (fuel : nat)
    (st : State) (file : ArkFile.t) : Completion State :=
  let fileName := ArkFile.getName file in
  if Text.includes fileName "test" || Text.includes fileName "Test" then Normal st
  else forEach (identifyClass scene fuel fileName) st (ArkFile.getClasses file).

Definition identifyLifecycleMethods (scene : Scene.t) (fuel : nat) (st : State)
  : Completion State :=
  let files := Scene.getFiles scene in
  let st := setTotalFiles (length files) st in
  st ← forEach (identifyFile scene fuel) st files;
  Normal (setStatLifecycleMethods (length (lifecycleMethods st)) st).

(** [this.callGraph = cg] followed by the two node and edge statistics. *)
Definition setCallGraph (cg : CallGraph.t) (st : State) : State :=
  let s := stats st in
  {| lifecycleMethods := lifecycleMethods st; callGraph := Some cg;
     dataFlows := dataFlows st; undefinedIssues := undefinedIssues st;
     stats := {| totalFiles := totalFiles s; totalMethods := totalMethods s;
                 statLifecycleMethods := statLifecycleMethods s;
                 callGraphNodes := CallGraph.getNodeNum cg;
                 callGraphEdges := CallGraph.getEdgeNum cg;
                 dataFlowPaths := dataFlowPaths s;
                 statUndefinedIssues := statUndefinedIssues s |} |}.

(** [buildCallGraph]: the whole body is one [try] block whose [catch] only
    logs. *)
Definition buildCallGraph (ext : External.t) (st : State) : State :=
  match External.createDummyMain ext with
  | Raises => st
  | Returns _ =>
      let entryPoints := External.dummyMainSignatures ext in
      if 0 <? length entryPoints then
        match External.makeCallGraphCHA ext entryPoints with
        | Raises => st
        | Returns cg => setCallGraph cg st
        end
      else
        let lifecycleEntryPoints :=
          map (fun lm => ArkMethod.getSignature (method lm)) (lifecycleMethods st) in
        if 0 <? length lifecycleEntryPoints then
          match External.makeCallGraphCHA ext lifecycleEntryPoints with
          | Raises => st
          | Returns cg => setCallGraph cg st
          end
        else st
  end.

Definition containsUndefinedRisk (stmtStr : string) : bool :=
  Text.includes stmtStr "undefined" ||
  Text.includes stmtStr "null" ||
  (Text.includes stmtStr "fieldload" && Text.includes stmtStr "?").

Definition assessSeverity (stmtStr : string) : Severity :=
  if Text.includes stmtStr "undefined" then high
  else if Text.includes stmtStr "null" then medium
  else low.

(** The literal that starts every issue description (UTF-8 bytes). *)
Definition DESCRIPTION_PREFIX : string := "可能的未定义变量访问: ".

(** The loop state of [analyzeUndefinedVariables]: the analyzer and the two
    local counters. *)
Record UndefinedScan := mkUndefinedScan {
  scanState : State;
  analyzedCount : nat;
  issueCount : nat
}.

Definition pushUndefinedIssue (i : UndefinedIssue) (st : State) : State :=
  {| lifecycleMethods := lifecycleMethods st; callGraph := callGraph st;
     dataFlows := dataFlows st; undefinedIssues := undefinedIssues st ++ [i];
     stats := stats st |}.

(** The body of [for (const stmt of cfg.getStmts())]. *)
Definition checkStmt (lifecycleMethod : LifecycleMethod)
    (sc : UndefinedScan) (stmt : Stmt.t) : UndefinedScan :=
  let stmtStr := Stmt.toString stmt in
  if containsUndefinedRisk stmtStr then
    {| scanState :=
         pushUndefinedIssue
           {| issueMethod := className lifecycleMethod +:+ "." +:+ phase lifecycleMethod;
              issueLine := Stmt.getLineNo stmt;
              description := DESCRIPTION_PREFIX +:+ Text.substring0 60 stmtStr;
              severity := assessSeverity stmtStr |}
           (scanState sc);
       analyzedCount := analyzedCount sc;
       issueCount := S (issueCount sc) |}
  else sc.

(** The body of [for (const lifecycleMethod of this.lifecycleMethods)]: one
    [try] block whose [catch] is empty.  What was assigned before an
    exception stays assigned. *)
Definition analyzeLifecycleMethod (ext : External.t)
    (sc : UndefinedScan) (lifecycleMethod : LifecycleMethod) : UndefinedScan :=
  let m := method lifecycleMethod in
  match ArkMethod.getCfg m with
  | None => sc
  | Some cfg =>
      if length (Cfg.getBlocks cfg) =? 0 then sc
      else
        let sc := {| scanState := scanState sc;
                     analyzedCount := S (analyzedCount sc);
                     issueCount := issueCount sc |} in
        match Cfg.getBlocks cfg with
        | [] => sc
        | block0 :: _ =>
            match BasicBlock.getStmts block0 with
            | [] => sc
            | firstStmt :: _ =>
                match External.solve ext firstStmt m with
                | Raises => sc
                | Returns _ => fold_left (checkStmt lifecycleMethod) (Cfg.getStmts cfg) sc
                end
            end
        end
  end.

Definition setStatUndefinedIssues (n : nat) (st : State) : State :=
  let s := stats st in
  {| lifecycleMethods := lifecycleMethods st; callGraph := callGraph st;
     dataFlows := dataFlows st; undefinedIssues := undefinedIssues st;
     stats := {| totalFiles := totalFiles s; totalMethods := totalMethods s;
                 statLifecycleMethods := statLifecycleMethods s;
                 callGraphNodes := callGraphNodes s; callGraphEdges := callGraphEdges s;
                 dataFlowPaths := dataFlowPaths s;
                 statUndefinedIssues := n |} |}.

Definition analyzeUndefinedVariables (ext : External.t) (st : State) : State :=
  let sc := fold_left (analyzeLifecycleMethod ext) (lifecycleMethods st)
              {| scanState := st; analyzedCount := 0; issueCount := 0 |} in
  setStatUndefinedIssues (issueCount sc) (scanState sc).

Definition extractMethodFromInvoke (invokeExpr : string) : option string :=
  match Text.firstMatch Text.strictAt invokeExpr with
  | Some (m1, m2) => Some (m1 +:+ "." +:+ m2)
  | None =>
      match Text.firstMatch Text.simpleAt invokeExpr with
      | Some m1 => Some m1
      | None => None
      end
  end.

Definition pushDataFlow (d : DataFlowInfo) (st : State) : State :=
  {| lifecycleMethods := lifecycleMethods st; callGraph := callGraph st;
     dataFlows := dataFlows st ++ [d]; undefinedIssues := undefinedIssues st;
     stats := stats st |}.

(** The body of [for (const expr of exprs)]. *)
Definition dataFlowExpr (lifecycleMethod : LifecycleMethod) (stmt : Stmt.t)
    (st : State) (exprStr : string) : State :=
  let callChain := [className lifecycleMethod +:+ "." +:+ phase lifecycleMethod] in
  if Text.includes exprStr "invoke" || Text.includes exprStr "call" then
    let targetMethod := extractMethodFromInvoke exprStr in
    pushDataFlow
      {| from := className lifecycleMethod +:+ "." +:+ phase lifecycleMethod;
         to := Text.orElse targetMethod (Text.substring0 60 exprStr);
         variable := "data";
         line := Stmt.getLineNo stmt;
         callChain := callChain ++ [Text.orElse targetMethod "unknown"] |} st
  else st.

(** The body of [for (const stmt of cfg.getStmts())]. *)
Definition dataFlowStmt (lifecycleMethod : LifecycleMethod)
    (st : State) (stmt : Stmt.t) : State :=
  fold_left (dataFlowExpr lifecycleMethod stmt) (Stmt.getExprs stmt) st.

Definition analyzeMethodDataFlow (st : State) (lifecycleMethod : LifecycleMethod) : State :=
  match ArkMethod.getCfg (method lifecycleMethod) with
  | None => st
  | Some cfg => fold_left (dataFlowStmt lifecycleMethod) (Cfg.getStmts cfg) st
  end.

Definition setDataFlowPaths (n : nat) (st : State) : State :=
  let s := stats st in
  {| lifecycleMethods := lifecycleMethods st; callGraph := callGraph st;
     dataFlows := dataFlows st; undefinedIssues := undefinedIssues st;
     stats := {| totalFiles := totalFiles s; totalMethods := totalMethods s;
                 statLifecycleMethods := statLifecycleMethods s;
                 callGraphNodes := callGraphNodes s; callGraphEdges := callGraphEdges s;
                 dataFlowPaths := n;
                 statUndefinedIssues := statUndefinedIssues s |} |}.

Definition analyzeDataFlow (st : State) : State :=
  match callGraph st with
  | None => st
  | Some _ =>
      let st := fold_left analyzeMethodDataFlow (lifecycleMethods st) st in
      setDataFlowPaths (length (dataFlows st)) st
  end.

(** Steps 5 to 8 of [analyzeOpenEyeLifecycle], on a fresh analyzer. *)
Definition analyze (ext : External.t) (scene : Scene.t) (fuel : nat) : Completion State :=
  st ← identifyLifecycleMethods scene fuel init;
  let st := buildCallGraph ext st in
  let st := analyzeUndefinedVariables ext st in
  Normal (analyzeDataFlow st).

End V1.

(** ** The project analyzer: [OpenEyeAnalyzer] (analyzeOpenEyeProject.ts) *)
Module Project.

Record AnalysisStats := mkAnalysisStats {
  totalFiles : nat;
  totalClasses : nat;
  totalMethods : nat;
  analyzedMethods : nat;
  issuesFound : nat
}.

Record UndefinedIssue := mkUndefinedIssue {
  file : string;
  className : string;
  methodName : string;
  variable : string;
  line : Z;
  description : string
}.

Record State := mkState {
  stats : AnalysisStats;
  issues : list UndefinedIssue
}.

Definition init : State :=
  {| stats := {| totalFiles := 0; totalClasses := 0; totalMethods := 0;
                 analyzedMethods := 0; issuesFound := 0 |};
     issues := [] |}.

Definition addIssue (issue : UndefinedIssue) (st : State) : State :=
  let s := stats st in
  {| stats := {| totalFiles := totalFiles s; totalClasses := totalClasses s;
                 totalMethods := totalMethods s; analyzedMethods := analyzedMethods s;
                 issuesFound := S (issuesFound s) |};
     issues := issues st ++ [issue] |}.

(** Three independent [if] statements; the fourth one has an empty body. *)
Definition checkStatement (stmt : Stmt.t) (m : ArkMethod.t) (className fileName : string)
    (st : State) : State :=
  let stmtStr := Stmt.toString stmt in
  let lineNo := Stmt.getLineNo stmt in
  let st :=
    if Text.includes stmtStr "undefined" then
      addIssue {| file := fileName; className := className;
                  methodName := ArkMethod.getName m; variable := "值";
                  line := lineNo; description := "可能使用了 undefined 值" |} st
    else st in
  let st :=
    if Text.includes stmtStr "fieldload" && Text.includes stmtStr "null" then
      addIssue {| file := fileName; className := className;
                  methodName := ArkMethod.getName m; variable := "字段";
                  line := lineNo; description := "可能的空指针字段访问" |} st
    else st in
  let st :=
    if Text.includes stmtStr "arrayload" then
      addIssue {| file := fileName; className := className;
                  methodName := ArkMethod.getName m; variable := "数组元素";
                  line := lineNo; description := "数组访问可能越界导致 undefined" |} st
    else st in
  if Text.includes stmtStr "?." then st else st.

Definition incrAnalyzedMethods (st : State) : State :=
  let s := stats st in
  {| stats := {| totalFiles := totalFiles s; totalClasses := totalClasses s;
                 totalMethods := totalMethods s; analyzedMethods := S (analyzedMethods s);
                 issuesFound := issuesFound s |};
     issues := issues st |}.

Definition analyzeMethod (ext : External.t) (m : ArkMethod.t) (className fileName : string)
    (st : State) : State :=
  let methodName := ArkMethod.getName m in
  if Text.startsWith methodName "__" || String.eqb methodName "constructor" then st
  else
    let st := incrAnalyzedMethods st in
    match ArkMethod.getCfg m with
    | None => st
    | Some cfg =>
        (* try { ... } catch (error) { } *)
        match External.solveCfg ext cfg with
        | Raises => st
        | Returns _ =>
            fold_left (fun st stmt => checkStatement stmt m className fileName st)
                      (Cfg.getStmts cfg) st
        end
    end.

Definition addTotalMethods (n : nat) (st : State) : State :=
  let s := stats st in
  {| stats := {| totalFiles := totalFiles s; totalClasses := totalClasses s;
                 totalMethods := totalMethods s + n; analyzedMethods := analyzedMethods s;
                 issuesFound := issuesFound s |};
     issues := issues st |}.

Definition analyzeClass (ext : External.t) (cls : ArkClass.t) (fileName : string)
    (st : State) : State :=
  let className := ArkClass.getName cls in
  let methods := ArkClass.getMethods cls in
  let st := addTotalMethods (length methods) st in
  fold_left (fun st m => analyzeMethod ext m className fileName st) methods st.

Definition addTotalClasses (n : nat) (st : State) : State :=
  let s := stats st in
  {| stats := {| totalFiles := totalFiles s; totalClasses := totalClasses s + n;
                 totalMethods := totalMethods s; analyzedMethods := analyzedMethods s;
                 issuesFound := issuesFound s |};
     issues := issues st |}.

Definition analyzeFile (ext : External.t) (f : ArkFile.t) (st : State) : State :=
  let fileName := ArkFile.getName f in
  if Text.includes fileName "test" || Text.includes fileName "Test" then st
  else
    let classes := ArkFile.getClasses f in
    let st := addTotalClasses (length classes) st in
    fold_left (fun st cls => analyzeClass ext cls fileName st) classes st.

Definition setTotalFiles (n : nat) (st : State) : State :=
  let s := stats st in
  {| stats := {| totalFiles := n; totalClasses := totalClasses s;
                 totalMethods := totalMethods s; analyzedMethods := analyzedMethods s;
                 issuesFound := issuesFound s |};
     issues := issues st |}.

Definition analyze (ext : External.t) (scene : Scene.t) (st : State) : State :=
  let files := Scene.getFiles scene in
  let st := setTotalFiles (length files) st in
  fold_left (fun st f => analyzeFile ext f st) files st.

End Project.

(** ** Version 2: [EnhancedOpenEyeLifecycleAnalyzer] *)
Module V2.

Inductive LifecycleType := ABILITY | COMPONENT.

Record LifecycleMethodInfo := mkLifecycleMethodInfo {
  method : ArkMethod.t;
  type : LifecycleType;
  phase : string;
  className : string;
  filePath : string;
  lineNumber : option Z
}.

Record CoverageStats := mkCoverageStats {
  methodName : string;
  isDefined : bool;
  isUsed : bool;
  usageCount : nat;
  classes : list string
}.

Record State := mkState {
  lifecycleMethods : list LifecycleMethodInfo;
  abilityLifecycleStats : gmap string CoverageStats;
  componentLifecycleStats : gmap string CoverageStats
}.

(** The three local counters of [identifyLifecycleMethods]. *)
Record Locals := mkLocals {
  totalClasses : nat;
  abilityClasses : nat;
  componentClasses : nat
}.

Section Catalogs.
(** The two catalogs imported from ArkAnalyzer's entryMethodUtils. *)
Variable LIFECYCLE_METHOD_NAME : list string.
Variable COMPONENT_LIFECYCLE_METHOD_NAME : list string.

Definition unusedStat (methodName : string) : CoverageStats :=
  {| methodName := methodName; isDefined := true; isUsed := false;
     usageCount := 0; classes := [] |}.

(** [for (const methodName of names) table.set(methodName, {...})] *)
Definition initTable (names : list string) : gmap string CoverageStats :=
  fold_left (fun table methodName => <[methodName := unusedStat methodName]> table)
            names ∅.

(** The constructor, which calls [initializeStats]. *)
Definition init : State :=
  {| lifecycleMethods := [];
     abilityLifecycleStats := initTable LIFECYCLE_METHOD_NAME;
     componentLifecycleStats := initTable COMPONENT_LIFECYCLE_METHOD_NAME |}.

Definition COMPONENT_BASE : list string := ["CustomComponent"; "ViewPU"].

Definition isComponentClass (cls : ArkClass.t) : bool :=
  if Text.arrayIncludes COMPONENT_BASE (ArkClass.getSuperClassName cls) then true
  else if ArkClass.hasDecorator cls "Component" then true
  else false.

Definition ABILITY_BASE : list string :=
  ["UIAbility"; "Ability"; "UIExtensionAbility";
   "FormExtensionAbility"; "BackupExtensionAbility"].

Fixpoint ancestorLoop (scene : Scene.t) (fuel : nat) (superClass : option ArkClass.t)
  : Completion bool :=
  match fuel with
  | 0 => OutOfFuel
  | S fuel' =>
      match superClass with
      | None => Normal false
      | Some sc =>
          if Text.arrayIncludes ABILITY_BASE (ArkClass.getSuperClassName sc)
          then Normal true
          else ancestorLoop scene fuel' (Scene.getSuperClass scene sc)
      end
  end.

Definition isAbilityClass (scene : Scene.t) (fuel : nat) (cls : ArkClass.t)
  : Completion bool :=
  if Text.arrayIncludes ABILITY_BASE (ArkClass.getSuperClassName cls) then Normal true
  else ancestorLoop scene fuel (Scene.getSuperClass scene cls).

(** [stat.isUsed = true; stat.usageCount++; stat.classes.push(className)] *)
Definition markUsed (className : string) (stat : CoverageStats) : CoverageStats :=
  {| methodName := methodName stat; isDefined := isDefined stat; isUsed := true;
     usageCount := S (usageCount stat); classes := classes stat ++ [className] |}.

(** [const stat = table.get(methodName)!] followed by the three updates of
    the object; writing a property of [undefined] throws. *)
Definition touch (className methodName : string) (table : gmap string CoverageStats)
  : Completion (gmap string CoverageStats) :=
  match table !! methodName with
  | None => Throw
  | Some stat => Normal (<[methodName := markUsed className stat]> table)
  end.

(** The body of [for (const method of cls.getMethods())]. *)
Definition identifyMethod (fileName className : string) (isAbility isComponent : bool)
    (st : State) (m : ArkMethod.t) : Completion State :=
  let methodName := ArkMethod.getName m in
  let lineCol := ArkMethod.getLineCol m in
  st ← (if isAbility && Text.arrayIncludes LIFECYCLE_METHOD_NAME methodName then
          table ← touch className methodName (abilityLifecycleStats st);
          Normal {| lifecycleMethods := lifecycleMethods st ++
                       [{| method := m; type := ABILITY; phase := methodName;
                           className := className; filePath := fileName;
                           lineNumber := lineCol |}];
                    abilityLifecycleStats := table;
                    componentLifecycleStats := componentLifecycleStats st |}
        else Normal st);
  if isComponent && Text.arrayIncludes COMPONENT_LIFECYCLE_METHOD_NAME methodName then
    table ← touch className methodName (componentLifecycleStats st);
    Normal {| lifecycleMethods := lifecycleMethods st ++
                 [{| method := m; type := COMPONENT; phase := methodName;
                     className := className; filePath := fileName;
                     lineNumber := lineCol |}];
              abilityLifecycleStats := abilityLifecycleStats st;
              componentLifecycleStats := table |}
  else Normal st.

(** The body of [for (const cls of file.getClasses())]. *)
Definition identifyClass (scene : Scene.t) (fuel : nat) (fileName : string)
    (acc : State * Locals) (cls : ArkClass.t) : Completion (State * Locals) :=
  let '(st, loc) := acc in
  let className := ArkClass.getName cls in
  if Text.includes className "_DEFAULT_" || Text.includes className "%" then Normal acc
  else
    isAbility ← isAbilityClass scene fuel cls;
    let isComponent := isComponentClass cls in
    let loc :=
      mkLocals (S (totalClasses loc))
               (if isAbility : bool then S (abilityClasses loc) else abilityClasses loc)
               (if isComponent then S (componentClasses loc) else componentClasses loc) in
    st ← forEach (identifyMethod fileName className isAbility isComponent)
                 st (ArkClass.getMethods cls);
    Normal (st, loc).

(** The body of [for (const file of files)]. *)
Definition identifyFile (scene : Scene.t) (fuel : nat)
    (acc : State * Locals) (file : ArkFile.t) : Completion (State * Locals) :=
  let fileName := ArkFile.getName file in
  if Text.includes fileName "test" || Text.includes fileName "Test" then Normal acc
  else forEach (identifyClass scene fuel fileName) acc (ArkFile.getClasses file).

Definition identifyLifecycleMethods (scene : Scene.t) (fuel : nat) (st : State)
  : Completion State :=
  let files := Scene.getFiles scene in
  acc ← forEach (identifyFile scene fuel) 
                (st, {| totalClasses := 0; abilityClasses := 0; componentClasses := 0 |})
                files;
  Normal (fst acc).

End Catalogs.
End V2.

(** ** Version 3: [OpenEyeLifecycleAnalyzerV3] *)
Module V3.

Inductive LifecycleType := ABILITY | COMPONENT | CALLBACK.

(** The string value of an enum member. *)
Definition LifecycleType_value (t : LifecycleType) : string :=
  match t with
  | ABILITY => "Ability"
  | COMPONENT => "Component"
  | CALLBACK => "Callback"
  end.

Record LifecycleMethodInfo := mkLifecycleMethodInfo {
  method : ArkMethod.t;
  type : LifecycleType;
  phase : string;
  className : string;
  filePath : string;
  lineNumber : Z;
  hasImplementation : bool
}.

Record DataFlowInfo := mkDataFlowInfo {
  from : string;
  to : string;
  variable : string;
  line : Z;
  callChain : list string
}.

Record UndefinedIssue := mkUndefinedIssue {
  issueMethod : string;
  issueClassName : string;
  issueLine : Z;
  description : string;
  severity : Severity
}.

Record AnalysisStats := mkAnalysisStats {
  totalFiles : nat;
  totalClasses : nat;
  totalMethods : nat;
  abilityClasses : nat;
  componentClasses : nat;
  statLifecycleMethods : nat;
  callGraphNodes : nat;
  callGraphEdges : nat;
  dataFlowPaths : nat;
  statUndefinedIssues : nat
}.

Record CoverageStats := mkCoverageStats {
  methodName : string;
  isDefined : bool;
  isUsed : bool;
  usageCount : nat;
  classes : list string;
  files : list string
}.

(** The fields of the analyzer object. *)
Record State := mkState {
  lifecycleMethods : list LifecycleMethodInfo;
  callGraph : option CallGraph.t;
  dataFlows : list DataFlowInfo;
  undefinedIssues : list UndefinedIssue;
  stats : AnalysisStats;
  abilityLifecycleStats : gmap string CoverageStats;
  componentLifecycleStats : gmap string CoverageStats;
  callbackStats : gmap string CoverageStats
}.

(** [stats.totalFiles = n] *)
Definition setTotalFiles (n : nat) (s : AnalysisStats) : AnalysisStats :=
  {| totalFiles := n;
     totalClasses := totalClasses s;
     totalMethods := totalMethods s;
     abilityClasses := abilityClasses s;
     componentClasses := componentClasses s;
     statLifecycleMethods := statLifecycleMethods s;
     callGraphNodes := callGraphNodes s;
     callGraphEdges := callGraphEdges s;
     dataFlowPaths := dataFlowPaths s;
     statUndefinedIssues := statUndefinedIssues s |}.

(** [stats.totalClasses++] *)
Definition incrTotalClasses (s : AnalysisStats) : AnalysisStats :=
  {| totalFiles := totalFiles s;
     totalClasses := S (totalClasses s);
     totalMethods := totalMethods s;
     abilityClasses := abilityClasses s;
     componentClasses := componentClasses s;
     statLifecycleMethods := statLifecycleMethods s;
     callGraphNodes := callGraphNodes s;
     callGraphEdges := callGraphEdges s;
     dataFlowPaths := dataFlowPaths s;
     statUndefinedIssues := statUndefinedIssues s |}.

(** [stats.abilityClasses++] *)
Definition incrAbilityClasses (s : AnalysisStats) : AnalysisStats :=
  {| totalFiles := totalFiles s;
     totalClasses := totalClasses s;
     totalMethods := totalMethods s;
     abilityClasses := S (abilityClasses s);
     componentClasses := componentClasses s;
     statLifecycleMethods := statLifecycleMethods s;
     callGraphNodes := callGraphNodes s;
     callGraphEdges := callGraphEdges s;
     dataFlowPaths := dataFlowPaths s;
     statUndefinedIssues := statUndefinedIssues s |}.

(** [stats.componentClasses++] *)
Definition incrComponentClasses (s : AnalysisStats) : AnalysisStats :=
  {| totalFiles := totalFiles s;
     totalClasses := totalClasses s;
     totalMethods := totalMethods s;
     abilityClasses := abilityClasses s;
     componentClasses := S (componentClasses s);
     statLifecycleMethods := statLifecycleMethods s;
     callGraphNodes := callGraphNodes s;
     callGraphEdges := callGraphEdges s;
     dataFlowPaths := dataFlowPaths s;
     statUndefinedIssues := statUndefinedIssues s |}.

(** [stats.totalMethods++] *)
Definition incrTotalMethods (s : AnalysisStats) : AnalysisStats :=
  {| totalFiles := totalFiles s;
     totalClasses := totalClasses s;
     totalMethods := S (totalMethods s);
     abilityClasses := abilityClasses s;
     componentClasses := componentClasses s;
     statLifecycleMethods := statLifecycleMethods s;
     callGraphNodes := callGraphNodes s;
     callGraphEdges := callGraphEdges s;
     dataFlowPaths := dataFlowPaths s;
     statUndefinedIssues := statUndefinedIssues s |}.

(** [stats.lifecycleMethods = n] *)
Definition setStatLifecycleMethods (n : nat) (s : AnalysisStats) : AnalysisStats :=
  {| totalFiles := totalFiles s;
     totalClasses := totalClasses s;
     totalMethods := totalMethods s;
     abilityClasses := abilityClasses s;
     componentClasses := componentClasses s;
     statLifecycleMethods := n;
     callGraphNodes := callGraphNodes s;
     callGraphEdges := callGraphEdges s;
     dataFlowPaths := dataFlowPaths s;
     statUndefinedIssues := statUndefinedIssues s |}.

(** [stats.callGraphNodes = cg.getNodeNum(); stats.callGraphEdges = cg.getEdgeNum()] *)
Definition setCallGraphStats (cg : CallGraph.t) (s : AnalysisStats) : AnalysisStats :=
  {| totalFiles := totalFiles s;
     totalClasses := totalClasses s;
     totalMethods := totalMethods s;
     abilityClasses := abilityClasses s;
     componentClasses := componentClasses s;
     statLifecycleMethods := statLifecycleMethods s;
     callGraphNodes := CallGraph.getNodeNum cg;
     callGraphEdges := CallGraph.getEdgeNum cg;
     dataFlowPaths := dataFlowPaths s;
     statUndefinedIssues := statUndefinedIssues s |}.

(** [stats.dataFlowPaths = n] *)
Definition setDataFlowPaths (n : nat) (s : AnalysisStats) : AnalysisStats :=
  {| totalFiles := totalFiles s;
     totalClasses := totalClasses s;
     totalMethods := totalMethods s;
     abilityClasses := abilityClasses s;
     componentClasses := componentClasses s;
     statLifecycleMethods := statLifecycleMethods s;
     callGraphNodes := callGraphNodes s;
     callGraphEdges := callGraphEdges s;
     dataFlowPaths := n;
     statUndefinedIssues := statUndefinedIssues s |}.

(** [stats.undefinedIssues = n] *)
Definition setStatUndefinedIssues (n : nat) (s : AnalysisStats) : AnalysisStats :=
  {| totalFiles := totalFiles s;
     totalClasses := totalClasses s;
     totalMethods := totalMethods s;
     abilityClasses := abilityClasses s;
     componentClasses := componentClasses s;
     statLifecycleMethods := statLifecycleMethods s;
     callGraphNodes := callGraphNodes s;
     callGraphEdges := callGraphEdges s;
     dataFlowPaths := dataFlowPaths s;
     statUndefinedIssues := n |}.

Definition mapStats (f : AnalysisStats -> AnalysisStats) (st : State) : State :=
  {| lifecycleMethods := lifecycleMethods st; callGraph := callGraph st;
     dataFlows := dataFlows st; undefinedIssues := undefinedIssues st;
     stats := f (stats st);
     abilityLifecycleStats := abilityLifecycleStats st;
     componentLifecycleStats := componentLifecycleStats st;
     callbackStats := callbackStats st |}.

Section Catalogs.
(** The three catalogs imported from ArkAnalyzer's entryMethodUtils
    ([LIFECYCLE_METHOD_NAME], [COMPONENT_LIFECYCLE_METHOD_NAME],
    [CALLBACK_METHOD_NAME]), under the names of the static fields that hold
    them. *)
Variable ABILITY_LIFECYCLE : list string.
Variable COMPONENT_LIFECYCLE : list string.
Variable CALLBACK_METHODS : list string.

Definition unusedStat (methodName : string) : CoverageStats :=
  {| methodName := methodName; isDefined := true; isUsed := false;
     usageCount := 0; classes := []; files := [] |}.

(** [for (const methodName of names) table.set(methodName, {...})] *)
Definition initTable (names : list string) : gmap string CoverageStats :=
  fold_left (fun table methodName => <[methodName := unusedStat methodName]> table)
            names ∅.

(** The constructor, which calls [initializeStats]. *)
Definition init : State :=
  {| lifecycleMethods := []; callGraph := None; dataFlows := [];
     undefinedIssues := [];
     stats := {| totalFiles := 0; totalClasses := 0; totalMethods := 0;
                 abilityClasses := 0; componentClasses := 0;
                 statLifecycleMethods := 0; callGraphNodes := 0;
                 callGraphEdges := 0; dataFlowPaths := 0;
                 statUndefinedIssues := 0 |};
     abilityLifecycleStats := initTable ABILITY_LIFECYCLE;
     componentLifecycleStats := initTable COMPONENT_LIFECYCLE;
     callbackStats := initTable CALLBACK_METHODS |}.

Definition COMPONENT_BASE : list string := ["CustomComponent"; "ViewPU"].

Definition isComponentClass (cls : ArkClass.t) : bool :=
  if Text.arrayIncludes COMPONENT_BASE (ArkClass.getSuperClassName cls) then true
  else if ArkClass.hasDecorator cls "Component" then true
  else if ArkClass.hasDecorator cls "Entry" then true
  else false.

Definition ABILITY_BASE : list string :=
  ["UIAbility"; "Ability"; "UIExtensionAbility";
   "FormExtensionAbility"; "BackupExtensionAbility";
   "ServiceExtensionAbility"].

Fixpoint ancestorLoop (scene : Scene.t) (fuel : nat) (superClass : option ArkClass.t)
  : Completion bool :=
  match fuel with
  | 0 => OutOfFuel
  | S fuel' =>
      match superClass with
      | None => Normal false
      | Some sc =>
          if Text.arrayIncludes ABILITY_BASE (ArkClass.getSuperClassName sc)
          then Normal true
          else ancestorLoop scene fuel' (Scene.getSuperClass scene sc)
      end
  end.

Definition isAbilityClass (scene : Scene.t) (fuel : nat) (cls : ArkClass.t)
  : Completion bool :=
  if Text.arrayIncludes ABILITY_BASE (ArkClass.getSuperClassName cls) then Normal true
  else ancestorLoop scene fuel (Scene.getSuperClass scene cls).

(** [if (!arr.includes(x)) arr.push(x)] *)
Definition pushIfAbsent (arr : list string) (x : string) : list string :=
  if Text.arrayIncludes arr x then arr else arr ++ [x].

(** The updates of a statistics object after a lifecycle method was found. *)
Definition markUsed (className fileName : string) (stat : CoverageStats) : CoverageStats :=
  {| methodName := methodName stat; isDefined := isDefined stat; isUsed := true;
     usageCount := S (usageCount stat);
     classes := pushIfAbsent (classes stat) className;
     files := pushIfAbsent (files stat) fileName |}.

(** [const stat = table.get(methodName)!] followed by the updates of the
    object; writing a property of [undefined] throws. *)
Definition touch (className fileName methodName : string)
    (table : gmap string CoverageStats) : Completion (gmap string CoverageStats) :=
  match table !! methodName with
  | None => Throw
  | Some stat => Normal (<[methodName := markUsed className fileName stat]> table)
  end.

(** The Ability branch of the method loop: the push, then the statistics. *)
Definition recordAbility (info : LifecycleMethodInfo) (st : State) : Completion State :=
  table ← touch (className info) (filePath info) (phase info) (abilityLifecycleStats st);
  Normal {| lifecycleMethods := lifecycleMethods st ++ [info]; callGraph := callGraph st;
            dataFlows := dataFlows st; undefinedIssues := undefinedIssues st;
            stats := stats st;
            abilityLifecycleStats := table;
            componentLifecycleStats := componentLifecycleStats st;
            callbackStats := callbackStats st |}.

(** The Component branch of the method loop. *)
Definition recordComponent (info : LifecycleMethodInfo) (st : State) : Completion State :=
  table ← touch (className info) (filePath info) (phase info) (componentLifecycleStats st);
  Normal {| lifecycleMethods := lifecycleMethods st ++ [info]; callGraph := callGraph st;
            dataFlows := dataFlows st; undefinedIssues := undefinedIssues st;
            stats := stats st;
            abilityLifecycleStats := abilityLifecycleStats st;
            componentLifecycleStats := table;
            callbackStats := callbackStats st |}.

(** [cfg !== null && cfg !== undefined && cfg.getBlocks().size > 0] *)
Definition hasImpl (m : ArkMethod.t) : bool :=
  match ArkMethod.getCfg m with
  | None => false
  | Some cfg => 0 <? length (Cfg.getBlocks cfg)
  end.

(** [method.getLineCol() || 0] *)
Definition lineColOrZero (m : ArkMethod.t) : Z :=
  match ArkMethod.getLineCol m with
  | None => 0%Z
  | Some z => z
  end.

(** The body of [for (const method of cls.getMethods())]. *)
Definition identifyMethod (fileName className : string) (isAbility isComponent : bool)
    (st : State) (m : ArkMethod.t) : Completion State :=
  let methodName := ArkMethod.getName m in
  let st := mapStats incrTotalMethods st in
  let lineCol := lineColOrZero m in
  st ← (if isAbility && Text.arrayIncludes ABILITY_LIFECYCLE methodName then
          recordAbility {| method := m; type := ABILITY; phase := methodName;
                           className := className; filePath := fileName;
                           lineNumber := lineCol; hasImplementation := hasImpl m |} st
        else Normal st);
  if isComponent && Text.arrayIncludes COMPONENT_LIFECYCLE methodName then
    recordComponent {| method := m; type := COMPONENT; phase := methodName;
                       className := className; filePath := fileName;
                       lineNumber := lineCol; hasImplementation := hasImpl m |} st
  else Normal st.

(** The body of [for (const cls of file.getClasses())]. *)
Definition identifyClass (scene : Scene.t) (fuel : nat) (fileName : string)
    (st : State) (cls : ArkClass.t) : Completion State :=
  let className := ArkClass.getName cls in
  if Text.includes className "_DEFAULT_" ||
     Text.includes className "%AC" ||
     Text.includes className "%dflt" then Normal st
  else
    let st := mapStats incrTotalClasses st in
    isAbility ← isAbilityClass scene fuel cls;
    let isComponent := isComponentClass cls in
    let st := if isAbility : bool then mapStats incrAbilityClasses st else st in
    let st := if isComponent then mapStats incrComponentClasses st else st in
    forEach (identifyMethod fileName className isAbility isComponent)
            st (ArkClass.getMethods cls).

(** The body of [for (const file of files)]. *)
Definition identifyFile (scene : Scene.t) (fuel : nat)
    (st : State) (file : ArkFile.t) : Completion State :=
  let fileName := ArkFile.getName file in
  if Text.includes fileName "test" || Text.includes fileName "Test" then Normal st
  else forEach (identifyClass scene fuel fileName) st (ArkFile.getClasses file).

Definition identifyLifecycleMethods (scene : Scene.t) (fuel : nat) (st : State)
  : Completion State :=
  let files := Scene.getFiles scene in
  let st := mapStats (setTotalFiles (length files)) st in
  st ← forEach (identifyFile scene fuel) st files;
  Normal (mapStats (setStatLifecycleMethods (length (lifecycleMethods st))) st).

Definition setCallGraph (cg : CallGraph.t) (st : State) : State :=
  {| lifecycleMethods := lifecycleMethods st; callGraph := Some cg;
     dataFlows := dataFlows st; undefinedIssues := undefinedIssues st;
     stats := setCallGraphStats cg (stats st);
     abilityLifecycleStats := abilityLifecycleStats st;
     componentLifecycleStats := componentLifecycleStats st;
     callbackStats := callbackStats st |}.

(** [buildCallGraph]: the whole body is one [try] block whose [catch] only
    logs.  [createDummyMain] stands for the creation of the dummy main and
    the read of its signature for the log. *)
Definition buildCallGraph (ext : External.t) (st : State) : State :=
  match External.createDummyMain ext with
  | Raises => st
  | Returns _ =>
      let entryPoints := External.dummyMainSignatures ext in
      if 0 <? length entryPoints then
        match External.makeCallGraphCHA ext entryPoints with
        | Raises => st
        | Returns cg => setCallGraph cg st
        end
      else
        let lifecycleEntryPoints :=
          map (fun lm => ArkMethod.getSignature (method lm)) (lifecycleMethods st) in
        if 0 <? length lifecycleEntryPoints then
          match External.makeCallGraphCHA ext lifecycleEntryPoints with
          | Raises => st
          | Returns cg => setCallGraph cg st
          end
        else st
  end.

Definition containsUndefinedRisk (stmtStr : string) : bool :=
  Text.includes stmtStr "undefined" ||
  Text.includes stmtStr "null" ||
  (Text.includes stmtStr "fieldload" && Text.includes stmtStr "?").

Definition assessSeverity (stmtStr : string) : Severity :=
  if Text.includes stmtStr "undefined" then high
  else if Text.includes stmtStr "null" then medium
  else low.

(** The literal that starts every issue description (UTF-8 bytes). *)
Definition DESCRIPTION_PREFIX : string := "可能的未定义变量访问: ".

(** The loop state of [analyzeUndefinedVariables]: the analyzer and the two
    local counters. *)
Record UndefinedScan := mkUndefinedScan {
  scanState : State;
  analyzedCount : nat;
  issueCount : nat
}.

Definition pushUndefinedIssue (i : UndefinedIssue) (st : State) : State :=
  {| lifecycleMethods := lifecycleMethods st; callGraph := callGraph st;
     dataFlows := dataFlows st; undefinedIssues := undefinedIssues st ++ [i];
     stats := stats st;
     abilityLifecycleStats := abilityLifecycleStats st;
     componentLifecycleStats := componentLifecycleStats st;
     callbackStats := callbackStats st |}.

(** The body of [for (const stmt of cfg.getStmts())]. *)
Definition checkStmt (lifecycleMethod : LifecycleMethodInfo)
    (sc : UndefinedScan) (stmt : Stmt.t) : UndefinedScan :=
  let stmtStr := Stmt.toString stmt in
  if containsUndefinedRisk stmtStr then
    {| scanState :=
         pushUndefinedIssue
           {| issueMethod := className lifecycleMethod +:+ "." +:+ phase lifecycleMethod;
              issueClassName := className lifecycleMethod;
              issueLine := Stmt.getLineNo stmt;
              description := DESCRIPTION_PREFIX +:+ Text.substring0 60 stmtStr;
              severity := assessSeverity stmtStr |}
           (scanState sc);
       analyzedCount := analyzedCount sc;
       issueCount := S (issueCount sc) |}
  else sc.

(** The body of [for (const lifecycleMethod of this.lifecycleMethods)]: one
    [try] block whose [catch] is empty.  What was assigned before an
    exception stays assigned. *)
Definition analyzeLifecycleMethod (ext : External.t)
    (sc : UndefinedScan) (lifecycleMethod : LifecycleMethodInfo) : UndefinedScan :=
  let m := method lifecycleMethod in
  match ArkMethod.getCfg m with
  | None => sc
  | Some cfg =>
      if length (Cfg.getBlocks cfg) =? 0 then sc
      else
        let sc := {| scanState := scanState sc;
                     analyzedCount := S (analyzedCount sc);
                     issueCount := issueCount sc |} in
        match Cfg.getBlocks cfg with
        | [] => sc
        | block0 :: _ =>
            match BasicBlock.getStmts block0 with
            | [] => sc
            | firstStmt :: _ =>
                match External.solve ext firstStmt m with
                | Raises => sc
                | Returns _ => fold_left (checkStmt lifecycleMethod) (Cfg.getStmts cfg) sc
                end
            end
        end
  end.

Definition analyzeUndefinedVariables (ext : External.t) (st : State) : State :=
  let sc := fold_left (analyzeLifecycleMethod ext) (lifecycleMethods st)
              {| scanState := st; analyzedCount := 0; issueCount := 0 |} in
  mapStats (setStatUndefinedIssues (issueCount sc)) (scanState sc).

Definition extractMethodFromInvoke (invokeExpr : string) : option string :=
  match Text.firstMatch Text.strictAt invokeExpr with
  | Some (m1, m2) => Some (m1 +:+ "." +:+ m2)
  | None =>
      match Text.firstMatch Text.simpleAt invokeExpr with
      | Some m1 => Some m1
      | None => None
      end
  end.

Definition pushDataFlow (d : DataFlowInfo) (st : State) : State :=
  {| lifecycleMethods := lifecycleMethods st; callGraph := callGraph st;
     dataFlows := dataFlows st ++ [d]; undefinedIssues := undefinedIssues st;
     stats := stats st;
     abilityLifecycleStats := abilityLifecycleStats st;
     componentLifecycleStats := componentLifecycleStats st;
     callbackStats := callbackStats st |}.

(** The body of [for (const expr of exprs)]. *)
Definition dataFlowExpr (lifecycleMethod : LifecycleMethodInfo) (stmt : Stmt.t)
    (st : State) (exprStr : string) : State :=
  let callChain := [className lifecycleMethod +:+ "." +:+ phase lifecycleMethod] in
  if Text.includes exprStr "invoke" || Text.includes exprStr "call" then
    let targetMethod := extractMethodFromInvoke exprStr in
    pushDataFlow
      {| from := className lifecycleMethod +:+ "." +:+ phase lifecycleMethod;
         to := Text.orElse targetMethod (Text.substring0 60 exprStr);
         variable := "data";
         line := Stmt.getLineNo stmt;
         callChain := callChain ++ [Text.orElse targetMethod "unknown"] |} st
  else st.

(** The body of [for (const stmt of cfg.getStmts())]. *)
Definition dataFlowStmt (lifecycleMethod : LifecycleMethodInfo)
    (st : State) (stmt : Stmt.t) : State :=
  fold_left (dataFlowExpr lifecycleMethod stmt) (Stmt.getExprs stmt) st.

Definition analyzeMethodDataFlow (st : State) (lifecycleMethod : LifecycleMethodInfo)
  : State :=
  match ArkMethod.getCfg (method lifecycleMethod) with
  | None => st
  | Some cfg => fold_left (dataFlowStmt lifecycleMethod) (Cfg.getStmts cfg) st
  end.

Definition analyzeDataFlow (st : State) : State :=
  match callGraph st with
  | None => st
  | Some _ =>
      let st := fold_left analyzeMethodDataFlow (lifecycleMethods st) st in
      mapStats (setDataFlowPaths (length (dataFlows st))) st
  end.

(** Steps 5 to 8 of [analyzeOpenEyeLifecycleV3], on a fresh analyzer; the
    later steps print and export and assign no field. *)
Definition analyze (ext : External.t) (scene : Scene.t) (fuel : nat) : Completion State :=
  st ← identifyLifecycleMethods scene fuel init;
  let st := buildCallGraph ext st in
  let st := analyzeUndefinedVariables ext st in
  Normal (analyzeDataFlow st).

End Catalogs.
End V3.

(** ** JavaScript collections used by the reports and exports

    A [Set] and a [Map] iterate in insertion order; they are embedded as
    lists without duplicates and as association lists with distinct keys. *)
Module Js.

(** [set.add(x)] *)
Definition setAdd (set : list string) (x : string) : list string :=
  if Text.arrayIncludes set x then set else set ++ [x].

(** [new Set(xs)] *)
Definition setOf (xs : list string) : list string := fold_left setAdd xs [].

(** [map.has(k)] *)
Definition mapHas {V} (m : list (string * V)) (k : string) : bool :=
  existsb (fun e => String.eqb k (fst e)) m.

(** [map.get(k)]; [None] is undefined. *)
Fixpoint mapGet {V} (m : list (string * V)) (k : string) : option V :=
  match m with
  | [] => None
  | (k', v) :: m' => if String.eqb k k' then Some v else mapGet m' k
  end.

(** [map.set(k, v)]: the value of a key that is present is replaced where it
    stands, a new key goes to the end. *)
Fixpoint mapSet {V} (m : list (string * V)) (k : string) (v : V) : list (string * V) :=
  match m with
  | [] => [(k, v)]
  | (k', v') :: m' => if String.eqb k k' then (k', v) :: m' else (k', v') :: mapSet m' k v
  end.

(** The grouping idiom of the reports:
    [if (!map.has(k)) map.set(k, []); map.get(k)!.push(x)]
    with [k] the key of [x].  The array is updated in place. *)
Definition groupInto {A} (key : A -> string)
    (m : list (string * list A)) (x : A) : list (string * list A) :=
  let k := key x in
  let m := if mapHas m k then m else mapSet m k [] in
  match mapGet m k with
  | Some group => mapSet m k (group ++ [x])
  | None => m
  end.

(** [for (const x of xs) { ...groupInto... }] on a new Map. *)
Definition groupBy {A} (key : A -> string) (xs : list A) : list (string * list A) :=
  fold_left (groupInto key) xs [].

(** [arr.sort(cmp)] for a comparator that returns a difference of integers.
    The sort is stable, so its result is determined by the comparator: an
    element is placed before the first one that it does not have to follow. *)
Fixpoint insertSorted {A} (cmp : A -> A -> Z) (x : A) (sorted : list A) : list A :=
  match sorted with
  | [] => [x]
  | y :: sorted' =>
      if (0 <? cmp x y)%Z then y :: insertSorted cmp x sorted' else x :: sorted
  end.

Definition sort {A} (cmp : A -> A -> Z) (arr : list A) : list A :=
  foldr (insertSorted cmp) [] arr.

(** [arr.slice(0, n)] for a count [n] that is not negative *)
Definition slice0 {A} (n : nat) (arr : list A) : list A := take n arr.

End Js.

(** ** Export of the call graph (analyzeOpenEyeLifecycle.ts; the helpers and
    the two write loops are the same in version 3) *)
Module Dot.

Definition LF : string := String "010"%char EmptyString.
Definition QUOTE : string := String "034"%char EmptyString.

(** The character class [[a-zA-Z0-9_.]]. *)
Definition isDotIdChar (c : ascii) : bool :=
  let n := Ascii.nat_of_ascii c in
  ((97 <=? n) && (n <=? 122)) || ((65 <=? n) && (n <=? 90)) ||
  ((48 <=? n) && (n <=? 57)) || (n =? 95) || (n =? 46).

(** [id.replace(/[^a-zA-Z0-9_.]/g, '_')]: every code unit outside the class
    becomes an underscore.  Such a unit is the first byte of an encoding of
    one, two or three bytes, or one of the two units of an encoding of four
    bytes. *)
Fixpoint sanitizeDotId (id : string) : string :=
  match id with
  | EmptyString => EmptyString
  | String c id' =>
      if isDotIdChar c then String c (sanitizeDotId id')
      else
        match Text.units c with
        | 0 => sanitizeDotId id'
        | 1 => String "_"%char (sanitizeDotId id')
        | _ => String "_"%char (String "_"%char (sanitizeDotId id'))
        end
  end.

Definition simplifyMethodSignature (signature : string) : string :=
  if 40 <? Text.length signature
  then Text.substring0 37 signature +:+ "..."
  else signature.

Record Edge := mkEdge { from : string; to : string }.

Section DeclaringClass.
(** [method.getDeclaringArkClass()] *)
Variable getDeclaringArkClass : ArkMethod.t -> ArkClass.t.

Definition getMethodSignature (m : ArkMethod.t) : string :=
  ArkClass.getName (getDeclaringArkClass m) +:+ "." +:+ ArkMethod.getName m.

(** The set [nodes] and the array [edges]. *)
Record Graph := mkGraph { nodes : list string; edges : list Edge }.

(** The body of [for (const expr of exprs)]. *)
Definition collectExpr (methodSig : string) (g : Graph) (exprStr : string) : Graph :=
  if Text.includes exprStr "invoke" then
    match V1.extractMethodFromInvoke exprStr with
    | Some (String c s) =>
        let targetMethod := String c s in
        {| nodes := Js.setAdd (nodes g) targetMethod;
           edges := edges g ++ [ {| from := methodSig; to := targetMethod |} ] |}
    | _ => g
    end
  else g.

(** The body of [for (const method of cls.getMethods())]. *)
Definition collectMethod (lifecycleSignatures : list string)
    (g : Graph) (m : ArkMethod.t) : Graph :=
  let methodSig := getMethodSignature m in
  if negb (Text.arrayIncludes lifecycleSignatures methodSig) then g
  else
    let g := {| nodes := Js.setAdd (nodes g) methodSig; edges := edges g |} in
    match ArkMethod.getCfg m with
    | None => g
    | Some cfg =>
        fold_left (fun g stmt => fold_left (collectExpr methodSig) (Stmt.getExprs stmt) g)
                  (Cfg.getStmts cfg) g
    end.

(** The three nested loops over files, classes and methods. *)
Definition collect (lifecycleSignatures : list string) (scene : Scene.t) : Graph :=
  fold_left
    (fun g file =>
       fold_left
         (fun g cls => fold_left (collectMethod lifecycleSignatures) (ArkClass.getMethods cls) g)
         (ArkFile.getClasses file) g)
    (Scene.getFiles scene) {| nodes := []; edges := [] |}.

Definition nodeLine (lifecycleSignatures : list string) (node : string) : string :=
  let nodeId := sanitizeDotId node in
  let label := simplifyMethodSignature node in
  let color := if Text.arrayIncludes lifecycleSignatures node
               then "lightcoral" else "lightblue" in
  "    " +:+ QUOTE +:+ nodeId +:+ QUOTE +:+ " [label=" +:+ QUOTE +:+ label +:+ QUOTE +:+
  ", fillcolor=" +:+ color +:+ "];" +:+ LF.

(** [for (const node of nodes) { if (nodeCount++ > 50) break; ... }] *)
Fixpoint writeNodes (lifecycleSignatures : list string) (nodeCount : nat)
    (nodes : list string) (dotContent : string) : string :=
  match nodes with
  | [] => dotContent
  | node :: rest =>
      if 50 <? nodeCount then dotContent
      else writeNodes lifecycleSignatures (S nodeCount) rest
             (dotContent +:+ nodeLine lifecycleSignatures node)
  end.

Definition edgeLine (edge : Edge) : string :=
  let fromId := sanitizeDotId (from edge) in
  let toId := sanitizeDotId (to edge) in
  "    " +:+ QUOTE +:+ fromId +:+ QUOTE +:+ " -> " +:+ QUOTE +:+ toId +:+ QUOTE +:+
  ";" +:+ LF.

(** [for (const edge of edges) { if (edgeCount++ > 100) break; ... }] *)
Fixpoint writeEdges (edgeCount : nat) (edges : list Edge) (dotContent : string) : string :=
  match edges with
  | [] => dotContent
  | edge :: rest =>
      if 100 <? edgeCount then dotContent
      else writeEdges (S edgeCount) rest (dotContent +:+ edgeLine edge)
  end.

Definition HEADER : string :=
  "digraph CallGraph {" +:+ LF +:+
  "    node [shape=box, style=filled, fillcolor=lightblue];" +:+ LF +:+
  "    rankdir=TB;" +:+ LF +:+
  "    concentrate=true;" +:+ LF +:+ LF.

Definition LEGEND : string :=
  LF +:+ "    // Legend" +:+ LF +:+
  "    subgraph cluster_legend {" +:+ LF +:+
  "        label=" +:+ QUOTE +:+ "图例" +:+ QUOTE +:+ ";" +:+ LF +:+
  "        style=filled;" +:+ LF +:+
  "        fillcolor=white;" +:+ LF +:+
  "        " +:+ QUOTE +:+ "lifecycle" +:+ QUOTE +:+ " [label=" +:+ QUOTE +:+
    "生命周期方法" +:+ QUOTE +:+ ", fillcolor=lightcoral];" +:+ LF +:+
  "        " +:+ QUOTE +:+ "normal" +:+ QUOTE +:+ " [label=" +:+ QUOTE +:+
    "普通方法" +:+ QUOTE +:+ ", fillcolor=lightblue];" +:+ LF +:+
  "    }" +:+ LF.

(** [exportCallGraphToDot] of version 1: the text that the function builds
    for [fs.writeFileSync], or [None] when it returns before the [try]
    block. *)
Definition exportCallGraphToDot (scene : Scene.t) (st : V1.State) : option string :=
  match V1.callGraph st with
  | None => None
  | Some _ =>
      let lifecycleSignatures :=
        Js.setOf (map (fun lm => getMethodSignature (V1.method lm))
                      (V1.lifecycleMethods st)) in
      let g := collect lifecycleSignatures scene in
      let dotContent := HEADER in
      let dotContent := writeNodes lifecycleSignatures 0 (nodes g) dotContent in
      let dotContent := dotContent +:+ LF in
      let dotContent := writeEdges 0 (edges g) dotContent in
      let dotContent := dotContent +:+ LEGEND in
      Some (dotContent +:+ "}" +:+ LF)
  end.

End DeclaringClass.
End Dot.

(** ** The issue listing of the project analyzer's report *)
Module ProjectReport.

(** What the listing prints: the header of a file group, the five lines of
    one issue under its running number, and the line that tells how many
    issues are not shown. *)
Inductive Line :=
| FileHeader (file : string)
| IssueEntry (count : nat) (issue : Project.UndefinedIssue)
| Remaining (hidden : Z)
| NoIssues.

(** [for (const issue of fileIssues) { if (count >= 20) break; count++; ... }] *)
Fixpoint listFileIssues (count : nat) (fileIssues : list Project.UndefinedIssue)
    (out : list Line) : nat * list Line :=
  match fileIssues with
  | [] => (count, out)
  | issue :: rest =>
      if 20 <=? count then (count, out)
      else listFileIssues (S count) rest (out ++ [IssueEntry (S count) issue])
  end.

(** [for (const [file, fileIssues] of issuesByFile) { ... }] *)
Fixpoint listFiles (issuesLength : nat) (count : nat)
    (issuesByFile : list (string * list Project.UndefinedIssue))
    (out : list Line) : list Line :=
  match issuesByFile with
  | [] => out
  | (file, fileIssues) :: rest =>
      if 20 <=? count
      then out ++ [Remaining (Z.of_nat issuesLength - Z.of_nat count)]
      else
        let '(count, out) := listFileIssues count fileIssues (out ++ [FileHeader file]) in
        listFiles issuesLength count rest out
  end.

(** The branch [if (this.issues.length > 0) ... else ...] of
    [generateReport]. *)
Definition listIssues (st : Project.State) : list Line :=
  if 0 <? length (Project.issues st) then
    let issuesByFile := Js.groupBy Project.file (Project.issues st) in
    listFiles (length (Project.issues st)) 0 issuesByFile []
  else [NoIssues].

End ProjectReport.

(** ** Coverage figures of the reports of versions 2 and 3 *)
Module V2Report.

(** [Array.from(table.values())].  The table was filled by
    [initializeStats] in the order of its catalog [names], and the scan
    assigns to the stored objects only, so the iteration order is that of
    the first occurrences in the catalog. *)
Definition values (names : list string) (table : gmap string V2.CoverageStats)
  : list V2.CoverageStats :=
  omap (fun n => table !! n) (Js.setOf names).

(** [stats.filter(s => s.isUsed)] *)
Definition usedStats (stats : list V2.CoverageStats) : list V2.CoverageStats :=
  filter (fun s => V2.isUsed s = true) stats.

(** [stats.reduce((sum, s) => sum + s.usageCount, 0)] *)
Definition totalUsages (stats : list V2.CoverageStats) : nat :=
  fold_left (fun sum s => sum + V2.usageCount s) stats 0.

(** The figures of [printSummary]. *)
Record Summary := mkSummary {
  totalAbilityDefined : nat;
  totalAbilityUsed : nat;
  totalAbilityUsages : nat;
  totalComponentDefined : nat;
  totalComponentUsed : nat;
  totalComponentUsages : nat;
  totalInstances : nat
}.

Section Catalogs.
Variable LIFECYCLE_METHOD_NAME : list string.
Variable COMPONENT_LIFECYCLE_METHOD_NAME : list string.

Definition printSummary (st : V2.State) : Summary :=
  let abilityValues := values LIFECYCLE_METHOD_NAME (V2.abilityLifecycleStats st) in
  let componentValues :=
    values COMPONENT_LIFECYCLE_METHOD_NAME (V2.componentLifecycleStats st) in
  {| totalAbilityDefined := size (V2.abilityLifecycleStats st);
     totalAbilityUsed := length (usedStats abilityValues);
     totalAbilityUsages := totalUsages abilityValues;
     totalComponentDefined := size (V2.componentLifecycleStats st);
     totalComponentUsed := length (usedStats componentValues);
     totalComponentUsages := totalUsages componentValues;
     totalInstances := length (V2.lifecycleMethods st) |}.

End Catalogs.

Record Recommendation := mkRecommendation { name : string; reason : string }.

Definition importantUnused : list Recommendation :=
  [ {| name := "onBackPress"; reason := "处理返回键，提升用户体验" |};
    {| name := "aboutToReuse"; reason := "组件复用优化，提升性能" |};
    {| name := "aboutToRecycle"; reason := "组件回收优化，提升性能" |};
    {| name := "onNewWant"; reason := "处理新 Intent，支持应用唤起" |};
    {| name := "onConfigurationUpdate"; reason := "响应系统配置变化" |} ].

(** [stat && !stat.isUsed] as a condition: an absent entry is falsy. *)
Definition presentAndUnused (stat : option V2.CoverageStats) : bool :=
  match stat with
  | None => false
  | Some s => negb (V2.isUsed s)
  end.

(** The items that [printRecommendations] prints. *)
Definition printRecommendations (st : V2.State) : list Recommendation :=
  filter (fun item =>
            presentAndUnused (V2.componentLifecycleStats st !! name item) ||
            presentAndUnused (V2.abilityLifecycleStats st !! name item) = true)
         importantUnused.

End V2Report.

Module V3Report.

(** [Array.from(table.values())], in the insertion order of
    [initializeStats]. *)
Definition values (names : list string) (table : gmap string V3.CoverageStats)
  : list V3.CoverageStats :=
  omap (fun n => table !! n) (Js.setOf names).

(** The figures of one half of [printLifecycleCoverage]. *)
Record Coverage := mkCoverage {
  used : list V3.CoverageStats;   (* after the sort by usage count *)
  total : nat;
  usageCount : nat
}.

Definition coverage (names : list string) (table : gmap string V3.CoverageStats)
  : Coverage :=
  let used := filter (fun s => V3.isUsed s = true) (values names table) in
  {| total := size table;
     usageCount := fold_left (fun sum s => sum + V3.usageCount s) used 0;
     used := Js.sort (fun a b => (Z.of_nat (V3.usageCount b) - Z.of_nat (V3.usageCount a))%Z)
                     used |}.

(** [new Set(stat.classes).size] *)
Definition uniqueComponents (stat : V3.CoverageStats) : nat :=
  length (Js.setOf (V3.classes stat)).

(** The list of names that [printUnusedLifecycles] joins for one table. *)
Definition unused (names : list string) (table : gmap string V3.CoverageStats)
  : list string :=
  map V3.methodName (filter (fun s => V3.isUsed s = false) (values names table)).

Record Recommendation := mkRecommendation {
  name : string;
  type : string;
  reason : string
}.

Definition importantUnused : list Recommendation :=
  [ {| name := "onBackPress"; type := "Component"; reason := "处理返回键，提升用户体验" |};
    {| name := "aboutToReuse"; type := "Component"; reason := "组件复用优化，提升性能" |};
    {| name := "aboutToRecycle"; type := "Component"; reason := "组件回收优化，提升性能" |};
    {| name := "onNewWant"; type := "Ability"; reason := "处理新 Intent，支持应用唤起" |};
    {| name := "onConfigurationUpdate"; type := "Ability"; reason := "响应系统配置变化" |};
    {| name := "onDidBuild"; type := "Component"; reason := "组件构建完成后处理" |};
    {| name := "onWillApplyTheme"; type := "Component"; reason := "主题切换支持" |} ].

(** [!table.get(name)?.isUsed]: an absent entry gives [!undefined]. *)
Definition notUsed (stat : option V3.CoverageStats) : bool :=
  match stat with
  | None => true
  | Some s => negb (V3.isUsed s)
  end.

Definition isUnused (st : V3.State) (item : Recommendation) : bool :=
  if String.eqb (type item) "Component"
  then notUsed (V3.componentLifecycleStats st !! name item)
  else notUsed (V3.abilityLifecycleStats st !! name item).

(** The items that [printRecommendations] prints. *)
Definition printRecommendations (st : V3.State) : list Recommendation :=
  filter (fun item => isUnused st item = true) importantUnused.

End V3Report.

(** ** Export of the data flows of version 3 *)
Module V3Export.

Record Flow := mkFlow {
  to : string;
  variable : string;
  line : Z;
  callChain : list string
}.

Record MethodFlows := mkMethodFlows {
  method : string;
  flowCount : nat;
  flows : list Flow
}.

(** The object [exportData]. *)
Record ExportData := mkExportData {
  totalFlows : nat;
  lifecycleMethods : nat;
  timestamp : string;
  dataFlowsByMethod : list MethodFlows;
  allFlows : list V3.DataFlowInfo
}.

(** [exportDataFlowToJson]: the object that the function builds for
    [JSON.stringify]; [now] is [new Date().toISOString()].  [None]: the
    function returns before the [try] block and writes nothing. *)
Definition exportDataFlowToJson (now : string) (st : V3.State) : option ExportData :=
  if length (V3.dataFlows st) =? 0 then None
  else
    let flowsByMethod := Js.groupBy V3.from (V3.dataFlows st) in
    Some {| totalFlows := length (V3.dataFlows st);
            lifecycleMethods := length (V3.lifecycleMethods st);
            timestamp := now;
            dataFlowsByMethod :=
              Js.sort (fun a b => (Z.of_nat (flowCount b) - Z.of_nat (flowCount a))%Z)
                (map (fun '(method, flows) =>
                        {| method := method;
                           flowCount := length flows;
                           flows := map (fun f => {| to := V3.to f;
                                                     variable := V3.variable f;
                                                     line := V3.line f;
                                                     callChain := V3.callChain f |})
                                        flows |})
                     flowsByMethod);
            allFlows := V3.dataFlows st |}.

(** What [printDetailedDataFlow] prints for one method: its name with the
    number of its flows, the flows shown, and how many are not shown. *)
Record MethodSection := mkMethodSection {
  sectionMethod : string;
  sectionFlowCount : nat;
  displayFlows : list V3.DataFlowInfo;
  hiddenFlows : option Z
}.

(** [printDetailedDataFlow(limit)]; [None] is the early return on no data. *)
Definition printDetailedDataFlow (limit : nat) (st : V3.State)
  : option (list MethodSection) :=
  if length (V3.dataFlows st) =? 0 then None
  else
    let flowsByMethod := Js.groupBy V3.from (V3.dataFlows st) in
    let sortedMethods :=
      Js.slice0 limit
        (Js.sort (fun a b => (Z.of_nat (length (snd b)) - Z.of_nat (length (snd a)))%Z)
                 flowsByMethod) in
    Some (map (fun '(method, flows) =>
                 {| sectionMethod := method;
                    sectionFlowCount := length flows;
                    displayFlows := Js.slice0 10 flows;
                    hiddenFlows :=
                      if 10 <? length flows
                      then Some (Z.of_nat (length flows) - 10)%Z else None |})
              sortedMethods).

End V3Export.

(** ** Vocabulary of the properties *)

(** The test of the file loops: the name contains "test" or "Test". *)
Definition isTestFileName (fileName : string) : bool :=
  Text.includes fileName "test" || Text.includes fileName "Test".

(** The scene with the files of that kind removed; the class objects stay. *)
Definition withoutTestFiles (scene : Scene.t) : Scene.t :=
  {| Scene.getFiles :=
       filter (fun f => isTestFileName (ArkFile.getName f) = false) (Scene.getFiles scene);
     Scene.classObjects := Scene.classObjects scene |}.

Global Instance Stmt_eq_dec : EqDecision Stmt.t.
Proof. solve_decision. Defined.

Global Instance BasicBlock_eq_dec : EqDecision BasicBlock.t.
Proof. solve_decision. Defined.

Global Instance Cfg_eq_dec : EqDecision Cfg.t.
Proof. solve_decision. Defined.

Global Instance ArkMethod_eq_dec : EqDecision ArkMethod.t.
Proof. solve_decision. Defined.

Global Instance ArkClass_eq_dec : EqDecision ArkClass.t.
Proof. solve_decision. Defined.





(** The superclass chain that starts at [superClass] is finite: following
    [getSuperClass] reaches null (no superclass, or an unresolved one). *)
Inductive ChainEnds (scene : Scene.t) : option ArkClass.t -> Prop :=
| ChainEnds_null : ChainEnds scene None
| ChainEnds_step (sc : ArkClass.t) :
    ChainEnds scene (Scene.getSuperClass scene sc) -> ChainEnds scene (Some sc).

(** The text of an expression looks like an invocation. *)
Definition looksLikeInvocation (exprStr : string) : bool :=
  Text.includes exprStr "invoke" || Text.includes exprStr "call".

(** The solver is reached for method [m] and throws there. *)
Definition solverFailsOn (ext : External.t) (m : ArkMethod.t) : bool :=
  match ArkMethod.getCfg m with
  | None => false
  | Some cfg =>
      match Cfg.getBlocks cfg with
      | [] => false
      | block0 :: _ =>
          match BasicBlock.getStmts block0 with
          | [] => false
          | firstStmt :: _ =>
              match External.solve ext firstStmt m with
              | Raises => true
              | Returns _ => false
              end
          end
      end
  end.

(** Two scans agree on what they report: the issues and their count. *)
Definition V1_sameIssues (sc sc' : V1.UndefinedScan) : Prop :=
  V1.undefinedIssues (V1.scanState sc) = V1.undefinedIssues (V1.scanState sc') /\
  V1.issueCount sc = V1.issueCount sc'.

Definition V3_sameIssues (sc sc' : V3.UndefinedScan) : Prop :=
  V3.undefinedIssues (V3.scanState sc) = V3.undefinedIssues (V3.scanState sc') /\
  V3.issueCount sc = V3.issueCount sc'.

(** What [identifyMethod] of version 1 pushes for one method. *)
Definition V1_found (fileName className : string) (isAbility isComponent : bool)
    (m : ArkMethod.t) : list V1.LifecycleMethod :=
  (if isAbility && Text.arrayIncludes V1.ABILITY_LIFECYCLE (ArkMethod.getName m)
   then [ {| V1.method := m; V1.type := V1.ABILITY; V1.phase := ArkMethod.getName m;
             V1.className := className; V1.filePath := fileName |} ]
   else []) ++
  (if isComponent && Text.arrayIncludes V1.COMPONENT_LIFECYCLE (ArkMethod.getName m)
   then [ {| V1.method := m; V1.type := V1.COMPONENT; V1.phase := ArkMethod.getName m;
             V1.className := className; V1.filePath := fileName |} ]
   else []).

(** What [identifyMethod] of version 3 pushes for one method, under the
    catalogs [abilityNames] and [componentNames]. *)
Definition V3_found (abilityNames componentNames : list string)
    (fileName className : string) (isAbility isComponent : bool)
    (m : ArkMethod.t) : list V3.LifecycleMethodInfo :=
  (if isAbility && Text.arrayIncludes abilityNames (ArkMethod.getName m)
   then [ {| V3.method := m; V3.type := V3.ABILITY; V3.phase := ArkMethod.getName m;
             V3.className := className; V3.filePath := fileName;
             V3.lineNumber := V3.lineColOrZero m;
             V3.hasImplementation := V3.hasImpl m |} ]
   else []) ++
  (if isComponent && Text.arrayIncludes componentNames (ArkMethod.getName m)
   then [ {| V3.method := m; V3.type := V3.COMPONENT; V3.phase := ArkMethod.getName m;
             V3.className := className; V3.filePath := fileName;
             V3.lineNumber := V3.lineColOrZero m;
             V3.hasImplementation := V3.hasImpl m |} ]
   else []).

(** What identifies a LifecycleMethodRecord across versions: the method,
    the partition, the recognized name, the class and the file. *)
Definition RecordKey : Type := ArkMethod.t * string * string * string * string.

Definition V1_key (r : V1.LifecycleMethod) : RecordKey :=
  (V1.method r, V1.LifecycleType_value (V1.type r), V1.phase r,
   V1.className r, V1.filePath r).

Definition V3_key (r : V3.LifecycleMethodInfo) : RecordKey :=
  (V3.method r, V3.LifecycleType_value (V3.type r), V3.phase r,
   V3.className r, V3.filePath r).

(** The invariant of a CoverageStat entry. *)
Definition V2_consistent (stat : V2.CoverageStats) : Prop :=
  (V2.isUsed stat = true <-> 0 < V2.usageCount stat) /\
  (0 < V2.usageCount stat <-> V2.classes stat <> []).

Definition V3_consistent (stat : V3.CoverageStats) : Prop :=
  (V3.isUsed stat = true <-> 0 < V3.usageCount stat) /\
  (0 < V3.usageCount stat <-> V3.classes stat <> []).

(** An entry only grows: the count does not decrease, the collections are
    extended at the end, a used entry stays used. *)
Definition V2_statGrows (s s' : V2.CoverageStats) : Prop :=
  V2.usageCount s <= V2.usageCount s' /\
  V2.classes s `prefix_of` V2.classes s' /\
  (V2.isUsed s = true -> V2.isUsed s' = true).

Definition V3_statGrows (s s' : V3.CoverageStats) : Prop :=
  V3.usageCount s <= V3.usageCount s' /\
  V3.classes s `prefix_of` V3.classes s' /\
  V3.files s `prefix_of` V3.files s' /\
  (V3.isUsed s = true -> V3.isUsed s' = true).

(** A table only grows: every entry is still there and has grown. *)
Definition tableGrows {Stat} (grows : Stat -> Stat -> Prop)
    (t t' : gmap string Stat) : Prop :=
  forall n s, t !! n = Some s -> exists s', t' !! n = Some s' /\ grows s s'.

(** A table has an entry for every name of its catalog, and every entry
    satisfies the invariant. *)
Definition tableOk {Stat} (consistent : Stat -> Prop) (names : list string)
    (t : gmap string Stat) : Prop :=
  (forall n, n ∈ names -> is_Some (t !! n)) /\
  map_Forall (fun _ stat => consistent stat) t.

Definition V2_ok (abilityNames componentNames : list string) (st : V2.State) : Prop :=
  tableOk V2_consistent abilityNames (V2.abilityLifecycleStats st) /\
  tableOk V2_consistent componentNames (V2.componentLifecycleStats st).

Definition V3_ok (abilityNames componentNames : list string) (st : V3.State) : Prop :=
  tableOk V3_consistent abilityNames (V3.abilityLifecycleStats st) /\
  tableOk V3_consistent componentNames (V3.componentLifecycleStats st).

(** What a scan step may change in version 3: the two lifecycle tables grow,
    records are appended, the callback table is left alone. *)
Definition V3_extends (st st' : V3.State) : Prop :=
  tableGrows V3_statGrows (V3.abilityLifecycleStats st) (V3.abilityLifecycleStats st') /\
  tableGrows V3_statGrows (V3.componentLifecycleStats st)
             (V3.componentLifecycleStats st') /\
  V3.lifecycleMethods st `prefix_of` V3.lifecycleMethods st' /\
  V3.callbackStats st' = V3.callbackStats st.

Definition V2_extends (st st' : V2.State) : Prop :=
  tableGrows V2_statGrows (V2.abilityLifecycleStats st) (V2.abilityLifecycleStats st') /\
  tableGrows V2_statGrows (V2.componentLifecycleStats st)
             (V2.componentLifecycleStats st') /\
  V2.lifecycleMethods st `prefix_of` V2.lifecycleMethods st'.

(** Two states of version 3 hold the same three coverage tables and the
    same lifecycle methods. *)
Definition V3_sameTables (st st' : V3.State) : Prop :=
  V3.abilityLifecycleStats st' = V3.abilityLifecycleStats st /\
  V3.componentLifecycleStats st' = V3.componentLifecycleStats st /\
  V3.callbackStats st' = V3.callbackStats st /\
  V3.lifecycleMethods st' = V3.lifecycleMethods st.



(** The name of a class carries none of the two markers that only version 3
    skips. *)
Definition noAnonymousMarker (cls : ArkClass.t) : Prop :=
  Text.includes (ArkClass.getName cls) "%AC" = false /\
  Text.includes (ArkClass.getName cls) "%dflt" = false.

(** Every record of the version 1 analyzer is among the records of the
    version 3 analyzer, in the same order. *)
Definition V13_related (abilityNames componentNames : list string)
    (st1 : V1.State) (st3 : V3.State) : Prop :=
  V3_ok abilityNames componentNames st3 /\
  map V1_key (V1.lifecycleMethods st1) `sublist_of` map V3_key (V3.lifecycleMethods st3).

(** The same between two analyzers of version 3 under different catalogs. *)
Definition V33_related (abilityNames abilityNames' componentNames : list string)
    (st st' : V3.State) : Prop :=
  V3_ok abilityNames componentNames st /\
  V3_ok abilityNames' componentNames st' /\
  V3.lifecycleMethods st `sublist_of` V3.lifecycleMethods st'.

(** Every class of every file has a finite superclass chain. *)
Definition allChainsEnd (scene : Scene.t) : Prop :=
  Forall (fun file =>
            Forall (fun cls => ChainEnds scene (Scene.getSuperClass scene cls))
                   (ArkFile.getClasses file))
         (Scene.getFiles scene).





(** ** Vocabulary of the further properties *)

(** An association list that holds [f k] under every key [k] of [ks]. *)
Definition tabulate {V} (f : string -> V) (ks : list string) : list (string * V) :=
  map (fun k => (k, f k)) ks.

(** The elements of [xs] whose key is [k], in the order of [xs]. *)
Definition withKey {A} (key : A -> string) (k : string) (xs : list A) : list A :=
  filter (fun x => key x = k) xs.

(** Sorting by a count, largest first. *)
Definition byCountDesc {A} (count : A -> nat) (a b : A) : Z :=
  (Z.of_nat (count b) - Z.of_nat (count a))%Z.

(** The bytes of a string.  A class of characters below U+0080 holds all
    the bytes of a string exactly when it holds all its code units. *)
Definition codeUnits (s : string) : list ascii := String.list_ascii_of_string s.

(** What the graph of the DOT export keeps while it is collected: the nodes
    are distinct; an edge leaves a lifecycle signature and joins two nodes,
    its target is not empty; a node is a lifecycle signature or the target
    of an edge. *)
Definition graphOk (lifecycleSignatures : list string) (g : Dot.Graph) : Prop :=
  NoDup (Dot.nodes g) /\
  Forall (fun e => Dot.from e ∈ lifecycleSignatures /\
                   Dot.from e ∈ Dot.nodes g /\
                   Dot.to e ∈ Dot.nodes g /\
                   Dot.to e <> "")
         (Dot.edges g) /\
  Forall (fun n => n ∈ lifecycleSignatures \/
                   exists e, e ∈ Dot.edges g /\ Dot.to e = n)
         (Dot.nodes g).

(** The issues that a listing shows, each with the number printed before
    it, and the counts of hidden issues that it tells. *)
Definition shownIssues (out : list ProjectReport.Line)
  : list (nat * Project.UndefinedIssue) :=
  omap (fun l => match l with
                 | ProjectReport.IssueEntry n i => Some (n, i)
                 | _ => None
                 end) out.

Definition hiddenNotes (out : list ProjectReport.Line) : list Z :=
  omap (fun l => match l with
                 | ProjectReport.Remaining h => Some h
                 | _ => None
                 end) out.

(** The number of elements held by all groups but the last one. *)
Definition beforeLastGroup {A} (groups : list (string * list A)) : nat :=
  sum_list (map (fun g => length (snd g)) (removelast groups)).

(** The classes and the methods of the files that are not test files, in
    scene order. *)
Definition sourceClasses (scene : Scene.t) : list ArkClass.t :=
  flat_map ArkFile.getClasses (Scene.getFiles (withoutTestFiles scene)).

Definition sourceMethods (scene : Scene.t) : list ArkMethod.t :=
  flat_map ArkClass.getMethods (sourceClasses scene).

(** The test that makes the project analyzer leave a method out. *)
Definition Project_leftOut (m : ArkMethod.t) : bool :=
  Text.startsWith (ArkMethod.getName m) "__" ||
  String.eqb (ArkMethod.getName m) "constructor".

(** The issues that [checkStatement] adds for one statement. *)
Definition Project_stmtIssues (stmt : Stmt.t) (m : ArkMethod.t)
    (className fileName : string) : list Project.UndefinedIssue :=
  (if Text.includes (Stmt.toString stmt) "undefined"
   then [ {| Project.file := fileName; Project.className := className;
             Project.methodName := ArkMethod.getName m; Project.variable := "值";
             Project.line := Stmt.getLineNo stmt;
             Project.description := "可能使用了 undefined 值" |} ]
   else []) ++
  (if Text.includes (Stmt.toString stmt) "fieldload" &&
      Text.includes (Stmt.toString stmt) "null"
   then [ {| Project.file := fileName; Project.className := className;
             Project.methodName := ArkMethod.getName m; Project.variable := "字段";
             Project.line := Stmt.getLineNo stmt;
             Project.description := "可能的空指针字段访问" |} ]
   else []) ++
  (if Text.includes (Stmt.toString stmt) "arrayload"
   then [ {| Project.file := fileName; Project.className := className;
             Project.methodName := ArkMethod.getName m; Project.variable := "数组元素";
             Project.line := Stmt.getLineNo stmt;
             Project.description := "数组访问可能越界导致 undefined" |} ]
   else []).

(** A statement that the project analyzer scans: it belongs to a method
    that is not left out, of a class of a file that is not a test file, and
    the solver returned on the control-flow graph of the method. *)
Definition Project_scanned (ext : External.t) (scene : Scene.t)
    (file : ArkFile.t) (cls : ArkClass.t) (m : ArkMethod.t) (stmt : Stmt.t) : Prop :=
  file ∈ Scene.getFiles scene /\
  isTestFileName (ArkFile.getName file) = false /\
  cls ∈ ArkFile.getClasses file /\
  m ∈ ArkClass.getMethods cls /\
  Project_leftOut m = false /\
  exists cfg, ArkMethod.getCfg m = Some cfg /\
              External.solveCfg ext cfg = Returns () /\
              stmt ∈ Cfg.getStmts cfg.

(** The control-flow graph that the undefined-variable pass scans for a
    method (versions 1 and 3): the method has a body with at least one
    block, the first block has a first statement, and the solver returned
    on it. *)
Definition scannedCfg (ext : External.t) (m : ArkMethod.t) : option Cfg.t :=
  match ArkMethod.getCfg m with
  | None => None
  | Some cfg =>
      match Cfg.getBlocks cfg with
      | [] => None
      | block0 :: _ =>
          match BasicBlock.getStmts block0 with
          | [] => None
          | firstStmt :: _ =>
              match External.solve ext firstStmt m with
              | Raises => None
              | Returns _ => Some cfg
              end
          end
      end
  end.

(** The issue that the pass of version 1 reports for a statement. *)
Definition V1_issueOf (lm : V1.LifecycleMethod) (stmt : Stmt.t) : V1.UndefinedIssue :=
  {| V1.issueMethod := V1.className lm +:+ "." +:+ V1.phase lm;
     V1.issueLine := Stmt.getLineNo stmt;
     V1.description := V1.DESCRIPTION_PREFIX +:+ Text.substring0 60 (Stmt.toString stmt);
     V1.severity := V1.assessSeverity (Stmt.toString stmt) |}.

Definition V1_methodIssues (ext : External.t) (lm : V1.LifecycleMethod)
  : list V1.UndefinedIssue :=
  match scannedCfg ext (V1.method lm) with
  | None => []
  | Some cfg =>
      flat_map (fun stmt => if V1.containsUndefinedRisk (Stmt.toString stmt)
                            then [V1_issueOf lm stmt] else [])
               (Cfg.getStmts cfg)
  end.

(** The target of an invocation text: the extracted method, or nothing. *)
Definition targetOr (fallback : string) (exprStr : string) : string :=
  match V1.extractMethodFromInvoke exprStr with
  | Some targetMethod => targetMethod
  | None => fallback
  end.

(** The data flow that version 1 records for an expression. *)
Definition V1_flowOf (lm : V1.LifecycleMethod) (stmt : Stmt.t) (exprStr : string)
  : V1.DataFlowInfo :=
  {| V1.from := V1.className lm +:+ "." +:+ V1.phase lm;
     V1.to := targetOr (Text.substring0 60 exprStr) exprStr;
     V1.variable := "data";
     V1.line := Stmt.getLineNo stmt;
     V1.callChain := [V1.className lm +:+ "." +:+ V1.phase lm;
                      targetOr "unknown" exprStr] |}.

Definition V1_methodFlows (lm : V1.LifecycleMethod) : list V1.DataFlowInfo :=
  match ArkMethod.getCfg (V1.method lm) with
  | None => []
  | Some cfg =>
      flat_map (fun stmt =>
                  flat_map (fun exprStr => if looksLikeInvocation exprStr
                                           then [V1_flowOf lm stmt exprStr] else [])
                           (Stmt.getExprs stmt))
               (Cfg.getStmts cfg)
  end.

(** What the scan of version 1 leaves as the constructor set it. *)
Definition V1_fresh (st : V1.State) : Prop :=
  V1.undefinedIssues st = [] /\ V1.dataFlows st = [] /\ V1.callGraph st = None /\
  V1.callGraphNodes (V1.stats st) = 0 /\ V1.callGraphEdges (V1.stats st) = 0 /\
  V1.dataFlowPaths (V1.stats st) = 0 /\ V1.statUndefinedIssues (V1.stats st) = 0.

(** A string of word characters that is not empty. *)
Definition isWord (w : string) : Prop :=
  w <> "" /\ Forall (fun c => Text.isWordChar c = true) (codeUnits w).

(** The same for version 3. *)
Definition V3_issueOf (lm : V3.LifecycleMethodInfo) (stmt : Stmt.t) : V3.UndefinedIssue :=
  {| V3.issueMethod := V3.className lm +:+ "." +:+ V3.phase lm;
     V3.issueClassName := V3.className lm;
     V3.issueLine := Stmt.getLineNo stmt;
     V3.description := V3.DESCRIPTION_PREFIX +:+ Text.substring0 60 (Stmt.toString stmt);
     V3.severity := V3.assessSeverity (Stmt.toString stmt) |}.

Definition V3_methodIssues (ext : External.t) (lm : V3.LifecycleMethodInfo)
  : list V3.UndefinedIssue :=
  match scannedCfg ext (V3.method lm) with
  | None => []
  | Some cfg =>
      flat_map (fun stmt => if V3.containsUndefinedRisk (Stmt.toString stmt)
                            then [V3_issueOf lm stmt] else [])
               (Cfg.getStmts cfg)
  end.

Definition V3_flowOf (lm : V3.LifecycleMethodInfo) (stmt : Stmt.t) (exprStr : string)
  : V3.DataFlowInfo :=
  {| V3.from := V3.className lm +:+ "." +:+ V3.phase lm;
     V3.to := targetOr (Text.substring0 60 exprStr) exprStr;
     V3.variable := "data";
     V3.line := Stmt.getLineNo stmt;
     V3.callChain := [V3.className lm +:+ "." +:+ V3.phase lm;
                      targetOr "unknown" exprStr] |}.

Definition V3_methodFlows (lm : V3.LifecycleMethodInfo) : list V3.DataFlowInfo :=
  match ArkMethod.getCfg (V3.method lm) with
  | None => []
  | Some cfg =>
      flat_map (fun stmt =>
                  flat_map (fun exprStr => if looksLikeInvocation exprStr
                                           then [V3_flowOf lm stmt exprStr] else [])
                           (Stmt.getExprs stmt))
               (Cfg.getStmts cfg)
  end.

Definition V3_fresh (st : V3.State) : Prop :=
  V3.undefinedIssues st = [] /\ V3.dataFlows st = [] /\ V3.callGraph st = None /\
  V3.callGraphNodes (V3.stats st) = 0 /\ V3.callGraphEdges (V3.stats st) = 0 /\
  V3.dataFlowPaths (V3.stats st) = 0 /\ V3.statUndefinedIssues (V3.stats st) = 0.

Global Instance V2_LifecycleType_eq_dec : EqDecision V2.LifecycleType.
Proof. solve_decision. Defined.

Global Instance V3_LifecycleType_eq_dec : EqDecision V3.LifecycleType.
Proof. solve_decision. Defined.

(** The lifecycle records of partition [T] whose recognized name is [n]. *)
Definition V2_recordsOf (T : V2.LifecycleType) (n : string)
    (recs : list V2.LifecycleMethodInfo) : list V2.LifecycleMethodInfo :=
  filter (fun r => V2.type r = T /\ V2.phase r = n) recs.

Definition V3_recordsOf (T : V3.LifecycleType) (n : string)
    (recs : list V3.LifecycleMethodInfo) : list V3.LifecycleMethodInfo :=
  filter (fun r => V3.type r = T /\ V3.phase r = n) recs.

(** A coverage table of version 2 tells the lifecycle records of its
    partition: it has an entry for the names of its catalog and no other;
    the entry of a name counts the records of that name and lists their
    classes, one per record. *)
Definition V2_tableCounts (T : V2.LifecycleType) (names : list string)
    (table : gmap string V2.CoverageStats) (recs : list V2.LifecycleMethodInfo) : Prop :=
  (forall n, is_Some (table !! n) <-> n ∈ names) /\
  forall n stat, table !! n = Some stat ->
    V2.methodName stat = n /\
    V2.usageCount stat = length (V2_recordsOf T n recs) /\
    V2.isUsed stat = bool_decide (V2_recordsOf T n recs <> []) /\
    V2.classes stat = map V2.className (V2_recordsOf T n recs).

(** The same for version 3, where classes and files are listed once each,
    in the order of their first record. *)
Definition V3_tableCounts (T : V3.LifecycleType) (names : list string)
    (table : gmap string V3.CoverageStats) (recs : list V3.LifecycleMethodInfo) : Prop :=
  (forall n, is_Some (table !! n) <-> n ∈ names) /\
  forall n stat, table !! n = Some stat ->
    V3.methodName stat = n /\
    V3.usageCount stat = length (V3_recordsOf T n recs) /\
    V3.isUsed stat = bool_decide (V3_recordsOf T n recs <> []) /\
    V3.classes stat = Js.setOf (map V3.className (V3_recordsOf T n recs)) /\
    V3.files stat = Js.setOf (map V3.filePath (V3_recordsOf T n recs)).

(** Every record belongs to one of the two partitions that the scan fills,
    under a name of the catalog of that partition. *)
Definition V2_typed (abilityNames componentNames : list string)
    (recs : list V2.LifecycleMethodInfo) : Prop :=
  Forall (fun r => (V2.type r = V2.ABILITY /\ V2.phase r ∈ abilityNames) \/
                   (V2.type r = V2.COMPONENT /\ V2.phase r ∈ componentNames)) recs.

Definition V3_typed (abilityNames componentNames : list string)
    (recs : list V3.LifecycleMethodInfo) : Prop :=
  Forall (fun r => (V3.type r = V3.ABILITY /\ V3.phase r ∈ abilityNames) \/
                   (V3.type r = V3.COMPONENT /\ V3.phase r ∈ componentNames)) recs.

Definition V2_counted (abilityNames componentNames : list string) (st : V2.State) : Prop :=
  V2_tableCounts V2.ABILITY abilityNames (V2.abilityLifecycleStats st)
                 (V2.lifecycleMethods st) /\
  V2_tableCounts V2.COMPONENT componentNames (V2.componentLifecycleStats st)
                 (V2.lifecycleMethods st) /\
  V2_typed abilityNames componentNames (V2.lifecycleMethods st).

Definition V3_counted (abilityNames componentNames : list string) (st : V3.State) : Prop :=
  V3_tableCounts V3.ABILITY abilityNames (V3.abilityLifecycleStats st)
                 (V3.lifecycleMethods st) /\
  V3_tableCounts V3.COMPONENT componentNames (V3.componentLifecycleStats st)
                 (V3.lifecycleMethods st) /\
  V3_typed abilityNames componentNames (V3.lifecycleMethods st).

(** The partition that an item of the recommendations of version 3 names. *)
Definition V3_partitionOf (item : V3Report.Recommendation) : V3.LifecycleType :=
  if String.eqb (V3Report.type item) "Component" then V3.COMPONENT else V3.ABILITY.

(** A data flow as the JSON export lists it under its source. *)
Definition V3_exportedFlow (f : V3.DataFlowInfo) : V3Export.Flow :=
  {| V3Export.to := V3.to f; V3Export.variable := V3.variable f;
     V3Export.line := V3.line f; V3Export.callChain := V3.callChain f |}.

(** The part of the statistics that [checkStatement] leaves alone. *)
Definition Project_counts (st : Project.State) : nat * nat * nat * nat :=
  (Project.totalFiles (Project.stats st), Project.totalClasses (Project.stats st),
   Project.totalMethods (Project.stats st), Project.analyzedMethods (Project.stats st)).

(** The issues that the project analyzer adds for one method. *)
Definition Project_methodIssues (ext : External.t) (m : ArkMethod.t)
    (className fileName : string) : list Project.UndefinedIssue :=
  if Project_leftOut m then []
  else match ArkMethod.getCfg m with
       | None => []
       | Some cfg =>
           match External.solveCfg ext cfg with
           | Raises => []
           | Returns _ =>
               flat_map (fun stmt => Project_stmtIssues stmt m className fileName)
                        (Cfg.getStmts cfg)
           end
       end.

(** The issues that the project analyzer adds for one file. *)
Definition Project_fileIssues (ext : External.t) (file : ArkFile.t)
  : list Project.UndefinedIssue :=
  if isTestFileName (ArkFile.getName file) then []
  else flat_map (fun cls =>
                   flat_map (fun m => Project_methodIssues ext m (ArkClass.getName cls)
                                        (ArkFile.getName file))
                            (ArkClass.getMethods cls))
                (ArkFile.getClasses file).

(** The kinds of invocation that ArkAnalyzer prints before "invoke". *)
Definition invokeKinds : list string := ["instance"; "static"; "ptr"].

(** The fields that the undefined-variable pass leaves alone. *)
Definition V1_scanFrame (st : V1.State)
  : list V1.LifecycleMethod * option CallGraph.t * list V1.DataFlowInfo * V1.AnalysisStats :=
  (V1.lifecycleMethods st, V1.callGraph st, V1.dataFlows st, V1.stats st).

(** The fields that the data-flow pass leaves alone. *)
Definition V1_flowFrame (st : V1.State)
  : list V1.LifecycleMethod * option CallGraph.t * list V1.UndefinedIssue *
    V1.AnalysisStats :=
  (V1.lifecycleMethods st, V1.callGraph st, V1.undefinedIssues st, V1.stats st).

(** The fields that the undefined-variable pass leaves alone. *)
Definition V3_scanFrame (st : V3.State)
  : list V3.LifecycleMethodInfo * option CallGraph.t * list V3.DataFlowInfo *
    V3.AnalysisStats :=
  (V3.lifecycleMethods st, V3.callGraph st, V3.dataFlows st, V3.stats st).

(** The fields that the data-flow pass leaves alone. *)
Definition V3_flowFrame (st : V3.State)
  : list V3.LifecycleMethodInfo * option CallGraph.t * list V3.UndefinedIssue *
    V3.AnalysisStats :=
  (V3.lifecycleMethods st, V3.callGraph st, V3.undefinedIssues st, V3.stats st).

(** ** Concrete inputs used by the examples *)
Module Inputs.

Definition noBody (name : string) : ArkMethod.t :=
  {| ArkMethod.getName := name; ArkMethod.getSignature := name;
     ArkMethod.getCfg := None; ArkMethod.getLineCol := None |}.

Definition withBody (name : string) (stmts : list Stmt.t) : ArkMethod.t :=
  {| ArkMethod.getName := name; ArkMethod.getSignature := name;
     ArkMethod.getCfg := Some {| Cfg.getBlocks := [ {| BasicBlock.getStmts := stmts |} ] |};
     ArkMethod.getLineCol := Some 1%Z |}.

(** An external world in which nothing throws. *)
Definition quiet : External.t :=
  {| External.createDummyMain := Returns tt;
     External.dummyMainSignatures := ["@dummyMain"];
     External.makeCallGraphCHA := fun _ =>
       Returns {| CallGraph.getNodeNum := 1; CallGraph.getEdgeNum := 0 |};
     External.solve := fun _ _ => Returns tt;
     External.solveCfg := fun _ => Returns tt |}.

(** The same world with a solver that always throws. *)
Definition brokenSolver : External.t :=
  {| External.createDummyMain := Returns tt;
     External.dummyMainSignatures := ["@dummyMain"];
     External.makeCallGraphCHA := fun _ =>
       Returns {| CallGraph.getNodeNum := 1; CallGraph.getEdgeNum := 0 |};
     External.solve := fun _ _ => Raises;
     External.solveCfg := fun _ => Raises |}.

Definition undefinedStmt : Stmt.t :=
  {| Stmt.toString := "x = undefined"; Stmt.getLineNo := 3%Z; Stmt.getExprs := [] |}.

Definition undefinedNullStmt : Stmt.t :=
  {| Stmt.toString := "if x == undefined || x == null"; Stmt.getLineNo := 4%Z;
     Stmt.getExprs := ["x == undefined"; "x == null"] |}.

(** One statement that matches the three patterns of the project analyzer. *)
Definition threePatternStmt : Stmt.t :=
  {| Stmt.toString := "x = fieldload null arrayload undefined"; Stmt.getLineNo := 1%Z;
     Stmt.getExprs := [] |}.

(** An assignment of a string constant: the statement text contains the
    marker, the statement has no expression. *)
Definition markerWithoutExpr : Stmt.t :=
  {| Stmt.toString := "label = 'invoke'"; Stmt.getLineNo := 7%Z; Stmt.getExprs := [] |}.

(** A statement with two expressions that look like invocations. *)
Definition twoInvocations : Stmt.t :=
  {| Stmt.toString := "x = instanceinvoke a.<@f: .g()>() + staticinvoke <@f: .h()>()";
     Stmt.getLineNo := 8%Z;
     Stmt.getExprs := ["instanceinvoke a.<@f: .g()>()"; "staticinvoke <@f: .h()>()"] |}.

Definition v1Record (m : ArkMethod.t) : V1.LifecycleMethod :=
  {| V1.method := m; V1.type := V1.COMPONENT; V1.phase := ArkMethod.getName m;
     V1.className := "Dialog"; V1.filePath := "pages/Dialog.ets" |}.

Definition v3Record (m : ArkMethod.t) : V3.LifecycleMethodInfo :=
  {| V3.method := m; V3.type := V3.COMPONENT; V3.phase := ArkMethod.getName m;
     V3.className := "Dialog"; V3.filePath := "pages/Dialog.ets";
     V3.lineNumber := 1%Z; V3.hasImplementation := true |}.

Definition v1Scan : V1.UndefinedScan :=
  {| V1.scanState := V1.init; V1.analyzedCount := 0; V1.issueCount := 0 |}.

Definition v3Scan : V3.UndefinedScan :=
  {| V3.scanState := V3.init [] [] []; V3.analyzedCount := 0; V3.issueCount := 0 |}.

(** Two classes whose superclass references form a cycle; neither
    superclass name is a framework base. *)
Definition cycleA : ArkClass.t :=
  {| ArkClass.getName := "A"; ArkClass.getSuperClassName := "B";
     ArkClass.superClassRef := Some 1; ArkClass.getDecorators := [];
     ArkClass.getMethods := [] |}.

Definition cycleB : ArkClass.t :=
  {| ArkClass.getName := "B"; ArkClass.getSuperClassName := "A";
     ArkClass.superClassRef := Some 0; ArkClass.getDecorators := [];
     ArkClass.getMethods := [] |}.

Definition cyclicScene : Scene.t :=
  {| Scene.getFiles :=
       [ {| ArkFile.getName := "entry/A.ets"; ArkFile.getClasses := [cycleA; cycleB] |} ];
     Scene.classObjects := {[ 0 := cycleA; 1 := cycleB ]} |}.

(** A class whose superclass was not resolved: the name is known, the
    reference points at no class object. *)
Definition orphan : ArkClass.t :=
  {| ArkClass.getName := "Orphan"; ArkClass.getSuperClassName := "Missing";
     ArkClass.superClassRef := Some 9; ArkClass.getDecorators := [];
     ArkClass.getMethods := [noBody "onCreate"] |}.

Definition orphanScene : Scene.t :=
  {| Scene.getFiles :=
       [ {| ArkFile.getName := "entry/Orphan.ets"; ArkFile.getClasses := [orphan] |} ];
     Scene.classObjects := ∅ |}.

(** The class of the scenario: a component with a lifecycle method of three
    statements and a method named like a callback. *)
Definition popStmt : Stmt.t :=
  {| Stmt.toString := "instanceinvoke this.<@pages/Dialog.ets: Dialog.pop()>()";
     Stmt.getLineNo := 5%Z;
     Stmt.getExprs := ["instanceinvoke this.<@pages/Dialog.ets: Dialog.pop()>()"] |}.

Definition plainStmt : Stmt.t :=
  {| Stmt.toString := "return"; Stmt.getLineNo := 6%Z; Stmt.getExprs := [] |}.

Definition dialog : ArkClass.t :=
  {| ArkClass.getName := "Dialog"; ArkClass.getSuperClassName := "CustomComponent";
     ArkClass.superClassRef := None; ArkClass.getDecorators := ["Component"];
     ArkClass.getMethods :=
       [ withBody "aboutToAppear" [undefinedStmt; popStmt; plainStmt];
         noBody "onClick" ] |}.

Definition entryAbility : ArkClass.t :=
  {| ArkClass.getName := "EntryAbility"; ArkClass.getSuperClassName := "UIAbility";
     ArkClass.superClassRef := None; ArkClass.getDecorators := [];
     ArkClass.getMethods := [ withBody "onCreate" [plainStmt]; noBody "onDestroy" ] |}.

Definition dialogScene : Scene.t :=
  {| Scene.getFiles :=
       [ {| ArkFile.getName := "entry/EntryAbility.ets";
            ArkFile.getClasses := [entryAbility] |};
         {| ArkFile.getName := "pages/Dialog.ets"; ArkFile.getClasses := [dialog] |};
         {| ArkFile.getName := "ohosTest/Dialog.test.ets";
            ArkFile.getClasses := [dialog; entryAbility] |} ];
     Scene.classObjects := ∅ |}.

Definition callbackNames : list string := ["onClick"; "onTouch"].

(** A class that matches both base sets: its superclass name is a component
    base, and the superclass object of that name extends an ability base. *)
Definition viewPU : ArkClass.t :=
  {| ArkClass.getName := "ViewPU"; ArkClass.getSuperClassName := "UIAbility";
     ArkClass.superClassRef := None; ArkClass.getDecorators := [];
     ArkClass.getMethods := [] |}.

Definition hybrid : ArkClass.t :=
  {| ArkClass.getName := "Hybrid"; ArkClass.getSuperClassName := "ViewPU";
     ArkClass.superClassRef := Some 0; ArkClass.getDecorators := [];
     ArkClass.getMethods := [ noBody "onCreate"; noBody "aboutToAppear" ] |}.

Definition hybridScene : Scene.t :=
  {| Scene.getFiles :=
       [ {| ArkFile.getName := "entry/Hybrid.ets"; ArkFile.getClasses := [hybrid] |} ];
     Scene.classObjects := {[ 0 := viewPU ]} |}.

(** The analyzer of version 3 after [identifyLifecycleMethods] on the
    scenario, evaluated. *)
Definition dialogScanned : V3.State :=
  Eval vm_compute in
    match V3.identifyLifecycleMethods V1.ABILITY_LIFECYCLE V1.COMPONENT_LIFECYCLE
            dialogScene 1
            (V3.init V1.ABILITY_LIFECYCLE V1.COMPONENT_LIFECYCLE callbackNames) with
    | Normal st => st
    | _ => V3.init [] [] []
    end.

(** The analyzer of version 3 after the four steps on the scenario. *)
Definition dialogAnalyzed : V3.State :=
  Eval vm_compute in
    match V3.analyze V1.ABILITY_LIFECYCLE V1.COMPONENT_LIFECYCLE callbackNames
            quiet dialogScene 1 with
    | Normal st => st
    | _ => V3.init [] [] []
    end.

(** Modelled from the README of version 3: the 26 Ability lifecycle names
    it lists for [LIFECYCLE_METHOD_NAME]; the constant itself is imported
    from ArkAnalyzer. *)
Definition README_ABILITY_LIFECYCLE : list string :=
  [ "onCreate"; "onDestroy"; "onWindowStageCreate"; "onWindowStageDestroy";
    "onForeground"; "onBackground";
    "onWindowStageRestore"; "onWindowStageWillDestroy";
    "onNewWant"; "onConfigurationUpdate"; "onSaveState"; "onRestore";
    "onBackPressed"; "onInactive"; "onActive";
    "onContinue"; "onShare"; "onPrepareToTerminate"; "onMemoryLevel";
    "onConnect"; "onDisconnect"; "onRequest";
    "onDump"; "onWantParam"; "onSceneCreated"; "onSceneDestroyed" ].

(** Modelled from the README of version 3: the Component lifecycle names it
    lists for [COMPONENT_LIFECYCLE_METHOD_NAME]. *)
Definition README_COMPONENT_LIFECYCLE : list string :=
  [ "aboutToAppear"; "aboutToDisappear"; "build";
    "onPageShow"; "onPageHide"; "onBackPress";
    "onDidBuild";
    "aboutToReuse"; "aboutToRecycle";
    "onWillApplyTheme";
    "onLayout"; "onMeasure"; "onPlaceChildren"; "onMeasureSize";
    "onAreaChange"; "onVisibleAreaChange";
    "onFormRecycle"; "onFormRecover" ].

(** An anonymous class (the name ArkAnalyzer gives to a class expression)
    that extends an ability base and implements [onCreate]. *)
Definition anonymousAbility : ArkClass.t :=
  {| ArkClass.getName := "%AC0$EntryAbility.create";
     ArkClass.getSuperClassName := "UIAbility";
     ArkClass.superClassRef := None; ArkClass.getDecorators := [];
     ArkClass.getMethods := [ withBody "onCreate" [plainStmt] ] |}.

Definition anonymousScene : Scene.t :=
  {| Scene.getFiles :=
       [ {| ArkFile.getName := "entry/EntryAbility.ets";
            ArkFile.getClasses := [anonymousAbility] |} ];
     Scene.classObjects := ∅ |}.

(** The analyzer of version 1 after [identifyLifecycleMethods] on the
    scenario, evaluated. *)
Definition dialogScannedV1 : V1.State :=
  Eval vm_compute in
    match V1.identifyLifecycleMethods dialogScene 1 V1.init with
    | Normal st => st
    | _ => V1.init
    end.

End Inputs.

(** ** Further inputs: analyzed states of the scenario *)

Module Samples.

(** The analyzer of version 1 after the four steps on the scenario. *)
Definition dialogAnalyzedV1 : V1.State :=
  Eval vm_compute in
    match V1.analyze Inputs.quiet Inputs.dialogScene 1 with
    | Normal st => st
    | _ => V1.init
    end.

(** The analyzer of version 2 after [identifyLifecycleMethods] on the
    scenario. *)
Definition dialogScannedV2 : V2.State :=
  Eval vm_compute in
    match V2.identifyLifecycleMethods V1.ABILITY_LIFECYCLE V1.COMPONENT_LIFECYCLE
            Inputs.dialogScene 1
            (V2.init V1.ABILITY_LIFECYCLE V1.COMPONENT_LIFECYCLE) with
    | Normal st => st
    | _ => V2.init [] []
    end.

(** A scene for the project analyzer: a page whose method holds seven
    statements with three issues each, and a second page with one such
    statement. *)
Definition crowdedPage : ArkClass.t :=
  {| ArkClass.getName := "Crowded"; ArkClass.getSuperClassName := "";
     ArkClass.superClassRef := None; ArkClass.getDecorators := [];
     ArkClass.getMethods :=
       [ Inputs.withBody "build" (replicate 7 Inputs.threePatternStmt) ] |}.

Definition smallPage : ArkClass.t :=
  {| ArkClass.getName := "Small"; ArkClass.getSuperClassName := "";
     ArkClass.superClassRef := None; ArkClass.getDecorators := [];
     ArkClass.getMethods := [ Inputs.withBody "build" [Inputs.threePatternStmt] ] |}.

Definition crowdedScene : Scene.t :=
  {| Scene.getFiles :=
       [ {| ArkFile.getName := "pages/Crowded.ets"; ArkFile.getClasses := [crowdedPage] |};
         {| ArkFile.getName := "pages/Small.ets"; ArkFile.getClasses := [smallPage] |} ];
     Scene.classObjects := ∅ |}.

(** The project analyzer after [analyze] on that scene. *)
Definition crowdedAnalyzed : Project.State :=
  Eval vm_compute in Project.analyze Inputs.quiet crowdedScene Project.init.





End Samples.

(** * Properties *)

(** ** Loops, lists and catalog membership *)


Lemma fold_left_invariant {S A} (step : S -> A -> S) (P : S -> Prop) :
  (forall s x, P s -> P (step s x)) ->
  forall xs s, P s -> P (fold_left step xs s).
Proof.
  intros Hstep. induction xs as [|x xs IH]; intros s HP; simpl; auto.
Qed.





Lemma forEach_preserves {S A} (body : S -> A -> Completion S)
    (P : S -> Prop) (R : S -> S -> Prop) :
  (forall s, R s s) ->
  (forall a b c, R a b -> R b c -> R a c) ->
  (forall s x s', P s -> body s x = Normal s' -> P s' /\ R s s') ->
  forall xs s s', P s -> forEach body s xs = Normal s' -> P s' /\ R s s'.
Proof.
  intros Hrefl Htrans Hstep. induction xs as [|x xs IH]; intros s s' HP Hrun; simpl in Hrun.
  - injection Hrun as <-. auto.
  - destruct (body s x) as [s1| |] eqn:E; simpl in Hrun; try discriminate.
    destruct (Hstep _ _ _ HP E) as [HP1 HR1].
    destruct (IH _ _ HP1 Hrun) as [HP' HR']. eauto.
Qed.

Lemma forEach_no_throw {S A} (body : S -> A -> Completion S) (P : S -> Prop) :
  (forall s x s', P s -> body s x = Normal s' -> P s') ->
  (forall s x, P s -> body s x <> Throw) ->
  forall xs s, P s -> forEach body s xs <> Throw.
Proof.
  intros Hstep Hnt. induction xs as [|x xs IH]; intros s HP; simpl; [done|].
  destruct (body s x) as [s1| |] eqn:E; simpl.
  - apply IH. eauto.
  - by apply Hnt in E.
  - done.
Qed.

Lemma forEach_sim {S1 S2 A} (body1 : S1 -> A -> Completion S1)
    (body2 : S2 -> A -> Completion S2) (R : S1 -> S2 -> Prop) (Q : A -> Prop) :
  (forall s1 s2 x s1', Q x -> R s1 s2 -> body1 s1 x = Normal s1' ->
     exists s2', body2 s2 x = Normal s2' /\ R s1' s2') ->
  forall xs s1 s2 s1', Forall Q xs -> R s1 s2 -> forEach body1 s1 xs = Normal s1' ->
    exists s2', forEach body2 s2 xs = Normal s2' /\ R s1' s2'.
Proof.
  intros Hstep. induction xs as [|x xs IH]; intros s1 s2 s1' HQ HR Hrun; simpl in *.
  - injection Hrun as <-. eauto.
  - apply Forall_cons in HQ as [Hx HQ].
    destruct (body1 s1 x) as [t1| |] eqn:E; simpl in Hrun; try discriminate.
    destruct (Hstep _ _ _ _ Hx HR E) as (t2 & -> & HR'). simpl. eauto.
Qed.

Lemma forEach_eventually {S A} (body : nat -> S -> A -> Completion S)
    (P : S -> Prop) (Q : A -> Prop) :
  (forall x, Q x -> exists fuel, forall fuel', fuel <= fuel' -> forall s, P s ->
     exists s', body fuel' s x = Normal s' /\ P s') ->
  forall xs, Forall Q xs -> exists fuel, forall fuel', fuel <= fuel' -> forall s, P s ->
     exists s', forEach (body fuel') s xs = Normal s' /\ P s'.
Proof.
  intros Hstep xs HQ. induction HQ as [|x xs Hx _ IH].
  - exists 0. intros fuel' _ s Hs. exists s. by split.
  - destruct (Hstep x Hx) as (f1 & H1). destruct IH as (f2 & H2).
    exists (f1 `max` f2). intros fuel' Hle s Hs. simpl.
    destruct (H1 fuel' ltac:(lia) s Hs) as (s1 & -> & Hs1). simpl.
    apply H2; [lia|exact Hs1].
Qed.

Lemma flat_map_sublist {A B} (f g : A -> list B) xs :
  (forall x, f x `sublist_of` g x) -> flat_map f xs `sublist_of` flat_map g xs.
Proof.
  intros H. induction xs as [|x xs IH]; simpl; [done|]. by apply sublist_app.
Qed.

Lemma map_flat_map {A B C} (h : B -> C) (f : A -> list B) xs :
  map h (flat_map f xs) = flat_map (fun x => map h (f x)) xs.
Proof.
  induction xs as [|x xs IH]; simpl; [done|]. by rewrite map_app, IH.
Qed.

Lemma arrayIncludes_elem_of (arr : list string) (x : string) :
  Text.arrayIncludes arr x = true <-> x ∈ arr.
Proof.
  unfold Text.arrayIncludes. rewrite existsb_exists. split.
  - intros (y & Hy & Heq). apply String.eqb_eq in Heq. subst.
    by apply list_elem_of_In.
  - intros H. exists x. split; [by apply list_elem_of_In | apply String.eqb_refl].
Qed.

Lemma arrayIncludes_mono (l1 l2 : list string) x :
  l1 ⊆ l2 -> Text.arrayIncludes l1 x = true -> Text.arrayIncludes l2 x = true.
Proof. rewrite !arrayIncludes_elem_of. auto. Qed.

Ltac split_ifs :=
  repeat match goal with
         | |- context [if ?c then _ else _] => destruct c
         end.


(** ** The statement scans *)

Lemma V1_checkStmt_issues lm sc stmt :
  V1.undefinedIssues (V1.scanState (V1.checkStmt lm sc stmt)) =
  V1.undefinedIssues (V1.scanState sc) ++
  (if V1.containsUndefinedRisk (Stmt.toString stmt)
   then [ {| V1.issueMethod := V1.className lm +:+ "." +:+ V1.phase lm;
             V1.issueLine := Stmt.getLineNo stmt;
             V1.description :=
               V1.DESCRIPTION_PREFIX +:+ Text.substring0 60 (Stmt.toString stmt);
             V1.severity := V1.assessSeverity (Stmt.toString stmt) |} ]
   else []).
Proof.
  unfold V1.checkStmt. destruct (V1.containsUndefinedRisk _); simpl.
  - reflexivity.
  - by rewrite app_nil_r.
Qed.

Lemma V3_checkStmt_issues lm sc stmt :
  V3.undefinedIssues (V3.scanState (V3.checkStmt lm sc stmt)) =
  V3.undefinedIssues (V3.scanState sc) ++
  (if V3.containsUndefinedRisk (Stmt.toString stmt)
   then [ {| V3.issueMethod := V3.className lm +:+ "." +:+ V3.phase lm;
             V3.issueClassName := V3.className lm;
             V3.issueLine := Stmt.getLineNo stmt;
             V3.description :=
               V3.DESCRIPTION_PREFIX +:+ Text.substring0 60 (Stmt.toString stmt);
             V3.severity := V3.assessSeverity (Stmt.toString stmt) |} ]
   else []).
Proof.
  unfold V3.checkStmt. destruct (V3.containsUndefinedRisk _); simpl.
  - reflexivity.
  - by rewrite app_nil_r.
Qed.

Lemma Project_addIssue_issues i st :
  Project.issues (Project.addIssue i st) = Project.issues st ++ [i].
Proof. reflexivity. Qed.

(** C6: a statement whose text contains both "undefined" and "null" gets
    severity high: [assessSeverity] answers high, the scan of versions 1 and 3
    records exactly one issue for the statement, and that issue is high. *)
Theorem undefined_token_has_priority (stmt : Stmt.t) :
  Text.includes (Stmt.toString stmt) "undefined" = true ->
  Text.includes (Stmt.toString stmt) "null" = true ->
  (V1.assessSeverity (Stmt.toString stmt) = high /\
   forall lm sc, exists i,
     V1.undefinedIssues (V1.scanState (V1.checkStmt lm sc stmt)) =
       V1.undefinedIssues (V1.scanState sc) ++ [i] /\ V1.severity i = high) /\
  (V3.assessSeverity (Stmt.toString stmt) = high /\
   forall lm sc, exists i,
     V3.undefinedIssues (V3.scanState (V3.checkStmt lm sc stmt)) =
       V3.undefinedIssues (V3.scanState sc) ++ [i] /\ V3.severity i = high).
Proof.
  intros Hu Hn. split; split.
  - unfold V1.assessSeverity. by rewrite Hu.
  - intros lm sc. rewrite V1_checkStmt_issues.
    unfold V1.containsUndefinedRisk, V1.assessSeverity. rewrite Hu. simpl.
    eexists. split; [reflexivity|reflexivity].
  - unfold V3.assessSeverity. by rewrite Hu.
  - intros lm sc. rewrite V3_checkStmt_issues.
    unfold V3.containsUndefinedRisk, V3.assessSeverity. rewrite Hu. simpl.
    eexists. split; [reflexivity|reflexivity].
Qed.

Lemma undefined_token_has_priority_witness :
  V1.assessSeverity (Stmt.toString Inputs.undefinedNullStmt) = high /\
  V3.assessSeverity (Stmt.toString Inputs.undefinedNullStmt) = high.
Proof.
  destruct (undefined_token_has_priority Inputs.undefinedNullStmt) as [[H1 _] [H3 _]];
    [reflexivity | reflexivity | exact (conj H1 H3)].
Defined.

(** C5 does not hold for the project analyzer: one statement that matches its
    three patterns gets three issues in one pass of [checkStatement]. *)
Lemma checkStatement_three_issues :
  length (Project.issues
            (Project.checkStatement Inputs.threePatternStmt (Inputs.noBody "load")
               "Repo" "data/Repo.ets" Project.init)) = 3.
Proof. reflexivity. Qed.

(** C5, as the code has it: the scan of the lifecycle analyzers (versions 1
    and 3) adds one issue for a statement that [containsUndefinedRisk] accepts
    and none otherwise, whatever the number of patterns the text matches; the
    project analyzer's [checkStatement] adds one issue for each of its three
    patterns that matches, so between zero and three. *)
Theorem issues_per_statement :
  (forall lm sc stmt,
     length (V1.undefinedIssues (V1.scanState (V1.checkStmt lm sc stmt))) =
     length (V1.undefinedIssues (V1.scanState sc)) +
     (if V1.containsUndefinedRisk (Stmt.toString stmt) then 1 else 0)) /\
  (forall lm sc stmt,
     length (V3.undefinedIssues (V3.scanState (V3.checkStmt lm sc stmt))) =
     length (V3.undefinedIssues (V3.scanState sc)) +
     (if V3.containsUndefinedRisk (Stmt.toString stmt) then 1 else 0)) /\
  (forall stmt m className fileName st,
     let stmtStr := Stmt.toString stmt in
     let matched :=
       (if Text.includes stmtStr "undefined" then 1 else 0) +
       (if Text.includes stmtStr "fieldload" && Text.includes stmtStr "null"
        then 1 else 0) +
       (if Text.includes stmtStr "arrayload" then 1 else 0) in
     length (Project.issues (Project.checkStatement stmt m className fileName st)) =
       length (Project.issues st) + matched /\ matched <= 3).
Proof.
  split; [|split].
  - intros. rewrite V1_checkStmt_issues, length_app.
    by destruct (V1.containsUndefinedRisk _).
  - intros. rewrite V3_checkStmt_issues, length_app.
    by destruct (V3.containsUndefinedRisk _).
  - intros stmt m className fileName st. cbv zeta. unfold Project.checkStatement.
    destruct (Text.includes (Stmt.toString stmt) "undefined");
      destruct (Text.includes (Stmt.toString stmt) "fieldload" &&
                Text.includes (Stmt.toString stmt) "null");
      destruct (Text.includes (Stmt.toString stmt) "arrayload");
      destruct (Text.includes (Stmt.toString stmt) "?.");
      rewrite ?Project_addIssue_issues, ?length_app; simpl; lia.
Qed.

(** ** Data-flow extraction *)

Lemma V1_dataFlowExpr_flows lm stmt st exprStr :
  exists d,
    V1.dataFlows (V1.dataFlowExpr lm stmt st exprStr) =
    V1.dataFlows st ++ (if looksLikeInvocation exprStr then [d] else []).
Proof.
  unfold V1.dataFlowExpr, looksLikeInvocation.
  destruct (Text.includes exprStr "invoke" || Text.includes exprStr "call"); simpl.
  - eexists. reflexivity.
  - exists {| V1.from := ""; V1.to := ""; V1.variable := ""; V1.line := 0%Z;
              V1.callChain := [] |}.
    by rewrite app_nil_r.
Qed.

Lemma V1_dataFlowExprs_length lm stmt exprs st :
  length (V1.dataFlows (fold_left (V1.dataFlowExpr lm stmt) exprs st)) =
  length (V1.dataFlows st) + length (List.filter looksLikeInvocation exprs).
Proof.
  revert st. induction exprs as [|e exprs IH]; intros st; simpl; [lia|].
  rewrite IH. destruct (V1_dataFlowExpr_flows lm stmt st e) as [d ->].
  rewrite length_app. destruct (looksLikeInvocation e); simpl; lia.
Qed.

Lemma V3_dataFlowExpr_flows lm stmt st exprStr :
  exists d,
    V3.dataFlows (V3.dataFlowExpr lm stmt st exprStr) =
    V3.dataFlows st ++ (if looksLikeInvocation exprStr then [d] else []).
Proof.
  unfold V3.dataFlowExpr, looksLikeInvocation.
  destruct (Text.includes exprStr "invoke" || Text.includes exprStr "call"); simpl.
  - eexists. reflexivity.
  - exists {| V3.from := ""; V3.to := ""; V3.variable := ""; V3.line := 0%Z;
              V3.callChain := [] |}.
    by rewrite app_nil_r.
Qed.

Lemma V3_dataFlowExprs_length lm stmt exprs st :
  length (V3.dataFlows (fold_left (V3.dataFlowExpr lm stmt) exprs st)) =
  length (V3.dataFlows st) + length (List.filter looksLikeInvocation exprs).
Proof.
  revert st. induction exprs as [|e exprs IH]; intros st; simpl; [lia|].
  rewrite IH. destruct (V3_dataFlowExpr_flows lm stmt st e) as [d ->].
  rewrite length_app. destruct (looksLikeInvocation e); simpl; lia.
Qed.

(** C4 does not hold on the code: a statement whose text contains the marker
    and that holds no expression yields no record, and a statement with two
    expressions that look like invocations yields two. *)
Lemma records_follow_expressions_not_statements :
  let lm := Inputs.v1Record (Inputs.withBody "aboutToAppear"
                               [Inputs.markerWithoutExpr; Inputs.twoInvocations]) in
  Text.includes (Stmt.toString Inputs.markerWithoutExpr) "invoke" = true /\
  V1.dataFlows (V1.dataFlowStmt lm V1.init Inputs.markerWithoutExpr) = [] /\
  Text.includes (Stmt.toString Inputs.twoInvocations) "invoke" = true /\
  length (V1.dataFlows (V1.dataFlowStmt lm V1.init Inputs.twoInvocations)) = 2 /\
  map V1.line (V1.dataFlows (V1.analyzeMethodDataFlow V1.init lm)) = [8%Z; 8%Z].
Proof. vm_compute. repeat split; reflexivity. Qed.

(** C4, as the code has it: for every statement of a scanned lifecycle method,
    the number of DataFlowRecords produced for it is the number of its
    expressions whose text contains "invoke" or "call" (versions 1 and 3); the
    text of the statement itself is not looked at. *)
Theorem one_record_per_invocation_expression :
  (forall lm st stmt,
     length (V1.dataFlows (V1.dataFlowStmt lm st stmt)) =
     length (V1.dataFlows st) +
     length (List.filter looksLikeInvocation (Stmt.getExprs stmt))) /\
  (forall lm st stmt,
     length (V3.dataFlows (V3.dataFlowStmt lm st stmt)) =
     length (V3.dataFlows st) +
     length (List.filter looksLikeInvocation (Stmt.getExprs stmt))).
Proof.
  split; intros lm st stmt.
  - apply V1_dataFlowExprs_length.
  - apply V3_dataFlowExprs_length.
Qed.

(** ** The undefined-variable pass and the solver *)

Section SolverFailure.
Variable ext : External.t.

Lemma V1_checkStmt_sim lm sc sc' stmt :
  V1_sameIssues sc sc' ->
  V1_sameIssues (V1.checkStmt lm sc stmt) (V1.checkStmt lm sc' stmt).
Proof.
  intros [Hi Hc]. unfold V1.checkStmt, V1_sameIssues.
  destruct (V1.containsUndefinedRisk _); simpl; auto.
  by rewrite Hi, Hc.
Qed.

Lemma V1_checkStmts_sim lm stmts : forall sc sc',
  V1_sameIssues sc sc' ->
  V1_sameIssues (fold_left (V1.checkStmt lm) stmts sc)
                (fold_left (V1.checkStmt lm) stmts sc').
Proof.
  induction stmts as [|stmt stmts IH]; intros sc sc' H; simpl; [exact H|].
  apply IH. by apply V1_checkStmt_sim.
Qed.

Lemma V1_analyzeLifecycleMethod_sim lm sc sc' :
  V1_sameIssues sc sc' ->
  V1_sameIssues (V1.analyzeLifecycleMethod ext sc lm)
                (V1.analyzeLifecycleMethod ext sc' lm).
Proof.
  intros H. unfold V1.analyzeLifecycleMethod.
  destruct (ArkMethod.getCfg _) as [cfg|]; [|exact H].
  destruct (length (Cfg.getBlocks cfg) =? 0); [exact H|].
  assert (V1_sameIssues
            {| V1.scanState := V1.scanState sc;
               V1.analyzedCount := S (V1.analyzedCount sc);
               V1.issueCount := V1.issueCount sc |}
            {| V1.scanState := V1.scanState sc';
               V1.analyzedCount := S (V1.analyzedCount sc');
               V1.issueCount := V1.issueCount sc' |}) as H' by exact H.
  destruct (Cfg.getBlocks cfg) as [|block0 ?]; [exact H'|].
  destruct (BasicBlock.getStmts block0) as [|firstStmt ?]; [exact H'|].
  destruct (External.solve ext firstStmt _); [|exact H'].
  by apply V1_checkStmts_sim.
Qed.

Lemma V1_scan_sim lms : forall sc sc',
  V1_sameIssues sc sc' ->
  V1_sameIssues (fold_left (V1.analyzeLifecycleMethod ext) lms sc)
                (fold_left (V1.analyzeLifecycleMethod ext) lms sc').
Proof.
  induction lms as [|lm lms IH]; intros sc sc' H; simpl; [exact H|].
  apply IH. by apply V1_analyzeLifecycleMethod_sim.
Qed.

Lemma V1_solver_failure_step lm sc :
  solverFailsOn ext (V1.method lm) = true ->
  V1.analyzeLifecycleMethod ext sc lm =
  {| V1.scanState := V1.scanState sc;
     V1.analyzedCount := S (V1.analyzedCount sc);
     V1.issueCount := V1.issueCount sc |}.
Proof.
  unfold solverFailsOn, V1.analyzeLifecycleMethod.
  destruct (ArkMethod.getCfg _) as [cfg|]; [|discriminate].
  destruct (Cfg.getBlocks cfg) as [|block0 ?]; [discriminate|]. simpl.
  destruct (BasicBlock.getStmts block0) as [|firstStmt ?]; [discriminate|].
  by destruct (External.solve ext firstStmt _).
Qed.

Lemma V3_checkStmt_sim lm sc sc' stmt :
  V3_sameIssues sc sc' ->
  V3_sameIssues (V3.checkStmt lm sc stmt) (V3.checkStmt lm sc' stmt).
Proof.
  intros [Hi Hc]. unfold V3.checkStmt, V3_sameIssues.
  destruct (V3.containsUndefinedRisk _); simpl; auto.
  by rewrite Hi, Hc.
Qed.

Lemma V3_checkStmts_sim lm stmts : forall sc sc',
  V3_sameIssues sc sc' ->
  V3_sameIssues (fold_left (V3.checkStmt lm) stmts sc)
                (fold_left (V3.checkStmt lm) stmts sc').
Proof.
  induction stmts as [|stmt stmts IH]; intros sc sc' H; simpl; [exact H|].
  apply IH. by apply V3_checkStmt_sim.
Qed.

Lemma V3_analyzeLifecycleMethod_sim lm sc sc' :
  V3_sameIssues sc sc' ->
  V3_sameIssues (V3.analyzeLifecycleMethod ext sc lm)
                (V3.analyzeLifecycleMethod ext sc' lm).
Proof.
  intros H. unfold V3.analyzeLifecycleMethod.
  destruct (ArkMethod.getCfg _) as [cfg|]; [|exact H].
  destruct (length (Cfg.getBlocks cfg) =? 0); [exact H|].
  assert (V3_sameIssues
            {| V3.scanState := V3.scanState sc;
               V3.analyzedCount := S (V3.analyzedCount sc);
               V3.issueCount := V3.issueCount sc |}
            {| V3.scanState := V3.scanState sc';
               V3.analyzedCount := S (V3.analyzedCount sc');
               V3.issueCount := V3.issueCount sc' |}) as H' by exact H.
  destruct (Cfg.getBlocks cfg) as [|block0 ?]; [exact H'|].
  destruct (BasicBlock.getStmts block0) as [|firstStmt ?]; [exact H'|].
  destruct (External.solve ext firstStmt _); [|exact H'].
  by apply V3_checkStmts_sim.
Qed.

Lemma V3_scan_sim lms : forall sc sc',
  V3_sameIssues sc sc' ->
  V3_sameIssues (fold_left (V3.analyzeLifecycleMethod ext) lms sc)
                (fold_left (V3.analyzeLifecycleMethod ext) lms sc').
Proof.
  induction lms as [|lm lms IH]; intros sc sc' H; simpl; [exact H|].
  apply IH. by apply V3_analyzeLifecycleMethod_sim.
Qed.

Lemma V3_solver_failure_step lm sc :
  solverFailsOn ext (V3.method lm) = true ->
  V3.analyzeLifecycleMethod ext sc lm =
  {| V3.scanState := V3.scanState sc;
     V3.analyzedCount := S (V3.analyzedCount sc);
     V3.issueCount := V3.issueCount sc |}.
Proof.
  unfold solverFailsOn, V3.analyzeLifecycleMethod.
  destruct (ArkMethod.getCfg _) as [cfg|]; [|discriminate].
  destruct (Cfg.getBlocks cfg) as [|block0 ?]; [discriminate|]. simpl.
  destruct (BasicBlock.getStmts block0) as [|firstStmt ?]; [discriminate|].
  by destruct (External.solve ext firstStmt _).
Qed.

End SolverFailure.

Lemma V1_undefined_pass_without lm (ext : External.t) st st' l1 l2 :
  V1.lifecycleMethods st = l1 ++ lm :: l2 ->
  V1.lifecycleMethods st' = l1 ++ l2 ->
  V1.undefinedIssues st = V1.undefinedIssues st' ->
  solverFailsOn ext (V1.method lm) = true ->
  V1.undefinedIssues (V1.analyzeUndefinedVariables ext st) =
    V1.undefinedIssues (V1.analyzeUndefinedVariables ext st') /\
  V1.statUndefinedIssues (V1.stats (V1.analyzeUndefinedVariables ext st)) =
    V1.statUndefinedIssues (V1.stats (V1.analyzeUndefinedVariables ext st')).
Proof.
  intros H1 H2 Hi Hf. unfold V1.analyzeUndefinedVariables.
  rewrite H1, H2, !fold_left_app. simpl.
  rewrite (V1_solver_failure_step ext lm _ Hf).
  pose proof (V1_scan_sim ext l1
      {| V1.scanState := st; V1.analyzedCount := 0; V1.issueCount := 0 |}
      {| V1.scanState := st'; V1.analyzedCount := 0; V1.issueCount := 0 |}
      (conj Hi eq_refl)) as Hs.
  set (a := fold_left (V1.analyzeLifecycleMethod ext) l1
              {| V1.scanState := st; V1.analyzedCount := 0; V1.issueCount := 0 |}) in *.
  set (b := fold_left (V1.analyzeLifecycleMethod ext) l1
              {| V1.scanState := st'; V1.analyzedCount := 0; V1.issueCount := 0 |}) in *.
  assert (V1_sameIssues
            {| V1.scanState := V1.scanState a;
               V1.analyzedCount := S (V1.analyzedCount a);
               V1.issueCount := V1.issueCount a |} b) as Hs' by exact Hs.
  apply (V1_scan_sim ext l2) in Hs'. destruct Hs' as [Ha Hb].
  split; simpl; assumption.
Qed.

Lemma V3_undefined_pass_without lm (ext : External.t) st st' l1 l2 :
  V3.lifecycleMethods st = l1 ++ lm :: l2 ->
  V3.lifecycleMethods st' = l1 ++ l2 ->
  V3.undefinedIssues st = V3.undefinedIssues st' ->
  solverFailsOn ext (V3.method lm) = true ->
  V3.undefinedIssues (V3.analyzeUndefinedVariables ext st) =
    V3.undefinedIssues (V3.analyzeUndefinedVariables ext st') /\
  V3.statUndefinedIssues (V3.stats (V3.analyzeUndefinedVariables ext st)) =
    V3.statUndefinedIssues (V3.stats (V3.analyzeUndefinedVariables ext st')).
Proof.
  intros H1 H2 Hi Hf. unfold V3.analyzeUndefinedVariables.
  rewrite H1, H2, !fold_left_app. simpl.
  rewrite (V3_solver_failure_step ext lm _ Hf).
  pose proof (V3_scan_sim ext l1
      {| V3.scanState := st; V3.analyzedCount := 0; V3.issueCount := 0 |}
      {| V3.scanState := st'; V3.analyzedCount := 0; V3.issueCount := 0 |}
      (conj Hi eq_refl)) as Hs.
  set (a := fold_left (V3.analyzeLifecycleMethod ext) l1
              {| V3.scanState := st; V3.analyzedCount := 0; V3.issueCount := 0 |}) in *.
  set (b := fold_left (V3.analyzeLifecycleMethod ext) l1
              {| V3.scanState := st'; V3.analyzedCount := 0; V3.issueCount := 0 |}) in *.
  assert (V3_sameIssues
            {| V3.scanState := V3.scanState a;
               V3.analyzedCount := S (V3.analyzedCount a);
               V3.issueCount := V3.issueCount a |} b) as Hs' by exact Hs.
  apply (V3_scan_sim ext l2) in Hs'. destruct Hs' as [Ha Hb].
  split; simpl; assumption.
Qed.

(** C1 does not hold on the code: the only statement of the method contains
    "undefined"; with a solver that throws the pass reports nothing for it,
    with a solver that returns it reports one issue. *)
Lemma solver_failure_suppresses_scan :
  let m := Inputs.withBody "aboutToAppear" [Inputs.undefinedStmt] in
  let st := V1.pushLifecycleMethod (Inputs.v1Record m) V1.init in
  V1.containsUndefinedRisk (Stmt.toString Inputs.undefinedStmt) = true /\
  V1.undefinedIssues (V1.analyzeUndefinedVariables Inputs.brokenSolver st) = [] /\
  map V1.severity (V1.undefinedIssues (V1.analyzeUndefinedVariables Inputs.quiet st))
    = [high].
Proof. vm_compute. repeat split; reflexivity. Qed.

(** C1, as the code has it: when the solver throws while a lifecycle method is
    analyzed, the exception is swallowed and the pass goes on with the next
    lifecycle method, but the statements of that method are not scanned: the
    method adds no issue (only the count of analyzed methods moves), and the
    pass reports exactly what it reports when the method is left out of the
    list. Versions 1 and 3. *)
Theorem solver_failure_skips_the_method (ext : External.t) :
  (forall lm sc,
     solverFailsOn ext (V1.method lm) = true ->
     V1.analyzeLifecycleMethod ext sc lm =
       {| V1.scanState := V1.scanState sc;
          V1.analyzedCount := S (V1.analyzedCount sc);
          V1.issueCount := V1.issueCount sc |}) /\
  (forall lm st st' l1 l2,
     V1.lifecycleMethods st = l1 ++ lm :: l2 ->
     V1.lifecycleMethods st' = l1 ++ l2 ->
     V1.undefinedIssues st = V1.undefinedIssues st' ->
     solverFailsOn ext (V1.method lm) = true ->
     V1.undefinedIssues (V1.analyzeUndefinedVariables ext st) =
       V1.undefinedIssues (V1.analyzeUndefinedVariables ext st') /\
     V1.statUndefinedIssues (V1.stats (V1.analyzeUndefinedVariables ext st)) =
       V1.statUndefinedIssues (V1.stats (V1.analyzeUndefinedVariables ext st'))) /\
  (forall lm sc,
     solverFailsOn ext (V3.method lm) = true ->
     V3.analyzeLifecycleMethod ext sc lm =
       {| V3.scanState := V3.scanState sc;
          V3.analyzedCount := S (V3.analyzedCount sc);
          V3.issueCount := V3.issueCount sc |}) /\
  (forall lm st st' l1 l2,
     V3.lifecycleMethods st = l1 ++ lm :: l2 ->
     V3.lifecycleMethods st' = l1 ++ l2 ->
     V3.undefinedIssues st = V3.undefinedIssues st' ->
     solverFailsOn ext (V3.method lm) = true ->
     V3.undefinedIssues (V3.analyzeUndefinedVariables ext st) =
       V3.undefinedIssues (V3.analyzeUndefinedVariables ext st') /\
     V3.statUndefinedIssues (V3.stats (V3.analyzeUndefinedVariables ext st)) =
       V3.statUndefinedIssues (V3.stats (V3.analyzeUndefinedVariables ext st'))).
Proof.
  repeat split.
  - intros. by apply V1_solver_failure_step.
  - eapply V1_undefined_pass_without; eauto.
  - eapply V1_undefined_pass_without; eauto.
  - intros. by apply V3_solver_failure_step.
  - eapply V3_undefined_pass_without; eauto.
  - eapply V3_undefined_pass_without; eauto.
Qed.

Lemma solver_failure_skips_the_method_witness :
  let m := Inputs.withBody "aboutToAppear" [Inputs.undefinedStmt] in
  solverFailsOn Inputs.brokenSolver m = true /\
  V1.analyzeLifecycleMethod Inputs.brokenSolver Inputs.v1Scan (Inputs.v1Record m) =
    {| V1.scanState := V1.init; V1.analyzedCount := 1; V1.issueCount := 0 |} /\
  V3.analyzeLifecycleMethod Inputs.brokenSolver Inputs.v3Scan (Inputs.v3Record m) =
    {| V3.scanState := V3.init [] [] []; V3.analyzedCount := 1; V3.issueCount := 0 |}.
Proof.
  cbv zeta. split; [reflexivity|]. split.
  - apply (proj1 (solver_failure_skips_the_method Inputs.brokenSolver)). reflexivity.
  - apply (proj1 (proj2 (proj2 (solver_failure_skips_the_method Inputs.brokenSolver)))).
    reflexivity.
Defined.

(** ** The ancestor walk *)

Section AncestorWalk.
Variable scene : Scene.t.

Lemma V1_ancestorLoop_returns o :
  ChainEnds scene o ->
  exists fuel b, forall fuel', fuel <= fuel' -> V1.ancestorLoop scene fuel' o = Normal b.
Proof.
  intros H. induction H as [|sc H IH].
  - exists 1, false. intros fuel' Hle. destruct fuel'; [lia|reflexivity].
  - destruct IH as (fuel & b & IH).
    destruct (Text.arrayIncludes V1.ABILITY_BASE (ArkClass.getSuperClassName sc)) eqn:E.
    + exists 1, true. intros fuel' Hle. destruct fuel'; [lia|].
      cbn [V1.ancestorLoop V2.ancestorLoop V3.ancestorLoop]. by rewrite E.
    + exists (S fuel), b. intros fuel' Hle. destruct fuel'; [lia|].
      cbn [V1.ancestorLoop V2.ancestorLoop V3.ancestorLoop]. rewrite E.
      apply IH. lia.
Qed.

Lemma V2_ancestorLoop_returns o :
  ChainEnds scene o ->
  exists fuel b, forall fuel', fuel <= fuel' -> V2.ancestorLoop scene fuel' o = Normal b.
Proof.
  intros H. induction H as [|sc H IH].
  - exists 1, false. intros fuel' Hle. destruct fuel'; [lia|reflexivity].
  - destruct IH as (fuel & b & IH).
    destruct (Text.arrayIncludes V2.ABILITY_BASE (ArkClass.getSuperClassName sc)) eqn:E.
    + exists 1, true. intros fuel' Hle. destruct fuel'; [lia|].
      cbn [V1.ancestorLoop V2.ancestorLoop V3.ancestorLoop]. by rewrite E.
    + exists (S fuel), b. intros fuel' Hle. destruct fuel'; [lia|].
      cbn [V1.ancestorLoop V2.ancestorLoop V3.ancestorLoop]. rewrite E.
      apply IH. lia.
Qed.

Lemma V3_ancestorLoop_returns o :
  ChainEnds scene o ->
  exists fuel b, forall fuel', fuel <= fuel' -> V3.ancestorLoop scene fuel' o = Normal b.
Proof.
  intros H. induction H as [|sc H IH].
  - exists 1, false. intros fuel' Hle. destruct fuel'; [lia|reflexivity].
  - destruct IH as (fuel & b & IH).
    destruct (Text.arrayIncludes V3.ABILITY_BASE (ArkClass.getSuperClassName sc)) eqn:E.
    + exists 1, true. intros fuel' Hle. destruct fuel'; [lia|].
      cbn [V1.ancestorLoop V2.ancestorLoop V3.ancestorLoop]. by rewrite E.
    + exists (S fuel), b. intros fuel' Hle. destruct fuel'; [lia|].
      cbn [V1.ancestorLoop V2.ancestorLoop V3.ancestorLoop]. rewrite E.
      apply IH. lia.
Qed.

End AncestorWalk.

Lemma V1_isAbilityClass_returns scene cls :
  ChainEnds scene (Scene.getSuperClass scene cls) ->
  exists fuel b, forall fuel', fuel <= fuel' ->
    V1.isAbilityClass scene fuel' cls = Normal b.
Proof.
  intros H. unfold V1.isAbilityClass. destruct (Text.arrayIncludes _ _).
  - by exists 0, true.
  - by apply V1_ancestorLoop_returns.
Qed.

Lemma V2_isAbilityClass_returns scene cls :
  ChainEnds scene (Scene.getSuperClass scene cls) ->
  exists fuel b, forall fuel', fuel <= fuel' ->
    V2.isAbilityClass scene fuel' cls = Normal b.
Proof.
  intros H. unfold V2.isAbilityClass. destruct (Text.arrayIncludes _ _).
  - by exists 0, true.
  - by apply V2_ancestorLoop_returns.
Qed.

Lemma V3_isAbilityClass_returns scene cls :
  ChainEnds scene (Scene.getSuperClass scene cls) ->
  exists fuel b, forall fuel', fuel <= fuel' ->
    V3.isAbilityClass scene fuel' cls = Normal b.
Proof.
  intros H. unfold V3.isAbilityClass. destruct (Text.arrayIncludes _ _).
  - by exists 0, true.
  - by apply V3_ancestorLoop_returns.
Qed.

Lemma V2_ancestorLoop_no_throw scene fuel : forall o,
  V2.ancestorLoop scene fuel o <> Throw.
Proof.
  induction fuel as [|fuel IH]; intros o; cbn [V2.ancestorLoop]; [done|].
  destruct o as [sc|]; [|done].
  destruct (Text.arrayIncludes V2.ABILITY_BASE _); [done|apply IH].
Qed.

Lemma V3_ancestorLoop_no_throw scene fuel : forall o,
  V3.ancestorLoop scene fuel o <> Throw.
Proof.
  induction fuel as [|fuel IH]; intros o; cbn [V3.ancestorLoop]; [done|].
  destruct o as [sc|]; [|done].
  destruct (Text.arrayIncludes V3.ABILITY_BASE _); [done|apply IH].
Qed.

Lemma V3_isAbilityClass_no_throw scene fuel cls :
  V3.isAbilityClass scene fuel cls <> Throw.
Proof.
  unfold V3.isAbilityClass. destruct (Text.arrayIncludes _ _); [done|].
  apply V3_ancestorLoop_no_throw.
Qed.

Lemma cyclicScene_superclasses :
  Scene.getSuperClass Inputs.cyclicScene Inputs.cycleA = Some Inputs.cycleB /\
  Scene.getSuperClass Inputs.cyclicScene Inputs.cycleB = Some Inputs.cycleA.
Proof. split; reflexivity. Qed.

Lemma cycle_uses_up_every_bound fuel :
  V1.isAbilityClass Inputs.cyclicScene fuel Inputs.cycleA = OutOfFuel /\
  V2.isAbilityClass Inputs.cyclicScene fuel Inputs.cycleA = OutOfFuel /\
  V3.isAbilityClass Inputs.cyclicScene fuel Inputs.cycleA = OutOfFuel.
Proof.
  destruct cyclicScene_superclasses as [Ha Hb].
  assert (forall fuel,
    (V1.ancestorLoop Inputs.cyclicScene fuel (Some Inputs.cycleA) = OutOfFuel /\
     V1.ancestorLoop Inputs.cyclicScene fuel (Some Inputs.cycleB) = OutOfFuel) /\
    (V2.ancestorLoop Inputs.cyclicScene fuel (Some Inputs.cycleA) = OutOfFuel /\
     V2.ancestorLoop Inputs.cyclicScene fuel (Some Inputs.cycleB) = OutOfFuel) /\
    (V3.ancestorLoop Inputs.cyclicScene fuel (Some Inputs.cycleA) = OutOfFuel /\
     V3.ancestorLoop Inputs.cyclicScene fuel (Some Inputs.cycleB) = OutOfFuel)) as Hloop.
  { clear fuel. induction fuel as [|fuel IH]; [repeat split; reflexivity|].
    destruct IH as ([? ?] & [? ?] & [? ?]).
    repeat split; cbn [V1.ancestorLoop V2.ancestorLoop V3.ancestorLoop];
      rewrite ?Ha, ?Hb; assumption. }
  destruct (Hloop fuel) as ([_ H1] & [_ H2] & [_ H3]).
  unfold V1.isAbilityClass, V2.isAbilityClass, V3.isAbilityClass. rewrite Ha.
  repeat split; assumption.
Qed.

(** C2 does not hold on the code: on two classes that are each other's
    superclass there is no loop bound for which [isAbilityClass] returns, in
    any version: the loop keeps no visited set and does not terminate. *)
Lemma ancestor_walk_diverges_on_cycle :
  ~ (exists fuel b, V1.isAbilityClass Inputs.cyclicScene fuel Inputs.cycleA = Normal b) /\
  ~ (exists fuel b, V2.isAbilityClass Inputs.cyclicScene fuel Inputs.cycleA = Normal b) /\
  ~ (exists fuel b, V3.isAbilityClass Inputs.cyclicScene fuel Inputs.cycleA = Normal b).
Proof.
  repeat split; intros (fuel & b & H);
    destruct (cycle_uses_up_every_bound fuel) as (H1 & H2 & H3); congruence.
Qed.

(** C2, as the code has it: for every class whose superclass chain is finite
    (it ends at a class without superclass or with an unresolved one), the
    Ability check returns a boolean, the same for every large enough loop
    bound, and does not throw, in every version; the Component check is a
    total function. The walk keeps no visited set: on a cyclic chain without a
    framework base it does not terminate. *)
Theorem classification_returns_on_finite_chains (scene : Scene.t) (cls : ArkClass.t) :
  ChainEnds scene (Scene.getSuperClass scene cls) ->
  (exists fuel b, forall fuel', fuel <= fuel' ->
     V1.isAbilityClass scene fuel' cls = Normal b) /\
  (exists fuel b, forall fuel', fuel <= fuel' ->
     V2.isAbilityClass scene fuel' cls = Normal b) /\
  (exists fuel b, forall fuel', fuel <= fuel' ->
     V3.isAbilityClass scene fuel' cls = Normal b).
Proof.
  intros H. split; [|split].
  - by apply V1_isAbilityClass_returns.
  - by apply V2_isAbilityClass_returns.
  - by apply V3_isAbilityClass_returns.
Qed.

Lemma classification_returns_on_finite_chains_witness :
  ChainEnds Inputs.orphanScene (Scene.getSuperClass Inputs.orphanScene Inputs.orphan) /\
  exists fuel b, forall fuel', fuel <= fuel' ->
    V1.isAbilityClass Inputs.orphanScene fuel' Inputs.orphan = Normal b.
Proof.
  assert (ChainEnds Inputs.orphanScene
            (Scene.getSuperClass Inputs.orphanScene Inputs.orphan)) as H
    by (change (ChainEnds Inputs.orphanScene None); constructor).
  split; [exact H|].
  exact (proj1 (classification_returns_on_finite_chains
                  Inputs.orphanScene Inputs.orphan H)).
Defined.

(** ** Coverage tables *)

Section Tables.
Context {Stat : Type} (consistent : Stat -> Prop) (grows : Stat -> Stat -> Prop).
Hypothesis grows_refl : forall s, grows s s.
Hypothesis grows_trans : forall a b c, grows a b -> grows b c -> grows a c.

Lemma tableGrows_refl (t : gmap string Stat) : tableGrows grows t t.
Proof. intros n s H. eauto. Qed.

Lemma tableGrows_trans (t1 t2 t3 : gmap string Stat) :
  tableGrows grows t1 t2 -> tableGrows grows t2 t3 -> tableGrows grows t1 t3.
Proof.
  intros H12 H23 n s H. destruct (H12 _ _ H) as (s2 & H2 & G2).
  destruct (H23 _ _ H2) as (s3 & H3 & G3). eauto.
Qed.

Lemma tableGrows_insert (t : gmap string Stat) n s s' :
  t !! n = Some s -> grows s s' -> tableGrows grows t (<[n := s']> t).
Proof.
  intros H G k sk Hk. destruct (decide (n = k)) as [->|Hne].
  - rewrite lookup_insert_eq. exists s'. split; [done|]. congruence.
  - rewrite lookup_insert_ne by done. eauto.
Qed.

Lemma tableOk_insert names (t : gmap string Stat) n s' :
  tableOk consistent names t -> consistent s' ->
  tableOk consistent names (<[n := s']> t).
Proof.
  intros [Hdom Hall] Hc. split.
  - intros k Hk. destruct (decide (n = k)) as [->|Hne].
    + rewrite lookup_insert_eq. eauto.
    + rewrite lookup_insert_ne by done. auto.
  - by apply map_Forall_insert_2.
Qed.

End Tables.

(** *** Version 3 *)

Lemma V3_initTable_lookup names n :
  V3.initTable names !! n =
  if decide (n ∈ names) then Some (V3.unusedStat n) else None.
Proof.
  unfold V3.initTable.
  assert (forall (t : gmap string V3.CoverageStats),
    fold_left (fun table methodName => <[methodName := V3.unusedStat methodName]> table)
              names t !! n =
    if decide (n ∈ names) then Some (V3.unusedStat n) else t !! n) as H.
  { induction names as [|x names IH]; intros t; cbn [fold_left].
    - case_decide as Hin; [|done]. by apply elem_of_nil in Hin.
    - rewrite IH. case_decide as H1; case_decide as H2; try done.
      + exfalso. apply H2. by right.
      + apply elem_of_cons in H2 as [->|?]; [by rewrite lookup_insert_eq | done].
      + rewrite lookup_insert_ne; [done|]. intros ->. apply H2. by left. }
  rewrite H. by rewrite lookup_empty.
Qed.

Lemma V3_unusedStat_consistent n : V3_consistent (V3.unusedStat n).
Proof. split; simpl; split; intros H; try done; lia. Qed.

Lemma V3_initTable_ok names : tableOk V3_consistent names (V3.initTable names).
Proof.
  split.
  - intros n Hn. rewrite V3_initTable_lookup. by rewrite decide_True.
  - intros n s. rewrite V3_initTable_lookup. case_decide; [|done].
    intros [= <-]. apply V3_unusedStat_consistent.
Qed.

Lemma V3_init_ok A C CB : V3_ok A C (V3.init A C CB).
Proof. split; apply V3_initTable_ok. Qed.

Lemma pushIfAbsent_prefix arr x : arr `prefix_of` V3.pushIfAbsent arr x.
Proof.
  unfold V3.pushIfAbsent. destruct (Text.arrayIncludes arr x); [done|].
  by apply prefix_app_r.
Qed.

Lemma pushIfAbsent_nonempty arr x : V3.pushIfAbsent arr x <> [].
Proof.
  unfold V3.pushIfAbsent. destruct (Text.arrayIncludes arr x) eqn:E.
  - apply arrayIncludes_elem_of in E. intros ->. by apply elem_of_nil in E.
  - by destruct arr.
Qed.

Lemma V3_statGrows_refl s : V3_statGrows s s.
Proof. by repeat split. Qed.

Lemma V3_statGrows_trans a b c : V3_statGrows a b -> V3_statGrows b c -> V3_statGrows a c.
Proof.
  intros (H1 & H2 & H3 & H4) (G1 & G2 & G3 & G4). repeat split.
  - lia.
  - by etrans.
  - by etrans.
  - auto.
Qed.

Lemma V3_markUsed_consistent c f s : V3_consistent (V3.markUsed c f s).
Proof.
  split; simpl.
  - split; [lia | done].
  - split; [intros _; apply pushIfAbsent_nonempty | lia].
Qed.

Lemma V3_markUsed_grows c f s : V3_statGrows s (V3.markUsed c f s).
Proof.
  repeat split; simpl; auto using pushIfAbsent_prefix.
Qed.

Lemma V3_touch_spec names c f n t :
  tableOk V3_consistent names t -> n ∈ names ->
  exists t', V3.touch c f n t = Normal t' /\
             tableOk V3_consistent names t' /\ tableGrows V3_statGrows t t'.
Proof.
  intros Hok Hin. unfold V3.touch.
  destruct (proj1 Hok n Hin) as [s Hs]. rewrite Hs.
  eexists. split; [reflexivity|]. split.
  - apply tableOk_insert; [done | apply V3_markUsed_consistent].
  - eapply (tableGrows_insert _ V3_statGrows_refl); [done | apply V3_markUsed_grows].
Qed.

Lemma V3_extends_refl st : V3_extends st st.
Proof. repeat split; try done; apply tableGrows_refl, V3_statGrows_refl. Qed.

Lemma V3_extends_trans a b c : V3_extends a b -> V3_extends b c -> V3_extends a c.
Proof.
  intros (H1 & H2 & H3 & H4) (G1 & G2 & G3 & G4). repeat split.
  - eapply tableGrows_trans; eauto using V3_statGrows_trans.
  - eapply tableGrows_trans; eauto using V3_statGrows_trans.
  - by etrans.
  - congruence.
Qed.

Lemma V3_identifyMethod_spec A C f c a b st m :
  V3_ok A C st ->
  exists st', V3.identifyMethod A C f c a b st m = Normal st' /\
    V3_ok A C st' /\ V3_extends st st' /\
    V3.lifecycleMethods st' = V3.lifecycleMethods st ++ V3_found A C f c a b m.
Proof.
  intros [HA HC]. unfold V3.identifyMethod, V3_found.
  pose proof (tableGrows_refl _ V3_statGrows_refl (V3.abilityLifecycleStats st)) as RA.
  pose proof (tableGrows_refl _ V3_statGrows_refl (V3.componentLifecycleStats st)) as RC.
  destruct (a && Text.arrayIncludes A (ArkMethod.getName m)) eqn:Ea;
    destruct (b && Text.arrayIncludes C (ArkMethod.getName m)) eqn:Eb;
    try (apply andb_true_iff in Ea as [_ Ea]; apply arrayIncludes_elem_of in Ea;
         unfold V3.recordAbility at 1; simpl;
         destruct (V3_touch_spec A c f (ArkMethod.getName m) _ HA Ea)
           as (ta & -> & HA' & GA));
    try (apply andb_true_iff in Eb as [_ Eb]; apply arrayIncludes_elem_of in Eb;
         unfold V3.recordComponent; simpl;
         destruct (V3_touch_spec C c f (ArkMethod.getName m) _ HC Eb)
           as (tc & -> & HC' & GC));
    simpl; (eexists; split; [reflexivity|]); unfold V3_ok, V3_extends; simpl.
  - split; [done|]. split; [|by rewrite <- (assoc_L (++))].
    split; [done|]. split; [done|]. split; [|done].
    apply prefix_app_r. by apply prefix_app_r.
  - split; [done|]. split; [|done].
    split; [done|]. split; [done|]. split; [|done]. by apply prefix_app_r.
  - split; [done|]. split; [|done].
    split; [done|]. split; [done|]. split; [|done]. by apply prefix_app_r.
  - split; [done|]. split; [|by rewrite app_nil_r]. done.
Qed.

Lemma V3_identifyMethods_spec A C f c a b ms : forall st,
  V3_ok A C st ->
  exists st', forEach (V3.identifyMethod A C f c a b) st ms = Normal st' /\
    V3_ok A C st' /\ V3_extends st st' /\
    V3.lifecycleMethods st' =
      V3.lifecycleMethods st ++ flat_map (V3_found A C f c a b) ms.
Proof.
  induction ms as [|m ms IH]; intros st Hok; simpl.
  - exists st. rewrite app_nil_r. auto using V3_extends_refl.
  - destruct (V3_identifyMethod_spec A C f c a b st m Hok) as (st1 & -> & Hok1 & He1 & Hl1).
    simpl. destruct (IH st1 Hok1) as (st2 & -> & Hok2 & He2 & Hl2).
    exists st2. split; [done|]. split; [done|]. split.
    + eauto using V3_extends_trans.
    + rewrite Hl2, Hl1. by rewrite <- (assoc_L (++)).
Qed.

Lemma V3_identifyClass_spec A C scene fuel f st cls a :
  V3_ok A C st ->
  Text.includes (ArkClass.getName cls) "_DEFAULT_" = false ->
  Text.includes (ArkClass.getName cls) "%AC" = false ->
  Text.includes (ArkClass.getName cls) "%dflt" = false ->
  V3.isAbilityClass scene fuel cls = Normal a ->
  exists st', V3.identifyClass A C scene fuel f st cls = Normal st' /\
    V3_ok A C st' /\ V3_extends st st' /\
    V3.lifecycleMethods st' =
      V3.lifecycleMethods st ++
      flat_map (V3_found A C f (ArkClass.getName cls) a (V3.isComponentClass cls))
               (ArkClass.getMethods cls).
Proof.
  intros Hok H1 H2 H3 Ha. unfold V3.identifyClass. rewrite H1, H2, H3, Ha. simpl.
  match goal with
  | |- context [forEach _ ?s _] =>
      destruct (V3_identifyMethods_spec A C f (ArkClass.getName cls) a
                  (V3.isComponentClass cls) (ArkClass.getMethods cls) s)
        as (st' & Hrun & Hok' & He & Hl)
  end.
  { by destruct a, (V3.isComponentClass cls). }
  exists st'. split; [exact Hrun|]. split; [done|]. split.
  - destruct He as (E1 & E2 & E3 & E4).
    by destruct a, (V3.isComponentClass cls).
  - rewrite Hl. by destruct a, (V3.isComponentClass cls).
Qed.

Lemma V3_identifyClass_preserves A C scene fuel f st cls st' :
  V3_ok A C st ->
  V3.identifyClass A C scene fuel f st cls = Normal st' ->
  V3_ok A C st' /\ V3_extends st st'.
Proof.
  intros Hok Hrun.
  destruct (Text.includes (ArkClass.getName cls) "_DEFAULT_") eqn:H1;
    [unfold V3.identifyClass in Hrun; rewrite H1 in Hrun; injection Hrun as <-;
     auto using V3_extends_refl|].
  destruct (Text.includes (ArkClass.getName cls) "%AC") eqn:H2;
    [unfold V3.identifyClass in Hrun; rewrite H1, H2 in Hrun; injection Hrun as <-;
     auto using V3_extends_refl|].
  destruct (Text.includes (ArkClass.getName cls) "%dflt") eqn:H3;
    [unfold V3.identifyClass in Hrun; rewrite H1, H2, H3 in Hrun; injection Hrun as <-;
     auto using V3_extends_refl|].
  destruct (V3.isAbilityClass scene fuel cls) as [a| |] eqn:Ha;
    [|unfold V3.identifyClass in Hrun; rewrite H1, H2, H3, Ha in Hrun; discriminate..].
  destruct (V3_identifyClass_spec A C scene fuel f st cls a Hok H1 H2 H3 Ha)
    as (st2 & Hrun2 & ? & ? & _).
  rewrite Hrun in Hrun2. injection Hrun2 as <-. auto.
Qed.

Lemma V3_identifyFile_preserves A C scene fuel st file st' :
  V3_ok A C st ->
  V3.identifyFile A C scene fuel st file = Normal st' ->
  V3_ok A C st' /\ V3_extends st st'.
Proof.
  intros Hok. unfold V3.identifyFile.
  destruct (_ || _).
  - intros [= <-]. auto using V3_extends_refl.
  - apply (forEach_preserves _ (V3_ok A C) V3_extends);
      eauto using V3_extends_refl, V3_extends_trans, V3_identifyClass_preserves.
Qed.

Lemma V3_identifyLifecycleMethods_preserves A C scene fuel st st' :
  V3_ok A C st ->
  V3.identifyLifecycleMethods A C scene fuel st = Normal st' ->
  V3_ok A C st' /\ V3_extends st st'.
Proof.
  intros Hok. unfold V3.identifyLifecycleMethods.
  destruct (forEach _ _ _) as [st1| |] eqn:Hrun; simpl; try discriminate.
  intros [= <-].
  apply (forEach_preserves _ (V3_ok A C) V3_extends) in Hrun;
    eauto using V3_extends_refl, V3_extends_trans, V3_identifyFile_preserves.
Qed.

Lemma V3_identifyClass_no_throw A C scene fuel f st cls :
  V3_ok A C st -> V3.identifyClass A C scene fuel f st cls <> Throw.
Proof.
  intros Hok.
  destruct (Text.includes (ArkClass.getName cls) "_DEFAULT_") eqn:H1;
    [unfold V3.identifyClass; by rewrite H1|].
  destruct (Text.includes (ArkClass.getName cls) "%AC") eqn:H2;
    [unfold V3.identifyClass; by rewrite H1, H2|].
  destruct (Text.includes (ArkClass.getName cls) "%dflt") eqn:H3;
    [unfold V3.identifyClass; by rewrite H1, H2, H3|].
  destruct (V3.isAbilityClass scene fuel cls) as [a| |] eqn:Ha.
  - destruct (V3_identifyClass_spec A C scene fuel f st cls a Hok H1 H2 H3 Ha)
      as (st2 & -> & _). done.
  - by apply V3_isAbilityClass_no_throw in Ha.
  - unfold V3.identifyClass. by rewrite H1, H2, H3, Ha.
Qed.

Lemma V3_identifyFile_no_throw A C scene fuel st file :
  V3_ok A C st -> V3.identifyFile A C scene fuel st file <> Throw.
Proof.
  intros Hok. unfold V3.identifyFile. destruct (_ || _); [done|].
  apply (forEach_no_throw _ (V3_ok A C)); [| |exact Hok].
  - intros s x s' Hs Hx.
    by apply (V3_identifyClass_preserves A C scene fuel (ArkFile.getName file) s x s').
  - intros. by apply V3_identifyClass_no_throw.
Qed.

Lemma V3_identifyLifecycleMethods_no_throw A C scene fuel st :
  V3_ok A C st -> V3.identifyLifecycleMethods A C scene fuel st <> Throw.
Proof.
  intros Hok. unfold V3.identifyLifecycleMethods.
  assert (forEach (V3.identifyFile A C scene fuel)
            (V3.mapStats (V3.setTotalFiles (length (Scene.getFiles scene))) st)
            (Scene.getFiles scene) <> Throw) as Hnt.
  { apply (forEach_no_throw _ (V3_ok A C)); [| |exact Hok].
    - intros s x s' Hs Hx. by apply (V3_identifyFile_preserves A C scene fuel s x s').
    - intros. by apply V3_identifyFile_no_throw. }
  by destruct (forEach _ _ _).
Qed.

Lemma V3_identifyClass_returns A C scene cls :
  ChainEnds scene (Scene.getSuperClass scene cls) ->
  exists fuel, forall fuel', fuel <= fuel' -> forall f st, V3_ok A C st ->
    exists st', V3.identifyClass A C scene fuel' f st cls = Normal st' /\ V3_ok A C st'.
Proof.
  intros Hch. destruct (V3_isAbilityClass_returns scene cls Hch) as (fuel & b & Hb).
  exists fuel. intros fuel' Hle f st Hok.
  destruct (Text.includes (ArkClass.getName cls) "_DEFAULT_") eqn:H1;
    [unfold V3.identifyClass; rewrite H1; by exists st|].
  destruct (Text.includes (ArkClass.getName cls) "%AC") eqn:H2;
    [unfold V3.identifyClass; rewrite H1, H2; by exists st|].
  destruct (Text.includes (ArkClass.getName cls) "%dflt") eqn:H3;
    [unfold V3.identifyClass; rewrite H1, H2, H3; by exists st|].
  destruct (V3_identifyClass_spec A C scene fuel' f st cls b Hok H1 H2 H3 (Hb _ Hle))
    as (st' & Hrun & Hok' & _). eauto.
Qed.

Lemma V3_identifyFile_returns A C scene file :
  Forall (fun cls => ChainEnds scene (Scene.getSuperClass scene cls))
         (ArkFile.getClasses file) ->
  exists fuel, forall fuel', fuel <= fuel' -> forall st, V3_ok A C st ->
    exists st', V3.identifyFile A C scene fuel' st file = Normal st' /\ V3_ok A C st'.
Proof.
  intros Hch.
  destruct (forEach_eventually
              (fun fuel => V3.identifyClass A C scene fuel (ArkFile.getName file))
              (V3_ok A C)
              (fun cls => ChainEnds scene (Scene.getSuperClass scene cls)))
    with (xs := ArkFile.getClasses file) as (fuel & Hf); [|exact Hch|].
  { intros cls H. destruct (V3_identifyClass_returns A C scene cls H) as (fuel & Hf).
    exists fuel. intros fuel' Hle s Hs. by apply Hf. }
  exists fuel. intros fuel' Hle st Hok. unfold V3.identifyFile.
  destruct (_ || _); [by exists st|]. by apply Hf.
Qed.

Lemma V3_identifyLifecycleMethods_returns A C scene :
  allChainsEnd scene ->
  exists fuel, forall fuel', fuel <= fuel' -> forall st, V3_ok A C st ->
    exists st', V3.identifyLifecycleMethods A C scene fuel' st = Normal st'.
Proof.
  intros Hch.
  destruct (forEach_eventually (V3.identifyFile A C scene) (V3_ok A C) _
              (V3_identifyFile_returns A C scene) _ Hch) as (fuel & Hf).
  exists fuel. intros fuel' Hle st Hok. unfold V3.identifyLifecycleMethods.
  destruct (Hf fuel' Hle (V3.mapStats (V3.setTotalFiles (length (Scene.getFiles scene))) st)
              Hok) as (st' & -> & _).
  simpl. eauto.
Qed.

(** *** Version 2 *)

Lemma V2_initTable_lookup names n :
  V2.initTable names !! n =
  if decide (n ∈ names) then Some (V2.unusedStat n) else None.
Proof.
  unfold V2.initTable.
  assert (forall (t : gmap string V2.CoverageStats),
    fold_left (fun table methodName => <[methodName := V2.unusedStat methodName]> table)
              names t !! n =
    if decide (n ∈ names) then Some (V2.unusedStat n) else t !! n) as H.
  { induction names as [|x names IH]; intros t; cbn [fold_left].
    - case_decide as Hin; [|done]. by apply elem_of_nil in Hin.
    - rewrite IH. case_decide as H1; case_decide as H2; try done.
      + exfalso. apply H2. by right.
      + apply elem_of_cons in H2 as [->|?]; [by rewrite lookup_insert_eq | done].
      + rewrite lookup_insert_ne; [done|]. intros ->. apply H2. by left. }
  rewrite H. by rewrite lookup_empty.
Qed.

Lemma V2_unusedStat_consistent n : V2_consistent (V2.unusedStat n).
Proof. split; simpl; split; intros H; try done; lia. Qed.

Lemma V2_initTable_ok names : tableOk V2_consistent names (V2.initTable names).
Proof.
  split.
  - intros n Hn. rewrite V2_initTable_lookup. by rewrite decide_True.
  - intros n s. rewrite V2_initTable_lookup. case_decide; [|done].
    intros [= <-]. apply V2_unusedStat_consistent.
Qed.

Lemma V2_init_ok A C : V2_ok A C (V2.init A C).
Proof. split; apply V2_initTable_ok. Qed.

Lemma V2_statGrows_refl s : V2_statGrows s s.
Proof. by repeat split. Qed.

Lemma V2_statGrows_trans a b c : V2_statGrows a b -> V2_statGrows b c -> V2_statGrows a c.
Proof.
  intros (H1 & H2 & H3) (G1 & G2 & G3). repeat split.
  - lia.
  - by etrans.
  - auto.
Qed.

Lemma V2_markUsed_consistent c s : V2_consistent (V2.markUsed c s).
Proof.
  split; simpl.
  - split; [lia | done].
  - split; [intros _; by destruct (V2.classes s) | lia].
Qed.

Lemma V2_markUsed_grows c s : V2_statGrows s (V2.markUsed c s).
Proof. repeat split; simpl; auto. by apply prefix_app_r. Qed.

Lemma V2_touch_spec names c n t :
  tableOk V2_consistent names t -> n ∈ names ->
  exists t', V2.touch c n t = Normal t' /\
             tableOk V2_consistent names t' /\ tableGrows V2_statGrows t t'.
Proof.
  intros Hok Hin. unfold V2.touch.
  destruct (proj1 Hok n Hin) as [s Hs]. rewrite Hs.
  eexists. split; [reflexivity|]. split.
  - apply tableOk_insert; [done | apply V2_markUsed_consistent].
  - eapply (tableGrows_insert _ V2_statGrows_refl); [done | apply V2_markUsed_grows].
Qed.

Lemma V2_extends_refl st : V2_extends st st.
Proof. repeat split; try done; apply tableGrows_refl, V2_statGrows_refl. Qed.

Lemma V2_extends_trans a b c : V2_extends a b -> V2_extends b c -> V2_extends a c.
Proof.
  intros (H1 & H2 & H3) (G1 & G2 & G3). repeat split.
  - eapply tableGrows_trans; eauto using V2_statGrows_trans.
  - eapply tableGrows_trans; eauto using V2_statGrows_trans.
  - by etrans.
Qed.

Lemma V2_identifyMethod_spec A C f c a b st m :
  V2_ok A C st ->
  exists st', V2.identifyMethod A C f c a b st m = Normal st' /\
    V2_ok A C st' /\ V2_extends st st'.
Proof.
  intros [HA HC]. unfold V2.identifyMethod.
  pose proof (tableGrows_refl _ V2_statGrows_refl (V2.abilityLifecycleStats st)) as RA.
  pose proof (tableGrows_refl _ V2_statGrows_refl (V2.componentLifecycleStats st)) as RC.
  destruct (a && Text.arrayIncludes A (ArkMethod.getName m)) eqn:Ea;
    destruct (b && Text.arrayIncludes C (ArkMethod.getName m)) eqn:Eb;
    try (apply andb_true_iff in Ea as [_ Ea]; apply arrayIncludes_elem_of in Ea;
         destruct (V2_touch_spec A c (ArkMethod.getName m) _ HA Ea)
           as (ta & -> & HA' & GA));
    simpl;
    try (apply andb_true_iff in Eb as [_ Eb]; apply arrayIncludes_elem_of in Eb;
         destruct (V2_touch_spec C c (ArkMethod.getName m) _ HC Eb)
           as (tc & -> & HC' & GC));
    simpl; (eexists; split; [reflexivity|]); unfold V2_ok, V2_extends; simpl.
  - split; [done|]. split; [done|]. split; [done|].
    apply prefix_app_r. by apply prefix_app_r.
  - split; [done|]. split; [done|]. split; [done|]. by apply prefix_app_r.
  - split; [done|]. split; [done|]. split; [done|]. by apply prefix_app_r.
  - done.
Qed.

Lemma V2_identifyClass_preserves A C scene fuel f acc cls acc' :
  V2_ok A C (fst acc) ->
  V2.identifyClass A C scene fuel f acc cls = Normal acc' ->
  V2_ok A C (fst acc') /\ V2_extends (fst acc) (fst acc').
Proof.
  destruct acc as [st loc]. simpl. intros Hok. unfold V2.identifyClass.
  destruct (_ || _).
  - intros [= <-]. auto using V2_extends_refl.
  - destruct (V2.isAbilityClass scene fuel cls) as [a| |]; simpl; try discriminate.
    destruct (forEach _ _ _) as [st1| |] eqn:Hrun; simpl; try discriminate.
    intros [= <-]. simpl.
    apply (forEach_preserves _ (V2_ok A C) V2_extends) in Hrun;
      eauto using V2_extends_refl, V2_extends_trans.
    intros s x s' Hs Hx.
    destruct (V2_identifyMethod_spec A C f (ArkClass.getName cls) a
                (V2.isComponentClass cls) s x Hs) as (s2 & Hx2 & ? & ?).
    rewrite Hx in Hx2. injection Hx2 as <-. auto.
Qed.

Lemma V2_identifyFile_preserves A C scene fuel acc file acc' :
  V2_ok A C (fst acc) ->
  V2.identifyFile A C scene fuel acc file = Normal acc' ->
  V2_ok A C (fst acc') /\ V2_extends (fst acc) (fst acc').
Proof.
  intros Hok. unfold V2.identifyFile.
  destruct (_ || _).
  - intros [= <-]. auto using V2_extends_refl.
  - apply (forEach_preserves _ (fun acc => V2_ok A C (fst acc))
             (fun acc acc' => V2_extends (fst acc) (fst acc')));
      eauto using V2_extends_refl, V2_extends_trans, V2_identifyClass_preserves.
Qed.

Lemma V2_identifyLifecycleMethods_preserves A C scene fuel st st' :
  V2_ok A C st ->
  V2.identifyLifecycleMethods A C scene fuel st = Normal st' ->
  V2_ok A C st' /\ V2_extends st st'.
Proof.
  intros Hok. unfold V2.identifyLifecycleMethods.
  destruct (forEach _ _ _) as [acc1| |] eqn:Hrun; simpl; try discriminate.
  intros [= <-].
  apply (forEach_preserves _ (fun acc => V2_ok A C (fst acc))
           (fun acc acc' => V2_extends (fst acc) (fst acc'))) in Hrun;
    eauto using V2_extends_refl, V2_extends_trans, V2_identifyFile_preserves.
Qed.

Lemma V2_identifyClass_no_throw A C scene fuel f acc cls :
  V2_ok A C (fst acc) -> V2.identifyClass A C scene fuel f acc cls <> Throw.
Proof.
  destruct acc as [st loc]. simpl. intros Hok. unfold V2.identifyClass.
  destruct (_ || _); [done|].
  unfold V2.isAbilityClass.
  destruct (Text.arrayIncludes V2.ABILITY_BASE _); simpl.
  - assert (forEach (V2.identifyMethod A C f (ArkClass.getName cls) true
                       (V2.isComponentClass cls)) st (ArkClass.getMethods cls)
            <> Throw) as Hnt.
    { apply (forEach_no_throw _ (V2_ok A C)); [| |exact Hok].
      - intros s x s' Hs Hx.
        destruct (V2_identifyMethod_spec A C f (ArkClass.getName cls) true
                    (V2.isComponentClass cls) s x Hs) as (s2 & Hx2 & ? & ?).
        congruence.
      - intros s x Hs.
        destruct (V2_identifyMethod_spec A C f (ArkClass.getName cls) true
                    (V2.isComponentClass cls) s x Hs) as (s2 & -> & _). done. }
    by destruct (forEach _ _ _).
  - pose proof (V2_ancestorLoop_no_throw scene fuel (Scene.getSuperClass scene cls)).
    destruct (V2.ancestorLoop _ _ _) as [a| |]; simpl; try done.
    assert (forEach (V2.identifyMethod A C f (ArkClass.getName cls) a
                       (V2.isComponentClass cls)) st (ArkClass.getMethods cls)
            <> Throw) as Hnt.
    { apply (forEach_no_throw _ (V2_ok A C)); [| |exact Hok].
      - intros s x s' Hs Hx.
        destruct (V2_identifyMethod_spec A C f (ArkClass.getName cls) a
                    (V2.isComponentClass cls) s x Hs) as (s2 & Hx2 & ? & ?).
        congruence.
      - intros s x Hs.
        destruct (V2_identifyMethod_spec A C f (ArkClass.getName cls) a
                    (V2.isComponentClass cls) s x Hs) as (s2 & -> & _). done. }
    by destruct (forEach _ _ _).
Qed.

Lemma V2_identifyFile_no_throw A C scene fuel acc file :
  V2_ok A C (fst acc) -> V2.identifyFile A C scene fuel acc file <> Throw.
Proof.
  intros Hok. unfold V2.identifyFile. destruct (_ || _); [done|].
  apply (forEach_no_throw _ (fun acc => V2_ok A C (fst acc))); [| |exact Hok].
  - intros s x s' Hs Hx.
    by apply (V2_identifyClass_preserves A C scene fuel (ArkFile.getName file) s x s').
  - intros. by apply V2_identifyClass_no_throw.
Qed.

Lemma V2_identifyLifecycleMethods_no_throw A C scene fuel st :
  V2_ok A C st -> V2.identifyLifecycleMethods A C scene fuel st <> Throw.
Proof.
  intros Hok. unfold V2.identifyLifecycleMethods.
  assert (forEach (V2.identifyFile A C scene fuel)
            (st, {| V2.totalClasses := 0; V2.abilityClasses := 0;
                    V2.componentClasses := 0 |})
            (Scene.getFiles scene) <> Throw) as Hnt.
  { apply (forEach_no_throw _ (fun acc => V2_ok A C (fst acc))); [| |exact Hok].
    - intros s x s' Hs Hx. by apply (V2_identifyFile_preserves A C scene fuel s x s').
    - intros. by apply V2_identifyFile_no_throw. }
  by destruct (forEach _ _ _).
Qed.

Lemma V2_identifyClass_returns A C scene cls :
  ChainEnds scene (Scene.getSuperClass scene cls) ->
  exists fuel, forall fuel', fuel <= fuel' -> forall f acc, V2_ok A C (fst acc) ->
    exists acc', V2.identifyClass A C scene fuel' f acc cls = Normal acc' /\
                 V2_ok A C (fst acc').
Proof.
  intros Hch. destruct (V2_isAbilityClass_returns scene cls Hch) as (fuel & b & Hb).
  exists fuel. intros fuel' Hle f [st loc] Hok. simpl in Hok. unfold V2.identifyClass.
  destruct (_ || _); [by exists (st, loc)|].
  rewrite (Hb _ Hle). simpl.
  destruct (forEach_eventually
              (fun _ : nat => V2.identifyMethod A C f (ArkClass.getName cls) b
                                (V2.isComponentClass cls))
              (V2_ok A C) (fun _ => True))
    with (xs := ArkClass.getMethods cls) as (fuel0 & Hf); [|by apply Forall_true|].
  { intros m _. exists 0. intros _ _ s Hs.
    destruct (V2_identifyMethod_spec A C f (ArkClass.getName cls) b
                (V2.isComponentClass cls) s m Hs) as (s' & Hr & Ho & _). eauto. }
  destruct (Hf fuel0 (le_n _) st Hok) as (st' & -> & Hok'). simpl.
  eexists. split; [reflexivity|exact Hok'].
Qed.

Lemma V2_identifyFile_returns A C scene file :
  Forall (fun cls => ChainEnds scene (Scene.getSuperClass scene cls))
         (ArkFile.getClasses file) ->
  exists fuel, forall fuel', fuel <= fuel' -> forall acc, V2_ok A C (fst acc) ->
    exists acc', V2.identifyFile A C scene fuel' acc file = Normal acc' /\
                 V2_ok A C (fst acc').
Proof.
  intros Hch.
  destruct (forEach_eventually
              (fun fuel => V2.identifyClass A C scene fuel (ArkFile.getName file))
              (fun acc => V2_ok A C (fst acc))
              (fun cls => ChainEnds scene (Scene.getSuperClass scene cls)))
    with (xs := ArkFile.getClasses file) as (fuel & Hf); [|exact Hch|].
  { intros cls H. destruct (V2_identifyClass_returns A C scene cls H) as (fuel & Hf).
    exists fuel. intros fuel' Hle s Hs. by apply Hf. }
  exists fuel. intros fuel' Hle acc Hok. unfold V2.identifyFile.
  destruct (_ || _); [by exists acc|]. by apply Hf.
Qed.

Lemma V2_identifyLifecycleMethods_returns A C scene :
  allChainsEnd scene ->
  exists fuel, forall fuel', fuel <= fuel' -> forall st, V2_ok A C st ->
    exists st', V2.identifyLifecycleMethods A C scene fuel' st = Normal st'.
Proof.
  intros Hch.
  destruct (forEach_eventually (V2.identifyFile A C scene)
              (fun acc => V2_ok A C (fst acc)) _
              (V2_identifyFile_returns A C scene) _ Hch) as (fuel & Hf).
  exists fuel. intros fuel' Hle st Hok. unfold V2.identifyLifecycleMethods.
  destruct (Hf fuel' Hle
              (st, {| V2.totalClasses := 0; V2.abilityClasses := 0;
                      V2.componentClasses := 0 |}) Hok) as (acc' & -> & _).
  simpl. eauto.
Qed.

(** C7: a scan that starts from the freshly initialized tables returns (for
    every large enough loop bound, when the superclass chains of the scene are
    finite) without a failed lookup, and after it every entry of the ability
    and component tables satisfies isUsed <-> usageCount > 0 <-> classes
    non-empty; a scan from any such state keeps the invariant and only grows
    the tables (every entry stays, its count does not decrease, its class list
    is extended at the end). Versions 2 and 3. *)
Theorem coverage_tables_stay_consistent
    (abilityNames componentNames : list string) (scene : Scene.t) :
  ((allChainsEnd scene ->
    exists fuel, forall fuel', fuel <= fuel' -> exists st,
      V2.identifyLifecycleMethods abilityNames componentNames scene fuel'
        (V2.init abilityNames componentNames) = Normal st) /\
   (forall fuel,
      V2.identifyLifecycleMethods abilityNames componentNames scene fuel
        (V2.init abilityNames componentNames) <> Throw) /\
   (forall fuel st,
      V2.identifyLifecycleMethods abilityNames componentNames scene fuel
        (V2.init abilityNames componentNames) = Normal st ->
      forall n stat,
        V2.abilityLifecycleStats st !! n = Some stat \/
        V2.componentLifecycleStats st !! n = Some stat ->
        V2_consistent stat) /\
   (forall fuel st0 st,
      V2_ok abilityNames componentNames st0 ->
      V2.identifyLifecycleMethods abilityNames componentNames scene fuel st0
        = Normal st ->
      V2_ok abilityNames componentNames st /\
      tableGrows V2_statGrows (V2.abilityLifecycleStats st0)
                 (V2.abilityLifecycleStats st) /\
      tableGrows V2_statGrows (V2.componentLifecycleStats st0)
                 (V2.componentLifecycleStats st))) /\
  (forall callbackNames,
     (allChainsEnd scene ->
      exists fuel, forall fuel', fuel <= fuel' -> exists st,
        V3.identifyLifecycleMethods abilityNames componentNames scene fuel'
          (V3.init abilityNames componentNames callbackNames) = Normal st) /\
     (forall fuel,
        V3.identifyLifecycleMethods abilityNames componentNames scene fuel
          (V3.init abilityNames componentNames callbackNames) <> Throw) /\
     (forall fuel st,
        V3.identifyLifecycleMethods abilityNames componentNames scene fuel
          (V3.init abilityNames componentNames callbackNames) = Normal st ->
        forall n stat,
          V3.abilityLifecycleStats st !! n = Some stat \/
          V3.componentLifecycleStats st !! n = Some stat ->
          V3_consistent stat)) /\
  (forall fuel st0 st,
     V3_ok abilityNames componentNames st0 ->
     V3.identifyLifecycleMethods abilityNames componentNames scene fuel st0
       = Normal st ->
     V3_ok abilityNames componentNames st /\
     tableGrows V3_statGrows (V3.abilityLifecycleStats st0)
                (V3.abilityLifecycleStats st) /\
     tableGrows V3_statGrows (V3.componentLifecycleStats st0)
                (V3.componentLifecycleStats st)).
Proof.
  split; [|split].
  - split; [|split; [|split]].
    + intros Hch.
      destruct (V2_identifyLifecycleMethods_returns abilityNames componentNames
                  scene Hch) as (fuel & Hf).
      exists fuel. intros fuel' Hle. apply Hf; [exact Hle|apply V2_init_ok].
    + intros fuel. apply V2_identifyLifecycleMethods_no_throw, V2_init_ok.
    + intros fuel st Hrun n stat Hn.
      destruct (V2_identifyLifecycleMethods_preserves _ _ _ _ _ _
                  (V2_init_ok abilityNames componentNames) Hrun) as [[HA HC] _].
      destruct Hn as [Hn|Hn]; [eapply (proj2 HA)|eapply (proj2 HC)]; exact Hn.
    + intros fuel st0 st Hok Hrun.
      destruct (V2_identifyLifecycleMethods_preserves _ _ _ _ _ _ Hok Hrun)
        as [Hok' (GA & GC & _)]. split; [exact Hok'|split; assumption].
  - intros callbackNames. split; [|split].
    + intros Hch.
      destruct (V3_identifyLifecycleMethods_returns abilityNames componentNames
                  scene Hch) as (fuel & Hf).
      exists fuel. intros fuel' Hle. apply Hf; [exact Hle|apply V3_init_ok].
    + intros fuel. apply V3_identifyLifecycleMethods_no_throw, V3_init_ok.
    + intros fuel st Hrun n stat Hn.
      destruct (V3_identifyLifecycleMethods_preserves _ _ _ _ _ _
                  (V3_init_ok abilityNames componentNames callbackNames) Hrun)
        as [[HA HC] _].
      destruct Hn as [Hn|Hn]; [eapply (proj2 HA)|eapply (proj2 HC)]; exact Hn.
  - intros fuel st0 st Hok Hrun.
    destruct (V3_identifyLifecycleMethods_preserves _ _ _ _ _ _ Hok Hrun)
      as [Hok' (GA & GC & _)]. split; [exact Hok'|split; assumption].
Qed.

Lemma coverage_tables_stay_consistent_witness :
  V3.identifyLifecycleMethods V1.ABILITY_LIFECYCLE V1.COMPONENT_LIFECYCLE
    Inputs.dialogScene 1
    (V3.init V1.ABILITY_LIFECYCLE V1.COMPONENT_LIFECYCLE Inputs.callbackNames)
    = Normal Inputs.dialogScanned /\
  exists stat,
    V3.componentLifecycleStats Inputs.dialogScanned !! "aboutToAppear" = Some stat /\
    V3.usageCount stat = 1 /\
    V3_consistent stat.
Proof.
  set (stat0 := {| V3.methodName := "aboutToAppear"; V3.isDefined := true;
                   V3.isUsed := true; V3.usageCount := 1; V3.classes := ["Dialog"];
                   V3.files := ["pages/Dialog.ets"] |}).
  assert (V3.identifyLifecycleMethods V1.ABILITY_LIFECYCLE V1.COMPONENT_LIFECYCLE
            Inputs.dialogScene 1
            (V3.init V1.ABILITY_LIFECYCLE V1.COMPONENT_LIFECYCLE Inputs.callbackNames)
          = Normal Inputs.dialogScanned) as Hrun by (vm_compute; reflexivity).
  assert (V3.componentLifecycleStats Inputs.dialogScanned !! "aboutToAppear"
          = Some stat0) as Hl by (vm_compute; reflexivity).
  split; [exact Hrun|]. exists stat0. split; [exact Hl|]. split; [reflexivity|].
  exact (proj2 (proj2 (proj1 (proj2
           (coverage_tables_stay_consistent V1.ABILITY_LIFECYCLE V1.COMPONENT_LIFECYCLE
              Inputs.dialogScene)) Inputs.callbackNames))
           1 Inputs.dialogScanned Hrun "aboutToAppear" stat0 (or_intror Hl)).
Defined.

(** ** Classes that match both roles *)

Lemma V1_identifyMethod_records f c a b st m :
  V1.lifecycleMethods (V1.identifyMethod f c a b st m) =
  V1.lifecycleMethods st ++ V1_found f c a b m.
Proof.
  unfold V1.identifyMethod, V1_found.
  destruct (a && Text.arrayIncludes V1.ABILITY_LIFECYCLE (ArkMethod.getName m));
    destruct (b && Text.arrayIncludes V1.COMPONENT_LIFECYCLE (ArkMethod.getName m));
    simpl; rewrite <- ?(assoc_L (++)), ?app_nil_r; reflexivity.
Qed.

Lemma V1_identifyMethods_records f c a b ms : forall st,
  V1.lifecycleMethods (fold_left (V1.identifyMethod f c a b) ms st) =
  V1.lifecycleMethods st ++ flat_map (V1_found f c a b) ms.
Proof.
  induction ms as [|m ms IH]; intros st; simpl.
  - by rewrite app_nil_r.
  - rewrite IH, V1_identifyMethod_records. by rewrite <- (assoc_L (++)).
Qed.

Lemma V1_identifyClass_spec scene fuel f st cls a :
  Text.includes (ArkClass.getName cls) "_DEFAULT_" = false ->
  V1.isAbilityClass scene fuel cls = Normal a ->
  exists st', V1.identifyClass scene fuel f st cls = Normal st' /\
    V1.lifecycleMethods st' =
      V1.lifecycleMethods st ++
      flat_map (V1_found f (ArkClass.getName cls) a (V1.isComponentClass cls))
               (ArkClass.getMethods cls).
Proof.
  intros H1 Ha. unfold V1.identifyClass. rewrite H1, Ha. simpl.
  eexists. split; [reflexivity|]. apply V1_identifyMethods_records.
Qed.

(** C3 does not hold on the code: the class matches both base sets (its
    superclass name is a component base, the superclass object extends an
    ability base), and the scan records its method [aboutToAppear] under the
    Component partition next to [onCreate] under the Ability partition, in
    versions 1 and 3. *)
Lemma both_roles_yield_component_records :
  V1.isAbilityClass Inputs.hybridScene 2 Inputs.hybrid = Normal true /\
  V1.isComponentClass Inputs.hybrid = true /\
  (st ← V1.identifyLifecycleMethods Inputs.hybridScene 2 V1.init;
   Normal (map (fun r => (V1.type r, V1.phase r)) (V1.lifecycleMethods st))) =
    Normal [(V1.ABILITY, "onCreate"); (V1.COMPONENT, "aboutToAppear")] /\
  (st ← V3.identifyLifecycleMethods V1.ABILITY_LIFECYCLE V1.COMPONENT_LIFECYCLE
          Inputs.hybridScene 2
          (V3.init V1.ABILITY_LIFECYCLE V1.COMPONENT_LIFECYCLE Inputs.callbackNames);
   Normal (map (fun r => (V3.type r, V3.phase r)) (V3.lifecycleMethods st))) =
    Normal [(V3.ABILITY, "onCreate"); (V3.COMPONENT, "aboutToAppear")].
Proof. vm_compute. repeat split; reflexivity. Qed.

(** C3, as the code has it: the two role checks are independent and no
    precedence is applied. For a class that is not skipped and for which both
    checks answer true, every method yields an Ability record when its name is
    in the Ability catalog and, in addition, a Component record when its name
    is in the Component catalog (versions 1 and 3). *)
Theorem both_roles_get_both_partitions :
  (forall scene fuel fileName st cls,
     Text.includes (ArkClass.getName cls) "_DEFAULT_" = false ->
     V1.isAbilityClass scene fuel cls = Normal true ->
     V1.isComponentClass cls = true ->
     exists st',
       V1.identifyClass scene fuel fileName st cls = Normal st' /\
       V1.lifecycleMethods st' =
         V1.lifecycleMethods st ++
         flat_map (V1_found fileName (ArkClass.getName cls) true true)
                  (ArkClass.getMethods cls)) /\
  (forall abilityNames componentNames scene fuel fileName st cls,
     V3_ok abilityNames componentNames st ->
     Text.includes (ArkClass.getName cls) "_DEFAULT_" = false ->
     Text.includes (ArkClass.getName cls) "%AC" = false ->
     Text.includes (ArkClass.getName cls) "%dflt" = false ->
     V3.isAbilityClass scene fuel cls = Normal true ->
     V3.isComponentClass cls = true ->
     exists st',
       V3.identifyClass abilityNames componentNames scene fuel fileName st cls
         = Normal st' /\
       V3.lifecycleMethods st' =
         V3.lifecycleMethods st ++
         flat_map (V3_found abilityNames componentNames fileName
                            (ArkClass.getName cls) true true)
                  (ArkClass.getMethods cls)).
Proof.
  split.
  - intros scene fuel fileName st cls H1 Ha Hc.
    destruct (V1_identifyClass_spec scene fuel fileName st cls true H1 Ha)
      as (st' & Hrun & Hl).
    exists st'. by rewrite Hc in Hl.
  - intros A C scene fuel fileName st cls Hok H1 H2 H3 Ha Hc.
    destruct (V3_identifyClass_spec A C scene fuel fileName st cls true Hok H1 H2 H3 Ha)
      as (st' & Hrun & _ & _ & Hl).
    exists st'. by rewrite Hc in Hl.
Qed.

Lemma both_roles_get_both_partitions_witness :
  exists st',
    V1.identifyClass Inputs.hybridScene 2 "entry/Hybrid.ets" V1.init Inputs.hybrid
      = Normal st' /\
    V1.lifecycleMethods st' =
      V1.lifecycleMethods V1.init ++
      flat_map (V1_found "entry/Hybrid.ets" (ArkClass.getName Inputs.hybrid) true true)
               (ArkClass.getMethods Inputs.hybrid).
Proof.
  apply (proj1 both_roles_get_both_partitions); reflexivity.
Defined.

(** ** The later steps leave the coverage tables alone *)

Lemma V3_buildCallGraph_tables ext st : V3_sameTables st (V3.buildCallGraph ext st).
Proof.
  unfold V3.buildCallGraph.
  destruct (External.createDummyMain ext); [|done].
  destruct (0 <? length (External.dummyMainSignatures ext)).
  - by destruct (External.makeCallGraphCHA ext _).
  - destruct (0 <? length _); [|done].
    by destruct (External.makeCallGraphCHA ext _).
Qed.

Lemma V3_analyzeUndefinedVariables_tables ext st :
  V3_sameTables st (V3.analyzeUndefinedVariables ext st).
Proof.
  unfold V3.analyzeUndefinedVariables.
  assert (V3_sameTables st
            (V3.scanState
               (fold_left (V3.analyzeLifecycleMethod ext) (V3.lifecycleMethods st)
                  {| V3.scanState := st; V3.analyzedCount := 0; V3.issueCount := 0 |})))
    as H; [|exact H].
  apply (fold_left_invariant _ (fun sc => V3_sameTables st (V3.scanState sc))); [|done].
  intros sc lm Hsc. unfold V3.analyzeLifecycleMethod.
  destruct (ArkMethod.getCfg _) as [cfg|]; [|exact Hsc].
  destruct (length (Cfg.getBlocks cfg) =? 0); [exact Hsc|].
  destruct (Cfg.getBlocks cfg) as [|block0 ?]; [exact Hsc|].
  destruct (BasicBlock.getStmts block0) as [|firstStmt ?]; [exact Hsc|].
  destruct (External.solve ext firstStmt _); [|exact Hsc].
  apply (fold_left_invariant _ (fun sc => V3_sameTables st (V3.scanState sc)));
    [|exact Hsc].
  intros sc' stmt Hsc'. unfold V3.checkStmt.
  destruct (V3.containsUndefinedRisk _); exact Hsc'.
Qed.

Lemma V3_analyzeDataFlow_tables st : V3_sameTables st (V3.analyzeDataFlow st).
Proof.
  unfold V3.analyzeDataFlow. destruct (V3.callGraph st); [|done].
  assert (V3_sameTables st
            (fold_left V3.analyzeMethodDataFlow (V3.lifecycleMethods st) st))
    as H; [|exact H].
  apply (fold_left_invariant _ (V3_sameTables st)); [|done].
  intros s lm Hs. unfold V3.analyzeMethodDataFlow.
  destruct (ArkMethod.getCfg _) as [cfg|]; [|exact Hs].
  apply (fold_left_invariant _ (V3_sameTables st)); [|exact Hs].
  intros s1 stmt Hs1. unfold V3.dataFlowStmt.
  apply (fold_left_invariant _ (V3_sameTables st)); [|exact Hs1].
  intros s2 e Hs2. unfold V3.dataFlowExpr.
  destruct (_ || _); exact Hs2.
Qed.

Lemma V3_sameTables_trans a b c :
  V3_sameTables a b -> V3_sameTables b c -> V3_sameTables a c.
Proof.
  intros (H1 & H2 & H3 & H4) (G1 & G2 & G3 & G4). repeat split; congruence.
Qed.

Lemma V3_analyze_returns A C CB ext scene :
  allChainsEnd scene ->
  exists fuel, forall fuel', fuel <= fuel' ->
    exists st, V3.analyze A C CB ext scene fuel' = Normal st.
Proof.
  intros Hch. destruct (V3_identifyLifecycleMethods_returns A C scene Hch) as (fuel & Hf).
  exists fuel. intros fuel' Hle. unfold V3.analyze.
  destruct (Hf fuel' Hle _ (V3_init_ok A C CB)) as (st' & ->). simpl. eauto.
Qed.

(** C10: in version 3 no step of a run writes the callback table. The four
    steps on a fresh analyzer return (for every large enough loop bound, when
    the superclass chains of the scene are finite), and after them the table
    is the one [initializeStats] built: every name of the callback catalog has
    its entry, and every entry still has isUsed = false, usageCount = 0 and
    empty classes and files. *)
Theorem callback_table_never_updated
    (abilityNames componentNames callbackNames : list string)
    (ext : External.t) (scene : Scene.t) :
  (allChainsEnd scene ->
   exists fuel, forall fuel', fuel <= fuel' -> exists st,
     V3.analyze abilityNames componentNames callbackNames ext scene fuel' = Normal st) /\
  (forall fuel st,
     V3.analyze abilityNames componentNames callbackNames ext scene fuel = Normal st ->
     V3.callbackStats st = V3.initTable callbackNames /\
     (forall n, n ∈ callbackNames ->
        V3.callbackStats st !! n = Some (V3.unusedStat n)) /\
     (forall n stat, V3.callbackStats st !! n = Some stat ->
        V3.isUsed stat = false /\ V3.usageCount stat = 0 /\
        V3.classes stat = [] /\ V3.files stat = [])).
Proof.
  split; [apply V3_analyze_returns|].
  unfold V3.analyze. intros fuel st Hrun.
  destruct (V3.identifyLifecycleMethods _ _ _ _ _) as [st1| |] eqn:Hid;
    simpl in Hrun; try discriminate.
  injection Hrun as <-.
  destruct (V3_identifyLifecycleMethods_preserves _ _ _ _ _ _
              (V3_init_ok abilityNames componentNames callbackNames) Hid)
    as [_ (_ & _ & _ & Hcb)].
  destruct (V3_sameTables_trans _ _ _
              (V3_sameTables_trans _ _ _ (V3_buildCallGraph_tables ext st1)
                 (V3_analyzeUndefinedVariables_tables ext _))
              (V3_analyzeDataFlow_tables _)) as (_ & _ & Hsame & _).
  assert (V3.callbackStats
            (V3.analyzeDataFlow
               (V3.analyzeUndefinedVariables ext (V3.buildCallGraph ext st1)))
          = V3.initTable callbackNames) as Heq by (rewrite Hsame, Hcb; reflexivity).
  split; [exact Heq|]. rewrite Heq. split.
  - intros n Hn. rewrite V3_initTable_lookup. by rewrite decide_True.
  - intros n stat. rewrite V3_initTable_lookup. case_decide; [|done].
    by intros [= <-].
Qed.

Lemma callback_table_never_updated_witness :
  V3.analyze V1.ABILITY_LIFECYCLE V1.COMPONENT_LIFECYCLE Inputs.callbackNames
    Inputs.quiet Inputs.dialogScene 1 = Normal Inputs.dialogAnalyzed /\
  V3.callbackStats Inputs.dialogAnalyzed = V3.initTable Inputs.callbackNames.
Proof.
  assert (V3.analyze V1.ABILITY_LIFECYCLE V1.COMPONENT_LIFECYCLE Inputs.callbackNames
            Inputs.quiet Inputs.dialogScene 1 = Normal Inputs.dialogAnalyzed) as Hrun
    by (vm_compute; reflexivity).
  split; [exact Hrun|].
  exact (proj1 (proj2 (callback_table_never_updated _ _ _ _ _) _ _ Hrun)).
Defined.

(** ** Test files *)

(** *** Version 1 *)















(** *** Version 2 *)





(** *** Version 3 *)















(** *** The project analyzer *)






(** *** Scenes without the classes of the test files *)




























(** ** Catalogs and versions *)

Lemma ABILITY_BASE_grows : V1.ABILITY_BASE ⊆ V3.ABILITY_BASE.
Proof.
  intros x. unfold V1.ABILITY_BASE, V3.ABILITY_BASE. rewrite !elem_of_cons.
  intros [->|[->|[->|H]]]; auto. by apply elem_of_nil in H.
Qed.

Lemma ancestorLoop_V1_V3 scene fuel : forall o b,
  V1.ancestorLoop scene fuel o = Normal b ->
  exists b', V3.ancestorLoop scene fuel o = Normal b' /\ (b = true -> b' = true).
Proof.
  induction fuel as [|fuel IH]; intros o b; cbn [V1.ancestorLoop V3.ancestorLoop];
    [done|].
  destruct o as [sc|]; [|intros [= <-]; by exists false].
  destruct (Text.arrayIncludes V1.ABILITY_BASE _) eqn:E1.
  - apply (arrayIncludes_mono _ _ _ ABILITY_BASE_grows) in E1. rewrite E1.
    intros [= <-]. by exists true.
  - destruct (Text.arrayIncludes V3.ABILITY_BASE _).
    + intros _. exists true. auto.
    + apply IH.
Qed.

Lemma isAbilityClass_V1_V3 scene fuel cls b :
  V1.isAbilityClass scene fuel cls = Normal b ->
  exists b', V3.isAbilityClass scene fuel cls = Normal b' /\ (b = true -> b' = true).
Proof.
  unfold V1.isAbilityClass, V3.isAbilityClass.
  destruct (Text.arrayIncludes V1.ABILITY_BASE _) eqn:E1.
  - apply (arrayIncludes_mono _ _ _ ABILITY_BASE_grows) in E1. rewrite E1.
    intros [= <-]. by exists true.
  - destruct (Text.arrayIncludes V3.ABILITY_BASE _).
    + intros _. exists true. auto.
    + apply ancestorLoop_V1_V3.
Qed.

Lemma isComponentClass_V1_V3 cls :
  V1.isComponentClass cls = true -> V3.isComponentClass cls = true.
Proof.
  unfold V1.isComponentClass, V3.isComponentClass.
  change V3.COMPONENT_BASE with V1.COMPONENT_BASE.
  destruct (Text.arrayIncludes V1.COMPONENT_BASE _); [done|].
  by destruct (ArkClass.hasDecorator cls "Component").
Qed.

Lemma found_keys_V1_V3 A C f c a1 b1 a3 b3 m :
  V1.ABILITY_LIFECYCLE ⊆ A -> V1.COMPONENT_LIFECYCLE ⊆ C ->
  (a1 = true -> a3 = true) -> (b1 = true -> b3 = true) ->
  map V1_key (V1_found f c a1 b1 m) `sublist_of` map V3_key (V3_found A C f c a3 b3 m).
Proof.
  intros HA HC Ha Hb. unfold V1_found, V3_found. rewrite !map_app.
  apply sublist_app.
  - destruct (a1 && _) eqn:E1; [|apply sublist_nil_l].
    apply andb_true_iff in E1 as [-> E1]. rewrite Ha by done.
    apply (arrayIncludes_mono _ _ _ HA) in E1. by rewrite E1.
  - destruct (b1 && _) eqn:E1; [|apply sublist_nil_l].
    apply andb_true_iff in E1 as [-> E1]. rewrite Hb by done.
    apply (arrayIncludes_mono _ _ _ HC) in E1. by rewrite E1.
Qed.

Lemma found_V3_V3 A A' C C' f c a b m :
  A ⊆ A' -> C ⊆ C' ->
  V3_found A C f c a b m `sublist_of` V3_found A' C' f c a b m.
Proof.
  intros HA HC. unfold V3_found. apply sublist_app.
  - destruct (a && Text.arrayIncludes A _) eqn:E1; [|apply sublist_nil_l].
    apply andb_true_iff in E1 as [-> E1].
    apply (arrayIncludes_mono _ _ _ HA) in E1. by rewrite E1.
  - destruct (b && Text.arrayIncludes C _) eqn:E1; [|apply sublist_nil_l].
    apply andb_true_iff in E1 as [-> E1].
    apply (arrayIncludes_mono _ _ _ HC) in E1. by rewrite E1.
Qed.

Section VersionSwap.
Variables A C : list string.
Hypothesis HA : V1.ABILITY_LIFECYCLE ⊆ A.
Hypothesis HC : V1.COMPONENT_LIFECYCLE ⊆ C.

Lemma identifyClass_V1_V3 scene fuel f st1 st3 cls st1' :
  noAnonymousMarker cls ->
  V13_related A C st1 st3 ->
  V1.identifyClass scene fuel f st1 cls = Normal st1' ->
  exists st3', V3.identifyClass A C scene fuel f st3 cls = Normal st3' /\
               V13_related A C st1' st3'.
Proof.
  intros [Hm1 Hm2] [Hok Hsub] Hrun.
  destruct (Text.includes (ArkClass.getName cls) "_DEFAULT_") eqn:Hd.
  - unfold V1.identifyClass in Hrun. rewrite Hd in Hrun. injection Hrun as <-.
    exists st3. unfold V3.identifyClass. rewrite Hd. by split.
  - destruct (V1.isAbilityClass scene fuel cls) as [a1| |] eqn:Ha1;
      [|unfold V1.identifyClass in Hrun; rewrite Hd, Ha1 in Hrun; discriminate..].
    destruct (V1_identifyClass_spec scene fuel f st1 cls a1 Hd Ha1)
      as (st1'' & Hrun1 & Hl1).
    rewrite Hrun in Hrun1. injection Hrun1 as <-.
    destruct (isAbilityClass_V1_V3 scene fuel cls a1 Ha1) as (a3 & Ha3 & Himp).
    destruct (V3_identifyClass_spec A C scene fuel f st3 cls a3 Hok Hd Hm1 Hm2 Ha3)
      as (st3' & Hrun3 & Hok3 & _ & Hl3).
    exists st3'. split; [exact Hrun3|]. split; [exact Hok3|].
    rewrite Hl1, Hl3, !map_app. apply sublist_app; [exact Hsub|].
    rewrite !map_flat_map. apply flat_map_sublist. intros m.
    apply found_keys_V1_V3; auto using isComponentClass_V1_V3.
Qed.

Lemma identifyFile_V1_V3 scene fuel st1 st3 file st1' :
  Forall noAnonymousMarker (ArkFile.getClasses file) ->
  V13_related A C st1 st3 ->
  V1.identifyFile scene fuel st1 file = Normal st1' ->
  exists st3', V3.identifyFile A C scene fuel st3 file = Normal st3' /\
               V13_related A C st1' st3'.
Proof.
  intros Hm HR. unfold V1.identifyFile, V3.identifyFile.
  destruct (_ || _).
  - intros [= <-]. eauto.
  - apply (forEach_sim _ _ (V13_related A C) noAnonymousMarker); [|exact Hm|exact HR].
    intros s1 s2 x s1' Hx Hs. by apply identifyClass_V1_V3.
Qed.

Lemma identify_V1_V3 CB scene fuel st1 :
  Forall (fun file => Forall noAnonymousMarker (ArkFile.getClasses file))
         (Scene.getFiles scene) ->
  V1.identifyLifecycleMethods scene fuel V1.init = Normal st1 ->
  exists st3,
    V3.identifyLifecycleMethods A C scene fuel (V3.init A C CB) = Normal st3 /\
    V13_related A C st1 st3.
Proof.
  intros Hm. unfold V1.identifyLifecycleMethods, V3.identifyLifecycleMethods.
  destruct (forEach (V1.identifyFile scene fuel) _ _) as [s1| |] eqn:Hrun;
    simpl; try discriminate.
  intros [= <-].
  eapply (forEach_sim _ (V3.identifyFile A C scene fuel) (V13_related A C)) in Hrun
    as (s3 & -> & HR); [| |exact Hm|].
  - simpl. eexists. split; [reflexivity|]. exact HR.
  - intros s1' s2 x s1'' Hx Hs. by apply identifyFile_V1_V3.
  - split; [apply V3_init_ok|]. apply sublist_nil_l.
Qed.

End VersionSwap.

Section CatalogSwap.
Variables A A' C : list string.
Hypothesis HA : A ⊆ A'.

Lemma identifyClass_V3_V3 scene fuel f st st' cls st1 :
  V33_related A A' C st st' ->
  V3.identifyClass A C scene fuel f st cls = Normal st1 ->
  exists st1', V3.identifyClass A' C scene fuel f st' cls = Normal st1' /\
               V33_related A A' C st1 st1'.
Proof.
  intros (Hok & Hok' & Hsub) Hrun.
  destruct (Text.includes (ArkClass.getName cls) "_DEFAULT_") eqn:H1;
    [unfold V3.identifyClass in Hrun |- *; rewrite H1 in Hrun |- *;
     injection Hrun as <-; exists st'; split; [reflexivity|exact (conj Hok (conj Hok' Hsub))]|].
  destruct (Text.includes (ArkClass.getName cls) "%AC") eqn:H2;
    [unfold V3.identifyClass in Hrun |- *; rewrite H1, H2 in Hrun |- *;
     injection Hrun as <-; exists st'; split; [reflexivity|exact (conj Hok (conj Hok' Hsub))]|].
  destruct (Text.includes (ArkClass.getName cls) "%dflt") eqn:H3;
    [unfold V3.identifyClass in Hrun |- *; rewrite H1, H2, H3 in Hrun |- *;
     injection Hrun as <-; exists st'; split; [reflexivity|exact (conj Hok (conj Hok' Hsub))]|].
  destruct (V3.isAbilityClass scene fuel cls) as [a| |] eqn:Ha;
    [|unfold V3.identifyClass in Hrun; rewrite H1, H2, H3, Ha in Hrun; discriminate..].
  destruct (V3_identifyClass_spec A C scene fuel f st cls a Hok H1 H2 H3 Ha)
    as (st2 & Hrun2 & Hok2 & _ & Hl2).
  rewrite Hrun in Hrun2. injection Hrun2 as <-.
  destruct (V3_identifyClass_spec A' C scene fuel f st' cls a Hok' H1 H2 H3 Ha)
    as (st3 & Hrun3 & Hok3 & _ & Hl3).
  exists st3. split; [exact Hrun3|]. split; [exact Hok2|]. split; [exact Hok3|].
  rewrite Hl2, Hl3. apply sublist_app; [exact Hsub|].
  apply flat_map_sublist. intros m. by apply found_V3_V3.
Qed.

Lemma identify_V3_V3 CB scene fuel st :
  V3.identifyLifecycleMethods A C scene fuel (V3.init A C CB) = Normal st ->
  exists st',
    V3.identifyLifecycleMethods A' C scene fuel (V3.init A' C CB) = Normal st' /\
    V33_related A A' C st st'.
Proof.
  unfold V3.identifyLifecycleMethods.
  destruct (forEach (V3.identifyFile A C scene fuel) _ _) as [s1| |] eqn:Hrun;
    simpl; try discriminate.
  intros [= <-].
  eapply (forEach_sim _ (V3.identifyFile A' C scene fuel) (V33_related A A' C)
            (fun _ => True)) in Hrun as (s3 & -> & HR).
  - simpl. eexists. split; [reflexivity|]. exact HR.
  - intros s1' s2 x s1'' _ Hs. unfold V3.identifyFile. destruct (_ || _).
    + intros [= <-]. eauto.
    + apply (forEach_sim _ _ (V33_related A A' C) (fun _ => True)).
      * intros ? ? ? ? _ ? ?. by eapply identifyClass_V3_V3.
      * by apply Forall_true.
      * exact Hs.
  - by apply Forall_true.
  - split; [apply V3_init_ok|]. split; [apply V3_init_ok|]. apply sublist_nil_l.
Qed.

End CatalogSwap.

Lemma README_ability_superset :
  V1.ABILITY_LIFECYCLE ⊆ Inputs.README_ABILITY_LIFECYCLE.
Proof. apply (bool_decide_unpack _). vm_compute. exact I. Qed.

(** C8 does not hold for the swap of analyzer versions: an anonymous class
    that extends an ability base and implements [onCreate] gives one record
    under version 1 and its 12 names, and none under version 3 and the 26
    names, although the 26 names contain the 12: version 3 skips classes whose
    name contains "%AC" or "%dflt". *)
Lemma version_swap_loses_anonymous_class_records :
  (st ← V1.identifyLifecycleMethods Inputs.anonymousScene 1 V1.init;
   Normal (length (V1.lifecycleMethods st))) = Normal 1 /\
  (st ← V3.identifyLifecycleMethods
          Inputs.README_ABILITY_LIFECYCLE Inputs.README_COMPONENT_LIFECYCLE
          Inputs.anonymousScene 1
          (V3.init Inputs.README_ABILITY_LIFECYCLE Inputs.README_COMPONENT_LIFECYCLE
                   Inputs.callbackNames);
   Normal (length (V3.lifecycleMethods st))) = Normal 0 /\
  length V1.ABILITY_LIFECYCLE = 12 /\
  length Inputs.README_ABILITY_LIFECYCLE = 26 /\
  V1.ABILITY_LIFECYCLE ⊆ Inputs.README_ABILITY_LIFECYCLE.
Proof.
  split; [vm_compute; reflexivity|]. split; [vm_compute; reflexivity|].
  split; [reflexivity|]. split; [reflexivity|]. exact README_ability_superset.
Qed.

(** C8, as the code has it: with the analyzer otherwise unchanged (version 3,
    whose Ability catalog is the imported constant), replacing the Ability
    catalog by a superset keeps every record, in order, so the number of
    records does not decrease. The swap from version 1 to version 3 keeps
    every record of version 1 when, in addition, the Component catalog of
    version 3 contains the one of version 1 and no class name contains "%AC"
    or "%dflt". *)
Theorem superset_catalog_keeps_records :
  (forall abilityNames abilityNames' componentNames callbackNames scene fuel st,
     abilityNames ⊆ abilityNames' ->
     V3.identifyLifecycleMethods abilityNames componentNames scene fuel
       (V3.init abilityNames componentNames callbackNames) = Normal st ->
     exists st',
       V3.identifyLifecycleMethods abilityNames' componentNames scene fuel
         (V3.init abilityNames' componentNames callbackNames) = Normal st' /\
       V3.lifecycleMethods st `sublist_of` V3.lifecycleMethods st' /\
       length (V3.lifecycleMethods st) <= length (V3.lifecycleMethods st')) /\
  (forall abilityNames componentNames callbackNames scene fuel st1,
     V1.ABILITY_LIFECYCLE ⊆ abilityNames ->
     V1.COMPONENT_LIFECYCLE ⊆ componentNames ->
     Forall (fun file => Forall noAnonymousMarker (ArkFile.getClasses file))
            (Scene.getFiles scene) ->
     V1.identifyLifecycleMethods scene fuel V1.init = Normal st1 ->
     exists st3,
       V3.identifyLifecycleMethods abilityNames componentNames scene fuel
         (V3.init abilityNames componentNames callbackNames) = Normal st3 /\
       map V1_key (V1.lifecycleMethods st1) `sublist_of`
         map V3_key (V3.lifecycleMethods st3) /\
       length (V1.lifecycleMethods st1) <= length (V3.lifecycleMethods st3)).
Proof.
  split.
  - intros A A' C CB scene fuel st HA Hrun.
    destruct (identify_V3_V3 A A' C HA CB scene fuel st Hrun)
      as (st' & Hrun' & _ & _ & Hsub).
    exists st'. split; [exact Hrun'|]. split; [exact Hsub|].
    by apply sublist_length.
  - intros A C CB scene fuel st1 HA HC Hm Hrun.
    destruct (identify_V1_V3 A C HA HC CB scene fuel st1 Hm Hrun)
      as (st3 & Hrun3 & _ & Hsub).
    exists st3. split; [exact Hrun3|]. split; [exact Hsub|].
    apply sublist_length in Hsub. by rewrite !length_map in Hsub.
Qed.

Lemma superset_catalog_keeps_records_witness :
  (V1.ABILITY_LIFECYCLE ⊆ Inputs.README_ABILITY_LIFECYCLE /\
   exists st',
     V3.identifyLifecycleMethods Inputs.README_ABILITY_LIFECYCLE V1.COMPONENT_LIFECYCLE
       Inputs.dialogScene 1
       (V3.init Inputs.README_ABILITY_LIFECYCLE V1.COMPONENT_LIFECYCLE
                Inputs.callbackNames) = Normal st' /\
     V3.lifecycleMethods Inputs.dialogScanned `sublist_of` V3.lifecycleMethods st' /\
     length (V3.lifecycleMethods Inputs.dialogScanned)
       <= length (V3.lifecycleMethods st')) /\
  (V1.COMPONENT_LIFECYCLE ⊆ Inputs.README_COMPONENT_LIFECYCLE /\
   Forall (fun file => Forall noAnonymousMarker (ArkFile.getClasses file))
          (Scene.getFiles Inputs.dialogScene) /\
   V1.identifyLifecycleMethods Inputs.dialogScene 1 V1.init
     = Normal Inputs.dialogScannedV1 /\
   exists st3,
     V3.identifyLifecycleMethods Inputs.README_ABILITY_LIFECYCLE
       Inputs.README_COMPONENT_LIFECYCLE Inputs.dialogScene 1
       (V3.init Inputs.README_ABILITY_LIFECYCLE Inputs.README_COMPONENT_LIFECYCLE
                Inputs.callbackNames) = Normal st3 /\
     map V1_key (V1.lifecycleMethods Inputs.dialogScannedV1) `sublist_of`
       map V3_key (V3.lifecycleMethods st3) /\
     length (V1.lifecycleMethods Inputs.dialogScannedV1)
       <= length (V3.lifecycleMethods st3)).
Proof.
  assert (V1.ABILITY_LIFECYCLE ⊆ Inputs.README_ABILITY_LIFECYCLE) as HA
    by (apply (bool_decide_unpack _); vm_compute; exact I).
  assert (V1.COMPONENT_LIFECYCLE ⊆ Inputs.README_COMPONENT_LIFECYCLE) as HC
    by (apply (bool_decide_unpack _); vm_compute; exact I).
  assert (V3.identifyLifecycleMethods V1.ABILITY_LIFECYCLE V1.COMPONENT_LIFECYCLE
            Inputs.dialogScene 1
            (V3.init V1.ABILITY_LIFECYCLE V1.COMPONENT_LIFECYCLE Inputs.callbackNames)
          = Normal Inputs.dialogScanned) as Hrun by (vm_compute; reflexivity).
  assert (V1.identifyLifecycleMethods Inputs.dialogScene 1 V1.init
          = Normal Inputs.dialogScannedV1) as Hrun1 by (vm_compute; reflexivity).
  assert (Forall (fun file => Forall noAnonymousMarker (ArkFile.getClasses file))
                 (Scene.getFiles Inputs.dialogScene)) as Hm
    by (repeat constructor).
  split.
  - split; [exact HA|].
    exact (proj1 superset_catalog_keeps_records _ _ _ _ _ _ _ HA Hrun).
  - split; [exact HC|]. split; [exact Hm|]. split; [exact Hrun1|].
    exact (proj2 superset_catalog_keeps_records _ _ Inputs.callbackNames _ _ _
             HA HC Hm Hrun1).
Defined.

(** * Further properties: reports, exports and the passes *)

(** ** Sets, maps and sorting of the reports *)

Lemma setAdd_elem_of set x y : y ∈ Js.setAdd set x <-> y ∈ set \/ y = x.
Proof.
  unfold Js.setAdd. destruct (Text.arrayIncludes set x) eqn:E.
  - apply arrayIncludes_elem_of in E. split; [auto|]. intros [?| ->]; auto.
  - rewrite elem_of_app, list_elem_of_singleton. tauto.
Qed.

Lemma setAdd_NoDup set x : NoDup set -> NoDup (Js.setAdd set x).
Proof.
  intros Hnd. unfold Js.setAdd. destruct (Text.arrayIncludes set x) eqn:E; [done|].
  apply NoDup_app. split; [done|]. split; [|apply NoDup_singleton].
  intros y Hy Hx. apply list_elem_of_singleton in Hx. subst.
  apply arrayIncludes_elem_of in Hy. congruence.
Qed.

Lemma setAdd_present set x : x ∈ set -> Js.setAdd set x = set.
Proof.
  intros H. unfold Js.setAdd. apply arrayIncludes_elem_of in H. by rewrite H.
Qed.

Lemma setAdd_absent set x : x ∉ set -> Js.setAdd set x = set ++ [x].
Proof.
  intros H. unfold Js.setAdd. destruct (Text.arrayIncludes set x) eqn:E; [|done].
  by apply arrayIncludes_elem_of in E.
Qed.

Lemma setOf_snoc xs x : Js.setOf (xs ++ [x]) = Js.setAdd (Js.setOf xs) x.
Proof. unfold Js.setOf. by rewrite fold_left_app. Qed.

Lemma setOf_elem_of xs y : y ∈ Js.setOf xs <-> y ∈ xs.
Proof.
  induction xs as [|x xs IH] using rev_ind.
  - done.
  - rewrite setOf_snoc, setAdd_elem_of, IH, elem_of_app, list_elem_of_singleton. tauto.
Qed.

Lemma setOf_NoDup xs : NoDup (Js.setOf xs).
Proof.
  induction xs as [|x xs IH] using rev_ind.
  - apply NoDup_nil_2.
  - rewrite setOf_snoc. by apply setAdd_NoDup.
Qed.

Lemma setOf_length xs : length (Js.setOf xs) <= length xs.
Proof.
  induction xs as [|x xs IH] using rev_ind; [done|].
  rewrite setOf_snoc, length_app. unfold Js.setAdd.
  destruct (Text.arrayIncludes _ _); rewrite ?length_app; simpl; lia.
Qed.

Lemma setOf_NoDup_id xs : NoDup xs -> Js.setOf xs = xs.
Proof.
  induction xs as [|x xs IH] using rev_ind; [done|].
  intros Hnd. apply NoDup_app in Hnd as (Hxs & Hx & _).
  rewrite setOf_snoc, IH by done. apply setAdd_absent.
  intros Hin. apply (Hx x Hin). by apply list_elem_of_singleton.
Qed.

Lemma mapHas_tabulate {V} (f : string -> V) ks k :
  Js.mapHas (tabulate f ks) k = Text.arrayIncludes ks k.
Proof.
  unfold Js.mapHas, tabulate, Text.arrayIncludes.
  induction ks as [|k' ks IH]; simpl; [done|]. by rewrite IH.
Qed.

Lemma mapGet_tabulate {V} (f : string -> V) ks k :
  k ∈ ks -> Js.mapGet (tabulate f ks) k = Some (f k).
Proof.
  induction ks as [|k' ks IH]; [by intros ?%elem_of_nil|].
  intros Hin. simpl. destruct (String.eqb k k') eqn:E.
  - apply String.eqb_eq in E. by subst.
  - apply elem_of_cons in Hin as [->|Hin]; [by rewrite String.eqb_refl in E|auto].
Qed.

Lemma mapSet_tabulate_absent {V} (f : string -> V) ks k v :
  k ∉ ks -> Js.mapSet (tabulate f ks) k v = tabulate f ks ++ [(k, v)].
Proof.
  induction ks as [|k' ks IH]; [done|].
  intros Hin. apply not_elem_of_cons in Hin as [Hne Hin]. simpl.
  destruct (String.eqb k k') eqn:E; [by apply String.eqb_eq in E|].
  by rewrite IH.
Qed.

Lemma mapSet_tabulate_present {V} (f : string -> V) ks k v :
  k ∈ ks -> NoDup ks ->
  Js.mapSet (tabulate f ks) k v =
  tabulate (fun k' => if String.eqb k k' then v else f k') ks.
Proof.
  induction ks as [|k' ks IH]; [by intros ?%elem_of_nil|].
  intros Hin Hnd. apply NoDup_cons in Hnd as [Hk' Hnd]. simpl.
  destruct (String.eqb k k') eqn:E.
  - apply String.eqb_eq in E. subst k'. f_equal.
    apply map_ext_in. intros k' Hk. apply list_elem_of_In in Hk.
    destruct (String.eqb k k') eqn:E'; [|done].
    apply String.eqb_eq in E'. by subst.
  - apply elem_of_cons in Hin as [->|Hin]; [by rewrite String.eqb_refl in E|].
    f_equal. by apply IH.
Qed.

Lemma tabulate_ext {V} (f g : string -> V) ks :
  (forall k, k ∈ ks -> f k = g k) -> tabulate f ks = tabulate g ks.
Proof.
  intros H. apply map_ext_in. intros k Hk. apply list_elem_of_In in Hk.
  by rewrite H.
Qed.

Lemma withKey_snoc {A} (key : A -> string) k xs x :
  withKey key k (xs ++ [x]) =
  withKey key k xs ++ (if String.eqb (key x) k then [x] else []).
Proof.
  unfold withKey. rewrite filter_app. f_equal.
  destruct (String.eqb (key x) k) eqn:E.
  - apply String.eqb_eq in E. by rewrite filter_cons_True, filter_nil.
  - apply String.eqb_neq in E. by rewrite filter_cons_False, filter_nil.
Qed.

Lemma withKey_nil {A} (key : A -> string) k xs :
  k ∉ map key xs -> withKey key k xs = [].
Proof.
  intros Hk. unfold withKey. induction xs as [|x xs IH]; [done|].
  simpl in Hk. apply not_elem_of_cons in Hk as [Hne Hk].
  rewrite filter_cons_False by congruence. auto.
Qed.

Lemma withKey_nonempty {A} (key : A -> string) k xs :
  k ∈ map key xs -> withKey key k xs <> [].
Proof.
  intros Hk. apply list_elem_of_fmap in Hk as (x & -> & Hx).
  intros Hnil. assert (x ∈ withKey key (key x) xs) as Hin
    by (apply list_elem_of_filter; done).
  rewrite Hnil in Hin. by apply elem_of_nil in Hin.
Qed.

(** The grouping loop builds, for every key in the order of first
    appearance, the elements with that key in their original order. *)
Lemma groupBy_tabulate {A} (key : A -> string) (xs : list A) :
  Js.groupBy key xs =
  tabulate (fun k => withKey key k xs) (Js.setOf (map key xs)).
Proof.
  unfold Js.groupBy. induction xs as [|x xs IH] using rev_ind; [done|].
  rewrite fold_left_app. simpl. rewrite IH. clear IH.
  rewrite map_app. simpl. rewrite setOf_snoc.
  set (ks := Js.setOf (map key xs)).
  assert (NoDup ks) as Hnd by apply setOf_NoDup.
  unfold Js.groupInto. rewrite mapHas_tabulate.
  destruct (Text.arrayIncludes ks (key x)) eqn:E.
  - assert (key x ∈ ks) as Hin by by apply arrayIncludes_elem_of.
    rewrite mapGet_tabulate by done.
    rewrite mapSet_tabulate_present by done.
    rewrite setAdd_present by done.
    apply tabulate_ext. intros k Hk. rewrite withKey_snoc.
    destruct (String.eqb (key x) k) eqn:E'.
    + apply String.eqb_eq in E'. by subst.
    + by rewrite app_nil_r.
  - assert (key x ∉ ks) as Hin
      by (intros ?%arrayIncludes_elem_of; congruence).
    rewrite mapSet_tabulate_absent by done.
    assert (Js.mapGet (tabulate (fun k => withKey key k xs) ks ++ [(key x, [])]) (key x)
            = Some []) as ->.
    { clear -Hin. induction ks as [|k' ks IH]; simpl.
      - by rewrite String.eqb_refl.
      - apply not_elem_of_cons in Hin as [Hne Hin].
        destruct (String.eqb (key x) k') eqn:E; [by apply String.eqb_eq in E|auto]. }
    rewrite setAdd_absent by done.
    unfold tabulate at 2. rewrite map_app. simpl.
    rewrite withKey_snoc, String.eqb_refl.
    rewrite (withKey_nil key (key x) xs)
      by (intros ?; apply Hin; by apply setOf_elem_of).
    assert (forall (m : list (string * list A)) v,
              key x ∉ map fst m ->
              Js.mapSet (m ++ [(key x, [])]) (key x) v = m ++ [(key x, v)])
      as Hset.
    { induction m as [|[k' v'] m IHm]; simpl; intros v Hm.
      - by rewrite String.eqb_refl.
      - apply not_elem_of_cons in Hm as [Hne Hm]. simpl in Hne.
        destruct (String.eqb (key x) k') eqn:E'; [by apply String.eqb_eq in E'|].
        by rewrite IHm. }
    rewrite Hset.
    + f_equal. apply tabulate_ext. intros k Hk. rewrite withKey_snoc.
      destruct (String.eqb (key x) k) eqn:E'; [|by rewrite app_nil_r].
      apply String.eqb_eq in E'. by subst.
    + unfold tabulate. rewrite map_map. simpl. by rewrite map_id.
Qed.

(** Distinct keys split a list: the sizes of the parts add up. *)
Lemma withKey_partition {A} (key : A -> string) (ks : list string) (xs : list A) :
  NoDup ks -> (forall x, x ∈ xs -> key x ∈ ks) ->
  sum_list (map (fun k => length (withKey key k xs)) ks) = length xs.
Proof.
  intros Hnd. induction xs as [|x xs IH]; intros Hin.
  - clear. induction ks as [|k ks IHk]; simpl; auto.
  - assert (sum_list (map (fun k => length (withKey key k (x :: xs))) ks) =
            sum_list (map (fun k => length (withKey key k xs)) ks) + 1) as ->.
    { assert (key x ∈ ks) as Hx by (apply Hin; left).
      clear IH Hin. induction ks as [|k ks IHk]; [by apply elem_of_nil in Hx|].
      apply NoDup_cons in Hnd as [Hk Hnd]. simpl. unfold withKey at 1.
      destruct (decide (key x = k)) as [Heq|Hne].
      - rewrite filter_cons_True by done. simpl.
        assert (map (fun k0 => length (withKey key k0 (x :: xs))) ks =
                map (fun k0 => length (withKey key k0 xs)) ks) as ->.
        { apply map_ext_in. intros k0 Hk0. apply list_elem_of_In in Hk0.
          unfold withKey. rewrite filter_cons_False; [done|]. congruence. }
        unfold withKey. lia.
      - rewrite filter_cons_False by done.
        apply elem_of_cons in Hx as [?|Hx]; [done|].
        rewrite IHk by done. unfold withKey. lia. }
    rewrite IH; [simpl; lia|]. intros y Hy. apply Hin. by right.
Qed.

Lemma groupBy_keys {A} (key : A -> string) (xs : list A) :
  map fst (Js.groupBy key xs) = Js.setOf (map key xs).
Proof.
  rewrite groupBy_tabulate. unfold tabulate. rewrite map_map. simpl. apply map_id.
Qed.

Lemma groupBy_elem_of {A} (key : A -> string) (xs : list A) k group :
  (k, group) ∈ Js.groupBy key xs ->
  k ∈ map key xs /\ group = withKey key k xs.
Proof.
  rewrite groupBy_tabulate. unfold tabulate. intros Hin.
  apply list_elem_of_fmap in Hin as (k' & [= -> ->] & Hk).
  split; [by apply setOf_elem_of|done].
Qed.

Lemma groupBy_lengths {A} (key : A -> string) (xs : list A) :
  sum_list (map (fun e => length (snd e)) (Js.groupBy key xs)) = length xs.
Proof.
  rewrite groupBy_tabulate. unfold tabulate. rewrite map_map. simpl.
  apply withKey_partition; [apply setOf_NoDup|].
  intros x Hx. apply setOf_elem_of. by apply list_elem_of_fmap_2.
Qed.

Lemma groupBy_nil_iff {A} (key : A -> string) (xs : list A) :
  Js.groupBy key xs = [] <-> xs = [].
Proof.
  split; [|by intros ->].
  intros H. pose proof (groupBy_lengths key xs) as Hl. rewrite H in Hl.
  simpl in Hl. by destruct xs.
Qed.

Lemma insertSorted_Permutation {A} (cmp : A -> A -> Z) x l :
  Js.insertSorted cmp x l ≡ₚ x :: l.
Proof.
  induction l as [|y l IH]; simpl; [done|].
  destruct (0 <? cmp x y)%Z; [|done].
  rewrite IH. apply Permutation_swap.
Qed.

Lemma sort_Permutation {A} (cmp : A -> A -> Z) l : Js.sort cmp l ≡ₚ l.
Proof.
  unfold Js.sort. induction l as [|x l IH]; simpl; [done|].
  by rewrite insertSorted_Permutation, IH.
Qed.

Lemma sort_length {A} (cmp : A -> A -> Z) l : length (Js.sort cmp l) = length l.
Proof. apply Permutation_length, sort_Permutation. Qed.

Lemma insertSorted_desc {A} (count : A -> nat) x l :
  StronglySorted (fun a b => count b <= count a) l ->
  StronglySorted (fun a b => count b <= count a)
                 (Js.insertSorted (byCountDesc count) x l).
Proof.
  induction 1 as [|y l Hl IH Hy]; simpl.
  - repeat constructor.
  - unfold byCountDesc at 1. destruct (0 <? _)%Z eqn:E.
    + apply Z.ltb_lt in E. constructor; [exact IH|].
      rewrite insertSorted_Permutation. constructor; [lia|exact Hy].
    + apply Z.ltb_ge in E. constructor; [by constructor|].
      constructor; [lia|]. eapply Forall_impl; [exact Hy|]. simpl. intros; lia.
Qed.

Lemma sort_desc {A} (count : A -> nat) l :
  StronglySorted (fun a b => count b <= count a) (Js.sort (byCountDesc count) l).
Proof.
  unfold Js.sort. induction l as [|x l IH]; simpl; [constructor|].
  by apply insertSorted_desc.
Qed.

(** In a list sorted largest first, what a prefix leaves out is not larger
    than what it keeps. *)
Lemma sorted_take_drop {A} (count : A -> nat) l n a b :
  StronglySorted (fun a b => count b <= count a) l ->
  a ∈ take n l -> b ∈ drop n l -> count b <= count a.
Proof.
  intros Hs. revert n. induction Hs as [|y l Hl IH Hy]; intros n Ha Hb.
  - rewrite take_nil in Ha. by apply elem_of_nil in Ha.
  - destruct n as [|n]; [by apply elem_of_nil in Ha|]. simpl in Ha, Hb.
    apply elem_of_cons in Ha as [->|Ha]; [|eauto].
    rewrite Forall_forall in Hy. apply Hy.
    eapply subseteq_drop, Hb.
Qed.

(** ** Strings *)

Lemma units_cases c : Text.units c = 0 \/ Text.units c = 1 \/ Text.units c = 2.
Proof.
  unfold Text.units. cbv zeta.
  destruct (_ && _); [by left|]. destruct (240 <=? _); [by right; right|by right; left].
Qed.

Lemma units_ascii_of_nat n :
  n < 256 ->
  Text.units (ascii_of_nat n) =
  if (128 <=? n) && (n <=? 191) then 0 else if 240 <=? n then 2 else 1.
Proof. intros H. unfold Text.units. cbv zeta. by rewrite nat_ascii_embedding. Qed.

Lemma Text_length_app (s1 s2 : string) :
  Text.length (s1 +:+ s2) = Text.length s1 + Text.length s2.
Proof.
  induction s1 as [|c s1 IH]; [done|].
  change (String c s1 +:+ s2) with (String c (s1 +:+ s2)).
  cbn [Text.length]. rewrite IH. lia.
Qed.

(** A surrogate that is cut off its pair is one code unit. *)
Lemma highSurrogate_length c rest : Text.length (Text.highSurrogate c rest) = 1.
Proof.
  unfold Text.highSurrogate. cbv zeta. cbn [Text.length].
  set (x := _ - 64).
  pose proof (Nat.mod_upper_bound (x / 64) 16 ltac:(lia)).
  pose proof (Nat.mod_upper_bound x 64 ltac:(lia)).
  rewrite !units_ascii_of_nat by lia.
  assert ((128 <=? 160 + (x / 64) mod 16) && (160 + (x / 64) mod 16 <=? 191) = true) as ->.
  { apply andb_true_iff. split; apply Nat.leb_le; lia. }
  assert ((128 <=? 128 + x mod 64) && (128 + x mod 64 <=? 191) = true) as ->.
  { apply andb_true_iff. split; apply Nat.leb_le; lia. }
  reflexivity.
Qed.

Lemma substring0_length n (s : string) :
  Text.length (Text.substring0 n s) = n `min` Text.length s.
Proof.
  revert n. induction s as [|c s IH]; intros n; cbn [Text.substring0 Text.length].
  - lia.
  - destruct (units_cases c) as [U|[U|U]]; rewrite U.
    + cbn [Text.length]. rewrite U, IH. lia.
    + destruct n as [|n]; cbn [Text.length]; [lia|]. rewrite U, IH. lia.
    + destruct n as [|[|n]]; cbn [Text.length]; [lia| |].
      * rewrite highSurrogate_length. lia.
      * rewrite U, IH. lia.
Qed.

Lemma substring0_all n (s : string) :
  Text.length s <= n -> Text.substring0 n s = s.
Proof.
  revert n. induction s as [|c s IH]; intros n; cbn [Text.substring0 Text.length];
    [done|].
  destruct (units_cases c) as [U|[U|U]]; rewrite U; intros H.
  - by rewrite IH by lia.
  - destruct n as [|n]; [lia|]. by rewrite IH by lia.
  - destruct n as [|[|n]]; [lia|lia|]. by rewrite IH by lia.
Qed.

Lemma string_app_nil_l_early (a : string) : "" +:+ a = a.
Proof. reflexivity. Qed.

(** The cut at the length of [s1] gives [s1] back when a code unit starts
    right after it. *)
Lemma substring0_exact (s1 s2 : string) :
  match s2 with
  | EmptyString => True
  | String c _ => Text.units c <> 0
  end ->
  Text.substring0 (Text.length s1) (s1 +:+ s2) = s1.
Proof.
  intros Hs2. induction s1 as [|c s1 IH].
  - rewrite string_app_nil_l_early. destruct s2 as [|c s2]; [done|].
    cbn [Text.substring0 Text.length].
    destruct (units_cases c) as [U|[U|U]]; rewrite U; done.
  - change (String c s1 +:+ s2) with (String c (s1 +:+ s2)).
    cbn [Text.substring0 Text.length].
    destruct (units_cases c) as [U|[U|U]]; rewrite U; cbn [plus]; by rewrite IH.
Qed.

Lemma substring0_nonempty n (s : string) :
  s <> "" -> Text.substring0 (S n) s <> "".
Proof.
  destruct s as [|c s]; [done|]. intros _. cbn [Text.substring0].
  destruct (units_cases c) as [U|[U|U]]; rewrite U; [done|done|].
  by destruct n.
Qed.

Lemma codeUnits_app (s1 s2 : string) :
  codeUnits (s1 +:+ s2) = codeUnits s1 ++ codeUnits s2.
Proof. induction s1 as [|c s1 IH]; simpl; [done|]. unfold codeUnits in *. simpl. by rewrite IH. Qed.


Lemma includes_unfold (s needle : string) :
  Text.includes s needle =
  String.prefix needle s ||
  match s with
  | EmptyString => false
  | String _ s' => Text.includes s' needle
  end.
Proof. by destruct s. Qed.


(** ** The DOT export *)






(** X2: a simplified signature never has more than 40 code units.  A
    signature of at most 40 code units is returned as it is, whatever the
    number of its bytes; a longer one becomes its first 37 code units
    followed by three dots, 40 code units in all.  Simplifying twice is
    simplifying once. *)
Theorem simplifyMethodSignature_bounds_label (signature : string) :
  Text.length (Dot.simplifyMethodSignature signature) <= 40 /\
  (Text.length signature <= 40 ->
   Dot.simplifyMethodSignature signature = signature) /\
  (40 < Text.length signature ->
   Dot.simplifyMethodSignature signature = Text.substring0 37 signature +:+ "..." /\
   Text.length (Dot.simplifyMethodSignature signature) = 40 /\
   Text.substring0 37 (Dot.simplifyMethodSignature signature) =
   Text.substring0 37 signature) /\
  Dot.simplifyMethodSignature (Dot.simplifyMethodSignature signature) =
  Dot.simplifyMethodSignature signature.
Proof.
  unfold Dot.simplifyMethodSignature.
  assert (40 < Text.length signature ->
          Text.length (Text.substring0 37 signature +:+ "...") = 40) as Hlen.
  { intros H. rewrite Text_length_app, substring0_length.
    change (Text.length "...") with 3. lia. }
  destruct (40 <? Text.length signature) eqn:E.
  - apply Nat.ltb_lt in E. specialize (Hlen E).
    split; [lia|]. split; [lia|]. split.
    + intros _. split; [done|]. split; [done|].
      assert (Text.length (Text.substring0 37 signature) = 37) as H37
        by (rewrite substring0_length; lia).
      rewrite <- H37 at 1. by apply substring0_exact.
    + assert ((40 <? Text.length (Text.substring0 37 signature +:+ "...")) = false)
        as -> by (apply Nat.ltb_ge; lia). done.
  - apply Nat.ltb_ge in E. split; [lia|]. split; [done|]. split; [lia|].
    assert ((40 <? Text.length signature) = false) as -> by (apply Nat.ltb_ge; lia).
    done.
Qed.

Lemma simplifyMethodSignature_bounds_label_witness :
  Dot.simplifyMethodSignature "EntryAbilityWithAVeryLongClassName.onWindowStageCreate"
  = "EntryAbilityWithAVeryLongClassName.on..." /\
  Dot.simplifyMethodSignature "EntryAbility.onCreate" = "EntryAbility.onCreate" /\
  Dot.simplifyMethodSignature "首页面首页面首页面首页面首页.build"
  = "首页面首页面首页面首页面首页.build".
Proof.
  split; [|split].
  - exact (proj1 (proj1 (proj2 (proj2 (simplifyMethodSignature_bounds_label
        "EntryAbilityWithAVeryLongClassName.onWindowStageCreate")))
        ltac:(vm_compute; lia))).
  - exact (proj1 (proj2 (simplifyMethodSignature_bounds_label "EntryAbility.onCreate"))
             ltac:(vm_compute; lia)).
  - exact (proj1 (proj2 (simplifyMethodSignature_bounds_label
                           "首页面首页面首页面首页面首页.build"))
             ltac:(vm_compute; lia)).
Defined.

Lemma writeNodes_take sigs nodes : forall nodeCount dotContent,
  Dot.writeNodes sigs nodeCount nodes dotContent =
  fold_left (fun acc node => acc +:+ Dot.nodeLine sigs node)
            (take (51 - nodeCount) nodes) dotContent.
Proof.
  induction nodes as [|node rest IH]; intros nodeCount dotContent.
  - by rewrite take_nil.
  - simpl. destruct (50 <? nodeCount) eqn:E.
    + apply Nat.ltb_lt in E. by replace (51 - nodeCount) with 0 by lia.
    + apply Nat.ltb_ge in E. rewrite IH.
      replace (51 - nodeCount) with (S (51 - S nodeCount)) by lia. done.
Qed.

Lemma writeEdges_take edges : forall edgeCount dotContent,
  Dot.writeEdges edgeCount edges dotContent =
  fold_left (fun acc edge => acc +:+ Dot.edgeLine edge)
            (take (101 - edgeCount) edges) dotContent.
Proof.
  induction edges as [|edge rest IH]; intros edgeCount dotContent.
  - by rewrite take_nil.
  - simpl. destruct (100 <? edgeCount) eqn:E.
    + apply Nat.ltb_lt in E. by replace (101 - edgeCount) with 0 by lia.
    + apply Nat.ltb_ge in E. rewrite IH.
      replace (101 - edgeCount) with (S (101 - S edgeCount)) by lia. done.
Qed.

(** X3: the two write loops of the DOT export stop after the first 51 nodes
    and the first 101 edges: what they append is the line of each of these,
    in order, and nothing for the others. *)
Theorem dot_export_writes_51_nodes_101_edges
    (lifecycleSignatures nodes : list string) (edges : list Dot.Edge)
    (dotContent : string) :
  Dot.writeNodes lifecycleSignatures 0 nodes dotContent =
    fold_left (fun acc node => acc +:+ Dot.nodeLine lifecycleSignatures node)
              (take 51 nodes) dotContent /\
  Dot.writeEdges 0 edges dotContent =
    fold_left (fun acc edge => acc +:+ Dot.edgeLine edge) (take 101 edges) dotContent /\
  length (take 51 nodes) = 51 `min` length nodes /\
  length (take 101 edges) = 101 `min` length edges.
Proof.
  split; [apply writeNodes_take|]. split; [apply writeEdges_take|].
  by rewrite !length_take.
Qed.
Lemma graphOk_add_node sigs g n :
  n ∈ sigs -> graphOk sigs g ->
  graphOk sigs {| Dot.nodes := Js.setAdd (Dot.nodes g) n; Dot.edges := Dot.edges g |}.
Proof.
  intros Hn (Hnd & He & Hv). split; [|split]; simpl.
  - by apply setAdd_NoDup.
  - eapply Forall_impl; [exact He|]. simpl. intros e (? & ? & ? & ?).
    rewrite !setAdd_elem_of. auto.
  - apply Forall_forall. intros x Hx. apply setAdd_elem_of in Hx as [Hx| ->]; [|auto].
    rewrite Forall_forall in Hv. auto.
Qed.

Lemma collectExpr_ok sigs methodSig g exprStr :
  methodSig ∈ sigs -> methodSig ∈ Dot.nodes g -> graphOk sigs g ->
  graphOk sigs (Dot.collectExpr methodSig g exprStr) /\
  Dot.nodes g ⊆ Dot.nodes (Dot.collectExpr methodSig g exprStr).
Proof.
  intros Hs Hm Hok. unfold Dot.collectExpr.
  destruct (Text.includes exprStr "invoke"); [|done].
  destruct (V1.extractMethodFromInvoke exprStr) as [[|c t]|]; [done| |done].
  destruct Hok as (Hnd & He & Hv). split; [split; [|split]|]; simpl.
  - by apply setAdd_NoDup.
  - apply Forall_app. split.
    + eapply Forall_impl; [exact He|]. simpl. intros e (? & ? & ? & ?).
      rewrite !setAdd_elem_of. auto.
    + apply Forall_singleton. simpl. rewrite !setAdd_elem_of. auto.
  - apply Forall_forall. intros x Hx. apply setAdd_elem_of in Hx as [Hx| ->].
    + rewrite Forall_forall in Hv. destruct (Hv x Hx) as [?|(e & ? & ?)]; [auto|].
      right. exists e. rewrite elem_of_app. auto.
    + right. eexists. split; [apply elem_of_app; right; by apply list_elem_of_singleton|done].
  - intros x Hx. apply setAdd_elem_of. auto.
Qed.

Lemma collectExprs_ok sigs methodSig exprs : forall g,
  methodSig ∈ sigs -> methodSig ∈ Dot.nodes g -> graphOk sigs g ->
  graphOk sigs (fold_left (Dot.collectExpr methodSig) exprs g) /\
  Dot.nodes g ⊆ Dot.nodes (fold_left (Dot.collectExpr methodSig) exprs g).
Proof.
  induction exprs as [|e exprs IH]; intros g Hs Hm Hok; simpl; [done|].
  destruct (collectExpr_ok sigs methodSig g e Hs Hm Hok) as [Hok1 Hsub1].
  destruct (IH _ Hs (Hsub1 _ Hm) Hok1) as [Hok2 Hsub2].
  split; [done|]. by etrans.
Qed.

Section DotExport.
Variable getDeclaringArkClass : ArkMethod.t -> ArkClass.t.
Variable sigs : list string.

Lemma collectMethod_ok g m :
  graphOk sigs g ->
  graphOk sigs (Dot.collectMethod getDeclaringArkClass sigs g m) /\
  Dot.nodes g ⊆ Dot.nodes (Dot.collectMethod getDeclaringArkClass sigs g m) /\
  (Dot.getMethodSignature getDeclaringArkClass m ∈ sigs ->
   Dot.getMethodSignature getDeclaringArkClass m
     ∈ Dot.nodes (Dot.collectMethod getDeclaringArkClass sigs g m)).
Proof.
  intros Hok. unfold Dot.collectMethod.
  set (methodSig := Dot.getMethodSignature getDeclaringArkClass m).
  destruct (Text.arrayIncludes sigs methodSig) eqn:E; simpl.
  - apply arrayIncludes_elem_of in E.
    set (g1 := {| Dot.nodes := Js.setAdd (Dot.nodes g) methodSig;
                  Dot.edges := Dot.edges g |}).
    assert (graphOk sigs g1) as Hok1 by by apply graphOk_add_node.
    assert (methodSig ∈ Dot.nodes g1) as Hm1 by (apply setAdd_elem_of; auto).
    assert (Dot.nodes g ⊆ Dot.nodes g1) as Hsub1
      by (intros x Hx; apply setAdd_elem_of; auto).
    destruct (ArkMethod.getCfg m) as [cfg|]; [|done].
    assert (forall stmts g', methodSig ∈ Dot.nodes g' -> graphOk sigs g' ->
              graphOk sigs
                (fold_left (fun g stmt => fold_left (Dot.collectExpr methodSig)
                                                    (Stmt.getExprs stmt) g) stmts g') /\
              Dot.nodes g' ⊆ Dot.nodes
                (fold_left (fun g stmt => fold_left (Dot.collectExpr methodSig)
                                                    (Stmt.getExprs stmt) g) stmts g'))
      as Hstmts.
    { induction stmts as [|stmt stmts IH]; intros g' Hm' Hok'; simpl; [done|].
      destruct (collectExprs_ok sigs methodSig (Stmt.getExprs stmt) g' E Hm' Hok')
        as [Hok2 Hsub2].
      destruct (IH _ (Hsub2 _ Hm') Hok2) as [Hok3 Hsub3].
      split; [done|]. by etrans. }
    destruct (Hstmts (Cfg.getStmts cfg) g1 Hm1 Hok1) as [Hok2 Hsub2].
    split; [done|]. split; [by etrans|]. intros _. by apply Hsub2.
  - split; [done|]. split; [done|]. intros Hin.
    apply arrayIncludes_elem_of in Hin. congruence.
Qed.

Lemma collectMethods_ok ms : forall g,
  graphOk sigs g ->
  graphOk sigs (fold_left (Dot.collectMethod getDeclaringArkClass sigs) ms g) /\
  Dot.nodes g ⊆ Dot.nodes (fold_left (Dot.collectMethod getDeclaringArkClass sigs) ms g) /\
  (forall m, m ∈ ms -> Dot.getMethodSignature getDeclaringArkClass m ∈ sigs ->
     Dot.getMethodSignature getDeclaringArkClass m
       ∈ Dot.nodes (fold_left (Dot.collectMethod getDeclaringArkClass sigs) ms g)).
Proof.
  induction ms as [|m ms IH]; intros g Hok; simpl.
  - split; [done|]. split; [done|]. by intros m ?%elem_of_nil.
  - destruct (collectMethod_ok g m Hok) as (Hok1 & Hsub1 & Hm1).
    destruct (IH _ Hok1) as (Hok2 & Hsub2 & Hm2).
    split; [done|]. split; [by etrans|].
    intros m' Hin Hs. apply elem_of_cons in Hin as [->|Hin]; [|by apply Hm2].
    by apply Hsub2, Hm1.
Qed.

(** X4: the graph that the DOT export of version 1 collects is well formed:
    its nodes are distinct, every edge leaves the signature of a lifecycle
    method and joins two nodes, every node is such a signature or the target
    of an edge, and every method of the scene (in any file, test files
    included) whose signature is a lifecycle signature is a node.  The export
    returns before it builds any text when and only when no call graph was
    stored. *)
Theorem dot_graph_is_well_formed (scene : Scene.t) (st : V1.State) :
  graphOk sigs (Dot.collect getDeclaringArkClass sigs scene) /\
  (forall file cls m,
     file ∈ Scene.getFiles scene -> cls ∈ ArkFile.getClasses file ->
     m ∈ ArkClass.getMethods cls ->
     Dot.getMethodSignature getDeclaringArkClass m ∈ sigs ->
     Dot.getMethodSignature getDeclaringArkClass m
       ∈ Dot.nodes (Dot.collect getDeclaringArkClass sigs scene)) /\
  (Dot.exportCallGraphToDot getDeclaringArkClass scene st = None <->
   V1.callGraph st = None).
Proof.
  set (P := fun g : Dot.Graph => graphOk sigs g).
  assert (forall classes g, P g ->
            let g' := fold_left
                        (fun g cls => fold_left (Dot.collectMethod getDeclaringArkClass sigs)
                                                (ArkClass.getMethods cls) g) classes g in
            P g' /\ Dot.nodes g ⊆ Dot.nodes g' /\
            (forall cls m, cls ∈ classes -> m ∈ ArkClass.getMethods cls ->
               Dot.getMethodSignature getDeclaringArkClass m ∈ sigs ->
               Dot.getMethodSignature getDeclaringArkClass m ∈ Dot.nodes g'))
    as Hclasses.
  { induction classes as [|cls classes IH]; intros g Hg; simpl.
    - split; [done|]. split; [done|]. by intros cls m ?%elem_of_nil.
    - destruct (collectMethods_ok (ArkClass.getMethods cls) g Hg) as (H1 & S1 & M1).
      destruct (IH _ H1) as (H2 & S2 & M2).
      split; [done|]. split; [by etrans|].
      intros cls' m Hc Hm Hs. apply elem_of_cons in Hc as [->|Hc]; [|by eapply M2].
      by apply S2, M1. }
  assert (forall files g, P g ->
            let g' := fold_left
                        (fun g file =>
                           fold_left
                             (fun g cls =>
                                fold_left (Dot.collectMethod getDeclaringArkClass sigs)
                                          (ArkClass.getMethods cls) g)
                             (ArkFile.getClasses file) g) files g in
            P g' /\ Dot.nodes g ⊆ Dot.nodes g' /\
            (forall file cls m, file ∈ files -> cls ∈ ArkFile.getClasses file ->
               m ∈ ArkClass.getMethods cls ->
               Dot.getMethodSignature getDeclaringArkClass m ∈ sigs ->
               Dot.getMethodSignature getDeclaringArkClass m ∈ Dot.nodes g'))
    as Hfiles.
  { induction files as [|file files IH]; intros g Hg; simpl.
    - split; [done|]. split; [done|]. by intros file cls m ?%elem_of_nil.
    - destruct (Hclasses (ArkFile.getClasses file) g Hg) as (H1 & S1 & M1).
      destruct (IH _ H1) as (H2 & S2 & M2).
      split; [done|]. split; [by etrans|].
      intros file' cls m Hf Hc Hm Hs.
      apply elem_of_cons in Hf as [->|Hf]; [|by eapply M2].
      by eapply S2, M1. }
  assert (P {| Dot.nodes := []; Dot.edges := [] |}) as H0.
  { split; [apply NoDup_nil_2|]. split; constructor. }
  destruct (Hfiles (Scene.getFiles scene) _ H0) as (H1 & _ & M1).
  split; [exact H1|]. split; [exact M1|].
  unfold Dot.exportCallGraphToDot. by destruct (V1.callGraph st).
Qed.

End DotExport.

Lemma dot_graph_is_well_formed_witness :
  let aboutToAppear :=
    Inputs.withBody "aboutToAppear"
      [Inputs.undefinedStmt; Inputs.popStmt; Inputs.plainStmt] in
  aboutToAppear ∈ ArkClass.getMethods Inputs.dialog /\
  "Dialog.aboutToAppear"
    ∈ Dot.nodes (Dot.collect (fun _ => Inputs.dialog) ["Dialog.aboutToAppear"]
                             Inputs.dialogScene).
Proof.
  intros aboutToAppear.
  assert (aboutToAppear ∈ ArkClass.getMethods Inputs.dialog) as Hm
    by (apply (list_elem_of_lookup_2 _ 0); reflexivity).
  split; [exact Hm|].
  refine (proj1 (proj2 (dot_graph_is_well_formed (fun _ => Inputs.dialog)
                          ["Dialog.aboutToAppear"] Inputs.dialogScene
                          Samples.dialogAnalyzedV1))
            {| ArkFile.getName := "pages/Dialog.ets"; ArkFile.getClasses := [Inputs.dialog] |}
            Inputs.dialog aboutToAppear _ _ Hm _).
  - apply (list_elem_of_lookup_2 _ 1); reflexivity.
  - apply (list_elem_of_lookup_2 _ 0); reflexivity.
  - apply (list_elem_of_lookup_2 _ 0); reflexivity.
Defined.

(** ** The issue listing of the project report *)

Lemma withKey_concat_Permutation {A} (key : A -> string) (ks : list string) (xs : list A) :
  NoDup ks -> (forall x, x ∈ xs -> key x ∈ ks) ->
  concat (map (fun k => withKey key k xs) ks) ≡ₚ xs.
Proof.
  intros Hnd. induction xs as [|x xs IH]; intros Hin.
  - clear. induction ks as [|k ks IHk]; simpl; auto.
  - assert (concat (map (fun k => withKey key k (x :: xs)) ks) ≡ₚ
            x :: concat (map (fun k => withKey key k xs) ks)) as ->.
    { assert (key x ∈ ks) as Hx by (apply Hin; left).
      clear IH Hin. induction ks as [|k ks IHk]; [by apply elem_of_nil in Hx|].
      apply NoDup_cons in Hnd as [Hk Hnd]. simpl. unfold withKey at 1.
      destruct (decide (key x = k)) as [Heq|Hne].
      - rewrite filter_cons_True by done. simpl.
        assert (map (fun k0 => withKey key k0 (x :: xs)) ks =
                map (fun k0 => withKey key k0 xs) ks) as ->; [|done].
        apply map_ext_in. intros k0 Hk0. apply list_elem_of_In in Hk0.
        unfold withKey. rewrite filter_cons_False; [done|]. congruence.
      - rewrite filter_cons_False by done.
        apply elem_of_cons in Hx as [?|Hx]; [done|].
        rewrite IHk by done. fold (withKey key k xs).
        by rewrite Permutation_middle. }
    constructor. apply IH. intros y Hy. apply Hin. by right.
Qed.

Lemma groupBy_concat_Permutation {A} (key : A -> string) (xs : list A) :
  concat (map snd (Js.groupBy key xs)) ≡ₚ xs.
Proof.
  rewrite groupBy_tabulate. unfold tabulate. rewrite map_map. simpl.
  apply withKey_concat_Permutation; [apply setOf_NoDup|].
  intros x Hx. apply setOf_elem_of. by apply list_elem_of_fmap_2.
Qed.

Lemma listFileIssues_spec fileIssues : forall count out,
  count <= 20 ->
  ProjectReport.listFileIssues count fileIssues out =
  (20 `min` (count + length fileIssues),
   out ++ imap (fun i x => ProjectReport.IssueEntry (count + i + 1) x)
               (take (20 - count) fileIssues)).
Proof.
  induction fileIssues as [|x rest IH]; intros count out Hc;
    cbn [ProjectReport.listFileIssues].
  - rewrite take_nil. cbn [imap length]. rewrite app_nil_r. f_equal. lia.
  - destruct (20 <=? count) eqn:E.
    + apply Nat.leb_le in E. replace (20 - count) with 0 by lia.
      cbn [take imap length]. rewrite app_nil_r. f_equal. lia.
    + apply Nat.leb_gt in E. rewrite IH by lia.
      replace (20 - count) with (S (20 - S count)) by lia.
      cbn [take imap length].
      rewrite <- app_assoc. cbn [app]. f_equal; [lia|]. f_equal.
      replace (count + 0 + 1) with (S count) by lia. f_equal.
      apply imap_ext. intros i y _. cbn. f_equal. lia.
Qed.

Lemma shownIssues_app out1 out2 :
  shownIssues (out1 ++ out2) = shownIssues out1 ++ shownIssues out2.
Proof. apply omap_app. Qed.

Lemma hiddenNotes_app out1 out2 :
  hiddenNotes (out1 ++ out2) = hiddenNotes out1 ++ hiddenNotes out2.
Proof. apply omap_app. Qed.

Lemma shownIssues_entries (f : nat -> nat) (l : list Project.UndefinedIssue) :
  shownIssues (imap (fun i x => ProjectReport.IssueEntry (f i) x) l) =
  imap (fun i x => (f i, x)) l.
Proof.
  revert f. induction l as [|x l IH]; intros f; simpl; [done|].
  unfold shownIssues in *. simpl. f_equal. apply (IH (f ∘ S)).
Qed.

Lemma hiddenNotes_entries (f : nat -> nat) (l : list Project.UndefinedIssue) :
  hiddenNotes (imap (fun i x => ProjectReport.IssueEntry (f i) x) l) = [].
Proof.
  revert f. induction l as [|x l IH]; intros f; simpl; [done|].
  unfold hiddenNotes in *. simpl. apply (IH (f ∘ S)).
Qed.

Lemma listFiles_shown issuesLength groups : forall count out,
  count <= 20 ->
  shownIssues (ProjectReport.listFiles issuesLength count groups out) =
  shownIssues out ++
  imap (fun i x => (count + i + 1, x)) (take (20 - count) (concat (map snd groups))).
Proof.
  induction groups as [|[file fileIssues] rest IH]; intros count out Hc;
    cbn [ProjectReport.listFiles map snd concat].
  - rewrite take_nil. cbn [imap]. by rewrite app_nil_r.
  - destruct (20 <=? count) eqn:E.
    + apply Nat.leb_le in E. replace (20 - count) with 0 by lia. cbn [take imap].
      rewrite shownIssues_app. done.
    + apply Nat.leb_gt in E. rewrite listFileIssues_spec by lia.
      rewrite IH by lia. rewrite !shownIssues_app, shownIssues_entries.
      change (shownIssues [ProjectReport.FileHeader file]) with
        (@nil (nat * Project.UndefinedIssue)).
      rewrite app_nil_r, <- app_assoc. f_equal.
      rewrite take_app, imap_app. f_equal.
      rewrite length_take.
      replace (20 - 20 `min` (count + length fileIssues))
        with (20 - count - length fileIssues) by lia.
      apply imap_ext. intros i y _. cbv beta. f_equal. lia.
Qed.

Lemma removelast_cons_cons {A} (x y : A) l :
  removelast (x :: y :: l) = x :: removelast (y :: l).
Proof. done. Qed.

Lemma listFiles_hidden issuesLength groups : forall count out,
  count <= 20 ->
  hiddenNotes (ProjectReport.listFiles issuesLength count groups out) =
  hiddenNotes out ++
  (if decide (groups <> [] /\ 20 <= count + beforeLastGroup groups)
   then [(Z.of_nat issuesLength - 20)%Z] else []).
Proof.
  induction groups as [|[file fileIssues] rest IH]; intros count out Hc.
  - cbn [ProjectReport.listFiles].
    rewrite decide_False by (intros [? _]; done). by rewrite app_nil_r.
  - cbn [ProjectReport.listFiles]. destruct (20 <=? count) eqn:E.
    + apply Nat.leb_le in E. rewrite hiddenNotes_app.
      rewrite decide_True by (split; [done|lia]). f_equal.
      unfold hiddenNotes. simpl. do 2 f_equal. lia.
    + apply Nat.leb_gt in E. rewrite listFileIssues_spec by lia.
      rewrite IH by lia. rewrite !hiddenNotes_app, hiddenNotes_entries.
      change (hiddenNotes [ProjectReport.FileHeader file]) with (@nil Z).
      rewrite !app_nil_r. f_equal.
      destruct rest as [|g rest].
      * rewrite decide_False by (intros [? _]; done).
        rewrite decide_False; [done|]. unfold beforeLastGroup. simpl. lia.
      * unfold beforeLastGroup. rewrite removelast_cons_cons.
        cbn [map sum_list snd].
        set (n := sum_list _). unfold id.
        destruct (decide (20 <= count + (length fileIssues + n))) as [H|H].
        -- rewrite decide_True by (split; [done|lia]).
           rewrite decide_True by (split; [done|lia]). done.
        -- rewrite decide_False by (intros [_ ?]; lia).
           rewrite decide_False by (intros [_ ?]; lia). done.
Qed.

(** X5: the issue listing of the project report shows the first 20 issues
    of the issues grouped by file (files in the order of their first issue),
    numbered from 1.  The line that tells how many issues are hidden is
    printed exactly when the files other than the last one hold 20 issues or
    more, and then it tells the number of issues minus 20; when the hidden
    issues all belong to the last file no such line is printed. *)
Theorem project_report_lists_first_20 (st : Project.State) :
  Project.issues st <> [] ->
  let issuesByFile := Js.groupBy Project.file (Project.issues st) in
  let out := ProjectReport.listIssues st in
  shownIssues out =
    imap (fun i x => (i + 1, x)) (take 20 (concat (map snd issuesByFile))) /\
  hiddenNotes out =
    (if decide (20 <= beforeLastGroup issuesByFile)
     then [(Z.of_nat (length (Project.issues st)) - 20)%Z] else []) /\
  concat (map snd issuesByFile) ≡ₚ Project.issues st /\
  map fst issuesByFile = Js.setOf (map Project.file (Project.issues st)).
Proof.
  intros Hne. cbv zeta. unfold ProjectReport.listIssues.
  assert ((0 <? length (Project.issues st)) = true) as ->.
  { apply Nat.ltb_lt. destruct (Project.issues st); [done|simpl; lia]. }
  split; [|split; [|split]].
  - rewrite listFiles_shown by lia. done.
  - rewrite listFiles_hidden by lia. simpl.
    destruct (decide (20 <= beforeLastGroup _)) as [H|H].
    + rewrite decide_True; [done|]. split; [|done].
      intros Hnil. rewrite Hnil in H. unfold beforeLastGroup in H. simpl in H. lia.
    + rewrite decide_False; [done|]. intros [_ ?]. done.
  - apply groupBy_concat_Permutation.
  - apply groupBy_keys.
Qed.

Lemma project_report_lists_first_20_witness :
  Project.issues Samples.crowdedAnalyzed <> [] /\
  length (Project.issues Samples.crowdedAnalyzed) = 24 /\
  length (shownIssues (ProjectReport.listIssues Samples.crowdedAnalyzed)) = 20 /\
  hiddenNotes (ProjectReport.listIssues Samples.crowdedAnalyzed) = [4%Z].
Proof.
  assert (Project.issues Samples.crowdedAnalyzed <> []) as Hne
    by (vm_compute; discriminate).
  split; [exact Hne|]. split; [reflexivity|].
  destruct (project_report_lists_first_20 _ Hne) as (Hs & Hh & _).
  rewrite Hs, Hh. split; vm_compute; reflexivity.
Defined.

(** ** What the passes append and count *)

(** A loop whose body appends [f x] to a list of the state appends the
    concatenation of all [f x]. *)
Lemma fold_left_appends {S A B} (proj : S -> list B) (step : S -> A -> S)
    (f : A -> list B) :
  (forall s x, proj (step s x) = proj s ++ f x) ->
  forall xs s, proj (fold_left step xs s) = proj s ++ flat_map f xs.
Proof.
  intros Hstep. induction xs as [|x xs IH]; intros s; simpl.
  - by rewrite app_nil_r.
  - by rewrite IH, Hstep, <- app_assoc.
Qed.

(** A loop whose body adds [f x] to a counter of the state adds the sum. *)
Lemma fold_left_adds {S A} (proj : S -> nat) (step : S -> A -> S) (f : A -> nat) :
  (forall s x, proj (step s x) = proj s + f x) ->
  forall xs s, proj (fold_left step xs s) = proj s + sum_list (map f xs).
Proof.
  intros Hstep. induction xs as [|x xs IH]; intros s; simpl.
  - lia.
  - rewrite IH, Hstep. lia.
Qed.

Lemma fold_left_keeps {S A B} (proj : S -> B) (step : S -> A -> S) :
  (forall s x, proj (step s x) = proj s) ->
  forall xs s, proj (fold_left step xs s) = proj s.
Proof.
  intros Hstep. induction xs as [|x xs IH]; intros s; simpl; [done|].
  by rewrite IH, Hstep.
Qed.

Lemma length_flat_map {A B} (f : A -> list B) xs :
  length (flat_map f xs) = sum_list (map (fun x => length (f x)) xs).
Proof.
  induction xs as [|x xs IH]; simpl; [done|]. by rewrite length_app, IH.
Qed.

Lemma length_filter_sum {A} (p : A -> bool) xs :
  length (filter (fun x => p x = false) xs) =
  sum_list (map (fun x => if p x then 0 else 1) xs).
Proof.
  induction xs as [|x xs IH]; simpl; [done|].
  destruct (p x) eqn:E.
  - rewrite filter_cons_False by congruence. done.
  - rewrite filter_cons_True by done. simpl. by rewrite IH.
Qed.

Lemma sum_list_flat_map {A B} (g : B -> nat) (f : A -> list B) xs :
  sum_list (map g (flat_map f xs)) = sum_list (map (fun x => sum_list (map g (f x))) xs).
Proof.
  induction xs as [|x xs IH]; simpl; [done|].
  by rewrite map_app, sum_list_with_app, IH.
Qed.

Ltac pair_eq :=
  repeat match goal with
         | |- (_, _) = (_, _) => f_equal
         end; try done; try lia.

(** ** The project analyzer: statistics and provenance of the issues *)

Lemma Project_checkStatement_issues stmt m c f st :
  Project.issues (Project.checkStatement stmt m c f st) =
  Project.issues st ++ Project_stmtIssues stmt m c f.
Proof.
  unfold Project.checkStatement, Project_stmtIssues.
  destruct (Text.includes (Stmt.toString stmt) "undefined");
    destruct (Text.includes (Stmt.toString stmt) "fieldload" &&
              Text.includes (Stmt.toString stmt) "null");
    destruct (Text.includes (Stmt.toString stmt) "arrayload");
    destruct (Text.includes (Stmt.toString stmt) "?.");
    rewrite ?Project_addIssue_issues; simpl; rewrite <- ?app_assoc; simpl;
    by rewrite ?app_nil_r.
Qed.

Lemma Project_checkStatement_counts stmt m c f st :
  Project_counts (Project.checkStatement stmt m c f st) = Project_counts st.
Proof.
  unfold Project.checkStatement. split_ifs; reflexivity.
Qed.

Lemma Project_checkStatement_found stmt m c f st :
  Project.issuesFound (Project.stats st) = length (Project.issues st) ->
  Project.issuesFound (Project.stats (Project.checkStatement stmt m c f st)) =
  length (Project.issues (Project.checkStatement stmt m c f st)).
Proof.
  intros H. unfold Project.checkStatement.
  split_ifs; simpl; rewrite ?length_app; simpl; lia.
Qed.

Lemma Project_analyzeMethod_issues ext m c f st :
  Project.issues (Project.analyzeMethod ext m c f st) =
  Project.issues st ++ Project_methodIssues ext m c f.
Proof.
  unfold Project.analyzeMethod, Project_methodIssues, Project_leftOut.
  destruct (_ || _); [by rewrite app_nil_r|].
  destruct (ArkMethod.getCfg m) as [cfg|]; [|by rewrite app_nil_r].
  destruct (External.solveCfg ext cfg); [|by rewrite app_nil_r].
  rewrite (fold_left_appends Project.issues _
             (fun stmt => Project_stmtIssues stmt m c f)); [done|].
  intros. apply Project_checkStatement_issues.
Qed.

Lemma Project_analyzeMethod_counts ext m c f st :
  Project_counts (Project.analyzeMethod ext m c f st) =
  (Project.totalFiles (Project.stats st), Project.totalClasses (Project.stats st),
   Project.totalMethods (Project.stats st),
   Project.analyzedMethods (Project.stats st) + (if Project_leftOut m then 0 else 1)).
Proof.
  unfold Project.analyzeMethod, Project_leftOut.
  destruct (_ || _); [unfold Project_counts; pair_eq|].
  assert (Project_counts (Project.incrAnalyzedMethods st) =
          (Project.totalFiles (Project.stats st), Project.totalClasses (Project.stats st),
           Project.totalMethods (Project.stats st),
           Project.analyzedMethods (Project.stats st) + 1)) as H0
    by (unfold Project_counts; simpl; pair_eq).
  destruct (ArkMethod.getCfg m) as [cfg|]; [|done].
  destruct (External.solveCfg ext cfg); [|done].
  rewrite <- H0. apply (fold_left_keeps Project_counts).
  intros. apply Project_checkStatement_counts.
Qed.

Lemma Project_analyzeMethod_found ext m c f st :
  Project.issuesFound (Project.stats st) = length (Project.issues st) ->
  Project.issuesFound (Project.stats (Project.analyzeMethod ext m c f st)) =
  length (Project.issues (Project.analyzeMethod ext m c f st)).
Proof.
  intros H. unfold Project.analyzeMethod.
  destruct (_ || _); [done|].
  destruct (ArkMethod.getCfg m) as [cfg|]; [|done].
  destruct (External.solveCfg ext cfg); [|done].
  apply (fold_left_invariant _
           (fun s => Project.issuesFound (Project.stats s) = length (Project.issues s)));
    [|done].
  intros. by apply Project_checkStatement_found.
Qed.
Lemma Project_analyzeClass_issues ext cls f st :
  Project.issues (Project.analyzeClass ext cls f st) =
  Project.issues st ++
  flat_map (fun m => Project_methodIssues ext m (ArkClass.getName cls) f)
           (ArkClass.getMethods cls).
Proof.
  unfold Project.analyzeClass.
  rewrite (fold_left_appends Project.issues _
             (fun m => Project_methodIssues ext m (ArkClass.getName cls) f)); [done|].
  intros. apply Project_analyzeMethod_issues.
Qed.

Lemma Project_analyzeClass_counts ext cls f st :
  Project_counts (Project.analyzeClass ext cls f st) =
  (Project.totalFiles (Project.stats st), Project.totalClasses (Project.stats st),
   Project.totalMethods (Project.stats st) + length (ArkClass.getMethods cls),
   Project.analyzedMethods (Project.stats st) +
   length (filter (fun m => Project_leftOut m = false) (ArkClass.getMethods cls))).
Proof.
  unfold Project.analyzeClass.
  set (st1 := Project.addTotalMethods _ st).
  assert (forall ms s,
            Project_counts (fold_left (fun st m => Project.analyzeMethod ext m
                                                     (ArkClass.getName cls) f st) ms s) =
            (Project.totalFiles (Project.stats s), Project.totalClasses (Project.stats s),
             Project.totalMethods (Project.stats s),
             Project.analyzedMethods (Project.stats s) +
             length (filter (fun m => Project_leftOut m = false) ms))) as H.
  { induction ms as [|m ms IH]; intros s; cbn [fold_left].
    - unfold Project_counts. rewrite filter_nil. simpl. pair_eq.
    - rewrite IH. pose proof (Project_analyzeMethod_counts ext m (ArkClass.getName cls) f s)
        as Hm. unfold Project_counts in Hm. injection Hm as -> -> -> ->.
      f_equal. destruct (Project_leftOut m) eqn:E.
      + rewrite filter_cons_False by congruence. lia.
      + rewrite filter_cons_True by done. cbn [length]. lia. }
  rewrite H. done.
Qed.

Lemma Project_analyzeClass_found ext cls f st :
  Project.issuesFound (Project.stats st) = length (Project.issues st) ->
  Project.issuesFound (Project.stats (Project.analyzeClass ext cls f st)) =
  length (Project.issues (Project.analyzeClass ext cls f st)).
Proof.
  intros H. unfold Project.analyzeClass.
  apply (fold_left_invariant _
           (fun s => Project.issuesFound (Project.stats s) = length (Project.issues s)));
    [|done].
  intros. by apply Project_analyzeMethod_found.
Qed.

Lemma Project_analyzeFile_issues ext file st :
  Project.issues (Project.analyzeFile ext file st) =
  Project.issues st ++ Project_fileIssues ext file.
Proof.
  unfold Project.analyzeFile, Project_fileIssues.
  fold (isTestFileName (ArkFile.getName file)).
  destruct (isTestFileName _); [by rewrite app_nil_r|].
  rewrite (fold_left_appends Project.issues _
             (fun cls => flat_map (fun m => Project_methodIssues ext m (ArkClass.getName cls)
                                              (ArkFile.getName file))
                                  (ArkClass.getMethods cls))); [done|].
  intros. apply Project_analyzeClass_issues.
Qed.

Lemma Project_analyzeFile_counts ext file st :
  Project_counts (Project.analyzeFile ext file st) =
  if isTestFileName (ArkFile.getName file) then Project_counts st
  else
    (Project.totalFiles (Project.stats st),
     Project.totalClasses (Project.stats st) + length (ArkFile.getClasses file),
     Project.totalMethods (Project.stats st) +
     length (flat_map ArkClass.getMethods (ArkFile.getClasses file)),
     Project.analyzedMethods (Project.stats st) +
     length (filter (fun m => Project_leftOut m = false)
                    (flat_map ArkClass.getMethods (ArkFile.getClasses file)))).
Proof.
  unfold Project.analyzeFile. fold (isTestFileName (ArkFile.getName file)).
  destruct (isTestFileName _); [done|].
  set (st1 := Project.addTotalClasses _ st).
  assert (forall classes s,
            Project_counts (fold_left (fun st cls => Project.analyzeClass ext cls
                                                       (ArkFile.getName file) st) classes s) =
            (Project.totalFiles (Project.stats s), Project.totalClasses (Project.stats s),
             Project.totalMethods (Project.stats s) +
             length (flat_map ArkClass.getMethods classes),
             Project.analyzedMethods (Project.stats s) +
             length (filter (fun m => Project_leftOut m = false)
                            (flat_map ArkClass.getMethods classes)))) as H.
  { induction classes as [|cls classes IH]; intros s; cbn [fold_left flat_map].
    - unfold Project_counts. rewrite filter_nil. simpl. pair_eq.
    - rewrite IH.
      pose proof (Project_analyzeClass_counts ext cls (ArkFile.getName file) s) as Hc.
      unfold Project_counts in Hc. injection Hc as -> -> -> ->.
      rewrite filter_app, !length_app. pair_eq. }
  rewrite H. done.
Qed.

Lemma Project_analyzeFile_found ext file st :
  Project.issuesFound (Project.stats st) = length (Project.issues st) ->
  Project.issuesFound (Project.stats (Project.analyzeFile ext file st)) =
  length (Project.issues (Project.analyzeFile ext file st)).
Proof.
  intros H. unfold Project.analyzeFile. destruct (_ || _); [done|].
  apply (fold_left_invariant _
           (fun s => Project.issuesFound (Project.stats s) = length (Project.issues s)));
    [|done].
  intros. by apply Project_analyzeClass_found.
Qed.

Lemma flat_map_filter_false {A B} (p : A -> bool) (f : A -> list B) xs :
  flat_map (fun x => if p x then [] else f x) xs =
  flat_map f (filter (fun x => p x = false) xs).
Proof.
  induction xs as [|x xs IH]; simpl; [done|]. destruct (p x) eqn:E.
  - rewrite filter_cons_False by congruence. done.
  - rewrite filter_cons_True by done. simpl. by rewrite IH.
Qed.

(** X6: the statistics of the project analyzer after [analyze].  The file
    count takes in every file; classes and methods are counted in the files
    that are not test files; a method counts as analyzed as soon as its name
    does not start with two underscores and is not the constructor, whether
    or not it has a body and whether or not the solver throws on it; the
    issue count is the length of the issue list. *)
Theorem project_statistics_count_the_scene (ext : External.t) (scene : Scene.t) :
  let st := Project.analyze ext scene Project.init in
  Project.totalFiles (Project.stats st) = length (Scene.getFiles scene) /\
  Project.totalClasses (Project.stats st) = length (sourceClasses scene) /\
  Project.totalMethods (Project.stats st) = length (sourceMethods scene) /\
  Project.analyzedMethods (Project.stats st) =
    length (filter (fun m => Project_leftOut m = false) (sourceMethods scene)) /\
  Project.issuesFound (Project.stats st) = length (Project.issues st) /\
  Project.analyzedMethods (Project.stats st) <= Project.totalMethods (Project.stats st).
Proof.
  cbv zeta. unfold Project.analyze.
  set (st0 := Project.setTotalFiles _ Project.init).
  assert (forall files s,
            Project_counts (fold_left (fun st f => Project.analyzeFile ext f st) files s) =
            let kept := filter (fun f => isTestFileName (ArkFile.getName f) = false) files in
            (Project.totalFiles (Project.stats s),
             Project.totalClasses (Project.stats s) +
             length (flat_map ArkFile.getClasses kept),
             Project.totalMethods (Project.stats s) +
             length (flat_map ArkClass.getMethods (flat_map ArkFile.getClasses kept)),
             Project.analyzedMethods (Project.stats s) +
             length (filter (fun m => Project_leftOut m = false)
                       (flat_map ArkClass.getMethods (flat_map ArkFile.getClasses kept)))))
    as H.
  { induction files as [|file files IH]; intros s; cbn [fold_left].
    - unfold Project_counts. rewrite !filter_nil. simpl. pair_eq.
    - rewrite IH. cbv zeta.
      pose proof (Project_analyzeFile_counts ext file s) as Hf.
      destruct (isTestFileName (ArkFile.getName file)) eqn:E.
      + rewrite filter_cons_False by congruence.
        unfold Project_counts in Hf. injection Hf as -> -> -> ->. done.
      + rewrite filter_cons_True by done.
        unfold Project_counts in Hf. injection Hf as -> -> -> ->.
        cbn [flat_map]. rewrite !flat_map_app, !filter_app, !length_app.
        pair_eq. }
  specialize (H (Scene.getFiles scene) st0). cbv zeta in H.
  unfold Project_counts in H. injection H as H1 H2 H3 H4.
  fold (Scene.getFiles (withoutTestFiles scene)) in H2, H3, H4.
  fold (sourceClasses scene) in H2, H3, H4. fold (sourceMethods scene) in H3, H4.
  rewrite H1, H2, H3, H4. simpl.
  split; [done|]. split; [done|]. split; [done|]. split; [done|]. split.
  - apply (fold_left_invariant _
             (fun s => Project.issuesFound (Project.stats s) = length (Project.issues s)));
      [|done].
    intros. by apply Project_analyzeFile_found.
  - apply length_filter.
Qed.

Lemma Project_analyze_issues ext scene :
  Project.issues (Project.analyze ext scene Project.init) =
  flat_map (Project_fileIssues ext) (Scene.getFiles scene).
Proof.
  unfold Project.analyze.
  rewrite (fold_left_appends Project.issues _ (Project_fileIssues ext)); [done|].
  intros. apply Project_analyzeFile_issues.
Qed.

Lemma Project_stmtIssues_elem_of stmt m c f i :
  i ∈ Project_stmtIssues stmt m c f <->
  Project.file i = f /\ Project.className i = c /\
  Project.methodName i = ArkMethod.getName m /\
  Project.line i = Stmt.getLineNo stmt /\
  ((Text.includes (Stmt.toString stmt) "undefined" = true /\
    Project.variable i = "值" /\ Project.description i = "可能使用了 undefined 值") \/
   (Text.includes (Stmt.toString stmt) "fieldload" = true /\
    Text.includes (Stmt.toString stmt) "null" = true /\
    Project.variable i = "字段" /\ Project.description i = "可能的空指针字段访问") \/
   (Text.includes (Stmt.toString stmt) "arrayload" = true /\
    Project.variable i = "数组元素" /\
    Project.description i = "数组访问可能越界导致 undefined")).
Proof.
  unfold Project_stmtIssues. rewrite !elem_of_app. split.
  - intros [H|[H|H]].
    + destruct (Text.includes _ "undefined"); [|by apply elem_of_nil in H].
      apply list_elem_of_singleton in H. subst i. simpl. tauto.
    + destruct (Text.includes _ "fieldload"); [|by apply elem_of_nil in H].
      destruct (Text.includes _ "null"); [|by apply elem_of_nil in H].
      apply list_elem_of_singleton in H. subst i. simpl. tauto.
    + destruct (Text.includes _ "arrayload"); [|by apply elem_of_nil in H].
      apply list_elem_of_singleton in H. subst i. simpl. tauto.
  - destruct i as [fi ci mi vi li di]. simpl.
    intros (-> & -> & -> & -> & [(E & -> & ->)|[(E1 & E2 & -> & ->)|(E & -> & ->)]]).
    + left. rewrite E. by apply list_elem_of_singleton.
    + right. left. rewrite E1, E2. by apply list_elem_of_singleton.
    + right. right. rewrite E. by apply list_elem_of_singleton.
Qed.

(** X7: an issue is in the list of the project analyzer exactly when a
    scanned statement shows one of the three patterns; the issue carries
    the names of the file, the class and the method and the line of that
    statement.  A statement is scanned when its method is not left out by
    name, has a body, and the solver returned on it; nothing is reported
    for a method on which the solver throws. *)
Theorem project_issue_iff_scanned_pattern
    (ext : External.t) (scene : Scene.t) (i : Project.UndefinedIssue) :
  i ∈ Project.issues (Project.analyze ext scene Project.init) <->
  exists file cls m stmt,
    Project_scanned ext scene file cls m stmt /\
    i ∈ Project_stmtIssues stmt m (ArkClass.getName cls) (ArkFile.getName file).
Proof.
  rewrite Project_analyze_issues. rewrite list_elem_of_In, in_flat_map. split.
  - intros (file & Hfile & Hi). apply list_elem_of_In in Hfile.
    unfold Project_fileIssues in Hi.
    destruct (isTestFileName (ArkFile.getName file)) eqn:Et; [done|].
    apply in_flat_map in Hi as (cls & Hcls & Hi). apply list_elem_of_In in Hcls.
    apply in_flat_map in Hi as (m & Hm & Hi). apply list_elem_of_In in Hm.
    unfold Project_methodIssues in Hi.
    destruct (Project_leftOut m) eqn:El; [done|].
    destruct (ArkMethod.getCfg m) as [cfg|] eqn:Ec; [|done].
    destruct (External.solveCfg ext cfg) as [[]|] eqn:Es; [|done].
    apply in_flat_map in Hi as (stmt & Hstmt & Hi). apply list_elem_of_In in Hstmt.
    exists file, cls, m, stmt. split; [|by apply list_elem_of_In].
    repeat split; try done. by exists cfg.
  - intros (file & cls & m & stmt & (Hfile & Et & Hcls & Hm & El & cfg & Ec & Es & Hstmt)
              & Hi).
    exists file. split; [by apply list_elem_of_In|].
    unfold Project_fileIssues. rewrite Et.
    apply in_flat_map. exists cls. split; [by apply list_elem_of_In|].
    apply in_flat_map. exists m. split; [by apply list_elem_of_In|].
    unfold Project_methodIssues. rewrite El, Ec, Es.
    apply in_flat_map. exists stmt. split; by apply list_elem_of_In.
Qed.

(** ** The two patterns of [extractMethodFromInvoke] *)

Ltac obind := cbn [mbind option_bind].

Lemma string_app_cons x (a b : string) : String x a +:+ b = String x (a +:+ b).
Proof. reflexivity. Qed.

Lemma string_app_nil_l (a : string) : "" +:+ a = a.
Proof. reflexivity. Qed.

Lemma string_app_assoc (a b c : string) : (a +:+ b) +:+ c = a +:+ (b +:+ c).
Proof.
  induction a as [|x a IH]; [done|]. by rewrite !string_app_cons, IH.
Qed.

Lemma string_app_nil_r (a : string) : a +:+ "" = a.
Proof. induction a as [|x a IH]; [done|]. by rewrite string_app_cons, IH. Qed.

Lemma prefix_iff (p s : string) :
  String.prefix p s = true <-> exists rest, s = p +:+ rest.
Proof.
  revert s. induction p as [|a p IH]; intros s.
  - split; [intros _; by exists s|]. intros _. by destruct s.
  - destruct s as [|b s]; simpl.
    + split; [done|]. by intros [rest ?].
    + destruct (ascii_dec a b) as [->|Hne].
      * rewrite IH. split; intros [rest H]; exists rest; [by rewrite H|by injection H].
      * split; [done|]. intros [rest H]. injection H as -> _. done.
Qed.

Lemma includes_iff (s needle : string) :
  Text.includes s needle = true <-> exists a b, s = a +:+ needle +:+ b.
Proof.
  induction s as [|c s IH]; rewrite includes_unfold, orb_true_iff, prefix_iff.
  - split.
    + intros [[rest H]|H]; [|done]. by exists "", rest.
    + intros (a & b & H). left. destruct a; [by exists b|done].
  - rewrite IH. split.
    + intros [[rest H]|(a & b & H)]; [by exists "", rest|].
      exists (String c a), b. simpl. by rewrite H.
    + intros (a & b & H). destruct a as [|x a]; simpl in H.
      * left. by exists b.
      * right. injection H as -> ->. by exists a, b.
Qed.

Lemma stripPrefix_iff (p s rest : string) :
  Text.stripPrefix p s = Some rest <-> s = p +:+ rest.
Proof.
  revert s. induction p as [|a p IH]; intros s; simpl.
  - split; [by intros [= ->]|by intros ->].
  - destruct s as [|b s]; [split; done|].
    destruct (Ascii.eqb a b) eqn:E.
    + apply Ascii.eqb_eq in E. subst b. rewrite IH.
      split; [by intros ->|by intros [= ->]].
    + apply Ascii.eqb_neq in E. split; [done|]. intros [= -> _]. done.
Qed.

Lemma span_spec (p : ascii -> bool) (s a b : string) :
  Text.span p s = (a, b) ->
  s = a +:+ b /\ Forall (fun c => p c = true) (codeUnits a) /\
  match b with
  | EmptyString => True
  | String c _ => p c = false
  end.
Proof.
  revert a b. induction s as [|c s IH]; intros a b; simpl.
  - intros [= <- <-]. repeat split; constructor.
  - destruct (p c) eqn:E.
    + destruct (Text.span p s) as [a' b'] eqn:Es. intros [= <- <-].
      destruct (IH _ _ eq_refl) as (-> & Ha & Hb).
      repeat split; [by constructor|done].
    + intros [= <- <-]. simpl. repeat split; [constructor|done].
Qed.

Lemma span_app (p : ascii -> bool) (a b : string) :
  Forall (fun c => p c = true) (codeUnits a) ->
  match b with
  | EmptyString => True
  | String c _ => p c = false
  end ->
  Text.span p (a +:+ b) = (a, b).
Proof.
  intros Ha Hb. induction a as [|c a IH]; simpl.
  - destruct b as [|c b]; [done|]. simpl. by rewrite Hb.
  - apply Forall_cons in Ha as [Hc Ha]. by rewrite Hc, IH.
Qed.

Lemma wordRun_spec (s w rest : string) :
  Text.wordRun s = Some (w, rest) -> s = w +:+ rest /\ isWord w.
Proof.
  unfold Text.wordRun. destruct (Text.span Text.isWordChar s) as [a b] eqn:E.
  apply span_spec in E as (-> & Ha & _).
  destruct a as [|c a]; [done|]. intros [= <- <-]. by repeat split.
Qed.

Lemma wordRun_app (w rest : string) :
  isWord w ->
  match rest with
  | EmptyString => True
  | String c _ => Text.isWordChar c = false
  end ->
  Text.wordRun (w +:+ rest) = Some (w, rest).
Proof.
  intros [Hne Hw] Hrest. unfold Text.wordRun. rewrite span_app by done.
  by destruct w.
Qed.

Lemma simpleAt_spec (s w : string) :
  Text.simpleAt s = Some w ->
  isWord w /\ exists rest, s = "." +:+ w +:+ "()" +:+ rest.
Proof.
  unfold Text.simpleAt.
  destruct (Text.stripPrefix "." s) as [s1|] eqn:E1; obind; [|done].
  destruct (Text.wordRun s1) as [[w' s2]|] eqn:E2; obind; [|done].
  destruct (Text.stripPrefix "()" s2) as [s3|] eqn:E3; obind; [|done].
  intros [= <-]. apply stripPrefix_iff in E1, E3. apply wordRun_spec in E2 as [-> Hw].
  subst. split; [done|]. by exists s3.
Qed.

Lemma simpleAt_app (w rest : string) :
  isWord w -> Text.simpleAt ("." +:+ w +:+ "()" +:+ rest) = Some w.
Proof.
  intros Hw. unfold Text.simpleAt.
  rewrite (proj2 (stripPrefix_iff "." _ (w +:+ "()" +:+ rest)) eq_refl). obind.
  rewrite (wordRun_app w ("()" +:+ rest)) by done. obind.
  by rewrite (proj2 (stripPrefix_iff "()" _ rest) eq_refl).
Qed.

Lemma firstMatch_Some {A} (anchored : string -> option A) (s : string) r :
  Text.firstMatch anchored s = Some r ->
  exists a t, s = a +:+ t /\ anchored t = Some r.
Proof.
  induction s as [|c s IH]; simpl.
  - destruct (anchored "") eqn:E; [|done]. intros [= <-]. by exists "", "".
  - destruct (anchored (String c s)) eqn:E.
    + intros [= <-]. by exists "", (String c s).
    + intros H. destruct (IH H) as (a & t & -> & Ht). by exists (String c a), t.
Qed.

Lemma firstMatch_None {A} (anchored : string -> option A) (a t : string) :
  Text.firstMatch anchored (a +:+ t) = None -> anchored t = None.
Proof.
  induction a as [|c a IH]; simpl.
  - destruct t; simpl; by destruct (anchored _).
  - destruct (anchored (String c (a +:+ t))); [done|]. exact IH.
Qed.

Lemma spanSpace_spec (s a b : string) : Text.spanSpace s = (a, b) -> s = a +:+ b.
Proof.
  assert (forall n s, String.length s <= n ->
                      forall a b, Text.spanSpace s = (a, b) -> s = a +:+ b) as H.
  { clear. induction n as [|n IH]; intros s Hn a b.
    - destruct s; [|simpl in Hn; lia]. by intros [= <- <-].
    - destruct s as [|c0 s0]; [by intros [= <- <-]|]. cbn [String.length] in Hn.
      cbn [Text.spanSpace]. destruct (Text.isSpace1 c0).
      { destruct (Text.spanSpace s0) as [a' b'] eqn:E. intros [= <- <-].
        rewrite string_app_cons. f_equal. apply IH; [lia|done]. }
      destruct s0 as [|c1 s1]; [by intros [= <- <-]|]. cbn [String.length] in Hn.
      destruct (Text.isSpace2 c0 c1).
      { destruct (Text.spanSpace s1) as [a' b'] eqn:E. intros [= <- <-].
        rewrite !string_app_cons. do 2 f_equal. apply IH; [lia|done]. }
      destruct s1 as [|c2 s2]; [by intros [= <- <-]|]. cbn [String.length] in Hn.
      destruct (Text.isSpace3 c0 c1 c2).
      { destruct (Text.spanSpace s2) as [a' b'] eqn:E. intros [= <- <-].
        rewrite !string_app_cons. do 3 f_equal. apply IH; [lia|done]. }
      by intros [= <- <-]. }
  by apply (H (String.length s)).
Qed.

(** No white space starts with a byte below 128 that is not itself white
    space. *)
Lemma spanSpace_stop (c : ascii) (s : string) :
  nat_of_ascii c < 128 -> Text.isSpace1 c = false ->
  Text.spanSpace (String c s) = ("", String c s).
Proof.
  intros Hc H1. cbn [Text.spanSpace]. rewrite H1.
  assert (forall c1, Text.isSpace2 c c1 = false) as H2.
  { intros c1. unfold Text.isSpace2.
    by assert ((nat_of_ascii c =? 194) = false) as -> by (apply Nat.eqb_neq; lia). }
  assert (forall c1 c2, Text.isSpace3 c c1 c2 = false) as H3.
  { intros c1 c2. unfold Text.isSpace3. cbv zeta.
    assert ((nat_of_ascii c =? 225) = false) as -> by (apply Nat.eqb_neq; lia).
    assert ((nat_of_ascii c =? 226) = false) as -> by (apply Nat.eqb_neq; lia).
    assert ((nat_of_ascii c =? 227) = false) as -> by (apply Nat.eqb_neq; lia).
    by assert ((nat_of_ascii c =? 239) = false) as -> by (apply Nat.eqb_neq; lia). }
  destruct s as [|c1 [|c2 s]]; by rewrite ?H2, ?H3.
Qed.

Lemma spanSpace_one_space (c : ascii) (s : string) :
  nat_of_ascii c < 128 -> Text.isSpace1 c = false ->
  Text.spanSpace (" " +:+ String c s) = (" ", String c s).
Proof.
  intros Hc H1. change (" " +:+ String c s) with (String " " (String c s)).
  change (Text.spanSpace (String " " (String c s)))
    with (let '(a, b) := Text.spanSpace (String c s) in (String " "%char a, b)).
  by rewrite spanSpace_stop.
Qed.

Lemma strictTail_spec (s w : string) :
  Text.strictTail s = Some w ->
  isWord w /\ exists a rest, s = a +:+ "." +:+ w +:+ "()" +:+ rest.
Proof.
  unfold Text.strictTail.
  destruct (Text.stripPrefix ":" s) as [s1|] eqn:E1; obind; [|done].
  destruct (Text.spanSpace s1) as [sp s1'] eqn:Es. cbn [snd].
  destruct (Text.stripPrefix "." s1') as [s2|] eqn:E2; obind; [|done].
  destruct (Text.wordRun s2) as [[w' s3]|] eqn:E3; obind; [|done].
  destruct (Text.stripPrefix "()>" s3) as [s4|] eqn:E4; obind; [|done].
  intros [= <-]. apply stripPrefix_iff in E1, E2, E4.
  apply wordRun_spec in E3 as [-> Hw]. apply spanSpace_spec in Es as ->.
  subst. split; [done|]. exists (":" +:+ sp), (">" +:+ s4).
  by rewrite !string_app_assoc.
Qed.

Lemma strictBody_spec (s w : string) :
  Text.strictBody s = Some w ->
  isWord w /\ exists a rest, s = a +:+ "." +:+ w +:+ "()" +:+ rest.
Proof.
  induction s as [|c s IH]; simpl.
  - apply strictTail_spec.
  - destruct (Ascii.eqb c ">"); [apply strictTail_spec|].
    destruct (Text.strictBody s) as [w'|] eqn:E; [|apply strictTail_spec].
    intros [= <-]. destruct (IH eq_refl) as (Hw & a & rest & ->).
    split; [done|]. by exists (String c a), rest.
Qed.

Lemma strictAt_spec (s recv name : string) :
  Text.strictAt s = Some (recv, name) ->
  isWord recv /\ isWord name /\
  (exists rest, s = "invoke" +:+ rest) /\
  (exists a rest, s = a +:+ recv +:+ ".<" +:+ rest) /\
  exists a rest, s = a +:+ "." +:+ name +:+ "()" +:+ rest.
Proof.
  unfold Text.strictAt.
  destruct (Text.stripPrefix "invoke" s) as [s1|] eqn:E1; obind; [|done].
  destruct (Text.spanSpace s1) as [sp s2] eqn:Es.
  destruct sp as [|c0 sp]; [done|].
  destruct (Text.wordRun s2) as [[recv' s3]|] eqn:E2; obind; [|done].
  destruct (Text.stripPrefix ".<" s3) as [s4|] eqn:E3; obind; [|done].
  destruct s4 as [|c s5]; [done|].
  destruct (Ascii.eqb c ">"); [done|].
  destruct (Text.strictBody s5) as [name'|] eqn:E4; obind; [|done].
  intros [= <- <-]. apply stripPrefix_iff in E1, E3.
  apply wordRun_spec in E2 as [-> Hr]. apply spanSpace_spec in Es as ->.
  apply strictBody_spec in E4 as (Hn & a & rest & ->). subst.
  split; [done|]. split; [done|]. split; [eexists; reflexivity|]. split.
  - exists ("invoke" +:+ String c0 sp), (String c (a +:+ "." +:+ name' +:+ "()" +:+ rest)).
    by rewrite !string_app_assoc.
  - exists ("invoke" +:+ String c0 sp +:+ recv' +:+ ".<" +:+ String c a), rest.
    by rewrite !string_app_assoc.
Qed.

Lemma isWord_app_dot (recv name : string) : recv +:+ "." +:+ name <> "".
Proof. by destruct recv. Qed.

(** The result of the extraction is never the empty string. *)
Lemma extractMethodFromInvoke_nonempty (s r : string) :
  V1.extractMethodFromInvoke s = Some r -> r <> "".
Proof.
  unfold V1.extractMethodFromInvoke.
  destruct (Text.firstMatch Text.strictAt s) as [[recv name]|] eqn:E1.
  - intros [= <-]. apply isWord_app_dot.
  - destruct (Text.firstMatch Text.simpleAt s) as [w|] eqn:E2; [|done].
    intros [= <-]. apply firstMatch_Some in E2 as (a & t & -> & Ht).
    by apply simpleAt_spec in Ht as [[? _] _].
Qed.

Lemma orElse_extract (s fallback : string) :
  Text.orElse (V1.extractMethodFromInvoke s) fallback = targetOr fallback s.
Proof.
  unfold targetOr. destruct (V1.extractMethodFromInvoke s) as [r|] eqn:E; [|done].
  apply extractMethodFromInvoke_nonempty in E. by destruct r.
Qed.

Lemma V3_extract_eq s : V3.extractMethodFromInvoke s = V1.extractMethodFromInvoke s.
Proof. reflexivity. Qed.

Lemma extract_null_iff (invokeExpr : string) :
  V1.extractMethodFromInvoke invokeExpr = None <->
  forall w, isWord w -> Text.includes invokeExpr ("." +:+ w +:+ "()") = false.
Proof.
  split.
  - intros Hnone w Hw. destruct (Text.includes _ _) eqn:E; [|done].
    apply includes_iff in E as (a & b & ->).
    unfold V1.extractMethodFromInvoke in Hnone.
    destruct (Text.firstMatch Text.strictAt _) as [[? ?]|]; [done|].
    destruct (Text.firstMatch Text.simpleAt _) eqn:E2; [done|].
    apply firstMatch_None in E2. rewrite !string_app_assoc in E2.
    by rewrite (simpleAt_app w b Hw) in E2.
  - intros Hno. unfold V1.extractMethodFromInvoke.
    destruct (Text.firstMatch Text.strictAt invokeExpr) as [[recv name]|] eqn:E1.
    + apply firstMatch_Some in E1 as (a & t & -> & Ht).
      apply strictAt_spec in Ht as (_ & Hn & _ & _ & a' & rest & ->).
      specialize (Hno name Hn).
      assert (Text.includes (a +:+ a' +:+ "." +:+ name +:+ "()" +:+ rest)
                ("." +:+ name +:+ "()") = true) as Hin.
      { apply includes_iff. exists (a +:+ a'), rest. by rewrite !string_app_assoc. }
      congruence.
    + destruct (Text.firstMatch Text.simpleAt invokeExpr) as [w|] eqn:E2; [|done].
      apply firstMatch_Some in E2 as (a & t & -> & Ht).
      apply simpleAt_spec in Ht as (Hw & rest & ->).
      specialize (Hno w Hw).
      assert (Text.includes (a +:+ "." +:+ w +:+ "()" +:+ rest)
                ("." +:+ w +:+ "()") = true) as Hin.
      { apply includes_iff. exists a, rest. by rewrite !string_app_assoc. }
      congruence.
Qed.

(** X8: [extractMethodFromInvoke] returns null exactly when the text holds
    no dot followed by a word and an empty pair of parentheses (versions 1
    and 3). *)
Theorem extract_null_iff_no_call_shape (invokeExpr : string) :
  (V1.extractMethodFromInvoke invokeExpr = None <->
   forall w, isWord w -> Text.includes invokeExpr ("." +:+ w +:+ "()") = false) /\
  (V3.extractMethodFromInvoke invokeExpr = None <->
   forall w, isWord w -> Text.includes invokeExpr ("." +:+ w +:+ "()") = false).
Proof. split; apply extract_null_iff. Qed.

Lemma extract_shape (invokeExpr r : string) :
  V1.extractMethodFromInvoke invokeExpr = Some r ->
  r <> "" /\
  ((isWord r /\ Text.includes invokeExpr ("." +:+ r +:+ "()") = true) \/
   (exists recv name,
      r = recv +:+ "." +:+ name /\ isWord recv /\ isWord name /\
      Text.includes invokeExpr "invoke" = true /\
      Text.includes invokeExpr (recv +:+ ".<") = true /\
      Text.includes invokeExpr ("." +:+ name +:+ "()") = true)).
Proof.
  intros H. split; [by apply extractMethodFromInvoke_nonempty in H|].
  unfold V1.extractMethodFromInvoke in H.
  destruct (Text.firstMatch Text.strictAt invokeExpr) as [[recv name]|] eqn:E1.
  - injection H as <-. right. exists recv, name.
    apply firstMatch_Some in E1 as (a & t & -> & Ht).
    apply strictAt_spec in Ht
      as (Hr & Hn & [r1 H1] & (a2 & r2 & H2) & (a3 & r3 & H3)).
    split; [done|]. split; [done|]. split; [done|].
    rewrite !includes_iff. split; [|split].
    + exists a, r1. by rewrite H1.
    + exists (a +:+ a2), r2. by rewrite H2, !string_app_assoc.
    + exists (a +:+ a3), r3. by rewrite H3, !string_app_assoc.
  - destruct (Text.firstMatch Text.simpleAt invokeExpr) as [w|] eqn:E2; [|done].
    injection H as <-. left.
    apply firstMatch_Some in E2 as (a & t & -> & Ht).
    apply simpleAt_spec in Ht as (Hw & rest & ->).
    split; [done|]. apply includes_iff. exists a, rest. by rewrite !string_app_assoc.
Qed.

(** X9: a result of [extractMethodFromInvoke] is never the empty string.
    It is either a word that stands in the text between a dot and an empty
    pair of parentheses, or a receiver word and such a method word joined by
    a dot, for a text that holds "invoke" and the receiver followed by a dot
    and an angle bracket (versions 1 and 3). *)
Theorem extract_result_is_a_method_name (invokeExpr r : string) :
  V1.extractMethodFromInvoke invokeExpr = Some r \/
  V3.extractMethodFromInvoke invokeExpr = Some r ->
  r <> "" /\
  ((isWord r /\ Text.includes invokeExpr ("." +:+ r +:+ "()") = true) \/
   (exists recv name,
      r = recv +:+ "." +:+ name /\ isWord recv /\ isWord name /\
      Text.includes invokeExpr "invoke" = true /\
      Text.includes invokeExpr (recv +:+ ".<") = true /\
      Text.includes invokeExpr ("." +:+ name +:+ "()") = true)).
Proof. intros [H|H]; by apply extract_shape. Qed.

Lemma wordChar_not_space c :
  Text.isWordChar c = true -> nat_of_ascii c < 128 /\ Text.isSpace1 c = false.
Proof.
  unfold Text.isWordChar, Text.isSpace1. cbv zeta.
  generalize (nat_of_ascii c). intros n H.
  repeat match goal with
         | H : _ || _ = true |- _ => apply orb_true_iff in H as [H|H]
         | H : _ && _ = true |- _ => apply andb_true_iff in H as [? ?]
         | H : (_ <=? _) = true |- _ => apply Nat.leb_le in H
         | H : (_ =? _) = true |- _ => apply Nat.eqb_eq in H
         end;
    (split; [lia|]);
    repeat match goal with
           | |- _ || _ = false => apply orb_false_iff; split
           | |- _ && _ = false =>
               apply andb_false_iff;
               first [left; apply Nat.leb_gt; lia | right; apply Nat.leb_gt; lia]
           | |- (_ =? _) = false => apply Nat.eqb_neq; lia
           end.
Qed.

Lemma isWord_head (w rest : string) :
  isWord w -> exists c t, w +:+ rest = String c t /\ Text.isWordChar c = true.
Proof.
  intros [Hne Hw]. destruct w as [|c w]; [done|].
  apply Forall_cons in Hw as [Hc _]. by exists c, (w +:+ rest).
Qed.

(** No match of the tail of the strict pattern starts before the next
    closing angle bracket when no colon stands there. *)
Lemma strictBody_no_colon (u v : string) :
  Forall (fun c => c <> ":"%char /\ c <> ">"%char) (codeUnits u) ->
  Text.strictBody (u +:+ ">" +:+ v) = None.
Proof.
  induction u as [|c u IH]; intros Hu.
  - reflexivity.
  - apply Forall_cons in Hu as [[Hc1 Hc2] Hu]. rewrite string_app_cons.
    cbn [Text.strictBody].
    assert (Ascii.eqb c ">" = false) as -> by by apply Ascii.eqb_neq.
    rewrite IH by done. unfold Text.strictTail. cbn [Text.stripPrefix].
    by assert (Ascii.eqb ":" c = false) as -> by (apply Ascii.eqb_neq; congruence).
Qed.

Lemma wordChar_units (w : string) c :
  isWord w -> c ∈ codeUnits w -> Text.isWordChar c = true.
Proof. intros [_ Hw] Hc. rewrite Forall_forall in Hw. auto. Qed.

Lemma strictTail_match (name rest : string) :
  isWord name ->
  Text.strictTail (": ." +:+ name +:+ "()>" +:+ rest) = Some name.
Proof.
  intros Hn. unfold Text.strictTail.
  change (": ." +:+ name +:+ "()>" +:+ rest)
    with (":" +:+ " " +:+ "." +:+ name +:+ "()>" +:+ rest).
  rewrite (proj2 (stripPrefix_iff ":" _ (" " +:+ "." +:+ name +:+ "()>" +:+ rest))
             eq_refl).
  obind.
  change ("." +:+ name +:+ "()>" +:+ rest)
    with (String "." (name +:+ "()>" +:+ rest)) at 1.
  rewrite (spanSpace_one_space "." (name +:+ "()>" +:+ rest))
    by (vm_compute; first [lia|reflexivity]).
  cbn [snd].
  change (String "." (name +:+ "()>" +:+ rest))
    with ("." +:+ name +:+ "()>" +:+ rest).
  rewrite (proj2 (stripPrefix_iff "." _ (name +:+ "()>" +:+ rest)) eq_refl). obind.
  rewrite (wordRun_app name ("()>" +:+ rest)) by done. obind.
  by rewrite (proj2 (stripPrefix_iff "()>" _ rest) eq_refl).
Qed.

Lemma strictBody_greedy (q name rest : string) :
  isWord name ->
  Forall (fun c => c <> ">"%char) (codeUnits q) ->
  Text.strictBody (q +:+ ": ." +:+ name +:+ "()>" +:+ rest) = Some name.
Proof.
  intros Hn. induction q as [|c q IH]; intros Hq.
  - rewrite string_app_nil_l.
    change (": ." +:+ name +:+ "()>" +:+ rest)
      with (String ":" (" ." +:+ name +:+ "()>" +:+ rest)) at 1.
    cbn [Text.strictBody].
    assert (Ascii.eqb ":" ">" = false) as -> by done.
    assert (Text.strictBody (" ." +:+ name +:+ "()>" +:+ rest) = None) as ->.
    { replace (" ." +:+ name +:+ "()>" +:+ rest)
        with ((" ." +:+ name +:+ "()") +:+ ">" +:+ rest)
        by (by rewrite !string_app_assoc).
      apply strictBody_no_colon.
      rewrite !codeUnits_app. repeat (apply Forall_app; split).
      - by repeat constructor.
      - apply Forall_forall. intros c Hc. pose proof (wordChar_units _ _ Hn Hc) as Hw.
        split; intros ->; done.
      - by repeat constructor. }
    by apply strictTail_match.
  - apply Forall_cons in Hq as [Hc Hq]. rewrite string_app_cons.
    cbn [Text.strictBody].
    assert (Ascii.eqb c ">" = false) as -> by by apply Ascii.eqb_neq.
    by rewrite IH.
Qed.

Lemma strictAt_match (recv path name rest : string) :
  isWord recv -> isWord name -> path <> "" ->
  Forall (fun c => c <> ">"%char) (codeUnits path) ->
  Text.strictAt ("invoke " +:+ recv +:+ ".<" +:+ path +:+ ": ." +:+ name +:+ "()>" +:+ rest)
  = Some (recv, name).
Proof.
  intros Hr Hn Hpne Hp. unfold Text.strictAt.
  change ("invoke " +:+ recv +:+ ".<" +:+ path +:+ ": ." +:+ name +:+ "()>" +:+ rest)
    with ("invoke" +:+ " " +:+ recv +:+ ".<" +:+ path +:+ ": ." +:+ name +:+ "()>" +:+ rest).
  rewrite (proj2 (stripPrefix_iff "invoke" _
             (" " +:+ recv +:+ ".<" +:+ path +:+ ": ." +:+ name +:+ "()>" +:+ rest))
             eq_refl). obind.
  destruct (isWord_head recv (".<" +:+ path +:+ ": ." +:+ name +:+ "()>" +:+ rest) Hr)
    as (c & t & Hct & Hc).
  destruct (wordChar_not_space c Hc) as [Hc128 Hc1].
  rewrite Hct, (spanSpace_one_space c t Hc128 Hc1), <- Hct.
  rewrite (wordRun_app recv (".<" +:+ path +:+ ": ." +:+ name +:+ "()>" +:+ rest))
    by done. obind.
  rewrite (proj2 (stripPrefix_iff ".<" _
             (path +:+ ": ." +:+ name +:+ "()>" +:+ rest)) eq_refl). obind.
  destruct path as [|c0 path]; [done|].
  apply Forall_cons in Hp as [Hc0 Hp]. rewrite string_app_cons.
  assert (Ascii.eqb c0 ">" = false) as -> by by apply Ascii.eqb_neq.
  by rewrite strictBody_greedy.
Qed.

Lemma firstMatch_here {A} (anchored : string -> option A) (s : string) r :
  anchored s = Some r -> Text.firstMatch anchored s = Some r.
Proof. intros H. destruct s; simpl; by rewrite H. Qed.

(** X10: round trip on the shape that the comment of the function documents,
    [instanceinvoke xxx.<@path: .methodName()>()]: for a receiver word, a
    path without a closing angle bracket and a method word, the result is
    the receiver and the method joined by a dot, whatever follows (versions
    1 and 3). *)
Theorem extract_documented_shape (kind recv path name rest : string) :
  kind ∈ invokeKinds ->
  isWord recv -> isWord name -> path <> "" ->
  Forall (fun c => c <> ">"%char) (codeUnits path) ->
  let invokeExpr :=
    kind +:+ "invoke " +:+ recv +:+ ".<" +:+ path +:+ ": ." +:+ name +:+ "()>" +:+ rest in
  V1.extractMethodFromInvoke invokeExpr = Some (recv +:+ "." +:+ name) /\
  V3.extractMethodFromInvoke invokeExpr = Some (recv +:+ "." +:+ name).
Proof.
  intros Hk Hr Hn Hpne Hp. cbv zeta.
  assert (forall t, Text.firstMatch Text.strictAt (kind +:+ t)
                    = Text.firstMatch Text.strictAt t) as Hskip.
  { unfold invokeKinds in Hk.
    repeat (apply elem_of_cons in Hk as [->|Hk]; [intros t; reflexivity|]).
    by apply elem_of_nil in Hk. }
  assert (V1.extractMethodFromInvoke
            (kind +:+ "invoke " +:+ recv +:+ ".<" +:+ path +:+ ": ." +:+ name +:+
             "()>" +:+ rest) = Some (recv +:+ "." +:+ name)) as H.
  { unfold V1.extractMethodFromInvoke. rewrite Hskip.
    by rewrite (firstMatch_here _ _ _ (strictAt_match recv path name rest Hr Hn Hpne Hp)). }
  split; exact H.
Qed.

Lemma extract_documented_shape_witness :
  V1.extractMethodFromInvoke "instanceinvoke this.<@entry/Index.ets: .loadData()>()"
  = Some "this.loadData".
Proof.
  refine (proj1 (extract_documented_shape "instance" "this" "@entry/Index.ets" "loadData"
                   "()" _ _ _ _ _)).
  - apply list_elem_of_here.
  - split; [done|]. by repeat constructor.
  - split; [done|]. by repeat constructor.
  - done.
  - repeat constructor; done.
Defined.

Lemma extract_result_is_a_method_name_witness :
  V1.extractMethodFromInvoke "staticinvoke <@a.ets: .log()>()" = Some "log" /\
  "log" <> "".
Proof.
  assert (V1.extractMethodFromInvoke "staticinvoke <@a.ets: .log()>()"
          = Some "log") as H by (vm_compute; reflexivity).
  split; [exact H|].
  exact (proj1 (extract_result_is_a_method_name _ _ (or_introl H))).
Defined.

(** ** The passes of version 1 *)

Lemma V1_identifyMethod_fresh f c a b st m :
  V1_fresh st -> V1_fresh (V1.identifyMethod f c a b st m).
Proof. unfold V1.identifyMethod. split_ifs; exact id. Qed.

Lemma V1_identifyMethod_totalFiles f c a b st m :
  V1.totalFiles (V1.stats (V1.identifyMethod f c a b st m)) = V1.totalFiles (V1.stats st).
Proof. unfold V1.identifyMethod. split_ifs; reflexivity. Qed.

Lemma V1_identifyFile_fresh scene fuel st file st' n :
  V1_fresh st /\ V1.totalFiles (V1.stats st) = n ->
  V1.identifyFile scene fuel st file = Normal st' ->
  V1_fresh st' /\ V1.totalFiles (V1.stats st') = n.
Proof.
  intros Hst. unfold V1.identifyFile. destruct (_ || _); [by intros [= <-]|].
  intros Hrun.
  apply (forEach_preserves _ (fun s => V1_fresh s /\ V1.totalFiles (V1.stats s) = n)
           (fun _ _ => True)) in Hrun; [by destruct Hrun|done|done| |exact Hst].
  intros s cls s' Hs Hcls. split; [|done]. unfold V1.identifyClass in Hcls.
  destruct (Text.includes _ _); [by injection Hcls as <-|].
  destruct (V1.isAbilityClass scene fuel cls); simpl in Hcls; try discriminate.
  injection Hcls as <-.
  apply (fold_left_invariant _ (fun s => V1_fresh s /\ V1.totalFiles (V1.stats s) = n));
    [|exact Hs].
  intros s0 m [H1 H2]. split; [by apply V1_identifyMethod_fresh|].
  by rewrite V1_identifyMethod_totalFiles.
Qed.

Lemma V1_identify_fresh scene fuel st :
  V1.identifyLifecycleMethods scene fuel V1.init = Normal st ->
  V1_fresh st /\
  V1.totalFiles (V1.stats st) = length (Scene.getFiles scene) /\
  V1.statLifecycleMethods (V1.stats st) = length (V1.lifecycleMethods st).
Proof.
  unfold V1.identifyLifecycleMethods.
  destruct (forEach _ _ _) as [s1| |] eqn:Hrun; simpl; try discriminate.
  intros [= <-].
  apply (forEach_preserves _
           (fun s => V1_fresh s /\
                     V1.totalFiles (V1.stats s) = length (Scene.getFiles scene))
           (fun _ _ => True)) in Hrun; [|done|done| |].
  - destruct Hrun as [[H1 H2] _]. split; [exact H1|split; [exact H2|reflexivity]].
  - intros s x s' Hs Hx. split; [|done]. by eapply V1_identifyFile_fresh.
  - split; [|reflexivity]. unfold V1_fresh. simpl. by repeat split.
Qed.

(** What [buildCallGraph] does to the analyzer: nothing, or it stores a
    graph and its two figures. *)
Lemma V1_buildCallGraph_cases ext st :
  V1.buildCallGraph ext st = st \/
  exists cg, V1.buildCallGraph ext st = V1.setCallGraph cg st.
Proof.
  unfold V1.buildCallGraph.
  destruct (External.createDummyMain ext); [|by left].
  destruct (0 <? length (External.dummyMainSignatures ext)).
  - destruct (External.makeCallGraphCHA ext _); [right; by eexists|by left].
  - destruct (0 <? length _); [|by left].
    destruct (External.makeCallGraphCHA ext _); [right; by eexists|by left].
Qed.

Lemma V1_checkStmt_count lm sc stmt :
  V1.issueCount (V1.checkStmt lm sc stmt) =
  V1.issueCount sc +
  length (if V1.containsUndefinedRisk (Stmt.toString stmt)
          then [V1_issueOf lm stmt] else []).
Proof. unfold V1.checkStmt. destruct (V1.containsUndefinedRisk _); simpl; lia. Qed.

Lemma V1_checkStmt_frame lm sc stmt :
  V1_scanFrame (V1.scanState (V1.checkStmt lm sc stmt)) = V1_scanFrame (V1.scanState sc).
Proof. unfold V1.checkStmt. by destruct (V1.containsUndefinedRisk _). Qed.

Lemma V1_analyzeLifecycleMethod_issues ext sc lm :
  V1.undefinedIssues (V1.scanState (V1.analyzeLifecycleMethod ext sc lm)) =
    V1.undefinedIssues (V1.scanState sc) ++ V1_methodIssues ext lm /\
  V1.issueCount (V1.analyzeLifecycleMethod ext sc lm) =
    V1.issueCount sc + length (V1_methodIssues ext lm) /\
  V1_scanFrame (V1.scanState (V1.analyzeLifecycleMethod ext sc lm)) =
    V1_scanFrame (V1.scanState sc).
Proof.
  unfold V1.analyzeLifecycleMethod, V1_methodIssues, scannedCfg.
  destruct (ArkMethod.getCfg (V1.method lm)) as [cfg|];
    [|by rewrite app_nil_r, Nat.add_0_r].
  destruct (Cfg.getBlocks cfg) as [|block0 blocks] eqn:Eb; simpl;
    [by rewrite app_nil_r, Nat.add_0_r|].
  destruct (BasicBlock.getStmts block0) as [|firstStmt stmts];
    [by rewrite app_nil_r, Nat.add_0_r|].
  destruct (External.solve ext firstStmt (V1.method lm));
    [|by rewrite app_nil_r, Nat.add_0_r].
  set (sc1 := {| V1.scanState := V1.scanState sc;
                 V1.analyzedCount := S (V1.analyzedCount sc);
                 V1.issueCount := V1.issueCount sc |}).
  split; [|split].
  - rewrite (fold_left_appends (fun s => V1.undefinedIssues (V1.scanState s)) _
               (fun stmt => if V1.containsUndefinedRisk (Stmt.toString stmt)
                            then [V1_issueOf lm stmt] else [])); [done|].
    intros. apply V1_checkStmt_issues.
  - rewrite (fold_left_adds V1.issueCount _
               (fun stmt => length (if V1.containsUndefinedRisk (Stmt.toString stmt)
                                    then [V1_issueOf lm stmt] else []))).
    + by rewrite length_flat_map.
    + intros. apply V1_checkStmt_count.
  - rewrite (fold_left_keeps (fun s => V1_scanFrame (V1.scanState s))); [done|].
    intros. apply V1_checkStmt_frame.
Qed.

Lemma V1_analyzeUndefinedVariables_spec ext st :
  let st' := V1.analyzeUndefinedVariables ext st in
  V1.undefinedIssues st' =
    V1.undefinedIssues st ++ flat_map (V1_methodIssues ext) (V1.lifecycleMethods st) /\
  V1.statUndefinedIssues (V1.stats st') =
    length (flat_map (V1_methodIssues ext) (V1.lifecycleMethods st)) /\
  V1.lifecycleMethods st' = V1.lifecycleMethods st /\
  V1.callGraph st' = V1.callGraph st /\
  V1.dataFlows st' = V1.dataFlows st /\
  V1.totalFiles (V1.stats st') = V1.totalFiles (V1.stats st) /\
  V1.totalMethods (V1.stats st') = V1.totalMethods (V1.stats st) /\
  V1.statLifecycleMethods (V1.stats st') = V1.statLifecycleMethods (V1.stats st) /\
  V1.callGraphNodes (V1.stats st') = V1.callGraphNodes (V1.stats st) /\
  V1.callGraphEdges (V1.stats st') = V1.callGraphEdges (V1.stats st) /\
  V1.dataFlowPaths (V1.stats st') = V1.dataFlowPaths (V1.stats st).
Proof.
  cbv zeta. unfold V1.analyzeUndefinedVariables.
  set (sc0 := {| V1.scanState := st; V1.analyzedCount := 0; V1.issueCount := 0 |}).
  set (sc := fold_left (V1.analyzeLifecycleMethod ext) (V1.lifecycleMethods st) sc0).
  assert (V1.undefinedIssues (V1.scanState sc) =
          V1.undefinedIssues st ++ flat_map (V1_methodIssues ext) (V1.lifecycleMethods st))
    as H1.
  { unfold sc.
    rewrite (fold_left_appends (fun s => V1.undefinedIssues (V1.scanState s)) _
               (V1_methodIssues ext)); [done|].
    intros. apply V1_analyzeLifecycleMethod_issues. }
  assert (V1.issueCount sc =
          length (flat_map (V1_methodIssues ext) (V1.lifecycleMethods st))) as H2.
  { unfold sc.
    rewrite (fold_left_adds V1.issueCount _ (fun lm => length (V1_methodIssues ext lm))).
    - by rewrite length_flat_map.
    - intros. apply V1_analyzeLifecycleMethod_issues. }
  assert (V1_scanFrame (V1.scanState sc) = V1_scanFrame st) as H3.
  { unfold sc.
    rewrite (fold_left_keeps (fun s => V1_scanFrame (V1.scanState s))); [done|].
    intros. apply V1_analyzeLifecycleMethod_issues. }
  unfold V1_scanFrame in H3. injection H3 as H3 H4 H5 H6.
  simpl. rewrite H1, H2, H3, H4, H5, H6. by repeat split.
Qed.

Lemma V1_dataFlowExpr_spec lm stmt st exprStr :
  V1.dataFlows (V1.dataFlowExpr lm stmt st exprStr) =
    V1.dataFlows st ++
    (if looksLikeInvocation exprStr then [V1_flowOf lm stmt exprStr] else []) /\
  (V1.lifecycleMethods (V1.dataFlowExpr lm stmt st exprStr),
   V1.callGraph (V1.dataFlowExpr lm stmt st exprStr),
   V1.undefinedIssues (V1.dataFlowExpr lm stmt st exprStr),
   V1.stats (V1.dataFlowExpr lm stmt st exprStr)) =
  (V1.lifecycleMethods st, V1.callGraph st, V1.undefinedIssues st, V1.stats st).
Proof.
  unfold V1.dataFlowExpr, looksLikeInvocation, V1_flowOf.
  destruct (Text.includes exprStr "invoke" || Text.includes exprStr "call"); simpl.
  - by rewrite !orElse_extract.
  - by rewrite app_nil_r.
Qed.

Lemma V1_analyzeMethodDataFlow_spec st lm :
  V1.dataFlows (V1.analyzeMethodDataFlow st lm) = V1.dataFlows st ++ V1_methodFlows lm /\
  V1_flowFrame (V1.analyzeMethodDataFlow st lm) = V1_flowFrame st.
Proof.
  unfold V1.analyzeMethodDataFlow, V1_methodFlows.
  destruct (ArkMethod.getCfg (V1.method lm)) as [cfg|]; [|by rewrite app_nil_r].
  split.
  - rewrite (fold_left_appends V1.dataFlows _
               (fun stmt =>
                  flat_map (fun exprStr => if looksLikeInvocation exprStr
                                           then [V1_flowOf lm stmt exprStr] else [])
                           (Stmt.getExprs stmt))); [done|].
    intros s stmt. unfold V1.dataFlowStmt.
    rewrite (fold_left_appends V1.dataFlows _
               (fun exprStr => if looksLikeInvocation exprStr
                               then [V1_flowOf lm stmt exprStr] else [])); [done|].
    intros. apply V1_dataFlowExpr_spec.
  - rewrite (fold_left_keeps V1_flowFrame); [done|].
    intros s stmt. unfold V1.dataFlowStmt.
    rewrite (fold_left_keeps V1_flowFrame); [done|].
    intros. apply V1_dataFlowExpr_spec.
Qed.

Lemma V1_analyzeDataFlow_spec st :
  let st' := V1.analyzeDataFlow st in
  V1.dataFlows st' =
    V1.dataFlows st ++
    match V1.callGraph st with
    | Some _ => flat_map V1_methodFlows (V1.lifecycleMethods st)
    | None => []
    end /\
  V1.dataFlowPaths (V1.stats st') =
    match V1.callGraph st with
    | Some _ => length (V1.dataFlows st')
    | None => V1.dataFlowPaths (V1.stats st)
    end /\
  V1.lifecycleMethods st' = V1.lifecycleMethods st /\
  V1.callGraph st' = V1.callGraph st /\
  V1.undefinedIssues st' = V1.undefinedIssues st /\
  V1.totalFiles (V1.stats st') = V1.totalFiles (V1.stats st) /\
  V1.totalMethods (V1.stats st') = V1.totalMethods (V1.stats st) /\
  V1.statLifecycleMethods (V1.stats st') = V1.statLifecycleMethods (V1.stats st) /\
  V1.callGraphNodes (V1.stats st') = V1.callGraphNodes (V1.stats st) /\
  V1.callGraphEdges (V1.stats st') = V1.callGraphEdges (V1.stats st) /\
  V1.statUndefinedIssues (V1.stats st') = V1.statUndefinedIssues (V1.stats st).
Proof.
  cbv zeta. unfold V1.analyzeDataFlow.
  destruct (V1.callGraph st) as [cg|] eqn:Ecg; [|by rewrite app_nil_r, Ecg].
  set (st1 := fold_left V1.analyzeMethodDataFlow (V1.lifecycleMethods st) st).
  assert (V1.dataFlows st1 =
          V1.dataFlows st ++ flat_map V1_methodFlows (V1.lifecycleMethods st)) as H1.
  { unfold st1. rewrite (fold_left_appends V1.dataFlows _ V1_methodFlows); [done|].
    intros. apply V1_analyzeMethodDataFlow_spec. }
  assert (V1_flowFrame st1 = V1_flowFrame st) as H2.
  { unfold st1. rewrite (fold_left_keeps V1_flowFrame); [done|].
    intros. apply V1_analyzeMethodDataFlow_spec. }
  unfold V1_flowFrame in H2. injection H2 as H2 H3 H4 H5.
  simpl. rewrite H1, H2, H3, H4, H5, Ecg. by repeat split.
Qed.
(** The analyzer of version 1 after the four steps, in terms of the state
    that the scan left. *)
Lemma V1_analyze_spec ext scene fuel st :
  V1.analyze ext scene fuel = Normal st ->
  exists st1,
    V1.identifyLifecycleMethods scene fuel V1.init = Normal st1 /\
    V1.lifecycleMethods st = V1.lifecycleMethods st1 /\
    V1.callGraph st = V1.callGraph (V1.buildCallGraph ext st1) /\
    V1.undefinedIssues st = flat_map (V1_methodIssues ext) (V1.lifecycleMethods st1) /\
    V1.dataFlows st =
      match V1.callGraph st with
      | Some _ => flat_map V1_methodFlows (V1.lifecycleMethods st1)
      | None => []
      end /\
    V1.totalFiles (V1.stats st) = length (Scene.getFiles scene) /\
    V1.statLifecycleMethods (V1.stats st) = length (V1.lifecycleMethods st) /\
    V1.statUndefinedIssues (V1.stats st) = length (V1.undefinedIssues st) /\
    V1.dataFlowPaths (V1.stats st) = length (V1.dataFlows st) /\
    match V1.callGraph st with
    | Some cg => V1.callGraphNodes (V1.stats st) = CallGraph.getNodeNum cg /\
                 V1.callGraphEdges (V1.stats st) = CallGraph.getEdgeNum cg
    | None => V1.callGraphNodes (V1.stats st) = 0 /\
              V1.callGraphEdges (V1.stats st) = 0
    end.
Proof.
  unfold V1.analyze.
  destruct (V1.identifyLifecycleMethods scene fuel V1.init) as [st1| |] eqn:E1;
    simpl; try discriminate.
  intros [= <-]. exists st1. split; [done|].
  destruct (V1_identify_fresh _ _ _ E1) as ((F1 & F2 & F3 & F4 & F5 & F6 & F7) & T1 & T2).
  set (st2 := V1.buildCallGraph ext st1).
  assert (V1.lifecycleMethods st2 = V1.lifecycleMethods st1 /\
          V1.undefinedIssues st2 = [] /\ V1.dataFlows st2 = [] /\
          V1.totalFiles (V1.stats st2) = length (Scene.getFiles scene) /\
          V1.statLifecycleMethods (V1.stats st2) = length (V1.lifecycleMethods st1) /\
          V1.dataFlowPaths (V1.stats st2) = 0 /\
          match V1.callGraph st2 with
          | Some cg => V1.callGraphNodes (V1.stats st2) = CallGraph.getNodeNum cg /\
                       V1.callGraphEdges (V1.stats st2) = CallGraph.getEdgeNum cg
          | None => V1.callGraphNodes (V1.stats st2) = 0 /\
                    V1.callGraphEdges (V1.stats st2) = 0
          end) as (B1 & B2 & B3 & B4 & B5 & B6 & B7).
  { unfold st2. destruct (V1_buildCallGraph_cases ext st1) as [->|[cg ->]].
    - rewrite F3. by repeat split.
    - simpl. by repeat split. }
  destruct (V1_analyzeUndefinedVariables_spec ext st2)
    as (U1 & U2 & U3 & U4 & U5 & U6 & U7 & U8 & U9 & U10 & U11).
  set (st3 := V1.analyzeUndefinedVariables ext st2) in *.
  destruct (V1_analyzeDataFlow_spec st3)
    as (D1 & D2 & D3 & D4 & D5 & D6 & D7 & D8 & D9 & D10 & D11).
  set (st4 := V1.analyzeDataFlow st3) in *.
  assert (V1.callGraph st4 = V1.callGraph st2) as G by by rewrite D4, U4.
  assert (V1.lifecycleMethods st4 = V1.lifecycleMethods st1) as L by by rewrite D3, U3.
  assert (V1.undefinedIssues st4 =
          flat_map (V1_methodIssues ext) (V1.lifecycleMethods st1)) as I
    by by rewrite D5, U1, B2, B1.
  assert (V1.dataFlows st4 =
          match V1.callGraph st2 with
          | Some _ => flat_map V1_methodFlows (V1.lifecycleMethods st1)
          | None => []
          end) as F by by rewrite D1, U4, U5, B3, U3, B1.
  split; [exact L|]. split; [exact G|]. split; [exact I|].
  split; [by rewrite G|]. split; [by rewrite D6, U6|].
  split; [by rewrite D8, U8, B5, L|]. split; [by rewrite D11, U2, I, B1|].
  split.
  - rewrite D2, U4, U11, B6, F. by destruct (V1.callGraph st2).
  - by rewrite G, D9, U9, D10, U10.
Qed.

(** ** The passes of version 3 *)

Lemma V3_recordAbility_fresh info st st' n :
  V3_fresh st /\ V3.totalFiles (V3.stats st) = n ->
  V3.recordAbility info st = Normal st' ->
  V3_fresh st' /\ V3.totalFiles (V3.stats st') = n.
Proof.
  intros Hst. unfold V3.recordAbility.
  destruct (V3.touch _ _ _ _); simpl; try discriminate. by intros [= <-].
Qed.

Lemma V3_recordComponent_fresh info st st' n :
  V3_fresh st /\ V3.totalFiles (V3.stats st) = n ->
  V3.recordComponent info st = Normal st' ->
  V3_fresh st' /\ V3.totalFiles (V3.stats st') = n.
Proof.
  intros Hst. unfold V3.recordComponent.
  destruct (V3.touch _ _ _ _); simpl; try discriminate. by intros [= <-].
Qed.

Lemma V3_identifyMethod_fresh A C f c a b st m st' n :
  V3_fresh st /\ V3.totalFiles (V3.stats st) = n ->
  V3.identifyMethod A C f c a b st m = Normal st' ->
  V3_fresh st' /\ V3.totalFiles (V3.stats st') = n.
Proof.
  intros Hst. unfold V3.identifyMethod.
  set (st0 := V3.mapStats V3.incrTotalMethods st).
  assert (V3_fresh st0 /\ V3.totalFiles (V3.stats st0) = n) as H0 by exact Hst.
  destruct (a && _).
  - destruct (V3.recordAbility _ st0) as [s1| |] eqn:E1; simpl; try discriminate.
    apply (V3_recordAbility_fresh _ _ _ n H0) in E1.
    destruct (b && _); [|by intros [= <-]].
    intros E2. by apply (V3_recordComponent_fresh _ _ _ n E1) in E2.
  - simpl. destruct (b && _); [|by intros [= <-]].
    intros E2. by apply (V3_recordComponent_fresh _ _ _ n H0) in E2.
Qed.

Lemma V3_identifyFile_fresh A C scene fuel st file st' n :
  V3_fresh st /\ V3.totalFiles (V3.stats st) = n ->
  V3.identifyFile A C scene fuel st file = Normal st' ->
  V3_fresh st' /\ V3.totalFiles (V3.stats st') = n.
Proof.
  intros Hst. unfold V3.identifyFile. destruct (_ || _); [by intros [= <-]|].
  intros Hrun.
  apply (forEach_preserves _ (fun s => V3_fresh s /\ V3.totalFiles (V3.stats s) = n)
           (fun _ _ => True)) in Hrun; [by destruct Hrun|done|done| |exact Hst].
  intros s cls s' Hs Hcls. split; [|done]. unfold V3.identifyClass in Hcls.
  destruct (_ || _); [by injection Hcls as <-|].
  destruct (V3.isAbilityClass scene fuel cls) as [a| |]; simpl in Hcls; try discriminate.
  apply (forEach_preserves _ (fun s => V3_fresh s /\ V3.totalFiles (V3.stats s) = n)
           (fun _ _ => True)) in Hcls; [by destruct Hcls|done|done| |].
  - intros s0 m s0' Hs0 Hm. split; [|done]. by eapply V3_identifyMethod_fresh.
  - destruct a; destruct (V3.isComponentClass cls); exact Hs.
Qed.

Lemma V3_identify_fresh A C CB scene fuel st :
  V3.identifyLifecycleMethods A C scene fuel (V3.init A C CB) = Normal st ->
  V3_fresh st /\
  V3.totalFiles (V3.stats st) = length (Scene.getFiles scene) /\
  V3.statLifecycleMethods (V3.stats st) = length (V3.lifecycleMethods st).
Proof.
  unfold V3.identifyLifecycleMethods.
  destruct (forEach _ _ _) as [s1| |] eqn:Hrun; simpl; try discriminate.
  intros [= <-].
  apply (forEach_preserves _
           (fun s => V3_fresh s /\
                     V3.totalFiles (V3.stats s) = length (Scene.getFiles scene))
           (fun _ _ => True)) in Hrun; [|done|done| |].
  - destruct Hrun as [[H1 H2] _]. split; [exact H1|split; [exact H2|reflexivity]].
  - intros s x s' Hs Hx. split; [|done]. by eapply V3_identifyFile_fresh.
  - split; [|reflexivity]. unfold V3_fresh. simpl. by repeat split.
Qed.

(** What [buildCallGraph] does to the analyzer: nothing, or it stores a
    graph and its two figures. *)
Lemma V3_buildCallGraph_cases ext st :
  V3.buildCallGraph ext st = st \/
  exists cg, V3.buildCallGraph ext st = V3.setCallGraph cg st.
Proof.
  unfold V3.buildCallGraph.
  destruct (External.createDummyMain ext); [|by left].
  destruct (0 <? length (External.dummyMainSignatures ext)).
  - destruct (External.makeCallGraphCHA ext _); [right; by eexists|by left].
  - destruct (0 <? length _); [|by left].
    destruct (External.makeCallGraphCHA ext _); [right; by eexists|by left].
Qed.

Lemma V3_checkStmt_count lm sc stmt :
  V3.issueCount (V3.checkStmt lm sc stmt) =
  V3.issueCount sc +
  length (if V3.containsUndefinedRisk (Stmt.toString stmt)
          then [V3_issueOf lm stmt] else []).
Proof. unfold V3.checkStmt. destruct (V3.containsUndefinedRisk _); simpl; lia. Qed.

Lemma V3_checkStmt_frame lm sc stmt :
  V3_scanFrame (V3.scanState (V3.checkStmt lm sc stmt)) = V3_scanFrame (V3.scanState sc).
Proof. unfold V3.checkStmt. by destruct (V3.containsUndefinedRisk _). Qed.

Lemma V3_analyzeLifecycleMethod_issues ext sc lm :
  V3.undefinedIssues (V3.scanState (V3.analyzeLifecycleMethod ext sc lm)) =
    V3.undefinedIssues (V3.scanState sc) ++ V3_methodIssues ext lm /\
  V3.issueCount (V3.analyzeLifecycleMethod ext sc lm) =
    V3.issueCount sc + length (V3_methodIssues ext lm) /\
  V3_scanFrame (V3.scanState (V3.analyzeLifecycleMethod ext sc lm)) =
    V3_scanFrame (V3.scanState sc).
Proof.
  unfold V3.analyzeLifecycleMethod, V3_methodIssues, scannedCfg.
  destruct (ArkMethod.getCfg (V3.method lm)) as [cfg|];
    [|by rewrite app_nil_r, Nat.add_0_r].
  destruct (Cfg.getBlocks cfg) as [|block0 blocks] eqn:Eb; simpl;
    [by rewrite app_nil_r, Nat.add_0_r|].
  destruct (BasicBlock.getStmts block0) as [|firstStmt stmts];
    [by rewrite app_nil_r, Nat.add_0_r|].
  destruct (External.solve ext firstStmt (V3.method lm));
    [|by rewrite app_nil_r, Nat.add_0_r].
  set (sc1 := {| V3.scanState := V3.scanState sc;
                 V3.analyzedCount := S (V3.analyzedCount sc);
                 V3.issueCount := V3.issueCount sc |}).
  split; [|split].
  - rewrite (fold_left_appends (fun s => V3.undefinedIssues (V3.scanState s)) _
               (fun stmt => if V3.containsUndefinedRisk (Stmt.toString stmt)
                            then [V3_issueOf lm stmt] else [])); [done|].
    intros. apply V3_checkStmt_issues.
  - rewrite (fold_left_adds V3.issueCount _
               (fun stmt => length (if V3.containsUndefinedRisk (Stmt.toString stmt)
                                    then [V3_issueOf lm stmt] else []))).
    + by rewrite length_flat_map.
    + intros. apply V3_checkStmt_count.
  - rewrite (fold_left_keeps (fun s => V3_scanFrame (V3.scanState s))); [done|].
    intros. apply V3_checkStmt_frame.
Qed.

Lemma V3_analyzeUndefinedVariables_spec ext st :
  let st' := V3.analyzeUndefinedVariables ext st in
  V3.undefinedIssues st' =
    V3.undefinedIssues st ++ flat_map (V3_methodIssues ext) (V3.lifecycleMethods st) /\
  V3.statUndefinedIssues (V3.stats st') =
    length (flat_map (V3_methodIssues ext) (V3.lifecycleMethods st)) /\
  V3.lifecycleMethods st' = V3.lifecycleMethods st /\
  V3.callGraph st' = V3.callGraph st /\
  V3.dataFlows st' = V3.dataFlows st /\
  V3.totalFiles (V3.stats st') = V3.totalFiles (V3.stats st) /\
  V3.totalMethods (V3.stats st') = V3.totalMethods (V3.stats st) /\
  V3.statLifecycleMethods (V3.stats st') = V3.statLifecycleMethods (V3.stats st) /\
  V3.callGraphNodes (V3.stats st') = V3.callGraphNodes (V3.stats st) /\
  V3.callGraphEdges (V3.stats st') = V3.callGraphEdges (V3.stats st) /\
  V3.dataFlowPaths (V3.stats st') = V3.dataFlowPaths (V3.stats st).
Proof.
  cbv zeta. unfold V3.analyzeUndefinedVariables.
  set (sc0 := {| V3.scanState := st; V3.analyzedCount := 0; V3.issueCount := 0 |}).
  set (sc := fold_left (V3.analyzeLifecycleMethod ext) (V3.lifecycleMethods st) sc0).
  assert (V3.undefinedIssues (V3.scanState sc) =
          V3.undefinedIssues st ++ flat_map (V3_methodIssues ext) (V3.lifecycleMethods st))
    as H1.
  { unfold sc.
    rewrite (fold_left_appends (fun s => V3.undefinedIssues (V3.scanState s)) _
               (V3_methodIssues ext)); [done|].
    intros. apply V3_analyzeLifecycleMethod_issues. }
  assert (V3.issueCount sc =
          length (flat_map (V3_methodIssues ext) (V3.lifecycleMethods st))) as H2.
  { unfold sc.
    rewrite (fold_left_adds V3.issueCount _ (fun lm => length (V3_methodIssues ext lm))).
    - by rewrite length_flat_map.
    - intros. apply V3_analyzeLifecycleMethod_issues. }
  assert (V3_scanFrame (V3.scanState sc) = V3_scanFrame st) as H3.
  { unfold sc.
    rewrite (fold_left_keeps (fun s => V3_scanFrame (V3.scanState s))); [done|].
    intros. apply V3_analyzeLifecycleMethod_issues. }
  unfold V3_scanFrame in H3. injection H3 as H3 H4 H5 H6.
  simpl. rewrite H1, H2, H3, H4, H5, H6. by repeat split.
Qed.

Lemma V3_dataFlowExpr_spec lm stmt st exprStr :
  V3.dataFlows (V3.dataFlowExpr lm stmt st exprStr) =
    V3.dataFlows st ++
    (if looksLikeInvocation exprStr then [V3_flowOf lm stmt exprStr] else []) /\
  (V3.lifecycleMethods (V3.dataFlowExpr lm stmt st exprStr),
   V3.callGraph (V3.dataFlowExpr lm stmt st exprStr),
   V3.undefinedIssues (V3.dataFlowExpr lm stmt st exprStr),
   V3.stats (V3.dataFlowExpr lm stmt st exprStr)) =
  (V3.lifecycleMethods st, V3.callGraph st, V3.undefinedIssues st, V3.stats st).
Proof.
  unfold V3.dataFlowExpr, looksLikeInvocation, V3_flowOf.
  destruct (Text.includes exprStr "invoke" || Text.includes exprStr "call"); simpl.
  - by rewrite !orElse_extract.
  - by rewrite app_nil_r.
Qed.

Lemma V3_analyzeMethodDataFlow_spec st lm :
  V3.dataFlows (V3.analyzeMethodDataFlow st lm) = V3.dataFlows st ++ V3_methodFlows lm /\
  V3_flowFrame (V3.analyzeMethodDataFlow st lm) = V3_flowFrame st.
Proof.
  unfold V3.analyzeMethodDataFlow, V3_methodFlows.
  destruct (ArkMethod.getCfg (V3.method lm)) as [cfg|]; [|by rewrite app_nil_r].
  split.
  - rewrite (fold_left_appends V3.dataFlows _
               (fun stmt =>
                  flat_map (fun exprStr => if looksLikeInvocation exprStr
                                           then [V3_flowOf lm stmt exprStr] else [])
                           (Stmt.getExprs stmt))); [done|].
    intros s stmt. unfold V3.dataFlowStmt.
    rewrite (fold_left_appends V3.dataFlows _
               (fun exprStr => if looksLikeInvocation exprStr
                               then [V3_flowOf lm stmt exprStr] else [])); [done|].
    intros. apply V3_dataFlowExpr_spec.
  - rewrite (fold_left_keeps V3_flowFrame); [done|].
    intros s stmt. unfold V3.dataFlowStmt.
    rewrite (fold_left_keeps V3_flowFrame); [done|].
    intros. apply V3_dataFlowExpr_spec.
Qed.

Lemma V3_analyzeDataFlow_spec st :
  let st' := V3.analyzeDataFlow st in
  V3.dataFlows st' =
    V3.dataFlows st ++
    match V3.callGraph st with
    | Some _ => flat_map V3_methodFlows (V3.lifecycleMethods st)
    | None => []
    end /\
  V3.dataFlowPaths (V3.stats st') =
    match V3.callGraph st with
    | Some _ => length (V3.dataFlows st')
    | None => V3.dataFlowPaths (V3.stats st)
    end /\
  V3.lifecycleMethods st' = V3.lifecycleMethods st /\
  V3.callGraph st' = V3.callGraph st /\
  V3.undefinedIssues st' = V3.undefinedIssues st /\
  V3.totalFiles (V3.stats st') = V3.totalFiles (V3.stats st) /\
  V3.totalMethods (V3.stats st') = V3.totalMethods (V3.stats st) /\
  V3.statLifecycleMethods (V3.stats st') = V3.statLifecycleMethods (V3.stats st) /\
  V3.callGraphNodes (V3.stats st') = V3.callGraphNodes (V3.stats st) /\
  V3.callGraphEdges (V3.stats st') = V3.callGraphEdges (V3.stats st) /\
  V3.statUndefinedIssues (V3.stats st') = V3.statUndefinedIssues (V3.stats st).
Proof.
  cbv zeta. unfold V3.analyzeDataFlow.
  destruct (V3.callGraph st) as [cg|] eqn:Ecg; [|by rewrite app_nil_r, Ecg].
  set (st1 := fold_left V3.analyzeMethodDataFlow (V3.lifecycleMethods st) st).
  assert (V3.dataFlows st1 =
          V3.dataFlows st ++ flat_map V3_methodFlows (V3.lifecycleMethods st)) as H1.
  { unfold st1. rewrite (fold_left_appends V3.dataFlows _ V3_methodFlows); [done|].
    intros. apply V3_analyzeMethodDataFlow_spec. }
  assert (V3_flowFrame st1 = V3_flowFrame st) as H2.
  { unfold st1. rewrite (fold_left_keeps V3_flowFrame); [done|].
    intros. apply V3_analyzeMethodDataFlow_spec. }
  unfold V3_flowFrame in H2. injection H2 as H2 H3 H4 H5.
  simpl. rewrite H1, H2, H3, H4, H5, Ecg. by repeat split.
Qed.
(** The analyzer of version 3 after the four steps, in terms of the state
    that the scan left. *)
Lemma V3_analyze_spec A C CB ext scene fuel st :
  V3.analyze A C CB ext scene fuel = Normal st ->
  exists st1,
    V3.identifyLifecycleMethods A C scene fuel (V3.init A C CB) = Normal st1 /\
    V3.lifecycleMethods st = V3.lifecycleMethods st1 /\
    V3.callGraph st = V3.callGraph (V3.buildCallGraph ext st1) /\
    V3.undefinedIssues st = flat_map (V3_methodIssues ext) (V3.lifecycleMethods st1) /\
    V3.dataFlows st =
      match V3.callGraph st with
      | Some _ => flat_map V3_methodFlows (V3.lifecycleMethods st1)
      | None => []
      end /\
    V3.totalFiles (V3.stats st) = length (Scene.getFiles scene) /\
    V3.statLifecycleMethods (V3.stats st) = length (V3.lifecycleMethods st) /\
    V3.statUndefinedIssues (V3.stats st) = length (V3.undefinedIssues st) /\
    V3.dataFlowPaths (V3.stats st) = length (V3.dataFlows st) /\
    match V3.callGraph st with
    | Some cg => V3.callGraphNodes (V3.stats st) = CallGraph.getNodeNum cg /\
                 V3.callGraphEdges (V3.stats st) = CallGraph.getEdgeNum cg
    | None => V3.callGraphNodes (V3.stats st) = 0 /\
              V3.callGraphEdges (V3.stats st) = 0
    end.
Proof.
  unfold V3.analyze.
  destruct (V3.identifyLifecycleMethods A C scene fuel (V3.init A C CB)) as [st1| |] eqn:E1;
    simpl; try discriminate.
  intros [= <-]. exists st1. split; [done|].
  destruct (V3_identify_fresh _ _ _ _ _ _ E1) as ((F1 & F2 & F3 & F4 & F5 & F6 & F7) & T1 & T2).
  set (st2 := V3.buildCallGraph ext st1).
  assert (V3.lifecycleMethods st2 = V3.lifecycleMethods st1 /\
          V3.undefinedIssues st2 = [] /\ V3.dataFlows st2 = [] /\
          V3.totalFiles (V3.stats st2) = length (Scene.getFiles scene) /\
          V3.statLifecycleMethods (V3.stats st2) = length (V3.lifecycleMethods st1) /\
          V3.dataFlowPaths (V3.stats st2) = 0 /\
          match V3.callGraph st2 with
          | Some cg => V3.callGraphNodes (V3.stats st2) = CallGraph.getNodeNum cg /\
                       V3.callGraphEdges (V3.stats st2) = CallGraph.getEdgeNum cg
          | None => V3.callGraphNodes (V3.stats st2) = 0 /\
                    V3.callGraphEdges (V3.stats st2) = 0
          end) as (B1 & B2 & B3 & B4 & B5 & B6 & B7).
  { unfold st2. destruct (V3_buildCallGraph_cases ext st1) as [->|[cg ->]].
    - rewrite F3. by repeat split.
    - simpl. by repeat split. }
  destruct (V3_analyzeUndefinedVariables_spec ext st2)
    as (U1 & U2 & U3 & U4 & U5 & U6 & U7 & U8 & U9 & U10 & U11).
  set (st3 := V3.analyzeUndefinedVariables ext st2) in *.
  destruct (V3_analyzeDataFlow_spec st3)
    as (D1 & D2 & D3 & D4 & D5 & D6 & D7 & D8 & D9 & D10 & D11).
  set (st4 := V3.analyzeDataFlow st3) in *.
  assert (V3.callGraph st4 = V3.callGraph st2) as G by by rewrite D4, U4.
  assert (V3.lifecycleMethods st4 = V3.lifecycleMethods st1) as L by by rewrite D3, U3.
  assert (V3.undefinedIssues st4 =
          flat_map (V3_methodIssues ext) (V3.lifecycleMethods st1)) as I
    by by rewrite D5, U1, B2, B1.
  assert (V3.dataFlows st4 =
          match V3.callGraph st2 with
          | Some _ => flat_map V3_methodFlows (V3.lifecycleMethods st1)
          | None => []
          end) as F by by rewrite D1, U4, U5, B3, U3, B1.
  split; [exact L|]. split; [exact G|]. split; [exact I|].
  split; [by rewrite G|]. split; [by rewrite D6, U6|].
  split; [by rewrite D8, U8, B5, L|]. split; [by rewrite D11, U2, I, B1|].
  split.
  - rewrite D2, U4, U11, B6, F. by destruct (V3.callGraph st2).
  - by rewrite G, D9, U9, D10, U10.
Qed.

(** ** What the analyzers of versions 1 and 3 report *)

(** X11: after the four steps the statistics agree with the lists: the
    three counts are the lengths of the lists of lifecycle methods, issues
    and data flows, the file count is the number of files of the scene, and
    the two call-graph figures are those of the stored graph.  When no call
    graph was stored the figures are 0 and no data flow is recorded
    (versions 1 and 3). *)
Theorem statistics_agree_with_the_lists (ext : External.t) (scene : Scene.t) (fuel : nat) :
  (forall st,
     V1.analyze ext scene fuel = Normal st ->
     V1.totalFiles (V1.stats st) = length (Scene.getFiles scene) /\
     V1.statLifecycleMethods (V1.stats st) = length (V1.lifecycleMethods st) /\
     V1.statUndefinedIssues (V1.stats st) = length (V1.undefinedIssues st) /\
     V1.dataFlowPaths (V1.stats st) = length (V1.dataFlows st) /\
     match V1.callGraph st with
     | Some cg => V1.callGraphNodes (V1.stats st) = CallGraph.getNodeNum cg /\
                  V1.callGraphEdges (V1.stats st) = CallGraph.getEdgeNum cg
     | None => V1.callGraphNodes (V1.stats st) = 0 /\
               V1.callGraphEdges (V1.stats st) = 0 /\
               V1.dataFlows st = []
     end) /\
  (forall abilityNames componentNames callbackNames st,
     V3.analyze abilityNames componentNames callbackNames ext scene fuel = Normal st ->
     V3.totalFiles (V3.stats st) = length (Scene.getFiles scene) /\
     V3.statLifecycleMethods (V3.stats st) = length (V3.lifecycleMethods st) /\
     V3.statUndefinedIssues (V3.stats st) = length (V3.undefinedIssues st) /\
     V3.dataFlowPaths (V3.stats st) = length (V3.dataFlows st) /\
     match V3.callGraph st with
     | Some cg => V3.callGraphNodes (V3.stats st) = CallGraph.getNodeNum cg /\
                  V3.callGraphEdges (V3.stats st) = CallGraph.getEdgeNum cg
     | None => V3.callGraphNodes (V3.stats st) = 0 /\
               V3.callGraphEdges (V3.stats st) = 0 /\
               V3.dataFlows st = []
     end).
Proof.
  split.
  - intros st Hrun.
    destruct (V1_analyze_spec _ _ _ _ Hrun)
      as (st1 & _ & _ & _ & _ & F & T & L & U & D & G).
    repeat (split; [assumption|]).
    destruct (V1.callGraph st); [exact G|]. destruct G. by repeat split.
  - intros A C CB st Hrun.
    destruct (V3_analyze_spec _ _ _ _ _ _ _ Hrun)
      as (st1 & _ & _ & _ & _ & F & T & L & U & D & G).
    repeat (split; [assumption|]).
    destruct (V3.callGraph st); [exact G|]. destruct G. by repeat split.
Qed.

Lemma statistics_agree_with_the_lists_witness :
  V1.analyze Inputs.quiet Inputs.dialogScene 1 = Normal Samples.dialogAnalyzedV1 /\
  V1.statLifecycleMethods (V1.stats Samples.dialogAnalyzedV1)
    = length (V1.lifecycleMethods Samples.dialogAnalyzedV1) /\
  V3.analyze V1.ABILITY_LIFECYCLE V1.COMPONENT_LIFECYCLE Inputs.callbackNames
    Inputs.quiet Inputs.dialogScene 1 = Normal Inputs.dialogAnalyzed /\
  V3.dataFlowPaths (V3.stats Inputs.dialogAnalyzed)
    = length (V3.dataFlows Inputs.dialogAnalyzed).
Proof.
  assert (V1.analyze Inputs.quiet Inputs.dialogScene 1 = Normal Samples.dialogAnalyzedV1)
    as Hrun1 by (vm_compute; reflexivity).
  assert (V3.analyze V1.ABILITY_LIFECYCLE V1.COMPONENT_LIFECYCLE Inputs.callbackNames
            Inputs.quiet Inputs.dialogScene 1 = Normal Inputs.dialogAnalyzed)
    as Hrun3 by (vm_compute; reflexivity).
  split; [exact Hrun1|]. split.
  { exact (proj1 (proj2 (proj1 (statistics_agree_with_the_lists
                                  Inputs.quiet Inputs.dialogScene 1) _ Hrun1))). }
  split; [exact Hrun3|].
  exact (proj1 (proj2 (proj2 (proj2 (proj2 (statistics_agree_with_the_lists
                                  Inputs.quiet Inputs.dialogScene 1) _ _ _ _ Hrun3))))).
Defined.

Lemma V1_methodIssues_elem_of ext lm i :
  i ∈ V1_methodIssues ext lm <->
  exists cfg stmt,
    scannedCfg ext (V1.method lm) = Some cfg /\ stmt ∈ Cfg.getStmts cfg /\
    V1.containsUndefinedRisk (Stmt.toString stmt) = true /\ i = V1_issueOf lm stmt.
Proof.
  unfold V1_methodIssues. destruct (scannedCfg ext (V1.method lm)) as [cfg|].
  - rewrite list_elem_of_In, in_flat_map. split.
    + intros (stmt & Hs & Hi). apply list_elem_of_In in Hs.
      destruct (V1.containsUndefinedRisk _) eqn:E; [|done].
      destruct Hi as [<-|[]]. by exists cfg, stmt.
    + intros (cfg' & stmt & [= <-] & Hs & E & ->). exists stmt.
      split; [by apply list_elem_of_In|]. rewrite E. by left.
  - split; [by intros ?%elem_of_nil|]. by intros (? & ? & ? & _).
Qed.

Lemma V3_methodIssues_elem_of ext lm i :
  i ∈ V3_methodIssues ext lm <->
  exists cfg stmt,
    scannedCfg ext (V3.method lm) = Some cfg /\ stmt ∈ Cfg.getStmts cfg /\
    V3.containsUndefinedRisk (Stmt.toString stmt) = true /\ i = V3_issueOf lm stmt.
Proof.
  unfold V3_methodIssues. destruct (scannedCfg ext (V3.method lm)) as [cfg|].
  - rewrite list_elem_of_In, in_flat_map. split.
    + intros (stmt & Hs & Hi). apply list_elem_of_In in Hs.
      destruct (V3.containsUndefinedRisk _) eqn:E; [|done].
      destruct Hi as [<-|[]]. by exists cfg, stmt.
    + intros (cfg' & stmt & [= <-] & Hs & E & ->). exists stmt.
      split; [by apply list_elem_of_In|]. rewrite E. by left.
  - split; [by intros ?%elem_of_nil|]. by intros (? & ? & ? & _).
Qed.

(** X12: an issue is in the list of the undefined-variable pass exactly when
    a statement of a scanned lifecycle method shows a risk; it then carries
    the class and phase of the lifecycle method, the line of the statement,
    the fixed prefix followed by the first 60 code units of the statement,
    and the severity of the statement.  A lifecycle method is scanned when it
    has a body, the first block of the body is not empty and the solver
    returned; the statements of all blocks are then looked at (versions 1
    and 3). *)
Theorem undefined_issue_iff_risky_statement
    (ext : External.t) (scene : Scene.t) (fuel : nat) :
  (forall st i,
     V1.analyze ext scene fuel = Normal st ->
     (i ∈ V1.undefinedIssues st <->
      exists lm cfg stmt,
        lm ∈ V1.lifecycleMethods st /\
        scannedCfg ext (V1.method lm) = Some cfg /\ stmt ∈ Cfg.getStmts cfg /\
        V1.containsUndefinedRisk (Stmt.toString stmt) = true /\
        i = V1_issueOf lm stmt)) /\
  (forall abilityNames componentNames callbackNames st i,
     V3.analyze abilityNames componentNames callbackNames ext scene fuel = Normal st ->
     (i ∈ V3.undefinedIssues st <->
      exists lm cfg stmt,
        lm ∈ V3.lifecycleMethods st /\
        scannedCfg ext (V3.method lm) = Some cfg /\ stmt ∈ Cfg.getStmts cfg /\
        V3.containsUndefinedRisk (Stmt.toString stmt) = true /\
        i = V3_issueOf lm stmt)).
Proof.
  split.
  - intros st i Hrun.
    destruct (V1_analyze_spec _ _ _ _ Hrun) as (st1 & _ & L & _ & I & _).
    rewrite I, L, list_elem_of_In, in_flat_map. split.
    + intros (lm & Hlm & Hi). apply list_elem_of_In in Hlm, Hi.
      apply V1_methodIssues_elem_of in Hi as (cfg & stmt & ?). by exists lm, cfg, stmt.
    + intros (lm & cfg & stmt & Hlm & H). exists lm.
      split; [by apply list_elem_of_In|].
      apply list_elem_of_In, V1_methodIssues_elem_of. by exists cfg, stmt.
  - intros A C CB st i Hrun.
    destruct (V3_analyze_spec _ _ _ _ _ _ _ Hrun) as (st1 & _ & L & _ & I & _).
    rewrite I, L, list_elem_of_In, in_flat_map. split.
    + intros (lm & Hlm & Hi). apply list_elem_of_In in Hlm, Hi.
      apply V3_methodIssues_elem_of in Hi as (cfg & stmt & ?). by exists lm, cfg, stmt.
    + intros (lm & cfg & stmt & Hlm & H). exists lm.
      split; [by apply list_elem_of_In|].
      apply list_elem_of_In, V3_methodIssues_elem_of. by exists cfg, stmt.
Qed.

Lemma undefined_issue_iff_risky_statement_witness :
  let issue :=
    {| V1.issueMethod := "Dialog.aboutToAppear"; V1.issueLine := 3%Z;
       V1.description := "可能的未定义变量访问: x = undefined";
       V1.severity := high |} in
  V1.analyze Inputs.quiet Inputs.dialogScene 1 = Normal Samples.dialogAnalyzedV1 /\
  issue ∈ V1.undefinedIssues Samples.dialogAnalyzedV1 /\
  exists lm cfg stmt,
    lm ∈ V1.lifecycleMethods Samples.dialogAnalyzedV1 /\
    scannedCfg Inputs.quiet (V1.method lm) = Some cfg /\ stmt ∈ Cfg.getStmts cfg /\
    V1.containsUndefinedRisk (Stmt.toString stmt) = true /\
    issue = V1_issueOf lm stmt.
Proof.
  intros issue.
  assert (V1.analyze Inputs.quiet Inputs.dialogScene 1 = Normal Samples.dialogAnalyzedV1)
    as Hrun by (vm_compute; reflexivity).
  assert (issue ∈ V1.undefinedIssues Samples.dialogAnalyzedV1) as Hin
    by (apply (list_elem_of_lookup_2 _ 0); reflexivity).
  split; [exact Hrun|]. split; [exact Hin|].
  exact (proj1 (proj1 (undefined_issue_iff_risky_statement
                         Inputs.quiet Inputs.dialogScene 1) _ issue Hrun) Hin).
Defined.

Lemma V1_methodFlows_elem_of lm d :
  d ∈ V1_methodFlows lm <->
  exists cfg stmt exprStr,
    ArkMethod.getCfg (V1.method lm) = Some cfg /\ stmt ∈ Cfg.getStmts cfg /\
    exprStr ∈ Stmt.getExprs stmt /\ looksLikeInvocation exprStr = true /\
    d = V1_flowOf lm stmt exprStr.
Proof.
  unfold V1_methodFlows. destruct (ArkMethod.getCfg (V1.method lm)) as [cfg|].
  - rewrite list_elem_of_In, in_flat_map. split.
    + intros (stmt & Hs & Hd). apply list_elem_of_In in Hs.
      apply in_flat_map in Hd as (e & He & Hd). apply list_elem_of_In in He.
      destruct (looksLikeInvocation e) eqn:E; [|done].
      destruct Hd as [<-|[]]. by exists cfg, stmt, e.
    + intros (cfg' & stmt & e & [= <-] & Hs & He & E & ->). exists stmt.
      split; [by apply list_elem_of_In|]. apply in_flat_map. exists e.
      split; [by apply list_elem_of_In|]. rewrite E. by left.
  - split; [by intros ?%elem_of_nil|]. by intros (? & ? & ? & ? & _).
Qed.

Lemma V3_methodFlows_elem_of lm d :
  d ∈ V3_methodFlows lm <->
  exists cfg stmt exprStr,
    ArkMethod.getCfg (V3.method lm) = Some cfg /\ stmt ∈ Cfg.getStmts cfg /\
    exprStr ∈ Stmt.getExprs stmt /\ looksLikeInvocation exprStr = true /\
    d = V3_flowOf lm stmt exprStr.
Proof.
  unfold V3_methodFlows. destruct (ArkMethod.getCfg (V3.method lm)) as [cfg|].
  - rewrite list_elem_of_In, in_flat_map. split.
    + intros (stmt & Hs & Hd). apply list_elem_of_In in Hs.
      apply in_flat_map in Hd as (e & He & Hd). apply list_elem_of_In in He.
      destruct (looksLikeInvocation e) eqn:E; [|done].
      destruct Hd as [<-|[]]. by exists cfg, stmt, e.
    + intros (cfg' & stmt & e & [= <-] & Hs & He & E & ->). exists stmt.
      split; [by apply list_elem_of_In|]. apply in_flat_map. exists e.
      split; [by apply list_elem_of_In|]. rewrite E. by left.
  - split; [by intros ?%elem_of_nil|]. by intros (? & ? & ? & ? & _).
Qed.

(** X13: a data flow is recorded exactly when a call graph was stored and an
    expression of a statement of a lifecycle method with a body looks like
    an invocation.  The record names the class and phase of the lifecycle
    method as its source, the extracted method as its target or, when none
    is extracted, the first 60 code units of the expression; its call chain
    always has two elements, the source and the extracted method or
    "unknown" (versions 1 and 3). *)
Theorem data_flow_iff_invocation_expression
    (ext : External.t) (scene : Scene.t) (fuel : nat) :
  (forall st d,
     V1.analyze ext scene fuel = Normal st ->
     (d ∈ V1.dataFlows st <->
      V1.callGraph st <> None /\
      exists lm cfg stmt exprStr,
        lm ∈ V1.lifecycleMethods st /\
        ArkMethod.getCfg (V1.method lm) = Some cfg /\ stmt ∈ Cfg.getStmts cfg /\
        exprStr ∈ Stmt.getExprs stmt /\ looksLikeInvocation exprStr = true /\
        d = V1_flowOf lm stmt exprStr) /\
     Forall (fun d => length (V1.callChain d) = 2 /\ V1.to d <> "" /\
                      V1.callChain d !! 0 = Some (V1.from d))
            (V1.dataFlows st)) /\
  (forall abilityNames componentNames callbackNames st d,
     V3.analyze abilityNames componentNames callbackNames ext scene fuel = Normal st ->
     (d ∈ V3.dataFlows st <->
      V3.callGraph st <> None /\
      exists lm cfg stmt exprStr,
        lm ∈ V3.lifecycleMethods st /\
        ArkMethod.getCfg (V3.method lm) = Some cfg /\ stmt ∈ Cfg.getStmts cfg /\
        exprStr ∈ Stmt.getExprs stmt /\ looksLikeInvocation exprStr = true /\
        d = V3_flowOf lm stmt exprStr) /\
     Forall (fun d => length (V3.callChain d) = 2 /\ V3.to d <> "" /\
                      V3.callChain d !! 0 = Some (V3.from d))
            (V3.dataFlows st)).
Proof.
  assert (forall e, looksLikeInvocation e = true ->
                    targetOr (Text.substring0 60 e) e <> "") as Hto.
  { intros e He. unfold targetOr.
    destruct (V1.extractMethodFromInvoke e) as [r|] eqn:E.
    - by apply extractMethodFromInvoke_nonempty in E.
    - unfold looksLikeInvocation in He.
      assert (e <> "") as Hne.
      { intros ->. by vm_compute in He. }
      by apply substring0_nonempty. }
  split.
  - intros st d Hrun.
    destruct (V1_analyze_spec _ _ _ _ Hrun) as (st1 & _ & L & _ & _ & F & _).
    assert (d ∈ V1.dataFlows st <->
            V1.callGraph st <> None /\
            exists lm cfg stmt exprStr,
              lm ∈ V1.lifecycleMethods st /\
              ArkMethod.getCfg (V1.method lm) = Some cfg /\ stmt ∈ Cfg.getStmts cfg /\
              exprStr ∈ Stmt.getExprs stmt /\ looksLikeInvocation exprStr = true /\
              d = V1_flowOf lm stmt exprStr) as Hiff.
    { rewrite F, L. destruct (V1.callGraph st) as [cg|].
      - rewrite list_elem_of_In, in_flat_map. split.
        + intros (lm & Hlm & Hd). apply list_elem_of_In in Hlm, Hd.
          apply V1_methodFlows_elem_of in Hd as (cfg & stmt & e & ?).
          split; [done|]. by exists lm, cfg, stmt, e.
        + intros (_ & lm & cfg & stmt & e & Hlm & H). exists lm.
          split; [by apply list_elem_of_In|].
          apply list_elem_of_In, V1_methodFlows_elem_of. by exists cfg, stmt, e.
      - split; [by intros ?%elem_of_nil|]. by intros [? _]. }
    split; [exact Hiff|].
    rewrite F. destruct (V1.callGraph st) as [cg|]; [|constructor].
    apply Forall_forall. intros d' Hd'. apply list_elem_of_In, in_flat_map in Hd'.
    destruct Hd' as (lm & _ & Hd'). apply list_elem_of_In, V1_methodFlows_elem_of in Hd'.
    destruct Hd' as (cfg & stmt & e & _ & _ & _ & He & ->). simpl.
    split; [done|]. split; [by apply Hto|done].
  - intros A C CB st d Hrun.
    destruct (V3_analyze_spec _ _ _ _ _ _ _ Hrun) as (st1 & _ & L & _ & _ & F & _).
    assert (d ∈ V3.dataFlows st <->
            V3.callGraph st <> None /\
            exists lm cfg stmt exprStr,
              lm ∈ V3.lifecycleMethods st /\
              ArkMethod.getCfg (V3.method lm) = Some cfg /\ stmt ∈ Cfg.getStmts cfg /\
              exprStr ∈ Stmt.getExprs stmt /\ looksLikeInvocation exprStr = true /\
              d = V3_flowOf lm stmt exprStr) as Hiff.
    { rewrite F, L. destruct (V3.callGraph st) as [cg|].
      - rewrite list_elem_of_In, in_flat_map. split.
        + intros (lm & Hlm & Hd). apply list_elem_of_In in Hlm, Hd.
          apply V3_methodFlows_elem_of in Hd as (cfg & stmt & e & ?).
          split; [done|]. by exists lm, cfg, stmt, e.
        + intros (_ & lm & cfg & stmt & e & Hlm & H). exists lm.
          split; [by apply list_elem_of_In|].
          apply list_elem_of_In, V3_methodFlows_elem_of. by exists cfg, stmt, e.
      - split; [by intros ?%elem_of_nil|]. by intros [? _]. }
    split; [exact Hiff|].
    rewrite F. destruct (V3.callGraph st) as [cg|]; [|constructor].
    apply Forall_forall. intros d' Hd'. apply list_elem_of_In, in_flat_map in Hd'.
    destruct Hd' as (lm & _ & Hd'). apply list_elem_of_In, V3_methodFlows_elem_of in Hd'.
    destruct Hd' as (cfg & stmt & e & _ & _ & _ & He & ->). simpl.
    split; [done|]. split; [by apply Hto|done].
Qed.

Lemma data_flow_iff_invocation_expression_witness :
  let flow :=
    {| V3.from := "Dialog.aboutToAppear"; V3.to := "pop"; V3.variable := "data";
       V3.line := 5%Z; V3.callChain := ["Dialog.aboutToAppear"; "pop"] |} in
  V3.analyze V1.ABILITY_LIFECYCLE V1.COMPONENT_LIFECYCLE Inputs.callbackNames
    Inputs.quiet Inputs.dialogScene 1 = Normal Inputs.dialogAnalyzed /\
  flow ∈ V3.dataFlows Inputs.dialogAnalyzed /\
  V3.callGraph Inputs.dialogAnalyzed <> None /\
  exists lm cfg stmt exprStr,
    lm ∈ V3.lifecycleMethods Inputs.dialogAnalyzed /\
    ArkMethod.getCfg (V3.method lm) = Some cfg /\ stmt ∈ Cfg.getStmts cfg /\
    exprStr ∈ Stmt.getExprs stmt /\ looksLikeInvocation exprStr = true /\
    flow = V3_flowOf lm stmt exprStr.
Proof.
  intros flow.
  assert (V3.analyze V1.ABILITY_LIFECYCLE V1.COMPONENT_LIFECYCLE Inputs.callbackNames
            Inputs.quiet Inputs.dialogScene 1 = Normal Inputs.dialogAnalyzed)
    as Hrun by (vm_compute; reflexivity).
  assert (flow ∈ V3.dataFlows Inputs.dialogAnalyzed) as Hin
    by (apply (list_elem_of_lookup_2 _ 0); reflexivity).
  split; [exact Hrun|]. split; [exact Hin|].
  exact (proj1 (proj1 (proj2 (data_flow_iff_invocation_expression
                                Inputs.quiet Inputs.dialogScene 1)
                         _ _ _ _ flow Hrun)) Hin).
Defined.

(** ** Coverage tables and lifecycle records *)

Lemma V3_recordsOf_snoc T n recs r :
  V3_recordsOf T n (recs ++ [r]) =
  V3_recordsOf T n recs ++ (if decide (V3.type r = T /\ V3.phase r = n) then [r] else []).
Proof.
  unfold V3_recordsOf. by rewrite filter_app.
Qed.

Lemma V3_initTable_counts T names : V3_tableCounts T names (V3.initTable names) [].
Proof.
  split.
  - intros n. rewrite V3_initTable_lookup. case_decide; split; try done;
      by intros [? ?].
  - intros n stat. rewrite V3_initTable_lookup. case_decide; [|done].
    intros [= <-]. by repeat split.
Qed.

Lemma V3_tableCounts_other T names t recs r :
  V3.type r <> T ->
  V3_tableCounts T names t recs -> V3_tableCounts T names t (recs ++ [r]).
Proof.
  intros Hne [Hdom Hc]. split; [exact Hdom|]. intros n stat Hn.
  rewrite V3_recordsOf_snoc. rewrite decide_False by (intros [? _]; done).
  rewrite app_nil_r. by apply Hc.
Qed.

Lemma V3_touch_counts T names t recs info :
  V3.type info = T -> V3.phase info ∈ names ->
  V3_tableCounts T names t recs ->
  exists t', V3.touch (V3.className info) (V3.filePath info) (V3.phase info) t = Normal t' /\
             V3_tableCounts T names t' (recs ++ [info]).
Proof.
  intros HT Hin [Hdom Hc]. unfold V3.touch.
  destruct (proj2 (Hdom _) Hin) as [stat Hs]. rewrite Hs.
  eexists. split; [reflexivity|]. split.
  - intros n. destruct (decide (n = V3.phase info)) as [->|Hne].
    + rewrite lookup_insert_eq. split; [done|]. by eexists.
    + by rewrite lookup_insert_ne.
  - intros n stat'. rewrite V3_recordsOf_snoc.
    destruct (decide (n = V3.phase info)) as [->|Hne].
    + rewrite lookup_insert_eq. intros [= <-].
      rewrite decide_True by done.
      destruct (Hc _ _ Hs) as (H1 & H2 & H3 & H4 & H5). simpl.
      split; [done|]. split; [rewrite length_app; simpl; lia|].
      split; [symmetry; apply bool_decide_eq_true; by destruct (V3_recordsOf _ _ _)|].
      rewrite !map_app. cbn [map]. rewrite !setOf_snoc, <- H4, <- H5. done.
    + rewrite lookup_insert_ne by done. intros Hn.
      rewrite decide_False by (intros [_ ?]; done). rewrite app_nil_r. by apply Hc.
Qed.

Lemma V3_recordAbility_counts A C info st :
  V3.type info = V3.ABILITY -> V3.phase info ∈ A ->
  V3_counted A C st ->
  exists st', V3.recordAbility info st = Normal st' /\ V3_counted A C st' /\
              V3.lifecycleMethods st' = V3.lifecycleMethods st ++ [info].
Proof.
  intros HT Hin (HA & HC & Hty). unfold V3.recordAbility.
  destruct (V3_touch_counts _ _ _ _ info HT Hin HA) as (t' & -> & HA').
  simpl. eexists. split; [reflexivity|]. split; [|done]. split; [exact HA'|]. split.
  - simpl. apply V3_tableCounts_other; [by rewrite HT|done].
  - simpl. apply Forall_app. split; [done|]. apply Forall_singleton. by left.
Qed.

Lemma V3_recordComponent_counts A C info st :
  V3.type info = V3.COMPONENT -> V3.phase info ∈ C ->
  V3_counted A C st ->
  exists st', V3.recordComponent info st = Normal st' /\ V3_counted A C st' /\
              V3.lifecycleMethods st' = V3.lifecycleMethods st ++ [info].
Proof.
  intros HT Hin (HA & HC & Hty). unfold V3.recordComponent.
  destruct (V3_touch_counts _ _ _ _ info HT Hin HC) as (t' & -> & HC').
  simpl. eexists. split; [reflexivity|]. split; [|done]. split; [|split].
  - simpl. apply V3_tableCounts_other; [by rewrite HT|done].
  - exact HC'.
  - simpl. apply Forall_app. split; [done|]. apply Forall_singleton. by right.
Qed.

Lemma V3_identifyMethod_counts A C f c a b st m st' :
  V3_counted A C st ->
  V3.identifyMethod A C f c a b st m = Normal st' ->
  V3_counted A C st'.
Proof.
  intros Hst. unfold V3.identifyMethod.
  set (st0 := V3.mapStats V3.incrTotalMethods st).
  assert (V3_counted A C st0) as H0 by exact Hst.
  destruct (a && Text.arrayIncludes A (ArkMethod.getName m)) eqn:Ea.
  - apply andb_true_iff in Ea as [_ Ea]. apply arrayIncludes_elem_of in Ea.
    match goal with |- context [V3.recordAbility ?i st0] =>
      destruct (V3_recordAbility_counts A C i st0 eq_refl Ea H0) as (s1 & -> & H1 & _)
    end.
    simpl. destruct (b && Text.arrayIncludes C (ArkMethod.getName m)) eqn:Eb.
    + apply andb_true_iff in Eb as [_ Eb]. apply arrayIncludes_elem_of in Eb.
      match goal with |- context [V3.recordComponent ?i s1] =>
        destruct (V3_recordComponent_counts A C i s1 eq_refl Eb H1) as (s2 & -> & H2 & _)
      end.
      by intros [= <-].
    + by intros [= <-].
  - simpl. destruct (b && Text.arrayIncludes C (ArkMethod.getName m)) eqn:Eb.
    + apply andb_true_iff in Eb as [_ Eb]. apply arrayIncludes_elem_of in Eb.
      match goal with |- context [V3.recordComponent ?i st0] =>
        destruct (V3_recordComponent_counts A C i st0 eq_refl Eb H0) as (s2 & -> & H2 & _)
      end.
      by intros [= <-].
    + by intros [= <-].
Qed.

Lemma V3_identifyFile_counts A C scene fuel st file st' :
  V3_counted A C st ->
  V3.identifyFile A C scene fuel st file = Normal st' ->
  V3_counted A C st'.
Proof.
  intros Hst. unfold V3.identifyFile. destruct (_ || _); [by intros [= <-]|].
  intros Hrun.
  apply (forEach_preserves _ (V3_counted A C) (fun _ _ => True)) in Hrun;
    [by destruct Hrun|done|done| |exact Hst].
  intros s cls s' Hs Hcls. split; [|done]. unfold V3.identifyClass in Hcls.
  destruct (_ || _); [by injection Hcls as <-|].
  destruct (V3.isAbilityClass scene fuel cls) as [a| |]; simpl in Hcls; try discriminate.
  apply (forEach_preserves _ (V3_counted A C) (fun _ _ => True)) in Hcls;
    [by destruct Hcls|done|done| |].
  - intros s0 m s0' Hs0 Hm. split; [|done]. by eapply V3_identifyMethod_counts.
  - destruct a; destruct (V3.isComponentClass cls); exact Hs.
Qed.

Lemma V3_init_counted A C CB : V3_counted A C (V3.init A C CB).
Proof.
  split; [apply V3_initTable_counts|]. split; [apply V3_initTable_counts|]. constructor.
Qed.

Lemma V3_identify_counted A C CB scene fuel st :
  V3.identifyLifecycleMethods A C scene fuel (V3.init A C CB) = Normal st ->
  V3_counted A C st.
Proof.
  unfold V3.identifyLifecycleMethods.
  destruct (forEach _ _ _) as [s1| |] eqn:Hrun; simpl; try discriminate.
  intros [= <-].
  apply (forEach_preserves _ (V3_counted A C) (fun _ _ => True)) in Hrun;
    [|done|done| |].
  - destruct Hrun as [H _]. exact H.
  - intros s x s' Hs Hx. split; [|done]. by eapply V3_identifyFile_counts.
  - apply (V3_init_counted A C CB).
Qed.

Lemma V3_analyze_counted A C CB ext scene fuel st :
  V3.analyze A C CB ext scene fuel = Normal st -> V3_counted A C st.
Proof.
  intros Hrun.
  destruct (V3_analyze_spec _ _ _ _ _ _ _ Hrun) as (st1 & H1 & L & _).
  pose proof (V3_identify_counted _ _ _ _ _ _ H1) as Hc.
  unfold V3.analyze in Hrun. rewrite H1 in Hrun. simpl in Hrun. injection Hrun as <-.
  destruct (V3_analyzeDataFlow_tables
              (V3.analyzeUndefinedVariables ext (V3.buildCallGraph ext st1)))
    as (D1 & D2 & _ & D4).
  destruct (V3_analyzeUndefinedVariables_tables ext (V3.buildCallGraph ext st1))
    as (U1 & U2 & _ & U4).
  destruct (V3_buildCallGraph_tables ext st1) as (B1 & B2 & _ & B4).
  unfold V3_counted. rewrite D1, D2, D4, U1, U2, U4, B1, B2, B4. exact Hc.
Qed.

Lemma V2_recordsOf_snoc T n recs r :
  V2_recordsOf T n (recs ++ [r]) =
  V2_recordsOf T n recs ++ (if decide (V2.type r = T /\ V2.phase r = n) then [r] else []).
Proof. unfold V2_recordsOf. by rewrite filter_app. Qed.

Lemma V2_initTable_counts T names : V2_tableCounts T names (V2.initTable names) [].
Proof.
  split.
  - intros n. rewrite V2_initTable_lookup. case_decide; split; try done;
      by intros [? ?].
  - intros n stat. rewrite V2_initTable_lookup. case_decide; [|done].
    intros [= <-]. by repeat split.
Qed.

Lemma V2_tableCounts_other T names t recs r :
  V2.type r <> T ->
  V2_tableCounts T names t recs -> V2_tableCounts T names t (recs ++ [r]).
Proof.
  intros Hne [Hdom Hc]. split; [exact Hdom|]. intros n stat Hn.
  rewrite V2_recordsOf_snoc. rewrite decide_False by (intros [? _]; done).
  rewrite app_nil_r. by apply Hc.
Qed.

Lemma V2_touch_counts T names t recs info :
  V2.type info = T -> V2.phase info ∈ names ->
  V2_tableCounts T names t recs ->
  exists t', V2.touch (V2.className info) (V2.phase info) t = Normal t' /\
             V2_tableCounts T names t' (recs ++ [info]).
Proof.
  intros HT Hin [Hdom Hc]. unfold V2.touch.
  destruct (proj2 (Hdom _) Hin) as [stat Hs]. rewrite Hs.
  eexists. split; [reflexivity|]. split.
  - intros n. destruct (decide (n = V2.phase info)) as [->|Hne].
    + rewrite lookup_insert_eq. split; [done|]. by eexists.
    + by rewrite lookup_insert_ne.
  - intros n stat'. rewrite V2_recordsOf_snoc.
    destruct (decide (n = V2.phase info)) as [->|Hne].
    + rewrite lookup_insert_eq. intros [= <-].
      rewrite decide_True by done.
      destruct (Hc _ _ Hs) as (H1 & H2 & H3 & H4). simpl.
      split; [done|]. split; [rewrite length_app; simpl; lia|].
      split; [symmetry; apply bool_decide_eq_true; by destruct (V2_recordsOf _ _ _)|].
      rewrite map_app. cbn [map]. by rewrite <- H4.
    + rewrite lookup_insert_ne by done. intros Hn.
      rewrite decide_False by (intros [_ ?]; done). rewrite app_nil_r. by apply Hc.
Qed.

Lemma V2_identifyMethod_counts A C f c a b st m st' :
  V2_counted A C st ->
  V2.identifyMethod A C f c a b st m = Normal st' ->
  V2_counted A C st'.
Proof.
  intros (HA & HC & Hty). unfold V2.identifyMethod.
  destruct (a && Text.arrayIncludes A (ArkMethod.getName m)) eqn:Ea.
  - apply andb_true_iff in Ea as [_ Ea]. apply arrayIncludes_elem_of in Ea.
    set (i1 := {| V2.method := m; V2.type := V2.ABILITY; V2.phase := ArkMethod.getName m;
                  V2.className := c; V2.filePath := f;
                  V2.lineNumber := ArkMethod.getLineCol m |}).
    destruct (V2_touch_counts V2.ABILITY A _ _ i1 eq_refl Ea HA) as (ta & Hta & HA').
    simpl in Hta. rewrite Hta. simpl.
    assert (V2_tableCounts V2.COMPONENT C (V2.componentLifecycleStats st)
              (V2.lifecycleMethods st ++ [i1])) as HC'
      by (by apply V2_tableCounts_other).
    assert (V2_typed A C (V2.lifecycleMethods st ++ [i1])) as Hty'
      by (apply Forall_app; split; [done|]; apply Forall_singleton; by left).
    destruct (b && Text.arrayIncludes C (ArkMethod.getName m)) eqn:Eb.
    + apply andb_true_iff in Eb as [_ Eb]. apply arrayIncludes_elem_of in Eb.
      set (i2 := {| V2.method := m; V2.type := V2.COMPONENT;
                    V2.phase := ArkMethod.getName m;
                    V2.className := c; V2.filePath := f;
                    V2.lineNumber := ArkMethod.getLineCol m |}).
      destruct (V2_touch_counts V2.COMPONENT C _ _ i2 eq_refl Eb HC') as (tc & Htc & HC'').
      simpl in Htc. rewrite Htc. simpl. intros [= <-].
      split; [|split]; simpl.
      * by apply V2_tableCounts_other.
      * exact HC''.
      * apply Forall_app. split; [done|]. apply Forall_singleton. by right.
    + intros [= <-]. by split; [|split].
  - simpl. destruct (b && Text.arrayIncludes C (ArkMethod.getName m)) eqn:Eb.
    + apply andb_true_iff in Eb as [_ Eb]. apply arrayIncludes_elem_of in Eb.
      set (i2 := {| V2.method := m; V2.type := V2.COMPONENT;
                    V2.phase := ArkMethod.getName m;
                    V2.className := c; V2.filePath := f;
                    V2.lineNumber := ArkMethod.getLineCol m |}).
      destruct (V2_touch_counts V2.COMPONENT C _ _ i2 eq_refl Eb HC) as (tc & Htc & HC'').
      simpl in Htc. rewrite Htc. simpl. intros [= <-].
      split; [|split]; simpl.
      * by apply V2_tableCounts_other.
      * exact HC''.
      * apply Forall_app. split; [done|]. apply Forall_singleton. by right.
    + intros [= <-]. by split; [|split].
Qed.

Lemma V2_identifyFile_counts A C scene fuel acc file acc' :
  V2_counted A C (fst acc) ->
  V2.identifyFile A C scene fuel acc file = Normal acc' ->
  V2_counted A C (fst acc').
Proof.
  intros Hst. unfold V2.identifyFile. destruct (_ || _); [by intros [= <-]|].
  intros Hrun.
  apply (forEach_preserves _ (fun acc => V2_counted A C (fst acc))
           (fun _ _ => True)) in Hrun;
    [by destruct Hrun|done|done| |exact Hst].
  intros [s loc] cls s' Hs Hcls. split; [|done]. simpl in Hs.
  unfold V2.identifyClass in Hcls.
  destruct (_ || _); [by injection Hcls as <-|].
  destruct (V2.isAbilityClass scene fuel cls) as [a| |]; simpl in Hcls; try discriminate.
  destruct (forEach (V2.identifyMethod _ _ _ _ _ _) _ _) as [s1| |] eqn:Hms;
    simpl in Hcls; try discriminate.
  injection Hcls as <-. simpl.
  apply (forEach_preserves _ (V2_counted A C) (fun _ _ => True)) in Hms;
    [by destruct Hms|done|done| |exact Hs].
  intros s0 m s0' Hs0 Hm. split; [|done]. by eapply V2_identifyMethod_counts.
Qed.

Lemma V2_identify_counted A C scene fuel st :
  V2.identifyLifecycleMethods A C scene fuel (V2.init A C) = Normal st ->
  V2_counted A C st.
Proof.
  unfold V2.identifyLifecycleMethods.
  destruct (forEach _ _ _) as [acc| |] eqn:Hrun; simpl; try discriminate.
  intros [= <-].
  apply (forEach_preserves _ (fun acc => V2_counted A C (fst acc))
           (fun _ _ => True)) in Hrun; [by destruct Hrun|done|done| |].
  - intros s x s' Hs Hx. split; [|done]. by eapply V2_identifyFile_counts.
  - split; [apply V2_initTable_counts|]. split; [apply V2_initTable_counts|]. constructor.
Qed.

(** X14: after the scan, every entry of a coverage table tells the lifecycle
    records of its partition and name: the usage count is their number, the
    entry is marked used exactly when there is one, version 2 lists the class
    of every record and version 3 lists the classes and the files once each,
    in the order of their first record.  A table has an entry for the names
    of its catalog and for no other name, and every record has the type
    Ability or Component and a name of the matching catalog. *)
Theorem coverage_entries_count_the_records
    (abilityNames componentNames : list string) (scene : Scene.t) (fuel : nat) :
  (forall st,
     V2.identifyLifecycleMethods abilityNames componentNames scene fuel
       (V2.init abilityNames componentNames) = Normal st ->
     V2_counted abilityNames componentNames st) /\
  (forall callbackNames st,
     V3.identifyLifecycleMethods abilityNames componentNames scene fuel
       (V3.init abilityNames componentNames callbackNames) = Normal st ->
     V3_counted abilityNames componentNames st) /\
  (forall callbackNames ext st,
     V3.analyze abilityNames componentNames callbackNames ext scene fuel = Normal st ->
     V3_counted abilityNames componentNames st).
Proof.
  split; [intros st; apply V2_identify_counted|].
  split; [intros CB st; apply V3_identify_counted|].
  intros CB ext st. apply V3_analyze_counted.
Qed.

Lemma coverage_entries_count_the_records_witness :
  V2.identifyLifecycleMethods V1.ABILITY_LIFECYCLE V1.COMPONENT_LIFECYCLE
    Inputs.dialogScene 1 (V2.init V1.ABILITY_LIFECYCLE V1.COMPONENT_LIFECYCLE)
    = Normal Samples.dialogScannedV2 /\
  V2_counted V1.ABILITY_LIFECYCLE V1.COMPONENT_LIFECYCLE Samples.dialogScannedV2 /\
  V3.analyze V1.ABILITY_LIFECYCLE V1.COMPONENT_LIFECYCLE Inputs.callbackNames
    Inputs.quiet Inputs.dialogScene 1 = Normal Inputs.dialogAnalyzed /\
  V3_counted V1.ABILITY_LIFECYCLE V1.COMPONENT_LIFECYCLE Inputs.dialogAnalyzed.
Proof.
  assert (V2.identifyLifecycleMethods V1.ABILITY_LIFECYCLE V1.COMPONENT_LIFECYCLE
            Inputs.dialogScene 1 (V2.init V1.ABILITY_LIFECYCLE V1.COMPONENT_LIFECYCLE)
          = Normal Samples.dialogScannedV2) as Hrun2 by (vm_compute; reflexivity).
  assert (V3.analyze V1.ABILITY_LIFECYCLE V1.COMPONENT_LIFECYCLE Inputs.callbackNames
            Inputs.quiet Inputs.dialogScene 1 = Normal Inputs.dialogAnalyzed)
    as Hrun3 by (vm_compute; reflexivity).
  split; [exact Hrun2|]. split.
  { exact (proj1 (coverage_entries_count_the_records
                    V1.ABILITY_LIFECYCLE V1.COMPONENT_LIFECYCLE Inputs.dialogScene 1)
             _ Hrun2). }
  split; [exact Hrun3|].
  exact (proj2 (proj2 (coverage_entries_count_the_records
                         V1.ABILITY_LIFECYCLE V1.COMPONENT_LIFECYCLE Inputs.dialogScene 1))
           _ _ _ Hrun3).
Defined.

(** ** The figures of the coverage reports *)

Lemma fold_left_sum {A} (f : A -> nat) (l : list A) (n : nat) :
  fold_left (fun sum s => sum + f s) l n = n + sum_list (map f l).
Proof.
  revert n. induction l as [|x l IH]; intros n; simpl; [lia|]. rewrite IH. lia.
Qed.

Lemma table_size {V} (names : list string) (t : gmap string V) :
  (forall n, is_Some (t !! n) <-> n ∈ names) ->
  size t = length (Js.setOf names).
Proof.
  intros Hdom.
  assert (dom t = list_to_set (C := gset string) (Js.setOf names)) as Hd.
  { apply set_eq. intros n.
    rewrite elem_of_dom, elem_of_list_to_set, setOf_elem_of. apply Hdom. }
  rewrite <- size_dom, Hd. apply size_list_to_set, setOf_NoDup.
Qed.

Lemma omap_length_le {A B} (f : A -> option B) (l : list A) :
  length (omap f l) <= length l.
Proof.
  induction l as [|x l IH]; [done|]. cbn [omap list_omap].
  destruct (f x); simpl; lia.
Qed.

Lemma omap_lookup_total {V W} (names : list string) (t : gmap string V) (g : V -> W)
    (h : string -> W) :
  (forall n s, n ∈ names -> t !! n = Some s -> g s = h n) ->
  (forall n, n ∈ names -> is_Some (t !! n)) ->
  map g (omap (fun n => t !! n) names) = map h names.
Proof.
  intros Hg Hs. induction names as [|n names IH]; [done|].
  cbn [omap list_omap]. destruct (Hs n ltac:(left)) as [s Hn]. rewrite Hn.
  cbn [map]. rewrite (Hg n s) by (done || left).
  f_equal. apply IH; intros; [eapply Hg|apply Hs]; try done; by right.
Qed.

Lemma V3_recordsOf_withKey T n recs :
  V3_recordsOf T n recs = withKey V3.phase n (filter (fun r => V3.type r = T) recs).
Proof.
  unfold V3_recordsOf, withKey. rewrite list_filter_filter.
  apply list_filter_iff. intros r. tauto.
Qed.

Lemma V2_recordsOf_withKey T n recs :
  V2_recordsOf T n recs = withKey V2.phase n (filter (fun r => V2.type r = T) recs).
Proof.
  unfold V2_recordsOf, withKey. rewrite list_filter_filter.
  apply list_filter_iff. intros r. tauto.
Qed.

Lemma V3_typed_split A C recs :
  V3_typed A C recs ->
  length (filter (fun r => V3.type r = V3.ABILITY) recs) +
  length (filter (fun r => V3.type r = V3.COMPONENT) recs) = length recs /\
  (forall r, r ∈ filter (fun r => V3.type r = V3.ABILITY) recs -> V3.phase r ∈ A) /\
  (forall r, r ∈ filter (fun r => V3.type r = V3.COMPONENT) recs -> V3.phase r ∈ C).
Proof.
  intros Hty. split; [|split].
  - induction Hty as [|r recs [[Hr _]|[Hr _]] _ IH]; [done| |].
    + rewrite filter_cons_True by done.
      rewrite (filter_cons_False (fun r => V3.type r = V3.COMPONENT)) by congruence.
      simpl. lia.
    + rewrite filter_cons_False by congruence.
      rewrite (filter_cons_True (fun r => V3.type r = V3.COMPONENT)) by done.
      simpl. lia.
  - intros r [Hr Hin]%list_elem_of_filter. unfold V3_typed in Hty.
    rewrite Forall_forall in Hty. destruct (Hty r Hin) as [[_ ?]|[? _]]; [done|congruence].
  - intros r [Hr Hin]%list_elem_of_filter. unfold V3_typed in Hty.
    rewrite Forall_forall in Hty. destruct (Hty r Hin) as [[? _]|[_ ?]]; [congruence|done].
Qed.

Lemma V2_typed_split A C recs :
  V2_typed A C recs ->
  length (filter (fun r => V2.type r = V2.ABILITY) recs) +
  length (filter (fun r => V2.type r = V2.COMPONENT) recs) = length recs /\
  (forall r, r ∈ filter (fun r => V2.type r = V2.ABILITY) recs -> V2.phase r ∈ A) /\
  (forall r, r ∈ filter (fun r => V2.type r = V2.COMPONENT) recs -> V2.phase r ∈ C).
Proof.
  intros Hty. split; [|split].
  - induction Hty as [|r recs [[Hr _]|[Hr _]] _ IH]; [done| |].
    + rewrite filter_cons_True by done.
      rewrite (filter_cons_False (fun r => V2.type r = V2.COMPONENT)) by congruence.
      simpl. lia.
    + rewrite filter_cons_False by congruence.
      rewrite (filter_cons_True (fun r => V2.type r = V2.COMPONENT)) by done.
      simpl. lia.
  - intros r [Hr Hin]%list_elem_of_filter. unfold V2_typed in Hty.
    rewrite Forall_forall in Hty. destruct (Hty r Hin) as [[_ ?]|[? _]]; [done|congruence].
  - intros r [Hr Hin]%list_elem_of_filter. unfold V2_typed in Hty.
    rewrite Forall_forall in Hty. destruct (Hty r Hin) as [[? _]|[_ ?]]; [congruence|done].
Qed.

(** The usage counts of a table add up to the number of records of its
    partition. *)
Lemma V3_values_sum T names t recs :
  V3_tableCounts T names t recs ->
  (forall r, r ∈ filter (fun r => V3.type r = T) recs -> V3.phase r ∈ names) ->
  sum_list (map V3.usageCount (V3Report.values names t)) =
  length (filter (fun r => V3.type r = T) recs).
Proof.
  intros [Hdom Hc] Hin. unfold V3Report.values.
  rewrite (omap_lookup_total _ _ _ (fun n => length (V3_recordsOf T n recs))).
  - erewrite map_ext; [|intros n; by rewrite V3_recordsOf_withKey].
    apply withKey_partition; [apply setOf_NoDup|].
    intros r Hr. apply setOf_elem_of. by apply Hin.
  - intros n s _ Hn. by destruct (Hc _ _ Hn) as (_ & -> & _).
  - intros n Hn. apply Hdom. by apply setOf_elem_of.
Qed.

Lemma V2_values_sum T names t recs :
  V2_tableCounts T names t recs ->
  (forall r, r ∈ filter (fun r => V2.type r = T) recs -> V2.phase r ∈ names) ->
  sum_list (map V2.usageCount (V2Report.values names t)) =
  length (filter (fun r => V2.type r = T) recs).
Proof.
  intros [Hdom Hc] Hin. unfold V2Report.values.
  rewrite (omap_lookup_total _ _ _ (fun n => length (V2_recordsOf T n recs))).
  - erewrite map_ext; [|intros n; by rewrite V2_recordsOf_withKey].
    apply withKey_partition; [apply setOf_NoDup|].
    intros r Hr. apply setOf_elem_of. by apply Hin.
  - intros n s _ Hn. by destruct (Hc _ _ Hn) as (_ & -> & _).
  - intros n Hn. apply Hdom. by apply setOf_elem_of.
Qed.

Lemma values_elem_of_V3 names (t : gmap string V3.CoverageStats) s :
  s ∈ V3Report.values names t -> exists n, n ∈ names /\ t !! n = Some s.
Proof.
  unfold V3Report.values. intros (n & Hn & Hs)%list_elem_of_omap.
  exists n. split; [by apply setOf_elem_of|done].
Qed.

Lemma values_elem_of_V2 names (t : gmap string V2.CoverageStats) s :
  s ∈ V2Report.values names t -> exists n, n ∈ names /\ t !! n = Some s.
Proof.
  unfold V2Report.values. intros (n & Hn & Hs)%list_elem_of_omap.
  exists n. split; [by apply setOf_elem_of|done].
Qed.

(** Leaving out the entries with a count of 0 does not change a sum. *)
Lemma sum_filter_positive {A} (f : A -> nat) (P : A -> Prop) `{forall x, Decision (P x)}
    (l : list A) :
  (forall x, x ∈ l -> ~ P x -> f x = 0) ->
  sum_list (map f (filter P l)) = sum_list (map f l).
Proof.
  induction l as [|x l IH]; intros Hz; [done|].
  destruct (decide (P x)) as [Hp|Hp].
  - rewrite filter_cons_True by done. simpl. rewrite IH; [done|].
    intros y Hy. apply Hz. by right.
  - rewrite filter_cons_False by done. simpl. rewrite (Hz x) by (done || left).
    rewrite IH; [done|]. intros y Hy. apply Hz. by right.
Qed.

Lemma V3_coverage_usageCount T names t recs :
  V3_tableCounts T names t recs ->
  (forall r, r ∈ filter (fun r => V3.type r = T) recs -> V3.phase r ∈ names) ->
  V3Report.usageCount (V3Report.coverage names t) =
  length (filter (fun r => V3.type r = T) recs).
Proof.
  intros Hc Hin. unfold V3Report.coverage. cbn [V3Report.usageCount].
  rewrite fold_left_sum. simpl. rewrite sum_filter_positive.
  - by apply (V3_values_sum T).
  - intros s Hs Hu. apply values_elem_of_V3 in Hs as (n & _ & Hn).
    destruct Hc as [_ Hc]. destruct (Hc _ _ Hn) as (_ & H2 & H3 & _).
    rewrite H3 in Hu. rewrite H2.
    destruct (V3_recordsOf T n recs); [done|]. by rewrite bool_decide_eq_true_2 in Hu.
Qed.

(** X15: the figures of the coverage report of version 3.  The usage counts
    of the two tables add up to the number of lifecycle records, which is the
    statistic that the report prints next to them; the number of defined
    methods of a table is the number of distinct names of its catalog; the
    used methods are listed by decreasing usage count, each with a count of at
    least one; the number of distinct classes of an entry is the length of
    its class list and never more than its usage count. *)
Theorem coverage_report_adds_up
    (abilityNames componentNames callbackNames : list string)
    (ext : External.t) (scene : Scene.t) (fuel : nat) (st : V3.State) :
  V3.analyze abilityNames componentNames callbackNames ext scene fuel = Normal st ->
  let ability := V3Report.coverage abilityNames (V3.abilityLifecycleStats st) in
  let component := V3Report.coverage componentNames (V3.componentLifecycleStats st) in
  V3Report.usageCount ability + V3Report.usageCount component
    = length (V3.lifecycleMethods st) /\
  V3Report.usageCount ability + V3Report.usageCount component
    = V3.statLifecycleMethods (V3.stats st) /\
  V3Report.total ability = length (Js.setOf abilityNames) /\
  V3Report.total component = length (Js.setOf componentNames) /\
  length (V3Report.used ability) <= V3Report.total ability /\
  length (V3Report.used component) <= V3Report.total component /\
  StronglySorted (fun a b => V3.usageCount b <= V3.usageCount a) (V3Report.used ability) /\
  StronglySorted (fun a b => V3.usageCount b <= V3.usageCount a)
                 (V3Report.used component) /\
  Forall (fun s => 0 < V3.usageCount s /\
                   V3Report.uniqueComponents s = length (V3.classes s) /\
                   V3Report.uniqueComponents s <= V3.usageCount s)
         (V3Report.used ability ++ V3Report.used component).
Proof.
  intros Hrun. cbv zeta.
  pose proof (V3_analyze_counted _ _ _ _ _ _ _ Hrun) as (HA & HC & Hty).
  destruct (V3_typed_split _ _ _ Hty) as (Hlen & HinA & HinC).
  destruct (V3_analyze_spec _ _ _ _ _ _ _ Hrun)
    as (_ & _ & _ & _ & _ & _ & _ & Hstat & _).
  rewrite (V3_coverage_usageCount V3.ABILITY _ _ _ HA HinA).
  rewrite (V3_coverage_usageCount V3.COMPONENT _ _ _ HC HinC).
  assert (forall T names t,
            V3_tableCounts T names t (V3.lifecycleMethods st) ->
            V3Report.total (V3Report.coverage names t) = length (Js.setOf names) /\
            length (V3Report.used (V3Report.coverage names t))
              <= V3Report.total (V3Report.coverage names t) /\
            StronglySorted (fun a b => V3.usageCount b <= V3.usageCount a)
                           (V3Report.used (V3Report.coverage names t)) /\
            Forall (fun s => 0 < V3.usageCount s /\
                             V3Report.uniqueComponents s = length (V3.classes s) /\
                             V3Report.uniqueComponents s <= V3.usageCount s)
                   (V3Report.used (V3Report.coverage names t))) as Hside.
  { intros T names t [Hdom Hc]. unfold V3Report.coverage.
    cbn [V3Report.total V3Report.used].
    rewrite (table_size names t Hdom).
    split; [done|]. split; [|split].
    - rewrite sort_length. etrans; [apply length_filter|].
      unfold V3Report.values. apply omap_length_le.
    - apply (sort_desc V3.usageCount).
    - apply Forall_forall. intros s Hs.
      rewrite sort_Permutation in Hs. apply list_elem_of_filter in Hs as [Hu Hs].
      apply values_elem_of_V3 in Hs as (n & _ & Hn).
      destruct (Hc _ _ Hn) as (_ & H2 & H3 & H4 & _).
      rewrite H3 in Hu. apply bool_decide_eq_true in Hu.
      unfold V3Report.uniqueComponents. rewrite H2, H4.
      split; [destruct (V3_recordsOf T n _); [done|simpl; lia]|].
      rewrite (setOf_NoDup_id (Js.setOf _)) by apply setOf_NoDup.
      split; [done|]. etrans; [apply setOf_length|]. by rewrite length_map. }
  destruct (Hside _ _ _ HA) as (TA & UA & SA & FA).
  destruct (Hside _ _ _ HC) as (TC & UC & SC & FC).
  split; [done|]. split; [by rewrite Hstat|].
  repeat (split; [assumption|]). by apply Forall_app.
Qed.

Lemma coverage_report_adds_up_witness :
  V3.analyze V1.ABILITY_LIFECYCLE V1.COMPONENT_LIFECYCLE Inputs.callbackNames
    Inputs.quiet Inputs.dialogScene 1 = Normal Inputs.dialogAnalyzed /\
  V3Report.usageCount
      (V3Report.coverage V1.ABILITY_LIFECYCLE
         (V3.abilityLifecycleStats Inputs.dialogAnalyzed))
    + V3Report.usageCount
        (V3Report.coverage V1.COMPONENT_LIFECYCLE
           (V3.componentLifecycleStats Inputs.dialogAnalyzed))
    = 3.
Proof.
  assert (V3.analyze V1.ABILITY_LIFECYCLE V1.COMPONENT_LIFECYCLE Inputs.callbackNames
            Inputs.quiet Inputs.dialogScene 1 = Normal Inputs.dialogAnalyzed)
    as Hrun by (vm_compute; reflexivity).
  split; [exact Hrun|].
  rewrite (proj1 (coverage_report_adds_up _ _ _ _ _ _ _ Hrun)). reflexivity.
Defined.

Lemma V3_notUsed_iff T names t recs n :
  V3_tableCounts T names t recs ->
  (forall r, r ∈ recs -> V3.type r = T -> V3.phase r ∈ names) ->
  V3Report.notUsed (t !! n) = true <-> length (V3_recordsOf T n recs) = 0.
Proof.
  intros [Hdom Hc] Hin. unfold V3Report.notUsed.
  destruct (t !! n) as [s|] eqn:E.
  - destruct (Hc _ _ E) as (_ & _ & H3 & _). rewrite H3.
    destruct (V3_recordsOf T n recs) as [|r l].
    + by rewrite bool_decide_eq_false_2 by (intros H; by apply H).
    + by rewrite bool_decide_eq_true_2.
  - split; [|done]. intros _.
    destruct (V3_recordsOf T n recs) as [|r l] eqn:Er; [done|].
    assert (r ∈ V3_recordsOf T n recs) as Hr by (rewrite Er; left).
    apply list_elem_of_filter in Hr as [[HT Hn] Hr].
    assert (is_Some (t !! n)) as [? ?]; [|congruence].
    apply Hdom. rewrite <- Hn. by apply Hin.
Qed.

Lemma V2_presentAndUnused_iff T names t recs n :
  V2_tableCounts T names t recs ->
  V2Report.presentAndUnused (t !! n) = true <->
  n ∈ names /\ length (V2_recordsOf T n recs) = 0.
Proof.
  intros [Hdom Hc]. unfold V2Report.presentAndUnused.
  destruct (t !! n) as [s|] eqn:E.
  - destruct (Hc _ _ E) as (_ & _ & H3 & _). rewrite H3.
    assert (n ∈ names) as Hn by (apply Hdom; by eexists).
    destruct (V2_recordsOf T n recs) as [|r l].
    + by rewrite bool_decide_eq_false_2 by (intros H; by apply H).
    + rewrite bool_decide_eq_true_2 by done. simpl. split; [done|]. by intros [_ ?].
  - split; [done|]. intros [Hn _]. apply Hdom in Hn as [? ?]. congruence.
Qed.

Lemma V3_typed_elem A C recs r :
  V3_typed A C recs -> r ∈ recs ->
  (V3.type r = V3.ABILITY -> V3.phase r ∈ A) /\
  (V3.type r = V3.COMPONENT -> V3.phase r ∈ C).
Proof.
  intros Hty Hr. unfold V3_typed in Hty. rewrite Forall_forall in Hty.
  destruct (Hty r Hr) as [[H1 H2]|[H1 H2]]; split; intros; congruence.
Qed.

Lemma V3_unused_spec T names t recs :
  V3_tableCounts T names t recs ->
  V3Report.unused names t =
  filter (fun n => length (V3_recordsOf T n recs) = 0) (Js.setOf names).
Proof.
  intros [Hdom Hc]. unfold V3Report.unused, V3Report.values.
  assert (forall n, n ∈ Js.setOf names -> is_Some (t !! n)) as Hs
    by (intros n Hn; apply Hdom; by apply setOf_elem_of).
  induction (Js.setOf names) as [|n l IH]; [done|].
  cbn [omap list_omap]. destruct (Hs n ltac:(left)) as [s Hn]. rewrite Hn.
  destruct (Hc _ _ Hn) as (H1 & _ & H3 & _).
  destruct (V3_recordsOf T n recs) as [|r rs] eqn:Er.
  - rewrite bool_decide_eq_false_2 in H3 by (intros H; by apply H).
    rewrite filter_cons_True by done.
    rewrite (filter_cons_True (fun n => length (V3_recordsOf T n recs) = 0))
      by by rewrite Er.
    cbn [map]. rewrite H1. f_equal. apply IH. intros; apply Hs; by right.
  - rewrite bool_decide_eq_true_2 in H3 by done.
    rewrite filter_cons_False by congruence.
    rewrite (filter_cons_False (fun n => length (V3_recordsOf T n recs) = 0))
      by by rewrite Er.
    apply IH. intros; apply Hs; by right.
Qed.

(** X16: what the report of version 3 holds to be unused.  An item of the
    list of recommendations is printed exactly when no lifecycle record of
    its partition bears its name, also when the catalog of the partition does
    not know the name; the unused names of a table are the names of its
    catalog, in catalog order and once each, without such a record. *)
Theorem unused_means_no_record
    (abilityNames componentNames callbackNames : list string)
    (ext : External.t) (scene : Scene.t) (fuel : nat) (st : V3.State) :
  V3.analyze abilityNames componentNames callbackNames ext scene fuel = Normal st ->
  (forall item,
     item ∈ V3Report.printRecommendations st <->
     item ∈ V3Report.importantUnused /\
     length (V3_recordsOf (V3_partitionOf item) (V3Report.name item)
                          (V3.lifecycleMethods st)) = 0) /\
  V3Report.unused abilityNames (V3.abilityLifecycleStats st) =
    filter (fun n => length (V3_recordsOf V3.ABILITY n (V3.lifecycleMethods st)) = 0)
           (Js.setOf abilityNames) /\
  V3Report.unused componentNames (V3.componentLifecycleStats st) =
    filter (fun n => length (V3_recordsOf V3.COMPONENT n (V3.lifecycleMethods st)) = 0)
           (Js.setOf componentNames).
Proof.
  intros Hrun.
  pose proof (V3_analyze_counted _ _ _ _ _ _ _ Hrun) as (HA & HC & Hty).
  split; [|split].
  - intros item. unfold V3Report.printRecommendations.
    rewrite list_elem_of_filter, (and_comm _ (item ∈ _)).
    apply and_iff_compat_l. unfold V3Report.isUnused, V3_partitionOf.
    destruct (String.eqb (V3Report.type item) "Component").
    + apply (V3_notUsed_iff _ _ _ _ _ HC). intros r Hr HT.
      by apply (V3_typed_elem _ _ _ _ Hty Hr).
    + apply (V3_notUsed_iff _ _ _ _ _ HA). intros r Hr HT.
      by apply (V3_typed_elem _ _ _ _ Hty Hr).
  - by apply V3_unused_spec.
  - by apply V3_unused_spec.
Qed.

Lemma unused_means_no_record_witness :
  V3.analyze V1.ABILITY_LIFECYCLE V1.COMPONENT_LIFECYCLE Inputs.callbackNames
    Inputs.quiet Inputs.dialogScene 1 = Normal Inputs.dialogAnalyzed /\
  ("aboutToAppear"
     ∉ V3Report.unused V1.COMPONENT_LIFECYCLE
         (V3.componentLifecycleStats Inputs.dialogAnalyzed)) /\
  ("aboutToDisappear"
     ∈ V3Report.unused V1.COMPONENT_LIFECYCLE
         (V3.componentLifecycleStats Inputs.dialogAnalyzed)).
Proof.
  assert (V3.analyze V1.ABILITY_LIFECYCLE V1.COMPONENT_LIFECYCLE Inputs.callbackNames
            Inputs.quiet Inputs.dialogScene 1 = Normal Inputs.dialogAnalyzed)
    as Hrun by (vm_compute; reflexivity).
  split; [exact Hrun|].
  rewrite (proj2 (proj2 (unused_means_no_record _ _ _ _ _ _ _ Hrun))).
  split.
  - intros Hin. apply list_elem_of_filter in Hin as [Hin _]. vm_compute in Hin.
    discriminate.
  - apply list_elem_of_filter. split; [vm_compute; reflexivity|].
    apply setOf_elem_of. apply list_elem_of_In. vm_compute. tauto.
Defined.

Lemma V2_totalUsages_sum stats :
  V2Report.totalUsages stats = sum_list (map V2.usageCount stats).
Proof. unfold V2Report.totalUsages. by rewrite fold_left_sum. Qed.

(** X17: the summary of version 2.  The usage instances of the two tables
    add up to the number of lifecycle records that the summary prints last;
    the number of defined methods of a table is the number of distinct names
    of its catalog and bounds the number of used methods.  An item of the
    recommendations is printed exactly when one of the two catalogs knows its
    name and no record of that partition bears it; a name that neither
    catalog knows is never recommended. *)
Theorem summary_of_version_2_adds_up
    (abilityNames componentNames : list string) (scene : Scene.t) (fuel : nat)
    (st : V2.State) :
  V2.identifyLifecycleMethods abilityNames componentNames scene fuel
    (V2.init abilityNames componentNames) = Normal st ->
  let summary := V2Report.printSummary abilityNames componentNames st in
  V2Report.totalAbilityUsages summary + V2Report.totalComponentUsages summary
    = V2Report.totalInstances summary /\
  V2Report.totalAbilityDefined summary = length (Js.setOf abilityNames) /\
  V2Report.totalComponentDefined summary = length (Js.setOf componentNames) /\
  V2Report.totalAbilityUsed summary <= V2Report.totalAbilityDefined summary /\
  V2Report.totalComponentUsed summary <= V2Report.totalComponentDefined summary /\
  (forall item,
     item ∈ V2Report.printRecommendations st <->
     item ∈ V2Report.importantUnused /\
     ((V2Report.name item ∈ componentNames /\
       length (V2_recordsOf V2.COMPONENT (V2Report.name item) (V2.lifecycleMethods st)) = 0)
      \/
      (V2Report.name item ∈ abilityNames /\
       length (V2_recordsOf V2.ABILITY (V2Report.name item) (V2.lifecycleMethods st)) = 0))).
Proof.
  intros Hrun. cbv zeta.
  pose proof (V2_identify_counted _ _ _ _ _ Hrun) as (HA & HC & Hty).
  destruct (V2_typed_split _ _ _ Hty) as (Hlen & HinA & HinC).
  unfold V2Report.printSummary. simpl.
  rewrite !V2_totalUsages_sum.
  rewrite (V2_values_sum V2.ABILITY _ _ _ HA HinA).
  rewrite (V2_values_sum V2.COMPONENT _ _ _ HC HinC).
  rewrite (table_size _ _ (proj1 HA)), (table_size _ _ (proj1 HC)).
  split; [done|]. split; [done|]. split; [done|].
  split; [|split].
  - unfold V2Report.usedStats. etrans; [apply length_filter|]. apply omap_length_le.
  - unfold V2Report.usedStats. etrans; [apply length_filter|]. apply omap_length_le.
  - intros item. unfold V2Report.printRecommendations.
    rewrite list_elem_of_filter, (and_comm _ (item ∈ _)).
    apply and_iff_compat_l. rewrite orb_true_iff.
    rewrite (V2_presentAndUnused_iff _ _ _ _ _ HC).
    by rewrite (V2_presentAndUnused_iff _ _ _ _ _ HA).
Qed.

Lemma summary_of_version_2_adds_up_witness :
  V2.identifyLifecycleMethods V1.ABILITY_LIFECYCLE V1.COMPONENT_LIFECYCLE
    Inputs.dialogScene 1 (V2.init V1.ABILITY_LIFECYCLE V1.COMPONENT_LIFECYCLE)
    = Normal Samples.dialogScannedV2 /\
  let summary :=
    V2Report.printSummary V1.ABILITY_LIFECYCLE V1.COMPONENT_LIFECYCLE
      Samples.dialogScannedV2 in
  V2Report.totalAbilityUsages summary + V2Report.totalComponentUsages summary = 3 /\
  V2Report.totalInstances summary = 3.
Proof.
  assert (V2.identifyLifecycleMethods V1.ABILITY_LIFECYCLE V1.COMPONENT_LIFECYCLE
            Inputs.dialogScene 1 (V2.init V1.ABILITY_LIFECYCLE V1.COMPONENT_LIFECYCLE)
          = Normal Samples.dialogScannedV2) as Hrun by (vm_compute; reflexivity).
  split; [exact Hrun|]. intros summary. subst summary.
  rewrite (proj1 (summary_of_version_2_adds_up _ _ _ _ _ Hrun)).
  split; reflexivity.
Defined.

(** ** Export and print of the data flows *)

Lemma StronglySorted_fmap {A B} (f : A -> B) (R : B -> B -> Prop) (l : list A) :
  StronglySorted (fun a b => R (f a) (f b)) l -> StronglySorted R (map f l).
Proof.
  induction 1 as [|x l Hl IH Hx]; simpl; constructor; [done|].
  by apply Forall_fmap.
Qed.

Lemma StronglySorted_take {A} (R : A -> A -> Prop) (l : list A) n :
  StronglySorted R l -> StronglySorted R (take n l).
Proof.
  intros Hs. revert n. induction Hs as [|x l Hl IH Hx]; intros [|n]; simpl;
    try constructor; [apply IH|]. by apply Forall_take.
Qed.

(** X18: what the JSON export of the data flows holds.  Nothing is exported
    when there is no data flow.  Otherwise every source method appears once;
    its entry lists the flows that leave it, in their order, and counts them;
    the entries are sorted by decreasing count; the counts add up to the
    total, which is the number of data flows. *)
Theorem json_export_groups_the_flows (now : string) (st : V3.State) :
  (V3.dataFlows st = [] -> V3Export.exportDataFlowToJson now st = None) /\
  (forall data,
     V3Export.exportDataFlowToJson now st = Some data ->
     V3Export.totalFlows data = length (V3.dataFlows st) /\
     V3Export.allFlows data = V3.dataFlows st /\
     V3Export.lifecycleMethods data = length (V3.lifecycleMethods st) /\
     V3Export.timestamp data = now /\
     map V3Export.method (V3Export.dataFlowsByMethod data)
       ≡ₚ Js.setOf (map V3.from (V3.dataFlows st)) /\
     Forall (fun e =>
               V3Export.flows e =
                 map V3_exportedFlow (withKey V3.from (V3Export.method e) (V3.dataFlows st)) /\
               V3Export.flowCount e = length (V3Export.flows e) /\
               0 < V3Export.flowCount e)
            (V3Export.dataFlowsByMethod data) /\
     StronglySorted (fun a b => V3Export.flowCount b <= V3Export.flowCount a)
                    (V3Export.dataFlowsByMethod data) /\
     sum_list (map V3Export.flowCount (V3Export.dataFlowsByMethod data))
       = V3Export.totalFlows data).
Proof.
  unfold V3Export.exportDataFlowToJson. split; [by intros ->|].
  intros data. destruct (length (V3.dataFlows st) =? 0); [done|]. intros [= <-].
  cbn [V3Export.totalFlows V3Export.allFlows V3Export.lifecycleMethods
       V3Export.timestamp V3Export.dataFlowsByMethod].
  split; [done|]. split; [done|]. split; [done|]. split; [done|].
  set (entry := fun '(method, flows) =>
                  {| V3Export.method := method;
                     V3Export.flowCount := length (flows : list V3.DataFlowInfo);
                     V3Export.flows := map (fun f => {| V3Export.to := V3.to f;
                                                        V3Export.variable := V3.variable f;
                                                        V3Export.line := V3.line f;
                                                        V3Export.callChain := V3.callChain f |})
                                           flows |}).
  set (entries := map entry (Js.groupBy V3.from (V3.dataFlows st))).
  assert (map V3Export.method entries = map fst (Js.groupBy V3.from (V3.dataFlows st)))
    as Hm.
  { unfold entries. rewrite map_map. apply map_ext. by intros [? ?]. }
  assert (map V3Export.flowCount entries =
          map (fun g => length (snd g)) (Js.groupBy V3.from (V3.dataFlows st))) as Hc.
  { unfold entries. rewrite map_map. apply map_ext. by intros [? ?]. }
  split; [|split; [|split]].
  - rewrite sort_Permutation, Hm. by rewrite groupBy_keys.
  - apply Forall_forall. intros e He. rewrite sort_Permutation in He.
    unfold entries in He. apply list_elem_of_fmap in He as ([k g] & -> & Hg).
    apply groupBy_elem_of in Hg as [Hk ->]. simpl.
    split; [done|]. split; [by rewrite length_map|].
    pose proof (withKey_nonempty V3.from k (V3.dataFlows st) Hk) as Hne.
    destruct (withKey V3.from k (V3.dataFlows st)); [done|simpl; lia].
  - apply (sort_desc V3Export.flowCount).
  - rewrite sort_Permutation, Hc. apply groupBy_lengths.
Qed.

Lemma json_export_groups_the_flows_witness :
  exists data,
    V3Export.exportDataFlowToJson "2025-01-01T00:00:00.000Z" Inputs.dialogAnalyzed
      = Some data /\
    V3Export.totalFlows data = 1 /\
    sum_list (map V3Export.flowCount (V3Export.dataFlowsByMethod data)) = 1.
Proof.
  destruct (V3Export.exportDataFlowToJson "2025-01-01T00:00:00.000Z" Inputs.dialogAnalyzed)
    as [data|] eqn:E; [|vm_compute in E; discriminate].
  exists data. split; [reflexivity|].
  destruct (proj2 (json_export_groups_the_flows _ _) data E)
    as (Ht & _ & _ & _ & _ & _ & _ & Hs).
  rewrite Hs, Ht. split; reflexivity.
Defined.

(** X19: what [printDetailedDataFlow] prints.  Nothing when there is no data
    flow.  Otherwise at most [limit] source methods, each once, by decreasing
    number of flows, so that no source left out has more flows than one that
    is shown; under each source its first ten flows, in their order, the
    number of all its flows, and the number of hidden flows exactly when
    there are more than ten. *)
Theorem detailed_data_flow_shows_the_top (limit : nat) (st : V3.State) :
  (V3.dataFlows st = [] -> V3Export.printDetailedDataFlow limit st = None) /\
  (forall sections,
     V3Export.printDetailedDataFlow limit st = Some sections ->
     length sections = limit `min` length (Js.setOf (map V3.from (V3.dataFlows st))) /\
     NoDup (map V3Export.sectionMethod sections) /\
     StronglySorted (fun a b => V3Export.sectionFlowCount b <= V3Export.sectionFlowCount a)
                    sections /\
     Forall (fun s =>
               let flows := withKey V3.from (V3Export.sectionMethod s) (V3.dataFlows st) in
               V3Export.sectionMethod s ∈ map V3.from (V3.dataFlows st) /\
               V3Export.sectionFlowCount s = length flows /\
               V3Export.displayFlows s = take 10 flows /\
               V3Export.hiddenFlows s =
                 (if decide (10 < length flows)
                  then Some (Z.of_nat (length flows) - 10)%Z else None))
            sections /\
     (forall s m,
        s ∈ sections -> m ∈ map V3.from (V3.dataFlows st) ->
        m ∉ map V3Export.sectionMethod sections ->
        length (withKey V3.from m (V3.dataFlows st)) <= V3Export.sectionFlowCount s)).
Proof.
  unfold V3Export.printDetailedDataFlow. split; [by intros ->|].
  intros sections. destruct (length (V3.dataFlows st) =? 0); [done|]. intros [= <-].
  set (groups := Js.groupBy V3.from (V3.dataFlows st)).
  set (count := fun g : string * list V3.DataFlowInfo => length (snd g)).
  set (sorted := Js.sort _ groups).
  assert (sorted ≡ₚ groups) as Hperm by apply sort_Permutation.
  assert (StronglySorted (fun a b => count b <= count a) sorted) as Hsorted
    by apply (sort_desc count).
  assert (NoDup (map fst sorted)) as Hnd.
  { rewrite Hperm. unfold groups. rewrite groupBy_keys. apply setOf_NoDup. }
  set (mk := fun '(method, flows) =>
               {| V3Export.sectionMethod := method;
                  V3Export.sectionFlowCount := length (flows : list V3.DataFlowInfo);
                  V3Export.displayFlows := Js.slice0 10 flows;
                  V3Export.hiddenFlows :=
                    if 10 <? length flows
                    then Some (Z.of_nat (length flows) - 10)%Z else None |}).
  assert (forall l, map V3Export.sectionMethod (map mk l) = map fst l) as Hfst.
  { intros l. rewrite map_map. apply map_ext. by intros [? ?]. }
  unfold Js.slice0 at 1.
  split; [|split; [|split; [|split]]].
  - rewrite length_map, length_take. f_equal.
    rewrite Hperm. unfold groups.
    by rewrite <- (length_map fst), groupBy_keys.
  - rewrite Hfst. rewrite <- firstn_map.
    eapply sublist_NoDup; [exact Hnd|]. apply sublist_take.
  - apply (StronglySorted_fmap mk (fun a b => V3Export.sectionFlowCount b
                                               <= V3Export.sectionFlowCount a)).
    apply StronglySorted_take.
    clear -Hsorted. induction Hsorted as [|x l Hl IH Hx]; constructor; [done|].
    eapply Forall_impl; [exact Hx|]. intros [? ?]. by destruct x.
  - apply Forall_forall. intros s Hs.
    apply list_elem_of_fmap in Hs as ([k g] & -> & Hg).
    apply elem_of_take in Hg as (i & Hg & _). apply list_elem_of_lookup_2 in Hg.
    rewrite Hperm in Hg. apply groupBy_elem_of in Hg as [Hk ->]. simpl.
    split; [done|]. split; [done|]. split; [done|].
    destruct (10 <? _) eqn:E.
    + apply Nat.ltb_lt in E. by rewrite decide_True.
    + apply Nat.ltb_ge in E. rewrite decide_False; [done|lia].
  - intros s m Hs Hm Hnot.
    apply list_elem_of_fmap in Hs as ([k g] & -> & Hg). simpl.
    rewrite Hfst in Hnot.
    assert ((m, withKey V3.from m (V3.dataFlows st)) ∈ sorted) as Hin.
    { rewrite Hperm. unfold groups. rewrite groupBy_tabulate. unfold tabulate.
      apply list_elem_of_fmap. exists m. split; [done|]. by apply setOf_elem_of. }
    rewrite <- (take_drop limit sorted) in Hin. apply elem_of_app in Hin as [Hin|Hin].
    + exfalso. apply Hnot. apply list_elem_of_fmap.
      by exists (m, withKey V3.from m (V3.dataFlows st)).
    + apply (sorted_take_drop count sorted limit (k, g)
               (m, withKey V3.from m (V3.dataFlows st)) Hsorted Hg Hin).
Qed.

Lemma detailed_data_flow_shows_the_top_witness :
  exists sections,
    V3Export.printDetailedDataFlow 5 Inputs.dialogAnalyzed = Some sections /\
    length sections = 1.
Proof.
  destruct (V3Export.printDetailedDataFlow 5 Inputs.dialogAnalyzed)
    as [sections|] eqn:E; [|vm_compute in E; discriminate].
  exists sections. split; [reflexivity|].
  rewrite (proj1 (proj2 (detailed_data_flow_shows_the_top _ _) sections E)).
  vm_compute. reflexivity.
Defined.
